(** * Text Expansion Manager: snapshot paging, chunked cache and
      duplicate-safe row mutations

    A shallow embedding of the Apps Script backend ([src/Code.gs],
    [src/uiHandlers.gs], [src/favorites.gs]) and the properties of its
    paging layer, chunker, upsert/delete path and favorites update.

    Conventions of the embedding.
    - A JavaScript string is a [string]: a sequence of code units, one
      [ascii] each (code units 0..255).
    - A JavaScript number is an integer [Z] or [NaN]; array indices, row
      numbers and lengths, which are never negative, are [nat].
    - A sheet is the list of its rows 1..getLastRow(), each row the list of
      its cells; a cell is the string that [String(v || '')] reads from it,
      and a cell beyond the stored ones reads as the empty string.
    - Services of the platform that the scripts only call (JSON, gzip and
      base64, number parsing, error printing) are the fields of the class
      [Platform]. The spreadsheet, the script cache and the script
      properties are fields of [World]; what a run only reads (the session,
      the clock, the next UUID, whether a lock is busy, whether the cache
      rejects a write) is its [Env]. A run also logs what it does to the
      locks and to the rows, so that the order of these steps can be stated.
    - Console output is not modelled. *)

From Stdlib Require Import ZArith Lia String Ascii List.
From stdpp Require Import base gmap strings list pretty sorting.

Set Default Proof Using "Type".

(** ** JavaScript primitives *)

Module Js.

Definition chars (s : string) : list ascii := list_ascii_of_string s.
Definition str (l : list ascii) : string := string_of_list_ascii l.

(** [s.length] *)
Definition strlen (s : string) : nat := length (chars s).

(** Truthiness of a string: [''] is the only falsy one. *)
Definition truthy_str (s : string) : bool :=
  match s with EmptyString => false | String _ _ => true end.

(** Relative index of [Array.prototype.slice] and
    [String.prototype.slice]: negative counts from the end. *)
Definition rel_index (len k : Z) : Z :=
  if (k <? 0)%Z then Z.max (len + k) 0 else Z.min k len.

Definition slice {A : Type} (l : list A) (first last : Z) : list A :=
  let len := Z.of_nat (length l) in
  let from := rel_index len first in
  let to := rel_index len last in
  take (Z.to_nat (to - from)) (drop (Z.to_nat from) l).

Definition str_slice (s : string) (first last : Z) : string :=
  str (slice (chars s) first last).

(** [String.prototype.substring]: both ends clamped to [0, length], and
    swapped when out of order. *)
Definition clamp (len k : Z) : Z := Z.min (Z.max k 0) len.

Definition substring_list {A : Type} (l : list A) (a b : Z) : list A :=
  let len := Z.of_nat (length l) in
  let a' := clamp len a in
  let b' := clamp len b in
  take (Z.to_nat (Z.max a' b' - Z.min a' b'))
       (drop (Z.to_nat (Z.min a' b')) l).

Definition substring (s : string) (a b : Z) : string :=
  str (substring_list (chars s) a b).

(** White space of [String.prototype.trim] among the code units 0..255:
    TAB, LF, VT, FF, CR, SPACE and NBSP. *)
Definition is_white (c : ascii) : bool :=
  match nat_of_ascii c with
  | 9 | 10 | 11 | 12 | 13 | 32 | 160 => true
  | _ => false
  end.

Fixpoint drop_white (l : list ascii) : list ascii :=
  match l with
  | [] => []
  | c :: l' => if is_white c then drop_white l' else l
  end.

Definition trim_list (l : list ascii) : list ascii :=
  rev (drop_white (rev (drop_white l))).

Definition trim (s : string) : string := str (trim_list (chars s)).

(** [String.prototype.toLowerCase] on the code units 0..255: A-Z and the
    Latin-1 capitals (all of 192..222 but the multiplication sign). *)
Definition lower_char (c : ascii) : ascii :=
  let n := nat_of_ascii c in
  if ((65 <=? n) && (n <=? 90))
     || ((192 <=? n) && (n <=? 222) && negb (n =? 215))
  then ascii_of_nat (n + 32) else c.

Definition toLowerCase (s : string) : string :=
  str (map lower_char (chars s)).

(** [String(x || '')] for a property that holds a string or is missing. *)
Definition str_or_empty (o : option string) : string := default EmptyString o.

(** [String(x)] for the same. *)
Definition to_String (o : option string) : string := default "undefined" o.

(** Numbers: integers and NaN. *)
Inductive jsnum : Type := NaN | Num (z : Z).

Definition num_add (a b : jsnum) : jsnum :=
  match a, b with
  | Num x, Num y => Num (x + y)
  | _, _ => NaN
  end.

(** [n || d] for a number [n]: 0 and NaN are falsy. *)
Definition num_or (n : jsnum) (d : Z) : Z :=
  match n with
  | Num z => if (z =? 0)%Z then d else z
  | NaN => d
  end.

(** Values, as arguments of the public functions and as parsed JSON. *)
#[local] Set Warnings "-register-all".
Inductive value : Type :=
| VUndefined
| VNull
| VBool (b : bool)
| VNum (n : jsnum)
| VStr (s : string)
| VArr (items : list value)
| VObj (fields : list (string * value)).

Definition truthy (v : value) : bool :=
  match v with
  | VUndefined | VNull => false
  | VBool b => b
  | VNum NaN => false
  | VNum (Num z) => negb (z =? 0)%Z
  | VStr s => truthy_str s
  | VArr _ | VObj _ => true
  end.

(** Property read [v.name]; only objects carry the properties read here. *)
Fixpoint assoc (name : string) (fields : list (string * value)) : value :=
  match fields with
  | [] => VUndefined
  | (k, v) :: rest => if String.eqb k name then v else assoc name rest
  end.

Definition prop (v : value) (name : string) : value :=
  match v with
  | VObj fields => assoc name fields
  | _ => VUndefined
  end.

(** [v === 'literal'] *)
Definition is_str (v : value) (lit : string) : bool :=
  match v with
  | VStr s => String.eqb s lit
  | _ => false
  end.

(** [Array.isArray(v)] together with the array itself. *)
Definition as_array (v : value) : option (list value) :=
  match v with
  | VArr items => Some items
  | _ => None
  end.

End Js.

Export Js.

(** ** Platform services and the world the scripts run in *)

(** What the scripts call and do not define. [None] stands for a thrown
    error. *)
Class Platform : Type := {
  (** [Number(s)] for a string [s]. *)
  stringToNumber : string -> jsnum;
  (** [Number(v)] for an array or an object [v]. *)
  objectToNumber : value -> jsnum;
  (** [JSON.stringify] *)
  jsonStringify : value -> string;
  (** [JSON.parse]; [None] is a SyntaxError. *)
  jsonParse : string -> option value;
  (** [Utilities.base64Encode(Utilities.gzip(blob).getBytes())] *)
  gzipBase64 : string -> option string;
  (** [Utilities.ungzip(Utilities.base64Decode(b64))] read as a string. *)
  ungzipBase64 : string -> option string;
  (** What [String(err.stack)], or [String(err)], prints for an error
      carrying the given message. *)
  errorText : string -> string
}.

Inductive LockKind : Type := DocumentLock | ScriptLock.

(** What a run does to the locks and the sheets, oldest first. *)
Inductive Event : Type :=
| EvLock (k : LockKind)
| EvUnlock (k : LockKind)
| EvInsertSheet (name : string)
| EvSetHeader (name : string) (headers : list string)
| EvDeleteRow (name : string) (r : nat)
| EvAppendRow (name : string) (row : list string).

(** What a run reads from its surroundings and cannot change. *)
Record Env : Type := mkEnv {
  (** [Session]: the e-mail address [getUserEmail_] finds, [''] if none. *)
  sessionEmail : string;
  (** [new Date().toISOString()] *)
  clockIso : string;
  (** [Utilities.getUuid()] *)
  freshUuid : string;
  (** Whether another holder keeps the lock for longer than the wait. *)
  documentLockBusy : bool;
  scriptLockBusy : bool;
  (** Whether [cache.putAll] throws. *)
  cachePutFails : bool
}.

Record World : Type := mkWorld {
  (** [SpreadsheetApp.getActiveSpreadsheet()]: sheets by name. *)
  sheets : gmap string (list (list string));
  (** [CacheService.getScriptCache()]; an expired or evicted key is absent. *)
  cache : gmap string string;
  (** [PropertiesService.getScriptProperties()] *)
  props : gmap string string;
  events : list Event;
  env : Env
}.

Definition set_sheets (f : gmap string (list (list string)) -> gmap string (list (list string)))
    (w : World) : World :=
  mkWorld (f (sheets w)) (cache w) (props w) (events w) (env w).

Definition set_cache (f : gmap string string -> gmap string string) (w : World) : World :=
  mkWorld (sheets w) (f (cache w)) (props w) (events w) (env w).

Definition set_props (f : gmap string string -> gmap string string) (w : World) : World :=
  mkWorld (sheets w) (cache w) (f (props w)) (events w) (env w).

Definition log_event (e : Event) (w : World) : World :=
  mkWorld (sheets w) (cache w) (props w) (events w ++ [e]) (env w).

(** *** The monad of a script run: a result or a thrown error, and the
    world after it. *)

Inductive outcome (A : Type) : Type :=
| Ret (a : A)
| Throw (msg : string).

Arguments Ret {A} a.
Arguments Throw {A} msg.

Definition M (A : Type) : Type := World -> outcome A * World.

Definition ret {A : Type} (a : A) : M A := fun w => (Ret a, w).

Definition throw {A : Type} (msg : string) : M A := fun w => (Throw msg, w).

Definition bind {A B : Type} (m : M A) (k : A -> M B) : M B :=
  fun w =>
    match m w with
    | (Ret a, w') => k a w'
    | (Throw msg, w') => (Throw msg, w')
    end.

(** [try { body } catch (err) { handler }] *)
Definition try_catch {A : Type} (body : M A) (handler : string -> M A) : M A :=
  fun w =>
    match body w with
    | (Ret a, w') => (Ret a, w')
    | (Throw msg, w') => handler msg w'
    end.

(** [try { body } finally { fin }] *)
Definition try_finally {A : Type} (body : M A) (fin : M unit) : M A :=
  fun w =>
    match body w with
    | (r, w') =>
        match fin w' with
        | (Ret _, w'') => (r, w'')
        | (Throw msg, w'') => (Throw msg, w'')
        end
    end.

Definition gets {A : Type} (f : World -> A) : M A := fun w => (Ret (f w), w).

Definition modify (f : World -> World) : M unit := fun w => (Ret tt, f w).

(** [for (...) body(x)] over the elements of a list, in order. *)
Fixpoint for_each {A : Type} (l : list A) (body : A -> M unit) : M unit :=
  match l with
  | [] => ret tt
  | x :: rest => bind (body x) (fun _ => for_each rest body)
  end.

Declare Scope script_scope.
Delimit Scope script_scope with script.
Notation "x <- m ;; k" := (bind m (fun x => k))
  (at level 20, m at level 99, k at level 200, only parsing) : script_scope.
Notation "m ;;; k" := (bind m (fun _ => k))
  (at level 20, k at level 200, only parsing) : script_scope.
Open Scope script_scope.

(** ** Code.gs: configuration *)

Module CFG.
Definition SHEET_SHORTCUTS : string := "Shortcuts".
Definition SHEET_FAVORITES : string := "Favorites".
Definition CACHE_TTL_SECONDS : Z := 60 * 10.
Definition CACHE_KEY_PREFIX : string := "TEM_SHORTCUTS".
Definition CACHE_VER_KEY : string := "TEM_SHORTCUTS_VER".
Definition MAX_KEY_LEN : nat := 80.
Definition MAX_FIELD_LEN : Z := 50000.
Definition MAX_TAGS_LEN : Z := 512.
Definition MAX_LANGUAGE_LEN : Z := 64.
Definition MAX_APP_LEN : Z := 128.
Definition MAX_DESC_LEN : Z := 2000.
Definition INITIAL_PAGE_SIZE : Z := 200.
Definition SNAPSHOT_TTL_SECONDS : Z := 60 * 5.
End CFG.

Definition HEADERS_SHORTCUTS : list string :=
  ["ID"; "Snippet Name"; "Content"; "Application"; "Description";
   "Language"; "Tags"; "UpdatedAt"].

Definition HEADERS_FAVORITES : list string :=
  ["UserEmail"; "Snippet Name"; "CreatedAt"].

(** ** Code.gs: the chunker *)

(** The loop of [chunkString_]: [for (i = 0; i < str.length; i += chunkSize)
    out.push(str.substring(i, i + chunkSize))]. One unit of fuel per
    iteration; [None] when the fuel runs out. *)
Fixpoint chunk_loop (fuel : nat) (s : string) (chunkSize i : Z)
    (out : list string) : option (list string) :=
  if (i <? Z.of_nat (strlen s))%Z then
    match fuel with
    | O => None
    | S fuel' =>
        chunk_loop fuel' s chunkSize (i + chunkSize)
                   (out ++ [substring s i (i + chunkSize)])
    end
  else Some out.

(** [chunkString_(str, chunkSize)]. The loop advances by [chunkSize], so
    [str.length] iterations are enough whenever it terminates; it does not
    terminate on a non-empty string with [chunkSize <= 0], which is [None]
    here. *)
Definition chunkString_ (s : string) (chunkSize : Z) : option (list string) :=
  chunk_loop (strlen s) s chunkSize 0 [].

(** [combined += part] over a list of parts, as [readChunksByKey_] joins. *)
Definition join_chunks (chunks : list string) : string :=
  foldl String.append EmptyString chunks.

(** ** Code.gs: the script cache *)

Definition cache_get (key : string) : M (option string) :=
  gets (fun w => cache w !! key).

(** [cache.getAll(keys)]: the entries present among [keys]. *)
Definition cache_getAll (keys : list string) : M (gmap string string) :=
  gets (fun w => filter (fun kv => kv.1 ∈ keys) (cache w)).

(** [cache.putAll(payload, ttl)]; the time to live is not part of the
    state: a key that expired is a key that is absent. *)
Definition cache_putAll (payload : list (string * string)) (ttl : Z) : M unit :=
  fun w =>
    if cachePutFails (env w) then (Throw "CacheService: putAll failed", w)
    else (Ret tt, set_cache (fun c => list_to_map payload ∪ c) w).

Definition cache_remove (key : string) : M unit :=
  modify (set_cache (delete key)).

Definition meta_key (prefix : string) : string := prefix +:+ "_META".

Definition chunk_key (prefix : string) (i : nat) : string :=
  prefix +:+ "_" +:+ pretty i.

(** The numbered entries of [payload] in [writeCacheByKey_]:
    [payload[`${prefix}_${i + 1}`] = chunks[i]]. *)
Definition chunk_payload (prefix : string) (chunks : list string) : list (string * string) :=
  imap (fun i chunk => (chunk_key prefix (i + 1), chunk)) chunks.

Section Codec.
Context `{Platform}.

(** [Number(v)] *)
Definition toNumber (v : value) : jsnum :=
  match v with
  | VUndefined => NaN
  | VNull => Num 0
  | VBool b => Num (if b then 1 else 0)
  | VNum n => n
  | VStr s => stringToNumber s
  | VArr _ | VObj _ => objectToNumber v
  end.

(** [String(n)] *)
Definition numToString (n : jsnum) : string :=
  match n with
  | NaN => "NaN"
  | Num z => pretty z
  end.

Definition safeJsonParse_ (s : string) : value :=
  match jsonParse s with
  | Some v => v
  | None => VNull
  end.

Definition stringifyError_ (err : string) : string := errorText err.

Definition encodeGzB64_ (s : string) : M string :=
  match gzipBase64 s with
  | Some b64 => ret b64
  | None => throw "Compression failed"
  end.

Definition decodeGzB64_ (b64 : string) : M string :=
  match ungzipBase64 b64 with
  | Some s => ret s
  | None => throw "Decompression failed"
  end.

(** The second loop of [readChunksByKey_], from chunk [i] on, [n] chunks to
    go: a part that is missing (or empty) makes the whole read [null]. *)
Fixpoint read_chunks_loop (chunks : gmap string string) (prefix : string)
    (i n : nat) (combined : string) : option string :=
  match n with
  | O => Some combined
  | S n' =>
      match chunks !! chunk_key prefix i with
      | Some part =>
          if truthy_str part
          then read_chunks_loop chunks prefix (S i) n' (combined +:+ part)
          else None
      | None => None
      end
  end.

(** The number of iterations of [for (i = 1; i <= count; i++)]. *)
Definition loop_count (count : value) : nat :=
  match toNumber count with
  | Num z => Z.to_nat z
  | NaN => O
  end.

Definition readChunksByKey_ (prefix : string) (count : value) : M (option string) :=
  let keys := map (fun i => chunk_key prefix (S i)) (seq 0 (loop_count count)) in
  chunks <- cache_getAll keys ;;
  ret (read_chunks_loop chunks prefix 1 (loop_count count) EmptyString).

Definition readCacheByKey_ (prefix : string) : M (option (list value)) :=
  metaRaw <- cache_get (meta_key prefix) ;;
  match metaRaw with
  | Some raw =>
      if truthy_str raw then
        let meta := safeJsonParse_ raw in
        if truthy meta && truthy (prop meta "chunkCount")
           && is_str (prop meta "encoding") "gz-b64"
        then
          combined <- readChunksByKey_ prefix (prop meta "chunkCount") ;;
          match combined with
          | Some b64 =>
              if truthy_str b64 then
                json <- decodeGzB64_ b64 ;;
                ret (as_array (safeJsonParse_ json))
              else ret None
          | None => ret None
          end
        else ret None
      else ret None
  | None => ret None
  end.

Definition writeCacheByKey_ (prefix : string) (list : list value) (ttl : Z) : M bool :=
  let json := jsonStringify (VArr list) in
  encoded <- encodeGzB64_ json ;;
  let chunks := default [] (chunkString_ encoded 90000) in
  now <- gets (fun w => clockIso (env w)) ;;
  let meta := VObj [("chunkCount", VNum (Num (Z.of_nat (length chunks))));
                    ("encoding", VStr "gz-b64");
                    ("updatedAt", VStr now)] in
  try_catch
    (let payload :=
       (meta_key prefix, jsonStringify meta) :: chunk_payload prefix chunks in
     cache_putAll payload ttl ;;;
     ret true)
    (fun err => ret false).

Definition readSnapshotCache_ (token : string) : M (option (list value)) :=
  readCacheByKey_ ("SNAP_" +:+ token).

Definition writeSnapshotCache_ (token : string) (list : list value) : M unit :=
  writeCacheByKey_ ("SNAP_" +:+ token) list CFG.SNAPSHOT_TTL_SECONDS ;;;
  ret tt.

End Codec.

(** ** Code.gs: the snapshot page reader *)

Record Page : Type := mkPage {
  items : list value;
  offset : Z;
  total : Z;
  hasMore : bool;
  snapshotToken : string
}.

Inductive PageResult : Type :=
| PageError (error : string)
| PageOk (page : Page).

Section Paging.
Context `{Platform}.

Definition fetchSnapshotPage_ (token : string) (offset limit : value) : M PageResult :=
  allData <- readSnapshotCache_ token ;;
  match allData with
  | None => ret (PageError "SNAPSHOT_EXPIRED")
  | Some allData =>
      let start := num_or (toNumber offset) 0 in
      let count := num_or (toNumber limit) CFG.INITIAL_PAGE_SIZE in
      let slice := slice allData start (start + count) in
      let hasMore := (start + count <? Z.of_nat (length allData))%Z in
      ret (PageOk (mkPage slice (start + Z.of_nat (length slice))
                          (Z.of_nat (length allData)) hasMore token))
  end.

(** The walk of a snapshot, as the loop of [testPageSizePerformance] does
    it: [while (hasMore) { page = fetchSnapshotPage_(token, offset,
    pageSize); if (page.error) throw ...; offset = page.offset; hasMore =
    page.hasMore; }], collecting the items of every page. One unit of fuel
    per page; [None] when the fuel runs out. *)
Fixpoint walk_loop (fuel : nat) (token : string) (pageSize : Z) (from : Z)
    (acc : list value) : M (option (list value)) :=
  match fuel with
  | O => ret None
  | S fuel' =>
      pageResult <- fetchSnapshotPage_ token (VNum (Num from)) (VNum (Num pageSize)) ;;
      match pageResult with
      | PageError e => throw ("Snapshot fetch failed: " +:+ e)
      | PageOk p =>
          if hasMore p
          then walk_loop fuel' token pageSize (offset p) (acc ++ items p)
          else ret (Some (acc ++ items p))
      end
  end.

Definition walkSnapshot (fuel : nat) (token : string) (pageSize : Z) : M (option (list value)) :=
  walk_loop fuel token pageSize 0 [].

End Paging.

(** ** The spreadsheet and the locks *)

Abbreviation Sheet := (list (list string)).

Definition lock_busy (k : LockKind) (w : World) : bool :=
  match k with
  | DocumentLock => documentLockBusy (env w)
  | ScriptLock => scriptLockBusy (env w)
  end.

(** [lock.waitLock(ms)] throws when the lock is not obtained in time. *)
Definition waitLock (k : LockKind) (ms : Z) : M unit :=
  fun w =>
    if lock_busy k w then (Throw "Lock timeout", w)
    else (Ret tt, log_event (EvLock k) w).

Definition tryLock (k : LockKind) (ms : Z) : M bool :=
  fun w =>
    if lock_busy k w then (Ret false, w)
    else (Ret true, log_event (EvLock k) w).

Definition releaseLock (k : LockKind) : M unit :=
  modify (log_event (EvUnlock k)).

Definition getSheetByName (name : string) : M (option Sheet) :=
  gets (fun w => sheets w !! name).

Definition insertSheet (name : string) : M unit :=
  modify (fun w => log_event (EvInsertSheet name) (set_sheets <[name := []]> w)).

(** The rows of a sheet whose handle the script holds. *)
Definition sheet_grid (name : string) : M Sheet :=
  fun w =>
    match sheets w !! name with
    | Some g => (Ret g, w)
    | None => (Throw ("No sheet: " +:+ name), w)
    end.

Definition getLastRow (name : string) : M nat :=
  g <- sheet_grid name ;; ret (length g).

Definition last_column (g : Sheet) : nat :=
  foldr (fun row m => Nat.max (length row) m) 0 g.

Definition getLastColumn (name : string) : M nat :=
  g <- sheet_grid name ;; ret (last_column g).

Definition pad_row (n : nat) (row : list string) : list string :=
  take n (row ++ replicate n EmptyString).

(** [sheet.getRange(1, 1, 1, numColumns).getValues()[0]] *)
Definition getRow1 (name : string) (numColumns : nat) : M (list string) :=
  g <- sheet_grid name ;;
  if numColumns =? 0
  then throw "The number of columns in the range must be at least 1."
  else ret (pad_row numColumns (default [] (head g))).

Definition write_row1 (headers : list string) (g : Sheet) : Sheet :=
  match g with
  | [] => [headers]
  | row :: rest => (headers ++ drop (length headers) row) :: rest
  end.

(** [sheet.getRange(1, 1, 1, headers.length).setValues([headers])] *)
Definition setRow1 (name : string) (headers : list string) : M unit :=
  g <- sheet_grid name ;;
  modify (fun w => log_event (EvSetHeader name headers)
                     (set_sheets <[name := write_row1 headers g]> w)).

(** [sheet.getDataRange().getValues()]; the data range of an empty sheet is
    the single empty cell A1. *)
Definition getDataRangeValues (name : string) : M Sheet :=
  g <- sheet_grid name ;;
  ret (match g with [] => [[EmptyString]] | _ :: _ => g end).

(** [sheet.deleteRow(r)], rows numbered from 1; a row below the last one
    holds nothing. *)
Definition deleteRow (name : string) (r : nat) : M unit :=
  g <- sheet_grid name ;;
  if r =? 0 then throw "Those rows are out of bounds."
  else modify (fun w => log_event (EvDeleteRow name r)
                          (set_sheets <[name := delete (r - 1) g]> w)).

Definition appendRow (name : string) (row : list string) : M unit :=
  g <- sheet_grid name ;;
  modify (fun w => log_event (EvAppendRow name row)
                     (set_sheets <[name := g ++ [row]]> w)).

(** [row[c]] read as [String(row[c] || '')], for a column index that may be
    [undefined]. *)
Definition cell (row : list string) (c : option nat) : string :=
  match c with
  | Some i => default EmptyString (row !! i)
  | None => EmptyString
  end.

(** [row[c] = v]; JavaScript extends the array when [c] is beyond its end,
    and an [undefined] index touches no element. *)
Definition array_set (c : option nat) (v : string) (row : list string) : list string :=
  match c with
  | Some i =>
      if i <? length row then <[i := v]> row
      else row ++ replicate (i - length row) EmptyString ++ [v]
  | None => row
  end.

(** [matchingRows.sort((a, b) => b - a)] *)
Definition sort_desc (l : list nat) : list nat := merge_sort (flip Nat.le) l.

(** ** Code.gs: sheet set-up and utilities *)

Definition indexHeader_step (idx : gmap string nat) (entry : nat * string) : gmap string nat :=
  let h := trim entry.2 in
  if truthy_str h then <[toLowerCase h := entry.1]> (<[h := entry.1]> idx) else idx.

Definition indexHeader_ (headerRow : list string) : gmap string nat :=
  foldl indexHeader_step ∅ (imap pair headerRow).

Definition ensureHeaderRow_ (sheet : string) (headers : list string) : M unit :=
  lastColumn <- getLastColumn sheet ;;
  let lastCol := Nat.max lastColumn (length headers) in
  row1 <- getRow1 sheet lastCol ;;
  let existing := map trim row1 in
  let needs := existsb (fun ih => bool_decide (existing !! ih.1 ≠ Some ih.2))
                       (imap pair headers) in
  lastRow <- getLastRow sheet ;;
  if (lastRow =? 0) || needs then setRow1 sheet headers else ret tt.

(** [setFrozenRows] and the font weight of the header are display settings
    and not part of the state. *)
Definition ensureSheets_ : M unit :=
  shortcuts <- getSheetByName CFG.SHEET_SHORTCUTS ;;
  (if shortcuts is None then insertSheet CFG.SHEET_SHORTCUTS else ret tt) ;;;
  favorites <- getSheetByName CFG.SHEET_FAVORITES ;;
  (if favorites is None then insertSheet CFG.SHEET_FAVORITES else ret tt) ;;;
  ensureHeaderRow_ CFG.SHEET_SHORTCUTS HEADERS_SHORTCUTS ;;;
  ensureHeaderRow_ CFG.SHEET_FAVORITES HEADERS_FAVORITES.

(** Returns the handle of the sheet, which is its name. *)
Definition getSheet_ (name : string) : M string :=
  sheet <- getSheetByName name ;;
  if sheet is None then throw ("Missing sheet: " +:+ name) else ret name.

Definition getColumnValues_ (sheet : string) (colIndexZeroBased : option nat) : M (list string) :=
  lastRow <- getLastRow sheet ;;
  if lastRow <=? 1 then ret []
  else
    g <- sheet_grid sheet ;;
    ret (map (fun r => trim (cell r colIndexZeroBased)) (drop 1 g)).

(** The loop of [findAllRowsByKey_] from index [i] on. *)
Fixpoint find_rows_from (i : nat) (keysArray : list string) (targetKey : string) : list nat :=
  match keysArray with
  | [] => []
  | k :: rest =>
      if String.eqb (trim k) targetKey
      then (i + 2) :: find_rows_from (S i) rest targetKey
      else find_rows_from (S i) rest targetKey
  end.

Definition findAllRowsByKey_ (keysArray : list string) (key : string) : list nat :=
  find_rows_from 0 keysArray (trim key).

(** The column map of the Shortcuts sheet; an index is [None] where the
    source holds [undefined]. *)
Record ShortcutCols : Type := mkShortcutCols {
  col_id : option nat;
  col_key : option nat;
  col_expansion : option nat;
  col_application : option nat;
  col_description : option nat;
  col_language : option nat;
  col_tags : option nat;
  col_updatedAt : option nat
}.

Definition shortcut_cols (idx : gmap string nat) : ShortcutCols :=
  mkShortcutCols (idx !! "ID") (idx !! "Snippet Name") (idx !! "Content")
                 (idx !! "Application") (idx !! "Description")
                 (idx !! "Language") (idx !! "Tags") (idx !! "UpdatedAt").

Definition join_with (sep : string) (l : list string) : string :=
  String.concat sep l.

Definition getShortcutsHeaderAndColMap_ (sheet : string) : M (list string * ShortcutCols) :=
  lastColumn <- getLastColumn sheet ;;
  header <- getRow1 sheet lastColumn ;;
  let idx := indexHeader_ header in
  let missing := filter (fun h => idx !! h = None) HEADERS_SHORTCUTS in
  if 0 <? length missing
  then throw ("Shortcuts sheet missing headers: " +:+ join_with ", " missing)
  else ret (header, shortcut_cols idx).

(** The loop of [getShortcutsFromSheet_] over [data[i]], [data[i+1]], ... *)
Fixpoint shortcuts_from (i : nat) (rows : Sheet) (idx : gmap string nat) : list value :=
  match rows with
  | [] => []
  | r :: rest =>
      let key := trim (cell r (idx !! "Snippet Name")) in
      if negb (truthy_str key) then shortcuts_from (S i) rest idx
      else
        let id :=
          match idx !! "ID" with
          | Some c => if truthy_str (cell r (Some c)) then cell r (Some c)
                      else "ROW-" +:+ pretty (i + 1)
          | None => "ROW-" +:+ pretty (i + 1)
          end in
        VObj [("id", VStr id);
              ("key", VStr key);
              ("expansion", VStr (cell r (idx !! "Content")));
              ("application", VStr (cell r (idx !! "Application")));
              ("description", VStr (cell r (idx !! "Description")));
              ("language", VStr (cell r (idx !! "Language")));
              ("tags", VStr (cell r (idx !! "Tags")));
              ("updatedAt", VStr (cell r (idx !! "UpdatedAt")))]
          :: shortcuts_from (S i) rest idx
  end.

Definition getShortcutsFromSheet_ : M (list value) :=
  sheet <- getSheet_ CFG.SHEET_SHORTCUTS ;;
  data <- getDataRangeValues sheet ;;
  match data with
  | header :: ((_ :: _) as rows) => ret (shortcuts_from 1 rows (indexHeader_ header))
  | _ => ret []
  end.

Definition getUserEmail_ : M string := gets (fun w => sessionEmail (env w)).

(** ** Code.gs: validation *)

Record Payload : Type := mkPayload {
  p_key : option string;
  p_expansion : option string;
  p_application : option string;
  p_description : option string;
  p_language : option string;
  p_tags : option string
}.

Record Reply : Type := mkReply {
  ok : bool;
  action : option string;
  message : option string
}.

Definition failure (msg : string) : Reply := mkReply false None (Some msg).

Definition validateShortcutPayload_ (payload : option Payload) : Reply :=
  match payload with
  | None => failure "Missing payload."
  | Some p =>
      let key := trim (str_or_empty (p_key p)) in
      let expansion := trim (str_or_empty (p_expansion p)) in
      if negb (truthy_str key) then failure "Snippet Name is required."
      else if CFG.MAX_KEY_LEN <? strlen key then failure "Snippet Name too long."
      else if negb (truthy_str expansion) then failure "Content is required."
      else mkReply true None None
  end.

Section Scripts.
Context `{Platform}.

(** ** Code.gs: cache version and invalidation *)

Definition bumpCacheVersion_ : M unit :=
  stored <- gets (fun w => props w !! CFG.CACHE_VER_KEY) ;;
  let text := match stored with
              | Some s => if truthy_str s then s else "1"
              | None => "1"
              end in
  let v := stringToNumber text in
  modify (set_props <[CFG.CACHE_VER_KEY := numToString (num_add v (Num 1))]>).

Definition invalidateShortcutsCache_ : M unit :=
  cache_remove (CFG.CACHE_KEY_PREFIX +:+ "_META") ;;;
  bumpCacheVersion_.

(** ** Code.gs: snapshot creation *)

Record SnapshotMeta : Type := mkSnapshotMeta {
  meta_snapshotToken : string;
  meta_total : nat;
  meta_builtAt : string;
  meta_pageSize : Z
}.

Definition beginShortcutsSnapshot : M SnapshotMeta :=
  locked <- tryLock ScriptLock 5000 ;;
  if locked : bool then
    try_finally
      (allShortcuts <- getShortcutsFromSheet_ ;;
       token <- gets (fun w => freshUuid (env w)) ;;
       now <- gets (fun w => clockIso (env w)) ;;
       let meta := mkSnapshotMeta token (length allShortcuts) now CFG.INITIAL_PAGE_SIZE in
       writeSnapshotCache_ token allShortcuts ;;;
       ret meta)
      (releaseLock ScriptLock)
  else throw "Server busy. Please try again.".

(** ** uiHandlers.gs: create, update and delete *)

Definition upsertShortcut (payload : option Payload) : M Reply :=
  ensureSheets_ ;;;
  waitLock DocumentLock 30000 ;;;
  try_finally
    (try_catch
       (let v := validateShortcutPayload_ payload in
        if negb (ok v) then ret v
        else
          match payload with
          | None => throw "TypeError: Cannot read properties of null"
          | Some p =>
              sheet <- getSheet_ CFG.SHEET_SHORTCUTS ;;
              hc <- getShortcutsHeaderAndColMap_ sheet ;;
              let header := hc.1 in
              let col := hc.2 in
              let width := length header in
              nowIso <- gets (fun w => clockIso (env w)) ;;
              let key := trim (to_String (p_key p)) in
              allKeys <- getColumnValues_ sheet (col_key col) ;;
              let matchingRows := findAllRowsByKey_ allKeys key in
              let hadExisting := 0 <? length matchingRows in
              let row := replicate width EmptyString in
              let row := array_set (col_key col) key row in
              let row := array_set (col_expansion col)
                           (str_slice (str_or_empty (p_expansion p)) 0 CFG.MAX_FIELD_LEN) row in
              let row := array_set (col_application col)
                           (str_slice (str_or_empty (p_application p)) 0 CFG.MAX_APP_LEN) row in
              let row := array_set (col_description col)
                           (str_slice (str_or_empty (p_description p)) 0 CFG.MAX_DESC_LEN) row in
              let row := array_set (col_language col)
                           (str_slice (str_or_empty (p_language p)) 0 CFG.MAX_LANGUAGE_LEN) row in
              let row := array_set (col_tags col)
                           (str_slice (str_or_empty (p_tags p)) 0 CFG.MAX_TAGS_LEN) row in
              let row := array_set (col_updatedAt col) nowIso row in
              (if 0 <? length matchingRows
               then for_each (sort_desc matchingRows) (deleteRow sheet)
               else ret tt) ;;;
              appendRow sheet row ;;;
              bumpCacheVersion_ ;;;
              invalidateShortcutsCache_ ;;;
              ret (mkReply true
                     (Some (if hadExisting then "updated" else "created"))
                     (Some (if hadExisting then "Updated shortcut: " +:+ key
                            else "Created shortcut: " +:+ key)))
          end)
       (fun err => ret (failure ("Upsert failed: " +:+ stringifyError_ err))))
    (releaseLock DocumentLock).

(** ** favorites.gs *)

Record FavoriteCols : Type := mkFavoriteCols {
  fav_userEmail : option nat;
  fav_key : option nat;
  fav_createdAt : option nat
}.

Definition getFavoritesColumnMap_ (header : list string) : FavoriteCols :=
  let idx := indexHeader_ header in
  mkFavoriteCols (idx !! "UserEmail") (idx !! "Snippet Name") (idx !! "CreatedAt").

(** The loop of [removeFavoriteForAllUsers_] over [data[i]], ...: the row
    numbers [i + 1] whose key matches. *)
Fixpoint favorite_rows_of_key (i : nat) (rows : Sheet) (col : FavoriteCols) (k : string) : list nat :=
  match rows with
  | [] => []
  | r :: rest =>
      if String.eqb (trim (cell r (fav_key col))) k
      then (i + 1) :: favorite_rows_of_key (S i) rest col k
      else favorite_rows_of_key (S i) rest col k
  end.

Definition removeFavoriteForAllUsers_ (key : string) : M unit :=
  let k := trim key in
  if negb (truthy_str k) then ret tt
  else
    sheet <- getSheet_ CFG.SHEET_FAVORITES ;;
    data <- getDataRangeValues sheet ;;
    match data with
    | header :: ((_ :: _) as rows) =>
        let col := getFavoritesColumnMap_ header in
        let rowsToDelete := favorite_rows_of_key 1 rows col k in
        for_each (rev rowsToDelete) (deleteRow sheet)
    | _ => ret tt
    end.

Definition deleteShortcut (key : string) : M Reply :=
  ensureSheets_ ;;;
  waitLock DocumentLock 30000 ;;;
  try_finally
    (try_catch
       (let k := trim key in
        if negb (truthy_str k) then ret (failure "Missing shortcut key.")
        else
          sheet <- getSheet_ CFG.SHEET_SHORTCUTS ;;
          hc <- getShortcutsHeaderAndColMap_ sheet ;;
          let col := hc.2 in
          allKeys <- getColumnValues_ sheet (col_key col) ;;
          let matchingRows := findAllRowsByKey_ allKeys k in
          if length matchingRows =? 0
          then ret (failure ("Shortcut not found: " +:+ k))
          else
            for_each (sort_desc matchingRows) (deleteRow sheet) ;;;
            removeFavoriteForAllUsers_ k ;;;
            bumpCacheVersion_ ;;;
            invalidateShortcutsCache_ ;;;
            ret (mkReply true None (Some ("Deleted shortcut: " +:+ k))))
       (fun err => ret (failure ("Delete failed: " +:+ stringifyError_ err))))
    (releaseLock DocumentLock).

Record FavResult : Type := mkFavResult {
  status : string;
  snippet : string;
  fav_message : option string
}.

(** Step 1 of [updateFavoriteStatus_]: the row numbers [i + 1] of the
    entries of this user and key, over [data[i]], [data[i+1]], ... *)
Fixpoint favorite_rows_of_pair (i : nat) (rows : Sheet) (col : FavoriteCols)
    (targetEmail targetKey : string) : list nat :=
  match rows with
  | [] => []
  | r :: rest =>
      if String.eqb (trim (cell r (fav_userEmail col))) targetEmail
         && String.eqb (trim (cell r (fav_key col))) targetKey
      then (i + 1) :: favorite_rows_of_pair (S i) rest col targetEmail targetKey
      else favorite_rows_of_pair (S i) rest col targetEmail targetKey
  end.

Record FavAction : Type := mkFavAction {
  shouldAdd : bool;
  shouldDelete : bool;
  resultStatus : string
}.

(** Step 2 of [updateFavoriteStatus_], for [found] existing entries. *)
Definition favorite_action (mode : string) (found : nat) : FavAction :=
  let exists_ := 0 <? found in
  if String.eqb mode "toggle" then
    if exists_ then mkFavAction false true "removed"
    else mkFavAction true false "added"
  else if String.eqb mode "force_add" then
    if exists_ then
      if 1 <? found then mkFavAction true true "added"
      else mkFavAction false false "added"
    else mkFavAction true false "added"
  else if String.eqb mode "force_remove" then
    if exists_ then mkFavAction false true "removed"
    else mkFavAction false false "removed"
  else mkFavAction false false "unchanged".

Definition updateFavoriteStatus_ (snippetName : string) (mode : string) : M FavResult :=
  userEmail <- getUserEmail_ ;;
  if negb (truthy_str userEmail)
  then ret (mkFavResult "error" snippetName
              (Some "User email not available. Please reload the app."))
  else
    sheet <- getSheetByName CFG.SHEET_FAVORITES ;;
    if sheet is None
    then ret (mkFavResult "error" snippetName (Some "Favorites sheet not found."))
    else
      let sheet := CFG.SHEET_FAVORITES in
      try_finally
        (try_catch
           (waitLock ScriptLock 10000 ;;;
            data <- getDataRangeValues sheet ;;
            (if length data =? 0 then appendRow sheet HEADERS_FAVORITES else ret tt) ;;;
            let header := match data with h :: _ => h | [] => HEADERS_FAVORITES end in
            let col := getFavoritesColumnMap_ header in
            let targetEmail := trim userEmail in
            let targetKey := trim snippetName in
            if negb (truthy_str targetKey)
            then ret (mkFavResult "error" EmptyString (Some "Invalid snippet name."))
            else
              let rowsToDelete :=
                favorite_rows_of_pair 1 (drop 1 data) col targetEmail targetKey in
              let act := favorite_action mode (length rowsToDelete) in
              (if shouldDelete act && (0 <? length rowsToDelete)
               then for_each (sort_desc rowsToDelete) (deleteRow sheet)
               else ret tt) ;;;
              (if shouldAdd act
               then now <- gets (fun w => clockIso (env w)) ;; appendRow sheet [userEmail; targetKey; now]
               else ret tt) ;;;
              ret (mkFavResult (resultStatus act) targetKey None))
           (fun e => ret (mkFavResult "error" snippetName
                            (Some ("Failed to update favorite: " +:+ e)))))
        (releaseLock ScriptLock).

Definition addToFavorites (snippetName : string) : M FavResult :=
  updateFavoriteStatus_ snippetName "force_add".

End Scripts.

(** ** Vocabulary of the statements *)

(** The rows of a sheet below its header row. *)
Definition data_rows (w : World) (name : string) : Sheet :=
  drop 1 (default [] (sheets w !! name)).

Definition header_row (w : World) (name : string) : list string :=
  default [] (head (default [] (sheets w !! name))).

(** The rows whose numbers (from 1) are deleted one after the other. *)
Definition delete_rows (rs : list nat) (g : Sheet) : Sheet :=
  foldl (fun g r => delete (r - 1) g) g rs.

(** The numbers, counted from [base], of the elements that satisfy [p]. *)
Fixpoint positions_from {A : Type} (p : A -> bool) (base : nat) (l : list A) : list nat :=
  match l with
  | [] => []
  | x :: l' =>
      if p x then base :: positions_from p (S base) l'
      else positions_from p (S base) l'
  end.

(** Row numbers in strictly descending order, the first at most [bound]
    and all at least 1. *)
Fixpoint desc_below (bound : nat) (rs : list nat) : Prop :=
  match rs with
  | [] => True
  | r :: rs' => 1 <= r <= bound /\ desc_below (r - 1) rs'
  end.

(** The world with one sheet replaced and some events logged. *)
Definition with_sheet (name : string) (g : Sheet) (evs : list Event) (w : World) : World :=
  mkWorld (<[name := g]> (sheets w)) (cache w) (props w) (events w ++ evs) (env w).

(** The key of a row of the Shortcuts sheet and the user and key of a row
    of the Favorites sheet, read through the column map of the header. *)
Definition shortcut_key (header row : list string) : string :=
  trim (cell row (indexHeader_ header !! "Snippet Name")).

Definition favorite_key (header row : list string) : string :=
  trim (cell row (indexHeader_ header !! "Snippet Name")).

Definition favorite_user (header row : list string) : string :=
  trim (cell row (indexHeader_ header !! "UserEmail")).

(** The header row of a sheet that carries the expected headers: cell [i],
    trimmed, is header [i]. *)
Definition header_has (hdr headers : list string) : Prop :=
  forall (i : nat) (h : string),
    headers !! i = Some h -> trim (cell hdr (Some i)) = h.

(** A column of the header row: indexed under [name], its cell reads
    [name] once trimmed. *)
Definition column_of (hdr : list string) (name : string) (j : nat) : Prop :=
  indexHeader_ hdr !! name = Some j
  /\ exists c, hdr !! j = Some c /\ trim c = name.

(** The events of [ensureSheets_]. *)
Definition is_setup (e : Event) : bool :=
  match e with
  | EvInsertSheet _ | EvSetHeader _ _ => true
  | _ => false
  end.

(** What [ensureSheets_] leaves of a world [w]: both sheets exist with
    their headers in place, the rows below the header are those of [w], and
    nothing else changed but the log, which gained set-up events only. *)
Definition sheets_ready (w w' : World) : Prop :=
  exists (gS gF : Sheet) (evs : list Event),
    sheets w' !! CFG.SHEET_SHORTCUTS = Some gS
    /\ sheets w' !! CFG.SHEET_FAVORITES = Some gF
    /\ gS <> [] /\ gF <> []
    /\ drop 1 gS = data_rows w CFG.SHEET_SHORTCUTS
    /\ drop 1 gF = data_rows w CFG.SHEET_FAVORITES
    /\ header_has (default [] (head gS)) HEADERS_SHORTCUTS
    /\ header_has (default [] (head gF)) HEADERS_FAVORITES
    /\ cache w' = cache w /\ props w' = props w /\ env w' = env w
    /\ events w' = events w ++ evs
    /\ Forall (fun e => is_setup e = true) evs.

(** The row numbers that a log deletes from one sheet, in the order of the
    deletions. *)
Definition deleted_rows (name : string) (evs : list Event) : list nat :=
  omap (fun e => match e with
                 | EvDeleteRow n r => if String.eqb n name then Some r else None
                 | _ => None
                 end) evs.

Definition is_row_change (e : Event) : bool :=
  match e with
  | EvDeleteRow _ _ | EvAppendRow _ _ => true
  | _ => false
  end.

(** ** A test double of the platform

    An in-memory stand-in with canned answers, on which the scripts run on
    concrete inputs. *)

Definition digits_to_number (s : string) : jsnum :=
  match s with
  | EmptyString => Num 0
  | _ =>
      match foldl (fun acc c => n ← acc; d ← Ascii.is_nat c; Some (10 * n + d))
                  (Some 0) (chars s) with
      | Some n => Num (Z.of_nat n)
      | None => NaN
      end
  end.

Definition demo_meta : value :=
  VObj [("chunkCount", VNum (Num 1)); ("encoding", VStr "gz-b64");
        ("updatedAt", VStr "2025-12-23T10:00:00.000Z")].

Definition demo_rows : list value :=
  [VObj [("key", VStr "a")]; VObj [("key", VStr "b")]; VObj [("key", VStr "c")]].

Definition demo_platform : Platform := {|
  stringToNumber := digits_to_number;
  objectToNumber := fun _ => NaN;
  jsonStringify := fun v => match v with VArr _ => "ROWS" | _ => "META" end;
  jsonParse := fun s =>
    if String.eqb s "META" then Some demo_meta
    else if String.eqb s "ROWS" then Some (VArr demo_rows)
    else None;
  gzipBase64 := Some;
  ungzipBase64 := Some;
  errorText := fun msg => "Error: " +:+ msg
|}.

Definition demo_shortcuts : Sheet :=
  [HEADERS_SHORTCUTS;
   ["1"; "foo"; "first"; "app"; "d"; "en"; "t"; "2025-12-01"];
   ["2"; "bar"; "other"; "app"; "d"; "en"; "t"; "2025-12-02"];
   ["3"; " foo "; "second"; "app"; "d"; "en"; "t"; "2025-12-03"];
   ["4"; "foo"; "third"; "app"; "d"; "en"; "t"; "2025-12-04"]].

Definition demo_favorites : Sheet :=
  [HEADERS_FAVORITES;
   ["ann@example.com"; "foo"; "2025-12-05"];
   ["bob@example.com"; "foo"; "2025-12-06"];
   ["ann@example.com"; "foo"; "2025-12-07"];
   ["ann@example.com"; "bar"; "2025-12-08"]].

Definition demo_world : World :=
  mkWorld
    (<[CFG.SHEET_SHORTCUTS := demo_shortcuts]>
       (<[CFG.SHEET_FAVORITES := demo_favorites]> ∅))
    (<["SNAP_tok_META" := "META"]> (<["SNAP_tok_1" := "ROWS"]> ∅))
    ∅ []
    (mkEnv "ann@example.com" "2025-12-23T10:00:00.000Z" "uuid-1" false false false).

(** The same world while another holder keeps the document lock. *)
Definition demo_busy_world : World :=
  mkWorld (sheets demo_world) (cache demo_world) (props demo_world) (events demo_world)
          (mkEnv "ann@example.com" "2025-12-23T10:00:00.000Z" "uuid-1" true false false).

(** The same world while [cache.putAll] throws. *)
Definition demo_full_cache_world : World :=
  mkWorld (sheets demo_world) (cache demo_world) (props demo_world) (events demo_world)
          (mkEnv "ann@example.com" "2025-12-23T10:00:00.000Z" "uuid-1" false false true).

Definition demo_payload : Payload :=
  mkPayload (Some " foo ") (Some "fourth") (Some "app") None None None.






(** ** Vocabulary: what the platform gives back of a write *)

(** The meta record that [writeCacheByKey_] writes for [chunkCount] chunks
    at the time [now]. *)
Definition cache_meta (chunkCount : nat) (now : string) : value :=
  VObj [("chunkCount", VNum (Num (Z.of_nat chunkCount)));
        ("encoding", VStr "gz-b64");
        ("updatedAt", VStr now)].

Section WrittenBack.
Context `{Platform}.

(** The platform gives back what [writeCacheByKey_] writes for [items] at
    the time [now]: the JSON text of the list parses to the list; it is
    compressed to a text that is not empty and is decompressed to itself;
    and the JSON text of the meta record of its chunks is not empty and
    parses to that record. Nothing is asked of any other value. *)
Definition written_back (items : list value) (now : string) : Prop :=
  let json := jsonStringify (VArr items) in
  jsonParse json = Some (VArr items)
  /\ exists encoded : string,
       gzipBase64 json = Some encoded
       /\ truthy_str encoded = true
       /\ ungzipBase64 encoded = Some json
       /\ forall chunks : list string,
            chunkString_ encoded 90000 = Some chunks ->
            truthy_str (jsonStringify (cache_meta (length chunks) now)) = true
            /\ jsonParse (jsonStringify (cache_meta (length chunks) now))
               = Some (cache_meta (length chunks) now).

End WrittenBack.

(** ** Code.gs: the other key look-ups *)

(** The loop of [findRowIndexByKey_] from index [i] on; the key is compared
    as it is given, untrimmed. *)
Fixpoint find_row_from (i : nat) (keysArray : list string) (key : string) : Z :=
  match keysArray with
  | [] => (-1)%Z
  | k :: rest =>
      if String.eqb (trim k) key then Z.of_nat (i + 2)
      else find_row_from (S i) rest key
  end.

Definition findRowIndexByKey_ (keysArray : list string) (key : string) : Z :=
  find_row_from 0 keysArray key.

(** A plain object [{}] that is used as a map from names to numbers is
    given by the properties it holds of its own. The names that
    [Object.prototype] defines are inherited by it: *)
Definition object_prototype_names : list string :=
  ["constructor"; "__defineGetter__"; "__defineSetter__"; "hasOwnProperty";
   "__lookupGetter__"; "__lookupSetter__"; "isPrototypeOf"; "propertyIsEnumerable";
   "toString"; "valueOf"; "__proto__"; "toLocaleString"].

(** [m[k] = v] for a number [v]: [__proto__] is an accessor of
    [Object.prototype] whose setter ignores a value that is neither an
    object nor [null], so that nothing is stored; under any other name
    the object gets, or changes, a property of its own. *)
Definition object_set (k : string) (v : nat) (m : gmap string nat) : gmap string nat :=
  if String.eqb k "__proto__" then m else <[k := v]> m.

(** What a read [m[k]] gives: the number the object holds under [k], else
    what it inherits under that name (a function, or the prototype),
    else [undefined]. *)
Inductive PropertyRead : Type :=
| ReadNumber (n : nat)
| ReadInherited
| ReadUndefined.

Definition object_get (m : gmap string nat) (k : string) : PropertyRead :=
  match m !! k with
  | Some n => ReadNumber n
  | None => if bool_decide (k ∈ object_prototype_names) then ReadInherited else ReadUndefined
  end.

Definition buildKeyToRowIndexMap_step (m : gmap string nat) (entry : nat * string) : gmap string nat :=
  let k := trim entry.2 in
  if truthy_str k then object_set k (entry.1 + 2) m else m.

(** The properties of its own that the object returned holds. *)
Definition buildKeyToRowIndexMap_ (keysArray : list string) : gmap string nat :=
  foldl buildKeyToRowIndexMap_step ∅ (imap pair keysArray).

(** ** Code.gs: the wrappers of the global shortcuts cache *)

Definition getCacheVersion_ : M string :=
  v <- gets (fun w => props w !! CFG.CACHE_VER_KEY) ;;
  ret (match v with
       | Some s => if truthy_str s then s else "1"
       | None => "1"
       end).

Section CacheWrappers.
Context `{Platform}.

Definition readShortcutsCache_ : M (option (list value)) :=
  let prefix := if truthy_str CFG.CACHE_KEY_PREFIX then CFG.CACHE_KEY_PREFIX
                else "TEM_SHORTCUTS_" in
  readCacheByKey_ prefix.

Definition writeShortcutsCache_ (list : list value) : M bool :=
  let prefix := if truthy_str CFG.CACHE_KEY_PREFIX then CFG.CACHE_KEY_PREFIX
                else "TEM_SHORTCUTS_" in
  let ttl := if (CFG.CACHE_TTL_SECONDS =? 0)%Z then 600%Z else CFG.CACHE_TTL_SECONDS in
  writeCacheByKey_ prefix list ttl.

(** [readCacheByKey_] answers an array or [null], so the test
    [cached && Array.isArray(cached) && cached.length >= 0] holds exactly
    when it answers an array. *)
Definition getShortcutsCached_ : M (list value) :=
  cached <- readShortcutsCache_ ;;
  match cached with
  | Some cached => ret cached
  | None =>
      list <- getShortcutsFromSheet_ ;;
      writeShortcutsCache_ list ;;;
      ret list
  end.

End CacheWrappers.

(** ** Vocabulary: what a run leaves as it was *)

(** Every run of [m] takes a world to one related to it by [R]. *)
Definition stays {A : Type} (R : relation World) (m : M A) : Prop :=
  forall w : World, R w (m w).2.

(** The cache lost at most the meta record of the global shortcuts cache. *)
Definition cache_kept (w w' : World) : Prop :=
  cache w' = cache w \/ cache w' = delete (meta_key CFG.CACHE_KEY_PREFIX) (cache w).

(** Only the log and the named sheet may differ. *)
Definition only_sheet (name : string) (w w' : World) : Prop :=
  (forall other : string, other <> name -> sheets w' !! other = sheets w !! other)
  /\ cache w' = cache w /\ props w' = props w /\ env w' = env w.

(** The log grew by events that satisfy [p], and the surroundings are the
    same. *)
Definition log_grew (p : Event -> bool) (w w' : World) : Prop :=
  env w' = env w
  /\ exists evs : list Event,
       events w' = events w ++ evs /\ Forall (fun e => p e = true) evs.

(** What a mutation that works under the document lock does to the log of
    a world [w]: after the set-up events of [ensureSheets_] it either stops
    at a busy lock with the time-out error, or takes the lock, changes rows
    and releases the lock as its last step, and then returns a reply. *)
Definition under_document_lock {A : Type} (w : World) (r : outcome A * World) : Prop :=
  if documentLockBusy (env w)
  then r.1 = Throw "Lock timeout"
       /\ exists setup : list Event,
            events r.2 = events w ++ setup
            /\ Forall (fun e => is_setup e = true) setup
  else exists (reply : A) (setup changes : list Event),
         r.1 = Ret reply
         /\ events r.2
            = events w ++ setup ++ EvLock DocumentLock :: changes ++ [EvUnlock DocumentLock]
         /\ Forall (fun e => is_setup e = true) setup
         /\ Forall (fun e => is_row_change e = true) changes.

(** ** A second test double: a platform whose JSON and codec give back what
    they were given

    [JSON.stringify] writes a value as the binary numeral of its code and
    [JSON.parse] reads it back; the codec puts one letter in front. *)

Fixpoint value_to_tree (v : value) : gen_tree (Z + string) :=
  match v with
  | VUndefined => GenNode 0 []
  | VNull => GenNode 1 []
  | VBool true => GenNode 2 []
  | VBool false => GenNode 3 []
  | VNum NaN => GenNode 4 []
  | VNum (Num z) => GenLeaf (inl z)
  | VStr s => GenLeaf (inr s)
  | VArr items => GenNode 5 (map value_to_tree items)
  | VObj fields =>
      GenNode 6 (map (fun '(k, v) => GenNode 7 [GenLeaf (inr k); value_to_tree v]) fields)
  end.

Fixpoint tree_to_value (t : gen_tree (Z + string)) : option value :=
  match t with
  | GenLeaf (inl z) => Some (VNum (Num z))
  | GenLeaf (inr s) => Some (VStr s)
  | GenNode 0 [] => Some VUndefined
  | GenNode 1 [] => Some VNull
  | GenNode 2 [] => Some (VBool true)
  | GenNode 3 [] => Some (VBool false)
  | GenNode 4 [] => Some (VNum NaN)
  | GenNode 5 ts =>
      VArr <$> (fix go (ts : list (gen_tree (Z + string))) : option (list value) :=
                  match ts with
                  | [] => Some []
                  | t :: ts => v ← tree_to_value t; vs ← go ts; Some (v :: vs)
                  end) ts
  | GenNode 6 ts =>
      VObj <$> (fix go (ts : list (gen_tree (Z + string))) : option (list (string * value)) :=
                  match ts with
                  | [] => Some []
                  | GenNode 7 [GenLeaf (inr k); t] :: ts =>
                      v ← tree_to_value t; kvs ← go ts; Some ((k, v) :: kvs)
                  | _ => None
                  end) ts
  | _ => None
  end.

Fixpoint pos_to_string (p : positive) : string :=
  match p with
  | xH => "e"
  | xO q => String "0" (pos_to_string q)
  | xI q => String "1" (pos_to_string q)
  end.

Fixpoint string_to_pos (s : string) : option positive :=
  match s with
  | EmptyString => None
  | String c rest =>
      if Ascii.eqb c "e" then (if rest is EmptyString then Some xH else None)
      else if Ascii.eqb c "0" then xO <$> string_to_pos rest
      else if Ascii.eqb c "1" then xI <$> string_to_pos rest
      else None
  end.

Definition roundtrip_platform : Platform := {|
  stringToNumber := digits_to_number;
  objectToNumber := fun _ => NaN;
  jsonStringify := fun v => pos_to_string (encode (value_to_tree v));
  jsonParse := fun s => p ← string_to_pos s; t ← decode p; tree_to_value t;
  gzipBase64 := fun s => Some (String "z" s);
  ungzipBase64 := fun s =>
    match s with
    | String c rest => if Ascii.eqb c "z" then Some rest else None
    | EmptyString => None
    end;
  errorText := fun msg => "Error: " +:+ msg
|}.

(** ** favorites.gs: the other modes, the reader and the clean-up *)

Definition toggleFavorite (snippetName : string) : M FavResult :=
  updateFavoriteStatus_ snippetName "toggle".

Definition removeFavorite (snippetName : string) : M FavResult :=
  updateFavoriteStatus_ snippetName "force_remove".

Record Favorite : Type := mkFavorite {
  fv_key : string;
  fv_createdAt : string
}.

(** The loop of [listMyFavorites_] over [data[i]], [data[i+1]], ...: the
    entries pushed to [out] and the row numbers pushed to [rowsToDelete],
    with [seenKeys] as it stands before row [i]. *)
Fixpoint my_favorites_from (i : nat) (rows : Sheet) (col : FavoriteCols)
    (userEmail : string) (seenKeys : gset string) : list Favorite * list nat :=
  match rows with
  | [] => ([], [])
  | r :: rest =>
      let email := trim (cell r (fav_userEmail col)) in
      let key := trim (cell r (fav_key col)) in
      let createdAt := trim (cell r (fav_createdAt col)) in
      if String.eqb email userEmail && truthy_str key then
        if bool_decide (key ∈ seenKeys) then
          let later := my_favorites_from (S i) rest col userEmail seenKeys in
          (later.1, (i + 1) :: later.2)
        else
          let later := my_favorites_from (S i) rest col userEmail ({[key]} ∪ seenKeys) in
          (mkFavorite key createdAt :: later.1, later.2)
      else my_favorites_from (S i) rest col userEmail seenKeys
  end.

Definition listMyFavorites_ : M (list Favorite) :=
  userEmail <- getUserEmail_ ;;
  if negb (truthy_str userEmail) then ret []
  else
    waitLock ScriptLock 10000 ;;;
    try_finally
      (favSheet <- getSheet_ CFG.SHEET_FAVORITES ;;
       data <- getDataRangeValues favSheet ;;
       match data with
       | header :: ((_ :: _) as rows) =>
           let col := getFavoritesColumnMap_ header in
           let scan := my_favorites_from 1 rows col userEmail ∅ in
           let out := scan.1 in
           let rowsToDelete := scan.2 in
           (if 0 <? length rowsToDelete
            then for_each (sort_desc rowsToDelete) (deleteRow favSheet)
            else ret tt) ;;;
           ret out
       | _ => ret []
       end)
      (releaseLock ScriptLock).

Record CleanupReport : Type := mkCleanupReport {
  initialCount : Z;
  removedCount : Z;
  finalCount : Z
}.

(** The loop of [cleanupDuplicateFavorites_]: the row numbers [i + 1] of
    the rows whose composite [`${email}|${key}`] was seen before. *)
Fixpoint duplicate_favorites_from (i : nat) (rows : Sheet) (col : FavoriteCols)
    (seen : gset string) : list nat :=
  match rows with
  | [] => []
  | r :: rest =>
      let email := trim (cell r (fav_userEmail col)) in
      let key := trim (cell r (fav_key col)) in
      let composite := email +:+ "|" +:+ key in
      if bool_decide (composite ∈ seen)
      then (i + 1) :: duplicate_favorites_from (S i) rest col seen
      else duplicate_favorites_from (S i) rest col ({[composite]} ∪ seen)
  end.

Definition cleanupDuplicateFavorites_ : M CleanupReport :=
  waitLock ScriptLock 30000 ;;;
  try_finally
    (sheet <- getSheet_ CFG.SHEET_FAVORITES ;;
     data <- getDataRangeValues sheet ;;
     match data with
     | header :: ((_ :: _) as rows) =>
         let col := getFavoritesColumnMap_ header in
         let rowsToDelete := duplicate_favorites_from 1 rows col ∅ in
         for_each (sort_desc rowsToDelete) (deleteRow sheet) ;;;
         ret (mkCleanupReport
                (Z.of_nat (length data) - 1)
                (Z.of_nat (length rowsToDelete))
                (Z.of_nat (length data) - 1 - Z.of_nat (length rowsToDelete)))
     | _ => ret (mkCleanupReport 0 0 0)
     end)
    (releaseLock ScriptLock).

(** ** Vocabulary: the first row of every key *)

(** The rows that remain when, of the rows to which [f] gives the same key,
    all but the first are dropped; a row to which [f] gives no key stays.
    [seen] holds the keys of the rows before. *)
Fixpoint keep_first {A : Type} (f : A -> option string) (seen : gset string)
    (rows : list A) : list A :=
  match rows with
  | [] => []
  | r :: rest =>
      match f r with
      | None => r :: keep_first f seen rest
      | Some k =>
          if bool_decide (k ∈ seen) then keep_first f seen rest
          else r :: keep_first f ({[k]} ∪ seen) rest
      end
  end.

(** The numbers, counted from [base], of the rows that are dropped. *)
Fixpoint later_duplicates {A : Type} (f : A -> option string) (seen : gset string)
    (base : nat) (rows : list A) : list nat :=
  match rows with
  | [] => []
  | r :: rest =>
      match f r with
      | None => later_duplicates f seen (S base) rest
      | Some k =>
          if bool_decide (k ∈ seen) then base :: later_duplicates f seen (S base) rest
          else later_duplicates f ({[k]} ∪ seen) (S base) rest
      end
  end.

(** The key under which [listMyFavorites_] counts a row for a user, and the
    one under which [cleanupDuplicateFavorites_] counts any row. *)
Definition favorite_of (hdr : list string) (userEmail : string) (r : list string) : option string :=
  if String.eqb (favorite_user hdr r) userEmail && truthy_str (favorite_key hdr r)
  then Some (favorite_key hdr r) else None.

Definition favorite_composite (hdr : list string) (r : list string) : option string :=
  Some (favorite_user hdr r +:+ "|" +:+ favorite_key hdr r).

Definition favorite_entry (hdr : list string) (r : list string) : Favorite :=
  mkFavorite (favorite_key hdr r) (trim (cell r (indexHeader_ hdr !! "CreatedAt"))).

(** ** uiHandlers.gs: the paging handlers *)

(** [items.map(f)] for an [f] that may throw. *)
Fixpoint map_each {A B : Type} (f : A -> M B) (l : list A) : M (list B) :=
  match l with
  | [] => ret []
  | x :: rest => y <- f x ;; ys <- map_each f rest ;; ret (y :: ys)
  end.

(** [{key: s.key, ..., updatedAt: s.updatedAt, favorite: favSet.has(s.key)}] *)
Definition favorite_view (favSet : gset string) (s : value) : value :=
  VObj [("key", prop s "key");
        ("expansion", prop s "expansion");
        ("application", prop s "application");
        ("description", prop s "description");
        ("language", prop s "language");
        ("tags", prop s "tags");
        ("updatedAt", prop s "updatedAt");
        ("favorite", VBool (match prop s "key" with
                            | VStr k => bool_decide (k ∈ favSet)
                            | _ => false
                            end))].

(** The callback of [batch.items.map]: reading [s.key] of an item that is
    [null] or [undefined] throws. *)
Definition with_favorite (favSet : gset string) (s : value) : M value :=
  match s with
  | VNull => throw "TypeError: Cannot read properties of null (reading 'key')"
  | VUndefined => throw "TypeError: Cannot read properties of undefined (reading 'key')"
  | _ => ret (favorite_view favSet s)
  end.

Record Batch : Type := mkBatch {
  b_shortcuts : list value;
  b_offset : Z;
  b_hasMore : bool;
  b_total : Z;
  b_snapshotToken : string
}.

(** [{ok: false, error, message}] or [{ok: true, shortcuts, offset, hasMore,
    total, snapshotToken}] *)
Inductive BatchReply : Type :=
| BatchFailed (err : option string) (msg : string)
| BatchOk (batch : Batch).

(** [{ok: false, message}] or [{ok: true, snapshotToken, total, builtAt,
    shortcuts, offset, hasMore}] *)
Inductive BeginReply : Type :=
| BeginFailed (msg : string)
| BeginOk (token : string) (count : nat) (builtAt : string) (batch : list value)
          (next : Z) (more : bool).

Section Handlers.
Context `{Platform}.

(** The snapshot token is a string or missing ([None]). *)
Definition fetchShortcutsBatch (snapshotToken : option string) (from limit : value) :
    M BatchReply :=
  try_catch
    (match snapshotToken with
     | None => ret (BatchFailed None "Missing snapshot token")
     | Some token =>
         if negb (truthy_str token) then ret (BatchFailed None "Missing snapshot token")
         else
           batch <- fetchSnapshotPage_ token from limit ;;
           match batch with
           | PageError e =>
               if String.eqb e "SNAPSHOT_EXPIRED"
               then ret (BatchFailed (Some "SNAPSHOT_EXPIRED") "Snapshot expired. Reloading...")
               else
                 listMyFavorites_ ;;;
                 throw "TypeError: Cannot read properties of undefined (reading 'map')"
           | PageOk p =>
               favorites <- listMyFavorites_ ;;
               let favSet : gset string := list_to_set (map fv_key favorites) in
               mapped <- map_each (with_favorite favSet) (items p) ;;
               ret (BatchOk (mkBatch mapped (offset p) (hasMore p) (total p) token))
           end
     end)
    (fun err => ret (BatchFailed None (stringifyError_ err))).

Definition beginShortcutsSnapshotHandler : M BeginReply :=
  try_catch
    (meta <- beginShortcutsSnapshot ;;
     batch <- fetchSnapshotPage_ (meta_snapshotToken meta) (VNum (Num 0))
                (VNum (Num CFG.INITIAL_PAGE_SIZE)) ;;
     match batch with
     | PageError e =>
         if truthy_str e then throw e
         else
           listMyFavorites_ ;;;
           throw "TypeError: Cannot read properties of undefined (reading 'map')"
     | PageOk p =>
         favorites <- listMyFavorites_ ;;
         let favSet : gset string := list_to_set (map fv_key favorites) in
         mapped <- map_each (with_favorite favSet) (items p) ;;
         ret (BeginOk (meta_snapshotToken meta) (meta_total meta) (meta_builtAt meta)
                      mapped (offset p) (hasMore p))
     end)
    (fun err => ret (BeginFailed (stringifyError_ err))).

End Handlers.

(** A value whose properties can be read: anything but [null] and
    [undefined]. *)
Definition is_record (v : value) : bool :=
  match v with
  | VNull | VUndefined => false
  | _ => true
  end.

(** ** Code.gs: import parsing *)

(** The double quote, the comma, the line feed and the carriage return. *)
Definition dquote : ascii := "034"%char.
Definition comma : ascii := ","%char.
Definition line_feed : ascii := "010"%char.
Definition carriage_return : ascii := "013"%char.

(** The loop of [parseCsvLine_] from index [i] on: [s] holds the code units
    [s[i]], [s[i+1]], ... that are left, [cur] those of the field being
    read. *)
Fixpoint parse_csv_loop (s cur : list ascii) (inQuotes : bool) (out : list string) :
    list string :=
  match s with
  | [] => out ++ [str cur]
  | ch :: rest =>
      if Ascii.eqb ch dquote then
        match rest with
        | next :: rest' =>
            if inQuotes && Ascii.eqb next dquote
            then parse_csv_loop rest' (cur ++ [dquote]) inQuotes out
            else parse_csv_loop rest cur (negb inQuotes) out
        | [] => parse_csv_loop rest cur (negb inQuotes) out
        end
      else if Ascii.eqb ch comma && negb inQuotes
      then parse_csv_loop rest [] inQuotes (out ++ [str cur])
      else parse_csv_loop rest (cur ++ [ch]) inQuotes out
  end.

Definition parseCsvLine_ (line : string) : list string :=
  parse_csv_loop (chars line) [] false [].

(** The loop of [splitCsvLines_], in the same way. *)
Fixpoint split_csv_loop (s cur : list ascii) (inQuotes : bool) (out : list string) :
    list string :=
  match s with
  | [] => if 0 <? length cur then out ++ [str cur] else out
  | ch :: rest =>
      if Ascii.eqb ch dquote then
        match rest with
        | next :: rest' =>
            if inQuotes && Ascii.eqb next dquote
            then split_csv_loop rest' (cur ++ [dquote]) inQuotes out
            else split_csv_loop rest cur (negb inQuotes) out
        | [] => split_csv_loop rest cur (negb inQuotes) out
        end
      else if (Ascii.eqb ch line_feed || Ascii.eqb ch carriage_return) && negb inQuotes
      then
        let out := if 0 <? length cur then out ++ [str cur] else out in
        match rest with
        | next :: rest' =>
            if Ascii.eqb ch carriage_return && Ascii.eqb next line_feed
            then split_csv_loop rest' [] inQuotes out
            else split_csv_loop rest [] inQuotes out
        | [] => split_csv_loop rest [] inQuotes out
        end
      else split_csv_loop rest (cur ++ [ch]) inQuotes out
  end.

Definition splitCsvLines_ (text : string) : list string :=
  split_csv_loop (chars text) [] false [].

(** The rows an import parser hands to [bulkImport]:
    [{key, expansion, application, description, language, tags}], all
    strings. *)
Record ImportRow : Type := mkImportRow {
  r_key : string;
  r_expansion : string;
  r_application : string;
  r_description : string;
  r_language : string;
  r_tags : string
}.

(** [{ok: false, message}] or [{ok: true, rows}] *)
Inductive Parsed : Type :=
| ParseFailed (msg : string)
| ParsedRows (rows : list ImportRow).

(** The body of the loop of [parseImportCsv_] for a row of the table:
    [None] where the loop goes on to the next row without a push. *)
Definition csv_import_row (idx : gmap string nat) (keyCol contentCol : option nat)
    (defaultApplication defaultLanguage : string) (row : list string) : option ImportRow :=
  let key := trim (cell row keyCol) in
  if negb (truthy_str key) then None
  else
    let or_else := fun (a b : string) => if truthy_str a then a else b in
    Some (mkImportRow key
            (trim (cell row contentCol))
            (trim (or_else (cell row (idx !! "Application")) defaultApplication))
            (trim (cell row (idx !! "Description")))
            (trim (or_else (cell row (idx !! "Language")) defaultLanguage))
            (trim (cell row (idx !! "Tags")))).

Definition parseImportCsv_ (text defaultApplication defaultLanguage : string) : Parsed :=
  let lines := splitCsvLines_ text in
  if length lines =? 0 then ParseFailed "CSV appears empty."
  else
    let table := map parseCsvLine_ lines in
    let header := map trim (default [] (head table)) in
    let idx := indexHeader_ header in
    let keyCol := if idx !! "Snippet Name" is Some c then Some c else idx !! "key" in
    let contentCol := if idx !! "Content" is Some c then Some c else idx !! "expansion" in
    match keyCol, contentCol with
    | Some _, Some _ =>
        ParsedRows (omap (csv_import_row idx keyCol contentCol
                            defaultApplication defaultLanguage) (drop 1 table))
    | _, _ => ParseFailed "CSV missing headers."
    end.

(** ** Vocabulary: CSV text *)

Definition is_comma (c : ascii) : bool := Ascii.eqb c comma.

Definition is_line_break (c : ascii) : bool :=
  Ascii.eqb c line_feed || Ascii.eqb c carriage_return.

(** A field in double quotes, every double quote inside it written twice. *)
Definition double_quotes (body : list ascii) : list ascii :=
  flat_map (fun c => if Ascii.eqb c dquote then [dquote; dquote] else [c]) body.

Definition csv_quoted (field : string) : string :=
  str (dquote :: double_quotes (chars field) ++ [dquote]).

(** The pieces of [s] between the code units that satisfy [sep]. *)
Fixpoint pieces (sep : ascii -> bool) (s cur : list ascii) : list (list ascii) :=
  match s with
  | [] => [cur]
  | ch :: rest => if sep ch then cur :: pieces sep rest [] else pieces sep rest (cur ++ [ch])
  end.

(** A cell without a double quote, a comma or a line break, and the text
    of a table of such cells: the cells of a row joined by commas, the rows
    by line feeds. *)
Definition plain_cell (c : string) : bool :=
  forallb (fun x => negb (Ascii.eqb x dquote || is_comma x || is_line_break x)) (chars c).

Definition csv_text (table : list (list string)) : string :=
  join_with (str [line_feed]) (map (join_with ",") table).

(** No two double quotes stand next to each other. *)
Fixpoint no_doubled_quote (s : list ascii) : bool :=
  match s with
  | a :: ((b :: _) as rest) =>
      negb (Ascii.eqb a dquote && Ascii.eqb b dquote) && no_doubled_quote rest
  | _ => true
  end.

(** ** uiHandlers.gs: favorites from the clipboard *)

(** [{ok: true, message, favorite}] or [{ok: false, message}] *)
Inductive ClipboardReply : Type :=
| ClipboardOk (msg : string) (favorite : bool)
| ClipboardFailed (msg : string).

Section ClipboardHandler.
Context `{Platform}.

(** The handler of the [catch] clause reads [err.message]. *)
Definition handleClipboardFavorite (key : string) : M ClipboardReply :=
  try_catch
    (res <- addToFavorites key ;;
     ret (ClipboardOk "Added to favorites." true))
    (fun err => ret (ClipboardFailed ("Clipboard favorite failed: " +:+ err))).

End ClipboardHandler.

(** ** cleanup.gs: duplicates in the Shortcuts sheet *)

Record ShortcutsReport : Type := mkShortcutsReport {
  sr_initialCount : Z;
  sr_removedCount : Z;
  sr_finalCount : Z;
  sr_duplicateKeys : list string
}.

(** The loop of [cleanupDuplicateShortcuts] over [data[i]], [data[i+1]],
    ...: the row numbers pushed to [rowsToDelete], and [duplicateKeys] at
    the end. *)
Fixpoint duplicate_shortcuts_from (i : nat) (rows : Sheet) (keyCol : option nat)
    (seen : gset string) (duplicateKeys : list string) : list nat * list string :=
  match rows with
  | [] => ([], duplicateKeys)
  | r :: rest =>
      let key := trim (cell r keyCol) in
      if negb (truthy_str key)
      then duplicate_shortcuts_from (S i) rest keyCol seen duplicateKeys
      else if bool_decide (key ∈ seen) then
        let duplicateKeys :=
          if bool_decide (key ∈ duplicateKeys) then duplicateKeys
          else duplicateKeys ++ [key] in
        let later := duplicate_shortcuts_from (S i) rest keyCol seen duplicateKeys in
        ((i + 1) :: later.1, later.2)
      else duplicate_shortcuts_from (S i) rest keyCol ({[key]} ∪ seen) duplicateKeys
  end.

Section ShortcutsCleanup.
Context `{Platform}.

(** The message box and the console are not part of the state; the
    [catch] clause throws the error on. *)
Definition cleanupDuplicateShortcuts : M ShortcutsReport :=
  try_finally
    (try_catch
       (waitLock ScriptLock 30000 ;;;
        sheet <- getSheet_ CFG.SHEET_SHORTCUTS ;;
        data <- getDataRangeValues sheet ;;
        if length data <=? 1 then ret (mkShortcutsReport 0 0 0 [])
        else
          hc <- getShortcutsHeaderAndColMap_ sheet ;;
          let col := hc.2 in
          let scan := duplicate_shortcuts_from 1 (drop 1 data) (col_key col) ∅ [] in
          let rowsToDelete := scan.1 in
          let duplicateKeys := scan.2 in
          for_each (sort_desc rowsToDelete) (deleteRow sheet) ;;;
          (if 0 <? length rowsToDelete
           then bumpCacheVersion_ ;;; invalidateShortcutsCache_
           else ret tt) ;;;
          ret (mkShortcutsReport
                 (Z.of_nat (length data) - 1)
                 (Z.of_nat (length rowsToDelete))
                 (Z.of_nat (length data) - 1 - Z.of_nat (length rowsToDelete))
                 duplicateKeys))
       (fun err => throw err))
    (releaseLock ScriptLock).

End ShortcutsCleanup.

(** The key under which [cleanupDuplicateShortcuts] counts a row: none for
    a row with a blank key. *)
Definition shortcut_of (hdr : list string) (r : list string) : option string :=
  if truthy_str (shortcut_key hdr r) then Some (shortcut_key hdr r) else None.

(** ** Code.gs: reading an import in JSON *)

(** [a || b] *)
Definition value_or (a b : value) : value := if truthy a then a else b.

(** Whether the object has a property of this name of its own. *)
Definition has_own (name : string) (fields : list (string * value)) : bool :=
  existsb (fun kv => String.eqb kv.1 name) fields.

(** [String(v)] for a value that came out of [JSON.parse]. An array is
    joined with commas, [null] and [undefined] elements reading as empty;
    an object reads [[object Object]], unless it has a property [toString]
    of its own, which JSON cannot make callable: then the conversion throws
    a TypeError ([None]). *)
Fixpoint js_String (v : value) : option string :=
  match v with
  | VUndefined => Some "undefined"
  | VNull => Some "null"
  | VBool b => Some (if b then "true" else "false")
  | VNum n => Some (numToString n)
  | VStr s => Some s
  | VArr items =>
      join_with "," <$>
        (fix go (l : list value) : option (list string) :=
           match l with
           | [] => Some []
           | x :: rest =>
               s ← match x with
                   | VUndefined | VNull => Some EmptyString
                   | _ => js_String x
                   end;
               ss ← go rest;
               Some (s :: ss)
           end) items
  | VObj fields =>
      if has_own "toString" fields then None else Some "[object Object]"
  end.

Definition to_string (v : value) : M string :=
  match js_String v with
  | Some s => ret s
  | None => throw "TypeError: Cannot convert object to primitive value"
  end.

(** The object pushed for [o = arr[i] || {}] in [parseImportJson_]. *)
Definition json_import_row (defaultApplication defaultLanguage : string) (item : value) :
    M ImportRow :=
  let o := if truthy item then item else VObj [] in
  let empty := VStr EmptyString in
  key <- to_string (value_or (prop o "key")
                      (value_or (prop o "Snippet Name") (value_or (prop o "name") empty))) ;;
  expansion <- to_string (value_or (prop o "expansion") (value_or (prop o "Content") empty)) ;;
  application <- to_string (value_or (prop o "application")
                              (value_or (prop o "Application")
                                 (value_or (VStr defaultApplication) empty))) ;;
  description <- to_string (value_or (prop o "description")
                              (value_or (prop o "Description") empty)) ;;
  language <- to_string (value_or (prop o "language")
                           (value_or (prop o "Language")
                              (value_or (VStr defaultLanguage) empty))) ;;
  tags <- to_string (value_or (prop o "tags") (value_or (prop o "Tags") empty)) ;;
  ret (mkImportRow (trim key) (trim expansion) (trim application) (trim description)
                   (trim language) (trim tags)).

Section ImportJson.
Context `{Platform}.

Definition parseImportJson_ (text defaultApplication defaultLanguage : string) : M Parsed :=
  match jsonParse text with
  | None => ret (ParseFailed "Invalid JSON.")
  | Some parsed =>
      let arr := match as_array parsed with
                 | Some items => Some items
                 | None => if truthy parsed then as_array (prop parsed "items") else None
                 end in
      match arr with
      | None => ret (ParseFailed "JSON must be an array.")
      | Some arr =>
          rows <- map_each (json_import_row defaultApplication defaultLanguage) arr ;;
          ret (ParsedRows rows)
      end
  end.

End ImportJson.

(** ** Vocabulary: records of texts *)

(** An object all of whose properties hold strings. *)
Definition text_record (v : value) : bool :=
  match v with
  | VObj fields => forallb (fun kv => if kv.2 is VStr _ then true else false) fields
  | _ => false
  end.

(** The first of the named properties that holds a string that is not
    empty; [dflt] when there is none. *)
Fixpoint first_text (o : value) (names : list string) (dflt : string) : string :=
  match names with
  | [] => dflt
  | name :: rest =>
      match prop o name with
      | VStr s => if truthy_str s then s else first_text o rest dflt
      | _ => first_text o rest dflt
      end
  end.

Definition text_import_row (defaultApplication defaultLanguage : string) (o : value) :
    ImportRow :=
  mkImportRow (trim (first_text o ["key"; "Snippet Name"; "name"] EmptyString))
              (trim (first_text o ["expansion"; "Content"] EmptyString))
              (trim (first_text o ["application"; "Application"] defaultApplication))
              (trim (first_text o ["description"; "Description"] EmptyString))
              (trim (first_text o ["language"; "Language"] defaultLanguage))
              (trim (first_text o ["tags"; "Tags"] EmptyString)).

(** ** uiHandlers.gs: bulk import *)

(** [sheet.getRange(sheet.getLastRow() + 1, 1, values.length,
    numColumns).setValues(values)]: the rows are written below the last
    row, and logged as the rows they add. *)
Definition setValuesBelow (name : string) (numColumns : nat) (values : Sheet) : M unit :=
  g <- sheet_grid name ;;
  if (length values =? 0) || (numColumns =? 0)
  then throw "The number of rows and columns in the range must be at least 1."
  else if negb (forallb (fun row => length row =? numColumns) values)
  then throw "The number of columns in the data does not match the number of columns in the range."
  else modify (fun w =>
                 mkWorld (<[name := g ++ values]> (sheets w)) (cache w) (props w)
                         (events w ++ map (EvAppendRow name) values) (env w)).

(** The payload of [bulkImport]: every property holds a string or is
    missing. *)
Record ImportPayload : Type := mkImportPayload {
  ip_mode : option string;
  ip_text : option string;
  ip_defaultApplication : option string;
  ip_defaultLanguage : option string
}.

(** [{index, key, message}] *)
Record ImportError : Type := mkImportError {
  e_index : nat;
  e_key : string;
  e_message : option string
}.

(** [{ok: false, message}] or [{ok: true, message, updated, inserted,
    errors}] *)
Inductive ImportReply : Type :=
| ImportFailed (msg : string)
| ImportDone (msg : string) (updated inserted : nat) (errors : list ImportError).

Definition import_mode_message : string :=
  "Import mode must be " +:+ str [dquote] +:+ "csv" +:+ str [dquote]
  +:+ " or " +:+ str [dquote] +:+ "json" +:+ str [dquote] +:+ ".".

(** A parsed row as [validateShortcutPayload_] reads it. *)
Definition row_payload (r : ImportRow) : Payload :=
  mkPayload (Some (r_key r)) (Some (r_expansion r)) (Some (r_application r))
            (Some (r_description r)) (Some (r_language r)) (Some (r_tags r)).

(** The first loop of [bulkImport] over [rows[i]], [rows[i+1]], ...:
    [validRows], [errors] and [processedKeys] at the end. *)
Fixpoint import_scan (i : nat) (rows : list ImportRow) (processedKeys : gset string) :
    list ImportRow * list ImportError * gset string :=
  match rows with
  | [] => ([], [], processedKeys)
  | r :: rest =>
      let v := validateShortcutPayload_ (Some (row_payload r)) in
      if negb (ok v) then
        let later := import_scan (S i) rest processedKeys in
        (later.1.1, mkImportError (i + 1) (r_key r) (message v) :: later.1.2, later.2)
      else
        let key := trim (r_key r) in
        if bool_decide (key ∈ processedKeys) then import_scan (S i) rest processedKeys
        else
          let later := import_scan (S i) rest ({[key]} ∪ processedKeys) in
          (r :: later.1.1, later.1.2, later.2)
  end.

(** The second loop: the numbers [i + 2] of the rows whose key is among
    the processed ones. *)
Fixpoint import_rows_to_delete (i : nat) (existingKeys : list string)
    (processedKeys : gset string) : list nat :=
  match existingKeys with
  | [] => []
  | k :: rest =>
      if bool_decide (trim k ∈ processedKeys)
      then (i + 2) :: import_rows_to_delete (S i) rest processedKeys
      else import_rows_to_delete (S i) rest processedKeys
  end.

(** The row built for a valid row. *)
Definition import_insert (col : ShortcutCols) (width : nat) (nowIso : string) (r : ImportRow) :
    list string :=
  let row := replicate width EmptyString in
  let row := array_set (col_key col) (trim (r_key r)) row in
  let row := array_set (col_expansion col) (str_slice (r_expansion r) 0 CFG.MAX_FIELD_LEN) row in
  let row := array_set (col_application col)
               (str_slice (r_application r) 0 CFG.MAX_APP_LEN) row in
  let row := array_set (col_description col)
               (str_slice (r_description r) 0 CFG.MAX_DESC_LEN) row in
  let row := array_set (col_language col)
               (str_slice (r_language r) 0 CFG.MAX_LANGUAGE_LEN) row in
  let row := array_set (col_tags col) (str_slice (r_tags r) 0 CFG.MAX_TAGS_LEN) row in
  array_set (col_updatedAt col) nowIso row.

(** The loop that writes [inserts] in chunks of 500, from [start] on; it
    runs at most once for every row. *)
Fixpoint import_batches (fuel : nat) (sheet : string) (width : nat) (inserts : Sheet)
    (start : nat) : M unit :=
  match fuel with
  | 0 => ret tt
  | S fuel =>
      if start <? length inserts then
        let chunk := slice inserts (Z.of_nat start) (Z.of_nat start + 500) in
        (if 0 <? length chunk then setValuesBelow sheet width chunk else ret tt) ;;;
        import_batches fuel sheet width inserts (start + 500)
      else ret tt
  end.

Section BulkImport.
Context `{Platform}.

Definition bulkImport (payload : option ImportPayload) : M ImportReply :=
  ensureSheets_ ;;;
  waitLock DocumentLock 30000 ;;;
  try_finally
    (try_catch
       (let mode := trim (toLowerCase (str_or_empty (payload ≫= ip_mode))) in
        let text := str_or_empty (payload ≫= ip_text) in
        let defaultApplication := trim (str_or_empty (payload ≫= ip_defaultApplication)) in
        let defaultLanguage := trim (str_or_empty (payload ≫= ip_defaultLanguage)) in
        if negb (truthy_str mode)
           || (negb (String.eqb mode "csv") && negb (String.eqb mode "json"))
        then ret (ImportFailed import_mode_message)
        else if negb (truthy_str (trim text))
        then ret (ImportFailed "Paste CSV or JSON content first.")
        else
          parsedRows <- (if String.eqb mode "json"
                         then parseImportJson_ text defaultApplication defaultLanguage
                         else ret (parseImportCsv_ text defaultApplication defaultLanguage)) ;;
          match parsedRows with
          | ParseFailed msg => ret (ImportFailed msg)
          | ParsedRows rows =>
              if length rows =? 0 then ret (ImportFailed "No rows parsed from input.")
              else
                sheet <- getSheet_ CFG.SHEET_SHORTCUTS ;;
                hc <- getShortcutsHeaderAndColMap_ sheet ;;
                let header := hc.1 in
                let col := hc.2 in
                let width := length header in
                nowIso <- gets (fun w => clockIso (env w)) ;;
                let scan := import_scan 0 rows ∅ in
                let validRows := scan.1.1 in
                let errors := scan.1.2 in
                let processedKeys := scan.2 in
                existingKeys <- getColumnValues_ sheet (col_key col) ;;
                let rowsToDelete := import_rows_to_delete 0 existingKeys processedKeys in
                for_each (sort_desc rowsToDelete) (deleteRow sheet) ;;;
                let inserts := map (import_insert col width nowIso) validRows in
                import_batches (length inserts) sheet width inserts 0 ;;;
                bumpCacheVersion_ ;;;
                invalidateShortcutsCache_ ;;;
                let updated := Nat.min (length rowsToDelete) (length inserts) in
                let inserted := length inserts - length rowsToDelete in
                ret (ImportDone
                       ("Import complete. Updated: " +:+ pretty updated
                        +:+ ". Inserted: " +:+ pretty inserted
                        +:+ ". Errors: " +:+ pretty (length errors) +:+ ".")
                       updated inserted errors)
          end)
       (fun err => ret (ImportFailed ("Import failed: " +:+ stringifyError_ err))))
    (releaseLock DocumentLock).

End BulkImport.

(** The key under which [bulkImport] counts a parsed row, none for a row
    that [validateShortcutPayload_] rejects; and the entry of [errors] for
    the row at an index, none for a row that is accepted. *)
Definition import_key (r : ImportRow) : option string :=
  if ok (validateShortcutPayload_ (Some (row_payload r))) then Some (trim (r_key r)) else None.

Definition import_error (entry : nat * ImportRow) : option ImportError :=
  let v := validateShortcutPayload_ (Some (row_payload entry.2)) in
  if ok v then None else Some (mkImportError (entry.1 + 1) (r_key entry.2) (message v)).

(** An import for the demo world: two rows for [foo], a new key and a row
    without content. *)
Definition demo_import_rows : list ImportRow :=
  [mkImportRow "foo" "renewed" "app" EmptyString "en" EmptyString;
   mkImportRow "zed" "fresh" "app" EmptyString "en" EmptyString;
   mkImportRow "foo" "again" "app" EmptyString "en" EmptyString;
   mkImportRow "nil" EmptyString "app" EmptyString "en" EmptyString].

Definition demo_import : ImportPayload :=
  mkImportPayload (Some " CSV ")
    (Some (csv_text [["Snippet Name"; "Content"]; ["foo"; "renewed"]; ["zed"; "fresh"];
                     ["foo"; "again"]; ["nil"; EmptyString]]))
    (Some "app") (Some "en").

(** * Properties *)

(** ** Strings *)

Lemma str_chars (s : string) : str (chars s) = s.
Proof. apply string_of_list_ascii_of_string. Qed.

Lemma chars_str (l : list ascii) : chars (str l) = l.
Proof. apply list_ascii_of_string_of_list_ascii. Qed.

Lemma chars_inj (s t : string) : chars s = chars t -> s = t.
Proof. intros E. rewrite <- (str_chars s), <- (str_chars t). by rewrite E. Qed.

Lemma chars_app (s t : string) : chars (s +:+ t) = chars s ++ chars t.
Proof. induction s as [|c s IH]; simpl; [done|]. by rewrite IH. Qed.

Lemma truthy_str_chars (s : string) : truthy_str s = true <-> chars s ≠ [].
Proof. destruct s; simpl; split; intros; done. Qed.

Lemma truthy_str_strlen (s : string) : truthy_str s = true <-> 0 < strlen s.
Proof. destruct s; unfold strlen; simpl; split; intros; (done || lia). Qed.

Lemma chars_join_from (acc : string) (cs : list string) :
  chars (foldl String.append acc cs) = chars acc ++ concat (map chars cs).
Proof.
  revert acc. induction cs as [|c cs IH]; intros acc; simpl.
  - by rewrite app_nil_r.
  - rewrite IH, chars_app. by rewrite <- app_assoc.
Qed.

Lemma chars_join_chunks (cs : list string) :
  chars (join_chunks cs) = concat (map chars cs).
Proof. unfold join_chunks. by rewrite chars_join_from. Qed.

(** ** The chunker *)

Lemma substring_list_window {A : Type} (l : list A) (a n : Z) :
  (0 <= a)%Z -> (0 <= n)%Z ->
  substring_list l a (a + n) = take (Z.to_nat n) (drop (Z.to_nat a) l).
Proof.
  intros Ha Hn. unfold substring_list, clamp.
  destruct (Z_lt_le_dec a (Z.of_nat (length l))) as [Hlt|Hge].
  - replace (Z.min (Z.min (Z.max a 0) (Z.of_nat (length l)))
                   (Z.min (Z.max (a + n) 0) (Z.of_nat (length l)))) with a by lia.
    destruct (Z_le_gt_dec (a + n) (Z.of_nat (length l))) as [Hin|Hout].
    + f_equal. lia.
    + rewrite !take_ge; [done| |]; rewrite length_drop; lia.
  - rewrite (drop_ge l (Z.to_nat a)) by lia.
    rewrite take_nil.
    replace (Z.to_nat _) with 0%nat by lia. done.
Qed.

Lemma chars_substring_window (s : string) (a n : Z) :
  (0 <= a)%Z -> (0 <= n)%Z ->
  chars (substring s a (a + n)) = take (Z.to_nat n) (drop (Z.to_nat a) (chars s)).
Proof.
  intros. unfold substring. by rewrite chars_str, substring_list_window.
Qed.

(** The loop from index [i]: with fuel for the characters that remain it
    ends, the chunks it adds concatenate to the rest of the string, and the
    [k]-th of them is the window of width [n] at [i + k * n], which starts
    inside the string. *)
Lemma chunk_loop_spec (s : string) (n : Z) (fuel : nat) :
  (1 <= n)%Z ->
  forall (i : nat) (out : list string),
    length (chars s) - i <= fuel ->
    exists cs : list string,
      chunk_loop fuel s n (Z.of_nat i) out = Some (out ++ cs)
      /\ concat (map chars cs) = drop i (chars s)
      /\ forall (k : nat) (c : string), cs !! k = Some c ->
           c = substring s (Z.of_nat i + Z.of_nat k * n) (Z.of_nat i + Z.of_nat k * n + n)
           /\ i + k * Z.to_nat n < length (chars s).
Proof.
  intros Hn. induction fuel as [|fuel IH]; intros i out Hfuel.
  - exists []. simpl. unfold strlen.
    destruct (Z.ltb_spec (Z.of_nat i) (Z.of_nat (length (chars s)))); [lia|].
    rewrite app_nil_r. split; [done|]. split.
    + rewrite drop_ge by lia. done.
    + intros k c Hk. done.
  - simpl. unfold strlen.
    destruct (Z.ltb_spec (Z.of_nat i) (Z.of_nat (length (chars s)))) as [Hlt|Hge].
    + destruct (IH (i + Z.to_nat n) (out ++ [substring s (Z.of_nat i) (Z.of_nat i + n)]))
        as (cs & Hrun & Hcat & Hwin); [lia|].
      exists (substring s (Z.of_nat i) (Z.of_nat i + n) :: cs).
      replace (Z.of_nat (i + Z.to_nat n)) with (Z.of_nat i + n)%Z in Hrun by lia.
      split; [by rewrite Hrun, <- app_assoc|]. split.
      * simpl. rewrite Hcat, chars_substring_window by lia.
        rewrite Nat2Z.id, <- drop_drop. apply take_drop.
      * intros [|k] c Hk; simpl in Hk.
        -- injection Hk as <-. split; [f_equal; lia | lia].
        -- destruct (Hwin k c Hk) as [-> Hin]. split; [f_equal; lia | lia].
    + exists []. rewrite app_nil_r. split; [done|]. split.
      * rewrite drop_ge by lia. done.
      * intros k c Hk. done.
Qed.

(** ** Cache keys and the chunk reader *)

Lemma chunk_key_inj (prefix : string) (i j : nat) :
  chunk_key prefix i = chunk_key prefix j -> i = j.
Proof.
  unfold chunk_key. intros E.
  apply (inj (String.append prefix)) in E.
  apply (inj (String.append "_")) in E.
  by apply (inj pretty) in E.
Qed.

Lemma chunk_payload_lookup_from (prefix : string) (cs : list string) (j k : nat) :
  (list_to_map (imap (fun i chunk => (chunk_key prefix (i + j), chunk)) cs)
     : gmap string string) !! chunk_key prefix (k + j) = cs !! k.
Proof.
  revert j k. induction cs as [|c cs IH]; intros j k; simpl.
  - by rewrite lookup_empty.
  - destruct k as [|k]; simpl.
    + by rewrite lookup_insert_eq.
    + rewrite lookup_insert_ne.
      2:{ intros E. apply chunk_key_inj in E. lia. }
      replace (S k + j) with (k + S j) by lia.
      rewrite <- (IH (S j) k).
      assert (imap ((fun i chunk => (chunk_key prefix (i + j), chunk)) ∘ S) cs
              = imap (fun i chunk => (chunk_key prefix (i + S j), chunk)) cs) as ->;
        [|do 2 f_equal; lia].
      apply imap_ext. intros i x _. simpl. do 2 f_equal. lia.
Qed.

Lemma chunk_payload_lookup (prefix : string) (cs : list string) (k : nat) :
  (list_to_map (chunk_payload prefix cs) : gmap string string)
    !! chunk_key prefix (S k) = cs !! k.
Proof.
  unfold chunk_payload. replace (S k) with (k + 1) by lia.
  apply chunk_payload_lookup_from.
Qed.

Section CacheProperties.
Context `{Platform}.

Lemma read_chunks_loop_ext (m1 m2 : gmap string string) (prefix : string)
    (n : nat) :
  forall (i : nat) (acc : string),
    (forall k, i <= k < i + n -> m1 !! chunk_key prefix k = m2 !! chunk_key prefix k) ->
    read_chunks_loop m1 prefix i n acc = read_chunks_loop m2 prefix i n acc.
Proof.
  induction n as [|n IH]; intros i acc Hagree; simpl; [done|].
  rewrite (Hagree i) by lia.
  destruct (m2 !! chunk_key prefix i) as [part|]; [|done].
  destruct (truthy_str part); [|done].
  apply IH. intros k Hk. apply Hagree. lia.
Qed.

(** [readChunksByKey_] leaves the world as it is and joins what the cache
    holds under the numbered keys. *)
Lemma readChunksByKey_run (prefix : string) (count : value) (w : World) :
  readChunksByKey_ prefix count w
  = (Ret (read_chunks_loop (cache w) prefix 1 (loop_count count) EmptyString), w).
Proof.
  unfold readChunksByKey_, bind, cache_getAll, gets, ret. f_equal. f_equal.
  apply read_chunks_loop_ext. intros k Hk.
  assert (chunk_key prefix k
          ∈ map (fun i => chunk_key prefix (S i)) (seq 0 (loop_count count))) as Hin.
  { apply list_elem_of_In, in_map_iff. exists (k - 1). split.
    - f_equal. lia.
    - apply in_seq. lia. }
  destruct (cache w !! chunk_key prefix k) as [x|] eqn:E.
  - apply map_lookup_filter_Some. done.
  - apply map_lookup_filter_None. left. done.
Qed.

(** The join of the reader over chunks that are all present and non-empty. *)
Lemma read_chunks_loop_join (m : gmap string string) (prefix : string)
    (cs : list string) :
  forall (i : nat) (acc : string),
    (forall k c, cs !! k = Some c ->
       m !! chunk_key prefix (i + k) = Some c /\ truthy_str c = true) ->
    read_chunks_loop m prefix i (length cs) acc = Some (foldl String.append acc cs).
Proof.
  induction cs as [|c cs IH]; intros i acc Hall; simpl; [done|].
  destruct (Hall 0 c eq_refl) as [Hc Ht].
  rewrite Nat.add_0_r in Hc. rewrite Hc, Ht.
  apply IH. intros k c' Hk.
  replace (S i + k) with (i + S k) by lia. by apply Hall.
Qed.

End CacheProperties.

Section ChunkerTheorem.
Context `{Platform}.

Lemma window_length (s : string) (n : Z) (k : nat) :
  (1 <= n)%Z ->
  k * Z.to_nat n < length (chars s) ->
  strlen (substring s (Z.of_nat k * n) (Z.of_nat k * n + n))
  = Nat.min (Z.to_nat n) (length (chars s) - k * Z.to_nat n).
Proof.
  intros Hn Hk. unfold strlen.
  rewrite chars_substring_window by lia.
  rewrite length_take, length_drop.
  replace (Z.to_nat (Z.of_nat k * n)) with (k * Z.to_nat n) by nia.
  done.
Qed.

(** The chunks of a string for a chunk size [n >= 1]: the loop ends, the
    chunks join to the string, and the [k]-th is the window of width [n] at
    [k * n], which starts inside the string. *)
Lemma chunkString_chunks (T : string) (n : Z) :
  (1 <= n)%Z ->
  exists cs : list string,
    chunkString_ T n = Some cs
    /\ join_chunks cs = T
    /\ forall (k : nat) (c : string), cs !! k = Some c ->
         c = substring T (Z.of_nat k * n) (Z.of_nat k * n + n)
         /\ k * Z.to_nat n < length (chars T).
Proof.
  intros Hn.
  destruct (chunk_loop_spec T n (strlen T) Hn 0 []) as (cs & Hrun & Hcat & Hwin).
  { unfold strlen. lia. }
  exists cs. split; [exact Hrun|]. split.
  - apply chars_inj. by rewrite chars_join_chunks, Hcat.
  - intros k c Hk. destruct (Hwin k c Hk) as [-> Hin]. split; [f_equal; lia | lia].
Qed.

Lemma chunkString_chunk_truthy (T : string) (n : Z) (cs : list string) (k : nat) (c : string) :
  (1 <= n)%Z ->
  (forall (k : nat) (c : string), cs !! k = Some c ->
     c = substring T (Z.of_nat k * n) (Z.of_nat k * n + n)
     /\ k * Z.to_nat n < length (chars T)) ->
  cs !! k = Some c ->
  truthy_str c = true.
Proof.
  intros Hn Hwin Hk. apply truthy_str_strlen.
  destruct (Hwin k c Hk) as [-> Hin]. rewrite window_length by done. lia.
Qed.

(** C4. For every string [T] and chunk size [n >= 1], [chunkString_(T, n)]
    returns chunks that are the consecutive windows of width [n] of [T], in
    order: each has between 1 and [n] characters, every chunk but the last
    has exactly [n], and their concatenation is [T]; and once the chunks
    are in the cache under their numbered keys, the join performed by
    [readChunksByKey_] returns [T]. *)
Theorem chunkString_join_roundtrip (T : string) (n : Z) :
  (1 <= n)%Z ->
  exists cs : list string,
    chunkString_ T n = Some cs
    /\ join_chunks cs = T
    /\ (forall (k : nat) (c : string), cs !! k = Some c ->
          c = substring T (Z.of_nat k * n) (Z.of_nat k * n + n)
          /\ 1 <= strlen c
          /\ (Z.of_nat (strlen c) <= n)%Z
          /\ (S k < length cs -> Z.of_nat (strlen c) = n))
    /\ (forall (prefix : string) (w : World),
          let w' := set_cache (fun c => list_to_map (chunk_payload prefix cs) ∪ c) w in
          readChunksByKey_ prefix (VNum (Num (Z.of_nat (length cs)))) w'
          = (Ret (Some T), w')).
Proof.
  intros Hn.
  destruct (chunkString_chunks T n Hn) as (cs & Hrun & Hjoin & Hlen).
  exists cs. split; [exact Hrun|]. split; [exact Hjoin|]. split.
  - intros k c Hk. destruct (Hlen k c Hk) as [-> Hin].
    rewrite window_length by done.
    split; [done|]. split; [lia|]. split; [lia|].
    intros Hnext.
    destruct (lookup_lt_is_Some_2 cs (S k) Hnext) as [c' Hc'].
    destruct (Hlen (S k) c' Hc') as [_ Hin']. lia.
  - intros prefix w w'. rewrite readChunksByKey_run. f_equal. f_equal.
    unfold loop_count. simpl. rewrite Nat2Z.id.
    rewrite read_chunks_loop_join; [by f_equal|].
    intros k c Hk. split.
    + unfold w', set_cache. simpl. apply lookup_union_Some_l.
      by rewrite chunk_payload_lookup.
    + exact (chunkString_chunk_truthy T n cs k c Hn Hlen Hk).
Qed.

End ChunkerTheorem.

(** ** The page reader *)

Lemma slice_window {A : Type} (l : list A) (a n : Z) :
  (0 <= a)%Z -> (0 <= n)%Z ->
  slice l a (a + n) = take (Z.to_nat n) (drop (Z.to_nat a) l).
Proof.
  intros Ha Hn. unfold slice, rel_index.
  destruct (Z.ltb_spec a 0); [lia|].
  destruct (Z.ltb_spec (a + n) 0); [lia|].
  destruct (Z_lt_le_dec a (Z.of_nat (length l))) as [Hlt|Hge].
  - replace (Z.min a (Z.of_nat (length l))) with a by lia.
    destruct (Z_le_gt_dec (a + n) (Z.of_nat (length l))) as [Hin|Hout].
    + f_equal. lia.
    + rewrite !take_ge; [done| |]; rewrite length_drop; lia.
  - rewrite (drop_ge l (Z.to_nat a)) by lia.
    rewrite take_nil.
    replace (Z.to_nat _) with 0%nat by lia. done.
Qed.

Section PagingProperties.
Context `{Platform}.

Lemma read_chunks_loop_missing (m : gmap string string) (prefix : string) (n : nat) :
  forall (i j : nat) (acc : string),
    i <= j < i + n ->
    m !! chunk_key prefix j = None ->
    read_chunks_loop m prefix i n acc = None.
Proof.
  induction n as [|n IH]; intros i j acc Hj Hnone; simpl; [lia|].
  destruct (decide (i = j)) as [->|Hne].
  - by rewrite Hnone.
  - destruct (m !! chunk_key prefix i) as [part|]; [|done].
    destruct (truthy_str part); [|done].
    apply (IH (S i) j); [lia | done].
Qed.

(** Reading the cache changes nothing. *)
Lemma readCacheByKey_world (prefix : string) (w : World) :
  (readCacheByKey_ prefix w).2 = w.
Proof.
  unfold readCacheByKey_. unfold bind at 1. unfold cache_get, gets.
  destruct (cache w !! meta_key prefix) as [raw|]; [|done].
  destruct (truthy_str raw); [|done].
  destruct (_ && _); [|done].
  unfold bind at 1.
  rewrite readChunksByKey_run.
  destruct (read_chunks_loop _ _ _ _ _) as [b64|]; [|done].
  destruct (truthy_str b64); [|done].
  unfold bind, decodeGzB64_. destruct (ungzipBase64 b64); done.
Qed.

Lemma readSnapshotCache_cached (token : string) (rows : list value) (w : World) :
  (readSnapshotCache_ token w).1 = Ret (Some rows) ->
  readSnapshotCache_ token w = (Ret (Some rows), w).
Proof.
  intros Hread. unfold readSnapshotCache_ in *.
  pose proof (readCacheByKey_world ("SNAP_" +:+ token) w) as Hw.
  destruct (readCacheByKey_ _ w) as [r w']. simpl in *. by subst.
Qed.

(** Without a meta record there is no snapshot to read. *)
Lemma fetchSnapshotPage_without_meta (token : string) (offset limit : value) (w : World) :
  cache w !! meta_key ("SNAP_" +:+ token) = None ->
  fetchSnapshotPage_ token offset limit w = (Ret (PageError "SNAPSHOT_EXPIRED"), w).
Proof.
  intros Hmeta.
  unfold fetchSnapshotPage_, readSnapshotCache_, readCacheByKey_.
  unfold bind at 1 2. unfold cache_get, gets. by rewrite Hmeta.
Qed.

(** The page computed from the cached rows, whatever the arguments. *)
Lemma fetchSnapshotPage_cached (token : string) (rows : list value)
    (offset limit : value) (w : World) :
  (readSnapshotCache_ token w).1 = Ret (Some rows) ->
  let start := num_or (toNumber offset) 0 in
  let count := num_or (toNumber limit) CFG.INITIAL_PAGE_SIZE in
  fetchSnapshotPage_ token offset limit w
  = (Ret (PageOk (mkPage (slice rows start (start + count))
                         (start + Z.of_nat (length (slice rows start (start + count))))
                         (Z.of_nat (length rows))
                         (start + count <? Z.of_nat (length rows))%Z
                         token)), w).
Proof.
  intros Hread. unfold fetchSnapshotPage_, bind.
  by rewrite (readSnapshotCache_cached _ _ _ Hread).
Qed.

Lemma fetchSnapshotPage_window (token : string) (rows : list value)
    (offset limit : Z) (w : World) :
  (readSnapshotCache_ token w).1 = Ret (Some rows) ->
  (0 <= offset)%Z -> (1 <= limit)%Z ->
  fetchSnapshotPage_ token (VNum (Num offset)) (VNum (Num limit)) w
  = (Ret (PageOk (mkPage (take (Z.to_nat limit) (drop (Z.to_nat offset) rows))
                         (offset + Z.of_nat (length (take (Z.to_nat limit)
                                                       (drop (Z.to_nat offset) rows))))
                         (Z.of_nat (length rows))
                         (offset + limit <? Z.of_nat (length rows))%Z
                         token)), w).
Proof.
  intros Hread Ho Hl.
  rewrite (fetchSnapshotPage_cached token rows _ _ w Hread). cbn [toNumber].
  assert (num_or (Num offset) 0 = offset) as ->.
  { unfold num_or. destruct (Z.eqb_spec offset 0); lia. }
  assert (num_or (Num limit) CFG.INITIAL_PAGE_SIZE = limit) as ->.
  { unfold num_or. destruct (Z.eqb_spec limit 0); lia. }
  by rewrite slice_window by lia.
Qed.

(** The walk from [from] with enough fuel collects the rest of the rows. *)
Lemma walk_loop_collects (token : string) (rows : list value) (k : Z) (w : World) :
  (readSnapshotCache_ token w).1 = Ret (Some rows) ->
  (1 <= k)%Z ->
  forall (fuel from : nat) (acc : list value),
    (Z.of_nat (length rows) - Z.of_nat from < Z.of_nat fuel * k)%Z ->
    from <= length rows ->
    walk_loop fuel token k (Z.of_nat from) acc w
    = (Ret (Some (acc ++ drop from rows)), w).
Proof.
  intros Hread Hk. induction fuel as [|fuel IH]; intros from acc Hfuel Hfrom.
  - lia.
  - simpl. unfold bind.
    rewrite (fetchSnapshotPage_window token rows _ _ w Hread) by lia.
    cbn [hasMore items offset]. rewrite Nat2Z.id.
    destruct (Z.ltb_spec (Z.of_nat from + k) (Z.of_nat (length rows))) as [Hmore|Hlast].
    + assert (length (take (Z.to_nat k) (drop from rows)) = Z.to_nat k) as Hlen.
      { rewrite length_take, length_drop. lia. }
      rewrite Hlen.
      replace (Z.of_nat from + Z.of_nat (Z.to_nat k))%Z
        with (Z.of_nat (from + Z.to_nat k)) by lia.
      rewrite IH by lia.
      rewrite <- app_assoc, <- drop_drop, take_drop. done.
    + unfold ret. rewrite take_ge; [done|]. rewrite length_drop. lia.
Qed.

End PagingProperties.

Section PagingTheorems.
Context `{Platform}.

(** C1. For an unexpired snapshot token whose cached row list is [rows],
    and for every offset [>= 0] and limit [>= 1],
    [fetchSnapshotPage_(token, offset, limit)] returns the window
    [rows[offset : offset + limit]] as items, [hasMore] equal to
    [rows.length > offset + limit], the new offset [offset + items.length]
    and [total = rows.length]; and the walk from offset 0 with that page
    size, until [hasMore] is false, ends and collects exactly [rows], each
    row once and in order. *)
Theorem fetchSnapshotPage_pages_rows (token : string) (rows : list value)
    (off lim : Z) (w : World) :
  (readSnapshotCache_ token w).1 = Ret (Some rows) ->
  (0 <= off)%Z -> (1 <= lim)%Z ->
  (exists p : Page,
     fetchSnapshotPage_ token (VNum (Num off)) (VNum (Num lim)) w
     = (Ret (PageOk p), w)
     /\ items p = take (Z.to_nat lim) (drop (Z.to_nat off) rows)
     /\ hasMore p = (off + lim <? Z.of_nat (length rows))%Z
     /\ offset p = (off + Z.of_nat (length (items p)))%Z
     /\ total p = Z.of_nat (length rows)
     /\ snapshotToken p = token)
  /\ (forall fuel : nat,
        (Z.of_nat (length rows) < Z.of_nat fuel * lim)%Z ->
        walkSnapshot fuel token lim w = (Ret (Some rows), w)).
Proof.
  intros Hread Ho Hl. split.
  - eexists. split.
    + apply (fetchSnapshotPage_window token rows off lim w Hread Ho Hl).
    + simpl. done.
  - intros fuel Hfuel. unfold walkSnapshot.
    change 0%Z with (Z.of_nat 0).
    rewrite (walk_loop_collects token rows lim w Hread Hl) by lia.
    done.
Qed.

(** C2. If the meta record of the snapshot is absent from the cache, or it
    is present and one of the chunks numbered 1 to its [chunkCount] is
    absent, [fetchSnapshotPage_] returns the expired signal
    [{error: 'SNAPSHOT_EXPIRED'}], whatever the offset and the limit, and
    so never a list of items. *)
Theorem fetchSnapshotPage_expired (token : string) (offset limit : value) (w : World) :
  let prefix := "SNAP_" +:+ token in
  (cache w !! meta_key prefix = None
   \/ exists (raw : string) (chunkCount : Z) (i : nat),
        cache w !! meta_key prefix = Some raw
        /\ toNumber (prop (safeJsonParse_ raw) "chunkCount") = Num chunkCount
        /\ (1 <= Z.of_nat i <= chunkCount)%Z
        /\ cache w !! chunk_key prefix i = None) ->
  fetchSnapshotPage_ token offset limit w = (Ret (PageError "SNAPSHOT_EXPIRED"), w).
Proof.
  intros prefix Hgone.
  unfold fetchSnapshotPage_, readSnapshotCache_, readCacheByKey_.
  fold prefix. unfold bind at 1 2. unfold cache_get, gets.
  destruct Hgone as [Hmeta | (raw & n & i & Hmeta & Hcount & Hi & Hchunk)];
    rewrite Hmeta; [done|].
  destruct (truthy_str raw); [|done].
  destruct (_ && _); [|done].
  unfold bind at 1. rewrite readChunksByKey_run.
  rewrite (read_chunks_loop_missing _ _ _ 1 i); [done| |done].
  unfold loop_count. rewrite Hcount. lia.
Qed.

(** C9. [fetchSnapshotPage_] coerces its arguments before slicing: with the
    rows cached, the page starts at [Number(offset) || 0] and has the size
    [Number(limit) || CFG.INITIAL_PAGE_SIZE]. So a limit that is 0, missing
    or not a number gives the page size 200, an offset that is missing or
    not a number gives the start 0, and a caller that asks for limit 0 gets
    the first 200 rows (all of them when there are fewer), not an empty
    page. *)
Theorem fetchSnapshotPage_defaults (token : string) (rows : list value)
    (offset limit : value) (w : World) :
  (readSnapshotCache_ token w).1 = Ret (Some rows) ->
  (exists p : Page,
     fetchSnapshotPage_ token offset limit w = (Ret (PageOk p), w)
     /\ items p = slice rows (num_or (toNumber offset) 0)
                    (num_or (toNumber offset) 0
                     + num_or (toNumber limit) CFG.INITIAL_PAGE_SIZE))
  /\ (toNumber limit = Num 0 \/ toNumber limit = NaN ->
      num_or (toNumber limit) CFG.INITIAL_PAGE_SIZE = 200%Z)
  /\ (toNumber offset = Num 0 \/ toNumber offset = NaN ->
      num_or (toNumber offset) 0 = 0%Z)
  /\ toNumber VUndefined = NaN
  /\ (forall off : value,
        off = VNum (Num 0) \/ off = VUndefined \/ off = VNum NaN ->
        forall lim : value,
          lim = VNum (Num 0) \/ lim = VUndefined \/ lim = VNum NaN ->
          exists p : Page,
            fetchSnapshotPage_ token off lim w = (Ret (PageOk p), w)
            /\ items p = take 200 rows
            /\ (rows <> [] -> items p <> [])).
Proof.
  intros Hread. split; [|split; [|split; [|split]]].
  - eexists. split; [apply (fetchSnapshotPage_cached token rows offset limit w Hread)|done].
  - intros [-> | ->]; done.
  - intros [-> | ->]; done.
  - done.
  - intros off Hoff lim Hlim. eexists. split.
    + apply (fetchSnapshotPage_cached token rows off lim w Hread).
    + cbn [items].
      assert (num_or (toNumber off) 0 = 0%Z) as ->.
      { destruct Hoff as [-> | [-> | ->]]; done. }
      assert (num_or (toNumber lim) CFG.INITIAL_PAGE_SIZE = 200%Z) as ->.
      { destruct Hlim as [-> | [-> | ->]]; done. }
      rewrite (slice_window rows 0 200) by lia.
      change (Z.to_nat 0) with 0. rewrite drop_0.
      change (Z.to_nat 200) with 200. split; [done|].
      destruct rows; [done|]. intros _. discriminate.
Qed.

End PagingTheorems.

(** ** The paging theorems on the test double *)

Example chunkString_abcde : chunkString_ "abcde" 2 = Some ["ab"; "cd"; "e"].
Proof. reflexivity. Qed.

Example chunkString_size_0_diverges : chunkString_ "abc" 0 = None.
Proof. reflexivity. Qed.

Example demo_snapshot_cached :
  (readSnapshotCache_ (H := demo_platform) "tok" demo_world).1 = Ret (Some demo_rows).
Proof. vm_compute. reflexivity. Qed.

Lemma chunkString_join_roundtrip_witness :
  (1 <= 2)%Z
  /\ exists cs : list string,
       chunkString_ "abcde" 2 = Some cs /\ join_chunks cs = "abcde".
Proof.
  split; [lia|].
  destruct (chunkString_join_roundtrip (H := demo_platform) "abcde" 2 ltac:(lia))
    as (cs & Hcs & Hjoin & _).
  exists cs. split; [exact Hcs | exact Hjoin].
Defined.

Lemma fetchSnapshotPage_pages_rows_witness :
  exists p : Page,
    fetchSnapshotPage_ (H := demo_platform) "tok" (VNum (Num 1)) (VNum (Num 1)) demo_world
    = (Ret (PageOk p), demo_world)
    /\ items p = [VObj [("key", VStr "b")]].
Proof.
  destruct (fetchSnapshotPage_pages_rows (H := demo_platform) "tok" demo_rows 1 1 demo_world)
    as [(p & Hfetch & Hitems & _) _].
  - vm_compute. reflexivity.
  - lia.
  - lia.
  - exists p. split; [exact Hfetch | exact Hitems].
Defined.

Lemma fetchSnapshotPage_expired_witness :
  fetchSnapshotPage_ (H := demo_platform) "tok" (VNum (Num 0)) (VNum (Num 2))
    (set_cache (delete "SNAP_tok_1") demo_world)
  = (Ret (PageError "SNAPSHOT_EXPIRED"), set_cache (delete "SNAP_tok_1") demo_world).
Proof.
  apply (fetchSnapshotPage_expired (H := demo_platform)).
  right. exists "META", 1%Z, 1.
  split; [vm_compute; reflexivity|].
  split; [vm_compute; reflexivity|].
  split; [lia|].
  vm_compute. reflexivity.
Defined.

Lemma fetchSnapshotPage_defaults_witness :
  exists p : Page,
    fetchSnapshotPage_ (H := demo_platform) "tok" VUndefined (VNum (Num 0)) demo_world
    = (Ret (PageOk p), demo_world)
    /\ items p = take 200 demo_rows.
Proof.
  destruct (fetchSnapshotPage_defaults (H := demo_platform) "tok" demo_rows
              VUndefined (VNum (Num 0)) demo_world)
    as (_ & _ & _ & _ & Hzero).
  - vm_compute. reflexivity.
  - destruct (Hzero VUndefined ltac:(auto) (VNum (Num 0)) ltac:(auto))
      as (p & Hfetch & Hitems & _).
    exists p. split; [exact Hfetch | exact Hitems].
Defined.

(** ** Trimming *)

Lemma drop_white_idem (l : list ascii) : drop_white (drop_white l) = drop_white l.
Proof.
  induction l as [|c l IH]; simpl; [done|].
  destruct (is_white c) eqn:E; [done|]. simpl. by rewrite E.
Qed.

Lemma drop_white_snoc (l : list ascii) (c : ascii) :
  is_white c = false -> drop_white (l ++ [c]) = drop_white l ++ [c].
Proof.
  intros Hc. induction l as [|d l IH]; simpl.
  - by rewrite Hc.
  - destruct (is_white d); done.
Qed.

Lemma drop_white_head (l : list ascii) :
  drop_white l = [] \/ exists c m, drop_white l = c :: m /\ is_white c = false.
Proof.
  induction l as [|c l IH]; simpl; [by left|].
  destruct (is_white c) eqn:E; [done|]. right. eauto.
Qed.

Lemma trim_list_idem (l : list ascii) : trim_list (trim_list l) = trim_list l.
Proof.
  unfold trim_list.
  destruct (drop_white_head l) as [-> | (c & m & -> & Hc)]; [done|].
  change (rev (c :: m)) with (rev m ++ [c]).
  rewrite drop_white_snoc by done.
  assert (drop_white (drop_white (rev m)) = drop_white (rev m)) as Hidem
    by apply drop_white_idem.
  revert Hidem. generalize (drop_white (rev m)). intros X HX.
  rewrite rev_app_distr. simpl. rewrite Hc. simpl.
  rewrite rev_involutive, drop_white_snoc by done.
  by rewrite HX, rev_app_distr.
Qed.

Lemma trim_idem (s : string) : trim (trim s) = trim s.
Proof. unfold trim. by rewrite chars_str, trim_list_idem. Qed.

(** ** Deleting rows from the bottom up *)

Lemma positions_from_app {A : Type} (p : A -> bool) (base : nat) (l1 l2 : list A) :
  positions_from p base (l1 ++ l2)
  = positions_from p base l1 ++ positions_from p (base + length l1) l2.
Proof.
  revert base. induction l1 as [|x l1 IH]; intros base; simpl.
  - by rewrite Nat.add_0_r.
  - rewrite IH. replace (S base + length l1) with (base + S (length l1)) by lia.
    destruct (p x); done.
Qed.

Lemma positions_from_bounds {A : Type} (p : A -> bool) (base : nat) (l : list A) :
  Forall (fun r => base <= r < base + length l) (positions_from p base l).
Proof.
  revert base. induction l as [|x l IH]; intros base; simpl; [constructor|].
  assert (Forall (fun r => base <= r < base + S (length l))
                 (positions_from p (S base) l)) as Htail.
  { eapply Forall_impl; [apply IH|]. simpl. intros r ?. lia. }
  destruct (p x); [constructor; [lia|done] | done].
Qed.

Lemma positions_from_ascending {A : Type} (p : A -> bool) (base : nat) (l : list A) :
  StronglySorted lt (positions_from p base l).
Proof.
  revert base. induction l as [|x l IH]; intros base; simpl; [constructor|].
  destruct (p x); [|apply IH].
  constructor; [apply IH|].
  eapply Forall_impl; [apply positions_from_bounds|]. simpl. intros r ?. lia.
Qed.

Lemma positions_from_length {A : Type} (p : A -> bool) (base : nat) (l : list A) :
  length (positions_from p base l) = length (filter (fun x => p x = true) l).
Proof.
  revert base. induction l as [|x l IH]; intros base; simpl; [done|].
  destruct (p x) eqn:Hx.
  - rewrite filter_cons_True by done. simpl. by rewrite IH.
  - rewrite filter_cons_False by (rewrite Hx; done). apply IH.
Qed.

Lemma desc_below_weaken (b b' : nat) (rs : list nat) :
  b <= b' -> desc_below b rs -> desc_below b' rs.
Proof. destruct rs as [|r rs]; simpl; [done|]. intros ? [? ?]. split; [lia|done]. Qed.

Lemma desc_below_rev_positions {A : Type} (p : A -> bool) (base : nat) (l : list A) :
  1 <= base ->
  desc_below (base + length l - 1) (rev (positions_from p base l)).
Proof.
  intros Hbase. induction l as [|x l IH] using rev_ind; simpl; [done|].
  rewrite positions_from_app, rev_app_distr, length_app. simpl.
  destruct (p x); simpl.
  - split; [lia|]. eapply desc_below_weaken; [|apply IH]. lia.
  - eapply desc_below_weaken; [|apply IH]. lia.
Qed.

Lemma delete_rows_app_l (rs : list nat) :
  forall (g t : Sheet),
    desc_below (length g) rs ->
    delete_rows rs (g ++ t) = delete_rows rs g ++ t.
Proof.
  induction rs as [|r rs IH]; intros g t Hrs; simpl; [done|].
  destruct Hrs as [Hr Hrest].
  rewrite delete_take_drop, drop_app_le, take_app_le by lia.
  rewrite app_assoc, <- delete_take_drop.
  apply IH. eapply desc_below_weaken; [|exact Hrest].
  rewrite length_delete; [lia|]. apply lookup_lt_is_Some_2. lia.
Qed.

(** Deleting, from the bottom up, the rows that satisfy [p] leaves the
    others, in their order. *)
Lemma delete_rows_positions (p : list string -> bool) (pre l : Sheet) :
  delete_rows (rev (positions_from p (length pre + 1) l)) (pre ++ l)
  = pre ++ filter (fun r => p r = false) l.
Proof.
  induction l as [|x l IH] using rev_ind; simpl; [done|].
  rewrite positions_from_app, rev_app_distr, filter_app. simpl.
  destruct (p x) eqn:Hx; simpl.
  - rewrite filter_cons_False, filter_nil by (rewrite Hx; done). rewrite app_nil_r.
    replace (length pre + 1 + length l - 1) with (length (pre ++ l))
      by (rewrite length_app; lia).
    rewrite app_assoc. rewrite delete_take_drop.
    rewrite take_app_length, drop_app_ge by lia.
    replace (S (length (pre ++ l)) - length (pre ++ l)) with 1 by lia.
    simpl. rewrite app_nil_r. apply IH.
  - rewrite filter_cons_True, filter_nil by done.
    rewrite !app_assoc. rewrite delete_rows_app_l.
    + by rewrite IH.
    + eapply desc_below_weaken; [|apply desc_below_rev_positions; lia].
      rewrite length_app. lia.
Qed.

Lemma rev_is_reverse {A : Type} (l : list A) : rev l = reverse l.
Proof. unfold reverse. apply rev_alt. Qed.

Lemma sort_desc_ascending (l : list nat) :
  StronglySorted lt l -> sort_desc l = rev l.
Proof.
  intros Hl. unfold sort_desc.
  assert (Transitive (flip Nat.le)) by (intros x y z; unfold flip; lia).
  assert (AntiSymm eq (flip Nat.le)) by (intros x y; unfold flip; lia).
  assert (Total (flip Nat.le)) by (intros x y; unfold flip; lia).
  apply (Sorted_unique (flip Nat.le)).
  - by apply Sorted_merge_sort.
  - rewrite rev_is_reverse. apply (Sorted_reverse Nat.le).
    apply StronglySorted_Sorted.
    induction Hl as [|x l' Hl' IH Hx]; constructor; [done|].
    eapply Forall_impl; [exact Hx|]. simpl. intros y ?. lia.
  - rewrite merge_sort_Permutation. by rewrite rev_is_reverse, reverse_Permutation.
Qed.

(** ** The row finders as positions of matching rows *)

Lemma find_rows_from_positions (c : option nat) (target : string) (rows : Sheet) (i : nat) :
  find_rows_from i (map (fun r => trim (cell r c)) rows) target
  = positions_from (fun r => String.eqb (trim (cell r c)) target) (i + 2) rows.
Proof.
  revert i. induction rows as [|r rows IH]; intros i; simpl; [done|].
  rewrite trim_idem, (IH (S i)).
  destruct (String.eqb _ _); done.
Qed.

Lemma favorite_rows_of_key_positions (col : FavoriteCols) (k : string) (rows : Sheet) (i : nat) :
  favorite_rows_of_key i rows col k
  = positions_from (fun r => String.eqb (trim (cell r (fav_key col))) k) (i + 1) rows.
Proof.
  revert i. induction rows as [|r rows IH]; intros i; simpl; [done|].
  rewrite (IH (S i)). destruct (String.eqb _ _); done.
Qed.

Lemma favorite_rows_of_pair_positions (col : FavoriteCols) (e k : string) (rows : Sheet) (i : nat) :
  favorite_rows_of_pair i rows col e k
  = positions_from (fun r => String.eqb (trim (cell r (fav_userEmail col))) e
                             && String.eqb (trim (cell r (fav_key col))) k)
                   (i + 1) rows.
Proof.
  revert i. induction rows as [|r rows IH]; intros i; simpl; [done|].
  rewrite (IH (S i)). destruct (_ && _); done.
Qed.

(** ** Runs of the sheet primitives *)

Lemma with_sheet_lookup (name : string) (g : Sheet) (evs : list Event) (w : World) :
  sheets (with_sheet name g evs w) !! name = Some g.
Proof. simpl. apply lookup_insert_eq. Qed.

Lemma with_sheet_lookup_ne (name other : string) (g : Sheet) (evs : list Event) (w : World) :
  name <> other ->
  sheets (with_sheet name g evs w) !! other = sheets w !! other.
Proof. intros. simpl. by apply lookup_insert_ne. Qed.

Lemma with_sheet_twice (name : string) (g1 g2 : Sheet) (e1 e2 : list Event) (w : World) :
  with_sheet name g2 e2 (with_sheet name g1 e1 w) = with_sheet name g2 (e1 ++ e2) w.
Proof. unfold with_sheet. simpl. by rewrite insert_insert_eq, app_assoc. Qed.

Lemma with_sheet_same (name : string) (g : Sheet) (w : World) :
  sheets w !! name = Some g -> with_sheet name g [] w = w.
Proof.
  intros Hg. destruct w. unfold with_sheet. simpl in *.
  by rewrite insert_id, app_nil_r.
Qed.

Lemma sheet_grid_run (name : string) (g : Sheet) (w : World) :
  sheets w !! name = Some g -> sheet_grid name w = (Ret g, w).
Proof. intros Hg. unfold sheet_grid. by rewrite Hg. Qed.

Lemma getDataRangeValues_run (name : string) (g : Sheet) (w : World) :
  sheets w !! name = Some g ->
  getDataRangeValues name w
  = (Ret (match g with [] => [[EmptyString]] | _ :: _ => g end), w).
Proof.
  intros Hg. unfold getDataRangeValues, bind. by rewrite (sheet_grid_run _ _ _ Hg).
Qed.

Lemma getSheet_run (name : string) (g : Sheet) (w : World) :
  sheets w !! name = Some g -> getSheet_ name w = (Ret name, w).
Proof. intros Hg. unfold getSheet_, bind, getSheetByName, gets. by rewrite Hg. Qed.

Lemma deleteRow_run (name : string) (g : Sheet) (r : nat) (w : World) :
  sheets w !! name = Some g -> 1 <= r ->
  deleteRow name r w = (Ret tt, with_sheet name (delete (r - 1) g) [EvDeleteRow name r] w).
Proof.
  intros Hg Hr. unfold deleteRow, bind. rewrite (sheet_grid_run _ _ _ Hg).
  destruct (Nat.eqb_spec r 0); [lia|]. done.
Qed.

Lemma appendRow_run (name : string) (g : Sheet) (row : list string) (w : World) :
  sheets w !! name = Some g ->
  appendRow name row w = (Ret tt, with_sheet name (g ++ [row]) [EvAppendRow name row] w).
Proof.
  intros Hg. unfold appendRow, bind. by rewrite (sheet_grid_run _ _ _ Hg).
Qed.

Lemma for_each_deleteRow_run (name : string) (rs : list nat) :
  forall (g : Sheet) (w : World),
    sheets w !! name = Some g ->
    Forall (fun r => 1 <= r) rs ->
    for_each rs (deleteRow name) w
    = (Ret tt, with_sheet name (delete_rows rs g) (map (EvDeleteRow name) rs) w).
Proof.
  induction rs as [|r rs IH]; intros g w Hg Hrs; simpl.
  - unfold ret. by rewrite with_sheet_same.
  - inversion Hrs as [|? ? Hr Hrest]; subst.
    unfold bind. rewrite (deleteRow_run _ _ _ _ Hg Hr).
    rewrite (IH (delete (r - 1) g)); [|apply with_sheet_lookup|done].
    by rewrite with_sheet_twice.
Qed.

Lemma desc_below_ge_1 (b : nat) (rs : list nat) :
  desc_below b rs -> Forall (fun r => 1 <= r) rs.
Proof.
  revert b. induction rs as [|r rs IH]; intros b; simpl; [constructor|].
  intros [? Hrest]. constructor; [lia|]. by apply (IH (r - 1)).
Qed.

(** The rows that satisfy [p] among the data rows of a sheet, deleted from
    the bottom up: the sheet keeps its header and the other rows. *)
Lemma delete_matching_run (name : string) (p : list string -> bool)
    (header : list string) (rows : Sheet) (w : World) :
  sheets w !! name = Some (header :: rows) ->
  for_each (rev (positions_from p 2 rows)) (deleteRow name) w
  = (Ret tt,
     with_sheet name (header :: filter (fun r => p r = false) rows)
                (map (EvDeleteRow name) (rev (positions_from p 2 rows))) w).
Proof.
  intros Hg.
  rewrite (for_each_deleteRow_run name _ (header :: rows) w Hg).
  - pose proof (delete_rows_positions p [header] rows) as Hdel.
    simpl in Hdel. by rewrite Hdel.
  - eapply desc_below_ge_1. apply (desc_below_rev_positions p 2 rows). lia.
Qed.

(** ** The header index *)

Lemma lower_char_idem (c : ascii) : lower_char (lower_char c) = lower_char c.
Proof. destruct c as [[] [] [] [] [] [] [] []]; reflexivity. Qed.

Lemma toLowerCase_idem (s : string) : toLowerCase (toLowerCase s) = toLowerCase s.
Proof.
  unfold toLowerCase. rewrite chars_str, map_map. f_equal.
  apply map_ext. intros c. apply lower_char_idem.
Qed.

(** A name with a capital in it is not the lower case of anything. *)
Lemma toLowerCase_ne (s name : string) :
  toLowerCase name <> name -> toLowerCase s <> name.
Proof. intros Hname E. apply Hname. by rewrite <- E, toLowerCase_idem. Qed.

Lemma indexHeader_snoc (l : list string) (x : string) :
  indexHeader_ (l ++ [x]) = indexHeader_step (indexHeader_ l) (length l, x).
Proof.
  unfold indexHeader_. rewrite imap_app, foldl_app. simpl.
  by rewrite Nat.add_0_r.
Qed.

Lemma indexHeader_sound (hdr : list string) (name : string) (j : nat) :
  indexHeader_ hdr !! name = Some j ->
  exists c, hdr !! j = Some c
            /\ truthy_str (trim c) = true
            /\ (trim c = name \/ toLowerCase (trim c) = name).
Proof.
  revert j. induction hdr as [|x l IH] using rev_ind; intros j.
  - unfold indexHeader_. simpl. by rewrite lookup_empty.
  - rewrite indexHeader_snoc. unfold indexHeader_step. simpl.
    assert (Hold : indexHeader_ l !! name = Some j ->
                   exists c, (l ++ [x]) !! j = Some c
                             /\ truthy_str (trim c) = true
                             /\ (trim c = name \/ toLowerCase (trim c) = name)).
    { intros Hj. destruct (IH j Hj) as (c & Hc & Hrest).
      exists c. split; [|done]. by apply lookup_app_l_Some. }
    destruct (truthy_str (trim x)) eqn:Hx; [|exact Hold].
    assert (Hlast : (l ++ [x]) !! length l = Some x).
    { rewrite lookup_app_r by lia. by rewrite Nat.sub_diag. }
    destruct (decide (toLowerCase (trim x) = name)) as [E|Hne].
    + rewrite E, lookup_insert_eq. intros [= <-]. exists x. auto.
    + rewrite lookup_insert_ne by done.
      destruct (decide (trim x = name)) as [E|Hne'].
      * rewrite E, lookup_insert_eq. intros [= <-]. exists x. auto.
      * by rewrite lookup_insert_ne.
Qed.

Lemma indexHeader_complete (hdr : list string) (i : nat) (c : string) :
  hdr !! i = Some c -> truthy_str (trim c) = true ->
  is_Some (indexHeader_ hdr !! trim c).
Proof.
  revert i. induction hdr as [|x l IH] using rev_ind; intros i Hi Hc; [done|].
  rewrite indexHeader_snoc. unfold indexHeader_step. simpl.
  destruct (decide (i < length l)) as [Hlt|Hge].
  - rewrite lookup_app_l in Hi by done.
    pose proof (IH i Hi Hc) as Hin.
    destruct (truthy_str (trim x)); [|done].
    rewrite !lookup_insert. repeat case_decide; eauto.
  - assert (i = length l) as ->.
    { apply lookup_lt_Some in Hi. rewrite length_app in Hi. simpl in Hi. lia. }
    rewrite lookup_app_r, Nat.sub_diag in Hi by lia. injection Hi as ->.
    rewrite Hc. rewrite !lookup_insert. repeat case_decide; eauto; done.
Qed.

Lemma indexHeader_pad (l : list string) (k : nat) :
  indexHeader_ (l ++ replicate k EmptyString) = indexHeader_ l.
Proof.
  induction k as [|k IH]; simpl.
  - by rewrite app_nil_r.
  - rewrite replicate_cons_app, app_assoc, indexHeader_snoc, IH. done.
Qed.

Lemma pad_row_ge (n : nat) (row : list string) :
  length row <= n -> pad_row n row = row ++ replicate (n - length row) EmptyString.
Proof.
  intros Hn. unfold pad_row. rewrite take_app_ge by done.
  by rewrite take_replicate, Nat.min_l by lia.
Qed.

Lemma indexHeader_pad_row (n : nat) (row : list string) :
  length row <= n -> indexHeader_ (pad_row n row) = indexHeader_ row.
Proof. intros Hn. by rewrite pad_row_ge, indexHeader_pad. Qed.

Lemma last_column_head (g : Sheet) : length (default [] (head g)) <= last_column g.
Proof. destruct g as [|r g]; simpl; lia. Qed.

(** With such a header row, a header name that has a capital in it and is
    not blank is indexed, at a column whose cell, trimmed, is that name. *)
Lemma indexHeader_of_header (hdr headers : list string) (i : nat) (name : string) :
  header_has hdr headers ->
  headers !! i = Some name ->
  truthy_str name = true ->
  toLowerCase name <> name ->
  exists j c, indexHeader_ hdr !! name = Some j
              /\ hdr !! j = Some c /\ trim c = name.
Proof.
  intros Hhas Hi Hname Hcap.
  pose proof (Hhas i name Hi) as Hcell. unfold cell in Hcell.
  destruct (hdr !! i) as [c|] eqn:Hc; simpl in Hcell.
  2:{ rewrite <- Hcell in Hname. done. }
  destruct (indexHeader_complete hdr i c Hc) as [j Hj]; [by rewrite Hcell|].
  rewrite Hcell in Hj.
  destruct (indexHeader_sound hdr name j Hj) as (c' & Hc' & _ & [E|E]).
  - exists j, c'. done.
  - by apply toLowerCase_ne in E.
Qed.

(** ** Sheet set-up *)

Lemma header_has_written (headers rest : list string) :
  Forall (fun h => trim h = h) headers ->
  header_has (headers ++ rest) headers.
Proof.
  intros Htrim i h Hi. unfold cell.
  rewrite (lookup_app_l_Some _ _ _ _ Hi). simpl.
  eapply Forall_lookup_1 in Htrim; [|exact Hi]. done.
Qed.

Lemma ensureHeaderRow_run (name : string) (headers : list string) (g : Sheet) (w : World) :
  sheets w !! name = Some g ->
  0 < length headers ->
  Forall (fun h => trim h = h) headers ->
  exists (g' : Sheet) (evs : list Event),
    ensureHeaderRow_ name headers w = (Ret tt, with_sheet name g' evs w)
    /\ g' <> []
    /\ drop 1 g' = drop 1 g
    /\ header_has (default [] (head g')) headers
    /\ Forall (fun e => is_setup e = true) evs.
Proof.
  intros Hg Hlen Htrim.
  unfold ensureHeaderRow_, getLastColumn, getRow1, getLastRow, bind, ret.
  rewrite (sheet_grid_run _ _ _ Hg). cbv beta iota zeta.
  rewrite (sheet_grid_run _ _ _ Hg). cbv beta iota zeta.
  destruct (Nat.eqb_spec (Nat.max (last_column g) (length headers)) 0) as [E|_]; [lia|].
  rewrite (sheet_grid_run _ _ _ Hg). cbv beta iota zeta.
  set (row1 := pad_row (Nat.max (last_column g) (length headers)) (default [] (head g))).
  destruct (orb _ _) eqn:Hcond.
  - exists (write_row1 headers g), [EvSetHeader name headers].
    split; [|split; [|split; [|split]]].
    + unfold setRow1, bind. by rewrite (sheet_grid_run _ _ _ Hg).
    + destruct g; done.
    + destruct g; done.
    + destruct g as [|r g]; simpl.
      * rewrite <- (app_nil_r headers) at 1. by apply header_has_written.
      * by apply header_has_written.
    + by repeat constructor.
  - apply orb_false_iff in Hcond as [Hrows Hneeds].
    exists g, []. split; [|split; [|split; [|split]]].
    + by rewrite with_sheet_same.
    + destruct g; [done|]. done.
    + done.
    + intros i h Hi.
      assert (map trim row1 !! i = Some h) as Hex.
      { destruct (decide (map trim row1 !! i = Some h)) as [|Hne]; [done|].
        exfalso. apply not_true_iff_false in Hneeds. apply Hneeds.
        apply existsb_exists. exists (i, h). split.
        - apply list_elem_of_In, list_elem_of_lookup. exists i.
          by rewrite list_lookup_imap, Hi.
        - simpl. by apply bool_decide_eq_true. }
      change (map trim row1) with (trim <$> row1) in Hex.
      rewrite list_lookup_fmap in Hex.
      destruct (row1 !! i) as [c|] eqn:Hc; [|done]. simpl in Hex.
      injection Hex as <-. unfold row1 in Hc.
      rewrite pad_row_ge in Hc by (pose proof (last_column_head g); lia).
      unfold cell.
      destruct (default [] (head g) !! i) as [c'|] eqn:Hc'; simpl.
      * rewrite (lookup_app_l_Some _ _ _ _ Hc') in Hc. by injection Hc as ->.
      * apply lookup_ge_None in Hc'. rewrite lookup_app_r in Hc by done.
        apply lookup_replicate in Hc as [-> _]. done.
    + constructor.
Qed.

(** ** Stepping through a script *)

Lemma bind_run {A B : Type} (m : M A) (k : A -> M B) (w w' : World) (a : A) :
  m w = (Ret a, w') -> bind m k w = k a w'.
Proof. intros E. unfold bind. by rewrite E. Qed.

Lemma bind_throw {A B : Type} (m : M A) (k : A -> M B) (w w' : World) (msg : string) :
  m w = (Throw msg, w') -> bind m k w = (Throw msg, w').
Proof. intros E. unfold bind. by rewrite E. Qed.

Lemma try_catch_ret {A : Type} (body : M A) (handler : string -> M A)
    (w w' : World) (a : A) :
  body w = (Ret a, w') -> try_catch body handler w = (Ret a, w').
Proof. intros E. unfold try_catch. by rewrite E. Qed.

Lemma try_finally_run {A : Type} (body : M A) (fin : M unit)
    (w w' w'' : World) (r : outcome A) :
  body w = (r, w') -> fin w' = (Ret tt, w'') -> try_finally body fin w = (r, w'').
Proof. intros E1 E2. unfold try_finally. by rewrite E1, E2. Qed.

Lemma bind_assoc {A B C : Type} (m : M A) (f : A -> M B) (g : B -> M C) (w : World) :
  bind (bind m f) g w = bind m (fun x => bind (f x) g) w.
Proof. unfold bind. destruct (m w) as [[a|msg] w']; done. Qed.

Lemma ensure_sheet_exists_run (name : string) (w : World) :
  exists evs : list Event,
    bind (getSheetByName name)
         (fun sheet => if sheet is None then insertSheet name else ret tt) w
    = (Ret tt, with_sheet name (default [] (sheets w !! name)) evs w)
    /\ Forall (fun e => is_setup e = true) evs.
Proof.
  unfold bind, getSheetByName, gets.
  destruct (sheets w !! name) as [g|] eqn:Hg; simpl.
  - exists []. split; [|constructor]. unfold ret. by rewrite with_sheet_same.
  - exists [EvInsertSheet name]. split; [done|]. by repeat constructor.
Qed.

Lemma trimmed_shortcut_headers : Forall (fun h => trim h = h) HEADERS_SHORTCUTS.
Proof. repeat constructor. Qed.

Lemma trimmed_favorite_headers : Forall (fun h => trim h = h) HEADERS_FAVORITES.
Proof. repeat constructor. Qed.

Lemma ensureSheets_run (w : World) :
  exists w' : World, ensureSheets_ w = (Ret tt, w') /\ sheets_ready w w'.
Proof.
  unfold ensureSheets_.
  destruct (ensure_sheet_exists_run CFG.SHEET_SHORTCUTS w) as (e1 & Hrun1 & He1).
  set (w1 := with_sheet CFG.SHEET_SHORTCUTS
               (default [] (sheets w !! CFG.SHEET_SHORTCUTS)) e1 w) in *.
  destruct (ensure_sheet_exists_run CFG.SHEET_FAVORITES w1) as (e2 & Hrun2 & He2).
  set (w2 := with_sheet CFG.SHEET_FAVORITES
               (default [] (sheets w1 !! CFG.SHEET_FAVORITES)) e2 w1) in *.
  assert (HS2 : sheets w2 !! CFG.SHEET_SHORTCUTS
                = Some (default [] (sheets w !! CFG.SHEET_SHORTCUTS))).
  { unfold w2. rewrite with_sheet_lookup_ne by done. apply with_sheet_lookup. }
  destruct (ensureHeaderRow_run CFG.SHEET_SHORTCUTS HEADERS_SHORTCUTS _ w2 HS2)
    as (gS & e3 & Hrun3 & HgS & HdS & HhS & He3);
    [simpl; lia | apply trimmed_shortcut_headers |].
  set (w3 := with_sheet CFG.SHEET_SHORTCUTS gS e3 w2) in *.
  assert (HF3 : sheets w3 !! CFG.SHEET_FAVORITES
                = Some (default [] (sheets w !! CFG.SHEET_FAVORITES))).
  { unfold w3. rewrite with_sheet_lookup_ne by done.
    unfold w2. rewrite with_sheet_lookup. f_equal. f_equal.
    unfold w1. by rewrite with_sheet_lookup_ne. }
  destruct (ensureHeaderRow_run CFG.SHEET_FAVORITES HEADERS_FAVORITES _ w3 HF3)
    as (gF & e4 & Hrun4 & HgF & HdF & HhF & He4);
    [simpl; lia | apply trimmed_favorite_headers |].
  exists (with_sheet CFG.SHEET_FAVORITES gF e4 w3). split.
  - rewrite <- bind_assoc. rewrite (bind_run _ _ _ _ _ Hrun1).
    rewrite <- bind_assoc. rewrite (bind_run _ _ _ _ _ Hrun2).
    rewrite (bind_run _ _ _ _ _ Hrun3). exact Hrun4.
  - exists gS, gF, (e1 ++ e2 ++ e3 ++ e4).
    split; [|split; [|split; [|split; [|split; [|split; [|split; [|split]]]]]]].
    + rewrite with_sheet_lookup_ne by done. apply with_sheet_lookup.
    + apply with_sheet_lookup.
    + done.
    + done.
    + done.
    + done.
    + done.
    + done.
    + simpl. rewrite <- !app_assoc. repeat split; try done.
      rewrite !Forall_app. done.
Qed.

(** ** Cells and the column map of the Shortcuts sheet *)

Lemma cell_array_set_eq (j : nat) (v : string) (row : list string) :
  cell (array_set (Some j) v row) (Some j) = v.
Proof.
  unfold cell, array_set. destruct (Nat.ltb_spec j (length row)) as [Hlt|Hge].
  - by rewrite list_lookup_insert_eq.
  - rewrite lookup_app_r by done. rewrite lookup_app_r by (rewrite length_replicate; lia).
    rewrite length_replicate. by rewrite Nat.sub_diag.
Qed.

Lemma cell_array_set_ne (i j : nat) (v : string) (row : list string) :
  i <> j -> cell (array_set (Some j) v row) (Some i) = cell row (Some i).
Proof.
  intros Hne. unfold cell, array_set.
  destruct (Nat.ltb_spec j (length row)) as [Hlt|Hge].
  - by rewrite list_lookup_insert_ne.
  - destruct (decide (i < length row)) as [Hi|Hi].
    + by rewrite lookup_app_l.
    + rewrite (lookup_ge_None_2 row i) by lia. simpl.
      rewrite lookup_app_r by lia.
      destruct (decide (i - length row < j - length row)) as [Hpad|Hpad].
      * rewrite lookup_app_l by (rewrite length_replicate; lia).
        rewrite lookup_replicate_2 by lia. done.
      * rewrite lookup_app_r by (rewrite length_replicate; lia).
        rewrite length_replicate.
        rewrite lookup_ge_None_2; [done|]. simpl. lia.
Qed.

Lemma column_of_distinct (hdr : list string) (n1 n2 : string) (j1 j2 : nat) :
  column_of hdr n1 j1 -> column_of hdr n2 j2 -> n1 <> n2 -> j1 <> j2.
Proof.
  intros (_ & c1 & Hc1 & Ht1) (_ & c2 & Hc2 & Ht2) Hne ->.
  rewrite Hc1 in Hc2. injection Hc2 as ->. congruence.
Qed.

Lemma column_of_header (hdr headers : list string) (i : nat) (name : string) :
  header_has hdr headers ->
  headers !! i = Some name ->
  truthy_str name = true ->
  toLowerCase name <> name ->
  exists j, column_of hdr name j.
Proof.
  intros Hhas Hi Hname Hcap.
  destruct (indexHeader_of_header hdr headers i name Hhas Hi Hname Hcap)
    as (j & c & Hj & Hc & Ht).
  exists j. split; [done|]. eauto.
Qed.

Lemma shortcut_columns (hdr : list string) :
  header_has hdr HEADERS_SHORTCUTS ->
  exists ji jk je ja jd jl jt ju : nat,
    column_of hdr "ID" ji
    /\ column_of hdr "Snippet Name" jk
    /\ column_of hdr "Content" je
    /\ column_of hdr "Application" ja
    /\ column_of hdr "Description" jd
    /\ column_of hdr "Language" jl
    /\ column_of hdr "Tags" jt
    /\ column_of hdr "UpdatedAt" ju.
Proof.
  intros Hhas.
  destruct (column_of_header hdr _ 0 "ID" Hhas) as [ji Hi]; [done..|].
  destruct (column_of_header hdr _ 1 "Snippet Name" Hhas) as [jk Hk]; [done..|].
  destruct (column_of_header hdr _ 2 "Content" Hhas) as [je He]; [done..|].
  destruct (column_of_header hdr _ 3 "Application" Hhas) as [ja Ha]; [done..|].
  destruct (column_of_header hdr _ 4 "Description" Hhas) as [jd Hd]; [done..|].
  destruct (column_of_header hdr _ 5 "Language" Hhas) as [jl Hl]; [done..|].
  destruct (column_of_header hdr _ 6 "Tags" Hhas) as [jt Ht]; [done..|].
  destruct (column_of_header hdr _ 7 "UpdatedAt" Hhas) as [ju Hu]; [done..|].
  exists ji, jk, je, ja, jd, jl, jt, ju. done.
Qed.

Lemma getShortcutsHeaderAndColMap_run (hdr : list string) (rows : Sheet) (w : World) :
  sheets w !! CFG.SHEET_SHORTCUTS = Some (hdr :: rows) ->
  header_has hdr HEADERS_SHORTCUTS ->
  getShortcutsHeaderAndColMap_ CFG.SHEET_SHORTCUTS w
  = (Ret (pad_row (last_column (hdr :: rows)) hdr, shortcut_cols (indexHeader_ hdr)), w).
Proof.
  intros Hg Hhas.
  destruct (shortcut_columns hdr Hhas)
    as (ji & jk & je & ja & jd & jl & jt & ju
        & [Hi _] & [Hk _] & [He _] & [Ha _] & [Hd _] & [Hl _] & [Ht _] & [Hu (c & Hc & _)]).
  assert (0 < last_column (hdr :: rows)) as Hcols.
  { simpl. apply lookup_lt_Some in Hc. lia. }
  unfold getShortcutsHeaderAndColMap_, getLastColumn, getRow1, bind, ret.
  rewrite (sheet_grid_run _ _ _ Hg). cbv beta iota zeta.
  rewrite (sheet_grid_run _ _ _ Hg). cbv beta iota zeta.
  destruct (Nat.eqb_spec (last_column (hdr :: rows)) 0) as [E|_]; [lia|].
  cbn [head default].
  rewrite (indexHeader_pad_row _ hdr) by (simpl; lia).
  unfold HEADERS_SHORTCUTS.
  rewrite !filter_cons, filter_nil, Hi, Hk, He, Ha, Hd, Hl, Ht, Hu.
  rewrite !decide_False by done. done.
Qed.

(** ** Runs of the remaining pieces *)

Lemma waitLock_run (k : LockKind) (ms : Z) (w : World) :
  lock_busy k w = false -> waitLock k ms w = (Ret tt, log_event (EvLock k) w).
Proof. intros Hfree. unfold waitLock. by rewrite Hfree. Qed.

Lemma waitLock_busy (k : LockKind) (ms : Z) (w : World) :
  lock_busy k w = true -> waitLock k ms w = (Throw "Lock timeout", w).
Proof. intros Hbusy. unfold waitLock. by rewrite Hbusy. Qed.

Lemma getColumnValues_run (c : option nat) (hdr : list string) (rows : Sheet)
    (name : string) (w : World) :
  sheets w !! name = Some (hdr :: rows) ->
  getColumnValues_ name c w = (Ret (map (fun r => trim (cell r c)) rows), w).
Proof.
  intros Hg. unfold getColumnValues_, getLastRow, bind, ret.
  rewrite (sheet_grid_run _ _ _ Hg). cbv beta iota zeta.
  destruct rows as [|r rows]; [done|].
  cbn [length Nat.leb]. by rewrite (sheet_grid_run _ _ _ Hg).
Qed.

Section ScriptRuns.
Context `{Platform}.

Lemma bumpCacheVersion_run (w : World) :
  exists f, bumpCacheVersion_ w = (Ret tt, set_props f w).
Proof. eexists. unfold bumpCacheVersion_, bind, gets, modify. reflexivity. Qed.

Lemma invalidateShortcutsCache_run (w : World) :
  exists f g, invalidateShortcutsCache_ w = (Ret tt, set_props f (set_cache g w)).
Proof.
  unfold invalidateShortcutsCache_, cache_remove, modify, bind.
  destruct (bumpCacheVersion_run (set_cache (delete (CFG.CACHE_KEY_PREFIX +:+ "_META")) w))
    as [f Hf].
  rewrite Hf. eauto.
Qed.

(** Both end-of-mutation steps together: only the cache and the properties
    change. *)
Lemma bump_and_invalidate_run {A : Type} (k : M A) (w : World) :
  exists w' : World,
    bind bumpCacheVersion_ (fun _ => bind invalidateShortcutsCache_ (fun _ => k)) w = k w'
    /\ sheets w' = sheets w /\ events w' = events w /\ env w' = env w.
Proof.
  destruct (bumpCacheVersion_run w) as [f Hf].
  destruct (invalidateShortcutsCache_run (set_props f w)) as (f' & g & Hg).
  eexists. split.
  - rewrite (bind_run _ _ _ _ _ Hf). rewrite (bind_run _ _ _ _ _ Hg). reflexivity.
  - done.
Qed.

End ScriptRuns.

(** The key of a validated payload. *)
Lemma validated_key (p : Payload) :
  ok (validateShortcutPayload_ (Some p)) = true ->
  to_String (p_key p) = str_or_empty (p_key p)
  /\ truthy_str (trim (str_or_empty (p_key p))) = true.
Proof.
  unfold validateShortcutPayload_. 
  destruct (truthy_str (trim (str_or_empty (p_key p)))) eqn:Hk; simpl; [|done].
  intros _. split; [|done].
  destruct (p_key p); [done|]. done.
Qed.

Section UpsertRun.
Context `{Platform}.

Lemma for_each_if_nonempty (rs : list nat) (body : nat -> M unit) (w : World) :
  (if 0 <? length rs then for_each (sort_desc rs) body else ret tt) w
  = for_each (sort_desc rs) body w.
Proof. destruct rs; done. Qed.

(** The run of [upsertShortcut] on a validated payload when the document
    lock is free. *)
Lemma upsertShortcut_run (p : Payload) (w : World) :
  documentLockBusy (env w) = false ->
  ok (validateShortcutPayload_ (Some p)) = true ->
  let key := trim (str_or_empty (p_key p)) in
  exists (w1 w' : World) (hdr newrow : list string) (rows : Sheet),
    ensureSheets_ w = (Ret tt, w1)
    /\ sheets_ready w w1
    /\ sheets w1 !! CFG.SHEET_SHORTCUTS = Some (hdr :: rows)
    /\ let found := positions_from (fun r => String.eqb (shortcut_key hdr r) key) 2 rows in
       upsertShortcut (Some p) w
       = (Ret (mkReply true
                 (Some (if 0 <? length found then "updated" else "created"))
                 (Some (if 0 <? length found then "Updated shortcut: " +:+ key
                        else "Created shortcut: " +:+ key))), w')
       /\ sheets w'
          = <[CFG.SHEET_SHORTCUTS :=
                hdr :: filter (fun r => String.eqb (shortcut_key hdr r) key = false) rows
                    ++ [newrow]]> (sheets w1)
       /\ shortcut_key hdr newrow = key
       /\ events w'
          = events w1 ++ EvLock DocumentLock
              :: map (EvDeleteRow CFG.SHEET_SHORTCUTS) (rev found)
              ++ [EvAppendRow CFG.SHEET_SHORTCUTS newrow; EvUnlock DocumentLock]
       /\ env w' = env w.
Proof.
  intros Hfree Hvalid key.
  destruct (validated_key p Hvalid) as [HtoS Hkey].
  destruct (ensureSheets_run w) as (w1 & Hens & Hready).
  pose proof Hready as (gS & gF & evs & HgS & HgF & HneS & _ & HdS & _ & HhS & _
                        & _ & _ & Henv & _ & _).
  destruct gS as [|hdr rows]; [done|]. cbn [head default] in HhS.
  destruct (shortcut_columns hdr HhS)
    as (ji & jk & je & ja & jd & jl & jt & ju & Hi & Hk & He & Ha & Hd & Hl & Ht & Hu).
  set (w2 := log_event (EvLock DocumentLock) w1).
  assert (Hg2 : sheets w2 !! CFG.SHEET_SHORTCUTS = Some (hdr :: rows)) by exact HgS.
  set (found := positions_from (fun r => String.eqb (shortcut_key hdr r) key) 2 rows).
  set (header := pad_row (last_column (hdr :: rows)) hdr).
  set (newrow :=
         array_set (Some ju) (clockIso (env w2))
           (array_set (Some jt) (str_slice (str_or_empty (p_tags p)) 0 CFG.MAX_TAGS_LEN)
           (array_set (Some jl) (str_slice (str_or_empty (p_language p)) 0 CFG.MAX_LANGUAGE_LEN)
           (array_set (Some jd) (str_slice (str_or_empty (p_description p)) 0 CFG.MAX_DESC_LEN)
           (array_set (Some ja) (str_slice (str_or_empty (p_application p)) 0 CFG.MAX_APP_LEN)
           (array_set (Some je) (str_slice (str_or_empty (p_expansion p)) 0 CFG.MAX_FIELD_LEN)
           (array_set (Some jk) key (replicate (length header) EmptyString)))))))).
  assert (Hnewkey : shortcut_key hdr newrow = key).
  { unfold shortcut_key. rewrite (proj1 Hk). unfold newrow.
    rewrite (cell_array_set_ne jk ju), (cell_array_set_ne jk jt),
            (cell_array_set_ne jk jl), (cell_array_set_ne jk jd),
            (cell_array_set_ne jk ja), (cell_array_set_ne jk je), cell_array_set_eq.
    - apply trim_idem.
    - by apply (column_of_distinct hdr "Snippet Name" "Content").
    - by apply (column_of_distinct hdr "Snippet Name" "Application").
    - by apply (column_of_distinct hdr "Snippet Name" "Description").
    - by apply (column_of_distinct hdr "Snippet Name" "Language").
    - by apply (column_of_distinct hdr "Snippet Name" "Tags").
    - by apply (column_of_distinct hdr "Snippet Name" "UpdatedAt"). }
  assert (Hfound : findAllRowsByKey_
                     (map (fun r => trim (cell r (indexHeader_ hdr !! "Snippet Name"))) rows) key
                   = found).
  { unfold findAllRowsByKey_. rewrite find_rows_from_positions.
    unfold key at 1. rewrite trim_idem. done. }
  assert (Hsorted : sort_desc found = rev found).
  { apply sort_desc_ascending, positions_from_ascending. }
  set (w3 := with_sheet CFG.SHEET_SHORTCUTS
               (hdr :: filter (fun r => String.eqb (shortcut_key hdr r) key = false) rows)
               (map (EvDeleteRow CFG.SHEET_SHORTCUTS) (rev found)) w2).
  set (w4 := with_sheet CFG.SHEET_SHORTCUTS
               (hdr :: filter (fun r => String.eqb (shortcut_key hdr r) key = false) rows
                    ++ [newrow])
               [EvAppendRow CFG.SHEET_SHORTCUTS newrow] w3).
  destruct (bump_and_invalidate_run
              (ret (mkReply true
                      (Some (if 0 <? length found then "updated" else "created"))
                      (Some (if 0 <? length found then "Updated shortcut: " +:+ key
                             else "Created shortcut: " +:+ key)))) w4)
    as (w5 & Hbump & Hs5 & He5 & Henv5).
  exists w1, (log_event (EvUnlock DocumentLock) w5), hdr, newrow, rows.
  split; [exact Hens|]. split; [exact Hready|]. split; [exact HgS|].
  cbv zeta. fold found. split; [|split; [|split; [|split]]].
  - unfold upsertShortcut.
    rewrite (bind_run _ _ _ _ _ Hens).
    rewrite (bind_run _ _ _ _ _ (waitLock_run DocumentLock 30000 w1
               ltac:(simpl; rewrite Henv; exact Hfree))).
    fold w2.
    apply (try_finally_run _ _ w2 w5); [|reflexivity].
    apply try_catch_ret.
    cbv zeta. rewrite Hvalid. cbn [negb].
    rewrite (bind_run _ _ _ _ _ (getSheet_run _ _ _ Hg2)).
    rewrite (bind_run _ _ _ _ _ (getShortcutsHeaderAndColMap_run hdr rows w2 Hg2 HhS)).
    cbn [fst snd]. fold header.
    rewrite (bind_run _ _ w2 w2 (clockIso (env w2))) by reflexivity.
    unfold shortcut_cols. cbn [col_key col_expansion col_application col_description
                               col_language col_tags col_updatedAt].
    rewrite (bind_run _ _ _ _ _ (getColumnValues_run _ hdr rows _ w2 Hg2)).
    rewrite HtoS. fold key. rewrite Hfound.
    rewrite (proj1 Hk), (proj1 He), (proj1 Ha), (proj1 Hd), (proj1 Hl), (proj1 Ht),
            (proj1 Hu).
    fold newrow.
    unfold bind at 1. rewrite for_each_if_nonempty, Hsorted.
    pose proof (delete_matching_run _ (fun r => String.eqb (shortcut_key hdr r) key)
                  hdr rows w2 Hg2) as Hdel.
    fold found in Hdel. rewrite Hdel. fold w3.
    rewrite (bind_run _ _ _ _ _ (appendRow_run _ _ newrow w3
               ltac:(apply with_sheet_lookup))).
    fold w4. exact Hbump.
  - cbn [sheets log_event]. rewrite Hs5. unfold w4, w3, w2. simpl.
    by rewrite insert_insert_eq.
  - exact Hnewkey.
  - cbn [events log_event]. rewrite He5. unfold w4, w3, w2. simpl.
    rewrite <- !app_assoc. done.
  - cbn [env log_event]. rewrite Henv5. unfold w4, w3, w2. simpl. exact Henv.
Qed.

End UpsertRun.

Section UpsertTheorems.
Context `{Platform}.

Lemma sheets_ready_data_rows (w w1 : World) :
  sheets_ready w w1 ->
  data_rows w1 CFG.SHEET_SHORTCUTS = data_rows w CFG.SHEET_SHORTCUTS
  /\ data_rows w1 CFG.SHEET_FAVORITES = data_rows w CFG.SHEET_FAVORITES.
Proof.
  intros (gS & gF & evs & HgS & HgF & _ & _ & HdS & HdF & _).
  unfold data_rows at 1 3. by rewrite HgS, HgF.
Qed.

Lemma upsertShortcut_busy (payload : option Payload) (w w1 : World) :
  ensureSheets_ w = (Ret tt, w1) ->
  env w1 = env w ->
  documentLockBusy (env w) = true ->
  upsertShortcut payload w = (Throw "Lock timeout", w1).
Proof.
  intros Hens Henv Hbusy. unfold upsertShortcut.
  rewrite (bind_run _ _ _ _ _ Hens).
  apply bind_throw, waitLock_busy. simpl. by rewrite Henv.
Qed.

Lemma upsertShortcut_invalid (payload : option Payload) (w w1 : World) :
  ensureSheets_ w = (Ret tt, w1) ->
  env w1 = env w ->
  documentLockBusy (env w) = false ->
  ok (validateShortcutPayload_ payload) = false ->
  upsertShortcut payload w
  = (Ret (validateShortcutPayload_ payload),
     log_event (EvUnlock DocumentLock) (log_event (EvLock DocumentLock) w1)).
Proof.
  intros Hens Henv Hfree Hinvalid. unfold upsertShortcut.
  rewrite (bind_run _ _ _ _ _ Hens).
  rewrite (bind_run _ _ _ _ _ (waitLock_run DocumentLock 30000 w1
             ltac:(simpl; rewrite Henv; exact Hfree))).
  apply (try_finally_run _ _ _ (log_event (EvLock DocumentLock) w1)); [|reflexivity].
  apply try_catch_ret. cbv zeta. by rewrite Hinvalid.
Qed.

Lemma filter_none {A : Type} (P : A -> Prop) `{!forall x, Decision (P x)} (l : list A) :
  Forall (fun x => ~ P x) l -> filter P l = [].
Proof.
  induction 1 as [|x l Hx _ IH]; [done|]. by rewrite filter_cons_False.
Qed.

Lemma eqb_false_ne (a b : string) : String.eqb a b = false <-> a <> b.
Proof. apply String.eqb_neq. Qed.

(** C3. When [upsertShortcut(payload)] returns ok, the payload had passed
    validation and the rows of the Shortcuts sheet are the earlier rows
    with another key, in their order, followed by one new row: that row is
    the only one whose key column, trimmed, is the trimmed key of the
    payload, however many rows had that key before. The action is
    ['updated'] when some row had the key before, ['created'] when none
    had. *)
Theorem upsertShortcut_single_row (payload : option Payload) (w w' : World) (reply : Reply) :
  upsertShortcut payload w = (Ret reply, w') ->
  ok reply = true ->
  exists (p : Payload) (hdr newrow : list string),
    payload = Some p
    /\ ok (validateShortcutPayload_ payload) = true
    /\ let key := trim (str_or_empty (p_key p)) in
       let before := data_rows w CFG.SHEET_SHORTCUTS in
       let after := data_rows w' CFG.SHEET_SHORTCUTS in
       header_row w' CFG.SHEET_SHORTCUTS = hdr
       /\ after = filter (fun r => shortcut_key hdr r <> key) before ++ [newrow]
       /\ filter (fun r => shortcut_key hdr r = key) after = [newrow]
       /\ (Exists (fun r => shortcut_key hdr r = key) before ->
           action reply = Some "updated")
       /\ (Forall (fun r => shortcut_key hdr r <> key) before ->
           action reply = Some "created").
Proof.
  intros Hrun Hok.
  destruct (ensureSheets_run w) as (w1 & Hens & Hready).
  pose proof Hready as (_ & _ & _ & _ & _ & _ & _ & _ & _ & _ & _ & _ & _ & Henv & _).
  destruct (documentLockBusy (env w)) eqn:Hlock.
  { rewrite (upsertShortcut_busy payload w w1 Hens Henv Hlock) in Hrun. done. }
  destruct (ok (validateShortcutPayload_ payload)) eqn:Hvalid.
  2:{ rewrite (upsertShortcut_invalid payload w w1 Hens Henv Hlock Hvalid) in Hrun.
      injection Hrun as <- _. congruence. }
  destruct payload as [p|]; [|done].
  destruct (upsertShortcut_run p w Hlock Hvalid)
    as (w1' & w'' & hdr & newrow & rows & Hens' & _ & Hg1 & Hrun' & Hsheets & Hnew & _).
  rewrite Hens in Hens'. injection Hens' as <-.
  rewrite Hrun in Hrun'. injection Hrun' as -> <-.
  destruct (sheets_ready_data_rows w w1 Hready) as [Hrows _].
  assert (Hbefore : data_rows w CFG.SHEET_SHORTCUTS = rows).
  { rewrite <- Hrows. unfold data_rows. by rewrite Hg1. }
  assert (Hafter : data_rows w' CFG.SHEET_SHORTCUTS
                   = filter (fun r => shortcut_key hdr r <> trim (str_or_empty (p_key p))) rows
                     ++ [newrow]).
  { unfold data_rows. rewrite Hsheets, lookup_insert_eq. simpl. rewrite drop_0.
    f_equal. apply list_filter_iff. intros r. apply eqb_false_ne. }
  exists p, hdr, newrow. split; [done|]. split; [done|]. cbv zeta.
  rewrite Hbefore, Hafter.
  split; [|split; [|split; [|split]]].
  - unfold header_row. by rewrite Hsheets, lookup_insert_eq.
  - done.
  - rewrite filter_app, list_filter_filter.
    rewrite (filter_cons_True _ newrow []) by exact Hnew.
    rewrite filter_none; [done|].
    apply Forall_forall. intros r _ [? ?]. done.
  - intros Hex. simpl. f_equal.
    rewrite positions_from_length.
    match goal with |- context [length ?l] => destruct l as [|r rest] eqn:Hf end; [|done].
    exfalso. apply Exists_exists in Hex as (r & Hr & Hkey).
    assert (r ∈ filter (fun r => String.eqb (shortcut_key hdr r)
                                   (trim (str_or_empty (p_key p))) = true) rows) as Hin.
    { apply list_elem_of_filter. split; [|done]. by apply String.eqb_eq. }
    rewrite Hf in Hin. by apply not_elem_of_nil in Hin.
  - intros Hall. simpl. f_equal.
    rewrite positions_from_length.
    rewrite filter_none; [done|].
    eapply Forall_impl; [exact Hall|]. simpl. intros r Hne E.
    by apply String.eqb_eq in E.
Qed.

End UpsertTheorems.

Section ValidationTheorem.
Context `{Platform}.

Lemma is_setup_not_row_change (evs : list Event) :
  Forall (fun e => is_setup e = true) evs ->
  Forall (fun e => is_row_change e = false) evs.
Proof. intros Hs. eapply Forall_impl; [exact Hs|]. intros [] ?; done. Qed.

(** C6, as the code has it. For a payload that fails
    [validateShortcutPayload_], [upsertShortcut] first runs [ensureSheets_]
    and waits for the document lock. With the lock it returns the
    validation failure and releases the lock; without it, it throws the
    lock time-out and the validation failure is not returned. Either way
    no row is deleted or appended: the rows below the headers of both
    sheets, the cache and the properties are as before. *)
Theorem upsertShortcut_rejects_invalid (payload : option Payload) (w w' : World)
    (r : outcome Reply) :
  ok (validateShortcutPayload_ payload) = false ->
  upsertShortcut payload w = (r, w') ->
  exists evs : list Event,
    events w' = events w ++ evs
    /\ Forall (fun e => is_row_change e = false) evs
    /\ (if documentLockBusy (env w)
        then r = Throw "Lock timeout" /\ ~ In (EvLock DocumentLock) evs
        else r = Ret (validateShortcutPayload_ payload)
             /\ exists setup, evs = setup ++ [EvLock DocumentLock; EvUnlock DocumentLock])
    /\ data_rows w' CFG.SHEET_SHORTCUTS = data_rows w CFG.SHEET_SHORTCUTS
    /\ data_rows w' CFG.SHEET_FAVORITES = data_rows w CFG.SHEET_FAVORITES
    /\ cache w' = cache w
    /\ props w' = props w.
Proof.
  intros Hinvalid Hrun.
  destruct (ensureSheets_run w) as (w1 & Hens & Hready).
  destruct (sheets_ready_data_rows w w1 Hready) as [HrowsS HrowsF].
  destruct Hready as (_ & _ & evs & _ & _ & _ & _ & _ & _ & _ & _
                      & Hcache & Hprops & Henv & Hevents & Hsetup).
  destruct (documentLockBusy (env w)) eqn:Hlock.
  - rewrite (upsertShortcut_busy payload w w1 Hens Henv Hlock) in Hrun.
    injection Hrun as <- <-.
    exists evs. split; [done|]. split; [by apply is_setup_not_row_change|].
    split; [|done].
    split; [done|]. intros Hin.
    eapply Forall_forall in Hsetup; [|apply list_elem_of_In; exact Hin]. done.
  - rewrite (upsertShortcut_invalid payload w w1 Hens Henv Hlock Hinvalid) in Hrun.
    injection Hrun as <- <-.
    exists (evs ++ [EvLock DocumentLock; EvUnlock DocumentLock]).
    split; [|split; [|split; [|done]]].
    + simpl. rewrite Hevents, <- !app_assoc. done.
    + apply Forall_app. split; [by apply is_setup_not_row_change|].
      by repeat constructor.
    + split; [done|]. by exists evs.
Qed.

End ValidationTheorem.

(** The claim as the specification states it fails on the test double: an
    invalid payload (none at all) is answered by the lock time-out when the
    document lock is busy; when the lock is free the run takes it before it
    returns the validation failure; and when the Favorites sheet is missing
    [ensureSheets_] creates it, header included, before the payload is
    looked at. *)
Lemma upsertShortcut_validates_under_lock :
  ok (validateShortcutPayload_ None) = false
  /\ (upsertShortcut (H := demo_platform) None demo_busy_world).1 = Throw "Lock timeout"
  /\ In (EvLock DocumentLock)
        (events (upsertShortcut (H := demo_platform) None demo_world).2)
  /\ sheets (upsertShortcut (H := demo_platform) None
               (set_sheets (delete CFG.SHEET_FAVORITES) demo_world)).2
       !! CFG.SHEET_FAVORITES
     = Some [HEADERS_FAVORITES].
Proof. vm_compute. split; [done|]. split; [done|]. split; [by left|done]. Qed.

Lemma upsertShortcut_rejects_invalid_witness :
  data_rows (upsertShortcut (H := demo_platform) None demo_world).2 CFG.SHEET_SHORTCUTS
  = data_rows demo_world CFG.SHEET_SHORTCUTS.
Proof.
  destruct (upsertShortcut_rejects_invalid (H := demo_platform) None demo_world
              (upsertShortcut (H := demo_platform) None demo_world).2
              (Ret (failure "Missing payload.")))
    as (evs & _ & _ & _ & Hrows & _).
  - reflexivity.
  - vm_compute. reflexivity.
  - exact Hrows.
Defined.

Lemma upsertShortcut_single_row_witness :
  exists hdr newrow : list string,
    filter (fun r => shortcut_key hdr r = "foo")
           (data_rows (upsertShortcut (H := demo_platform) (Some demo_payload) demo_world).2
                      CFG.SHEET_SHORTCUTS)
    = [newrow].
Proof.
  destruct (upsertShortcut_single_row (H := demo_platform) (Some demo_payload) demo_world
              (upsertShortcut (H := demo_platform) (Some demo_payload) demo_world).2
              (mkReply true (Some "updated") (Some "Updated shortcut: foo")))
    as (p & hdr & newrow & Hp & _ & _ & _ & Hone & _).
  - vm_compute. reflexivity.
  - reflexivity.
  - injection Hp as <-. exists hdr, newrow. exact Hone.
Defined.

Example demo_upsert_rows :
  data_rows (upsertShortcut (H := demo_platform) (Some demo_payload) demo_world).2
            CFG.SHEET_SHORTCUTS
  = [["2"; "bar"; "other"; "app"; "d"; "en"; "t"; "2025-12-02"];
     [EmptyString; "foo"; "fourth"; "app"; EmptyString; EmptyString; EmptyString;
      "2025-12-23T10:00:00.000Z"]].
Proof. vm_compute. reflexivity. Qed.

Section DeleteRun.
Context `{Platform}.

(** The run of [removeFavoriteForAllUsers_] for a key that is trimmed and
    not empty. *)
Lemma removeFavoriteForAllUsers_run (k : string) (hdrF : list string) (rowsF : Sheet)
    (w : World) :
  sheets w !! CFG.SHEET_FAVORITES = Some (hdrF :: rowsF) ->
  truthy_str k = true -> trim k = k ->
  let matches := fun r => String.eqb (favorite_key hdrF r) k in
  removeFavoriteForAllUsers_ k w
  = (Ret tt,
     with_sheet CFG.SHEET_FAVORITES (hdrF :: filter (fun r => matches r = false) rowsF)
                (map (EvDeleteRow CFG.SHEET_FAVORITES) (rev (positions_from matches 2 rowsF)))
                w).
Proof.
  intros Hg Hk Htrim matches. unfold removeFavoriteForAllUsers_.
  rewrite Htrim, Hk. cbn [negb].
  rewrite (bind_run _ _ _ _ _ (getSheet_run _ _ _ Hg)).
  rewrite (bind_run _ _ _ _ _ (getDataRangeValues_run _ _ _ Hg)).
  destruct rowsF as [|r rowsF].
  - simpl. unfold ret. by rewrite with_sheet_same.
  - rewrite favorite_rows_of_key_positions.
    apply (delete_matching_run CFG.SHEET_FAVORITES matches hdrF (r :: rowsF) w Hg).
Qed.

(** The run of [deleteShortcut] on a key that is not blank when the
    document lock is free. *)
Lemma deleteShortcut_run (key : string) (w : World) :
  documentLockBusy (env w) = false ->
  truthy_str (trim key) = true ->
  let k := trim key in
  exists (w1 w' : World) (hdr hdrF : list string) (rows rowsF : Sheet),
    ensureSheets_ w = (Ret tt, w1)
    /\ sheets_ready w w1
    /\ sheets w1 !! CFG.SHEET_SHORTCUTS = Some (hdr :: rows)
    /\ sheets w1 !! CFG.SHEET_FAVORITES = Some (hdrF :: rowsF)
    /\ let found := positions_from (fun r => String.eqb (shortcut_key hdr r) k) 2 rows in
       let foundF := positions_from (fun r => String.eqb (favorite_key hdrF r) k) 2 rowsF in
       if length found =? 0
       then deleteShortcut key w
            = (Ret (failure ("Shortcut not found: " +:+ k)),
               log_event (EvUnlock DocumentLock) (log_event (EvLock DocumentLock) w1))
       else deleteShortcut key w
            = (Ret (mkReply true None (Some ("Deleted shortcut: " +:+ k))), w')
            /\ sheets w'
               = <[CFG.SHEET_FAVORITES :=
                     hdrF :: filter (fun r => String.eqb (favorite_key hdrF r) k = false) rowsF]>
                   (<[CFG.SHEET_SHORTCUTS :=
                        hdr :: filter (fun r => String.eqb (shortcut_key hdr r) k = false) rows]>
                      (sheets w1))
            /\ events w'
               = events w1 ++ EvLock DocumentLock
                   :: map (EvDeleteRow CFG.SHEET_SHORTCUTS) (rev found)
                   ++ map (EvDeleteRow CFG.SHEET_FAVORITES) (rev foundF)
                   ++ [EvUnlock DocumentLock]
            /\ env w' = env w.
Proof.
  intros Hfree Hk k.
  destruct (ensureSheets_run w) as (w1 & Hens & Hready).
  pose proof Hready as (gS & gF & evs & HgS & HgF & HneS & HneF & _ & _ & HhS & _
                        & _ & _ & Henv & _ & _).
  destruct gS as [|hdr rows]; [done|]. destruct gF as [|hdrF rowsF]; [done|].
  cbn [head default] in HhS.
  set (w2 := log_event (EvLock DocumentLock) w1).
  assert (Hg2 : sheets w2 !! CFG.SHEET_SHORTCUTS = Some (hdr :: rows)) by exact HgS.
  set (found := positions_from (fun r => String.eqb (shortcut_key hdr r) k) 2 rows).
  set (foundF := positions_from (fun r => String.eqb (favorite_key hdrF r) k) 2 rowsF).
  assert (Hfound : findAllRowsByKey_
                     (map (fun r => trim (cell r (indexHeader_ hdr !! "Snippet Name"))) rows) k
                   = found).
  { unfold findAllRowsByKey_. rewrite find_rows_from_positions.
    unfold k at 1. rewrite trim_idem. done. }
  assert (Hsorted : sort_desc found = rev found).
  { apply sort_desc_ascending, positions_from_ascending. }
  set (w3 := with_sheet CFG.SHEET_SHORTCUTS
               (hdr :: filter (fun r => String.eqb (shortcut_key hdr r) k = false) rows)
               (map (EvDeleteRow CFG.SHEET_SHORTCUTS) (rev found)) w2).
  assert (Hg3 : sheets w3 !! CFG.SHEET_FAVORITES = Some (hdrF :: rowsF)).
  { unfold w3. rewrite with_sheet_lookup_ne by done. exact HgF. }
  set (w4 := with_sheet CFG.SHEET_FAVORITES
               (hdrF :: filter (fun r => String.eqb (favorite_key hdrF r) k = false) rowsF)
               (map (EvDeleteRow CFG.SHEET_FAVORITES) (rev foundF)) w3).
  destruct (bump_and_invalidate_run
              (ret (mkReply true None (Some ("Deleted shortcut: " +:+ k)))) w4)
    as (w5 & Hbump & Hs5 & He5 & Henv5).
  exists w1, (log_event (EvUnlock DocumentLock) w5), hdr, hdrF, rows, rowsF.
  split; [exact Hens|]. split; [exact Hready|]. split; [exact HgS|]. split; [exact HgF|].
  cbv zeta. fold found foundF.
  assert (Htrimk : trim k = k) by apply trim_idem.
  assert (Hprefix : forall (reply : Reply) (wend : World),
            (if length found =? 0
             then ret (failure ("Shortcut not found: " +:+ k))
             else
               bind (for_each (sort_desc found) (deleteRow CFG.SHEET_SHORTCUTS))
                 (fun _ => bind (removeFavoriteForAllUsers_ k) (fun _ =>
                    bind bumpCacheVersion_ (fun _ => bind invalidateShortcutsCache_ (fun _ =>
                      ret (mkReply true None (Some ("Deleted shortcut: " +:+ k)))))))) w2
            = (Ret reply, wend) ->
            deleteShortcut key w = (Ret reply, log_event (EvUnlock DocumentLock) wend)).
  { intros reply wend Hbody. unfold deleteShortcut.
    rewrite (bind_run _ _ _ _ _ Hens).
    rewrite (bind_run _ _ _ _ _ (waitLock_run DocumentLock 30000 w1
               ltac:(simpl; rewrite Henv; exact Hfree))).
    fold w2. apply (try_finally_run _ _ w2 wend); [|reflexivity].
    apply try_catch_ret. cbv zeta. rewrite Hk. cbn [negb].
    rewrite (bind_run _ _ _ _ _ (getSheet_run _ _ _ Hg2)).
    rewrite (bind_run _ _ _ _ _ (getShortcutsHeaderAndColMap_run hdr rows w2 Hg2 HhS)).
    cbn [fst snd]. unfold shortcut_cols. cbn [col_key].
    rewrite (bind_run _ _ _ _ _ (getColumnValues_run _ hdr rows _ w2 Hg2)).
    fold k. rewrite Hfound. exact Hbody. }
  destruct (Nat.eqb_spec (length found) 0) as [Hnone|Hsome].
  - apply Hprefix. reflexivity.
  - split; [|split; [|split]].
    + apply Hprefix. rewrite Hsorted.
      pose proof (delete_matching_run _ (fun r => String.eqb (shortcut_key hdr r) k)
                    hdr rows w2 Hg2) as Hdel.
      fold found in Hdel. rewrite (bind_run _ _ _ _ _ Hdel). fold w3.
      pose proof (removeFavoriteForAllUsers_run k hdrF rowsF w3 Hg3 Hk Htrimk) as Hfav.
      cbv zeta in Hfav. fold foundF in Hfav.
      rewrite (bind_run _ _ _ _ _ Hfav). fold w4. exact Hbump.
    + cbn [sheets log_event]. rewrite Hs5. unfold w4, w3, w2. simpl. done.
    + cbn [events log_event]. rewrite He5. unfold w4, w3, w2. simpl.
      rewrite <- !app_assoc. done.
    + cbn [env log_event]. rewrite Henv5. unfold w4, w3, w2. simpl. exact Henv.
Qed.

End DeleteRun.

(** ** The log of deletions *)

Lemma deleted_rows_app (name : string) (e1 e2 : list Event) :
  deleted_rows name (e1 ++ e2) = deleted_rows name e1 ++ deleted_rows name e2.
Proof. unfold deleted_rows. apply omap_app. Qed.

Lemma deleted_rows_same (name : string) (rs : list nat) :
  deleted_rows name (map (EvDeleteRow name) rs) = rs.
Proof.
  induction rs as [|r rs IH]; [done|].
  cbn. rewrite String.eqb_refl. cbn. f_equal. exact IH.
Qed.

Lemma deleted_rows_other (name other : string) (rs : list nat) :
  other <> name -> deleted_rows name (map (EvDeleteRow other) rs) = [].
Proof.
  intros Hne. induction rs as [|r rs IH]; [done|].
  cbn. apply String.eqb_neq in Hne. rewrite Hne. exact IH.
Qed.

Lemma deleted_rows_none (name : string) (evs : list Event) :
  Forall (fun e => is_row_change e = false) evs -> deleted_rows name evs = [].
Proof.
  induction 1 as [|e evs He _ IH]; [done|].
  destruct e; try done; exact IH.
Qed.

Lemma rev_ascending_descending (l : list nat) :
  StronglySorted lt l -> StronglySorted gt (rev l).
Proof.
  induction 1 as [|x l Hl IH Hx]; simpl; [constructor|].
  apply StronglySorted_app_2; [|done|by repeat constructor].
  intros a b Ha Hb. apply list_elem_of_singleton in Hb as ->.
  apply list_elem_of_In, in_rev, list_elem_of_In in Ha.
  eapply Forall_forall in Hx; [|exact Ha]. lia.
Qed.

Section DeleteTheorems.
Context `{Platform}.

Lemma deleteShortcut_busy (key : string) (w w1 : World) :
  ensureSheets_ w = (Ret tt, w1) ->
  env w1 = env w ->
  documentLockBusy (env w) = true ->
  deleteShortcut key w = (Throw "Lock timeout", w1).
Proof.
  intros Hens Henv Hbusy. unfold deleteShortcut.
  rewrite (bind_run _ _ _ _ _ Hens).
  apply bind_throw, waitLock_busy. simpl. by rewrite Henv.
Qed.

Lemma deleteShortcut_blank (key : string) (w w1 : World) :
  ensureSheets_ w = (Ret tt, w1) ->
  env w1 = env w ->
  documentLockBusy (env w) = false ->
  truthy_str (trim key) = false ->
  deleteShortcut key w
  = (Ret (failure "Missing shortcut key."),
     log_event (EvUnlock DocumentLock) (log_event (EvLock DocumentLock) w1)).
Proof.
  intros Hens Henv Hfree Hblank. unfold deleteShortcut.
  rewrite (bind_run _ _ _ _ _ Hens).
  rewrite (bind_run _ _ _ _ _ (waitLock_run DocumentLock 30000 w1
             ltac:(simpl; rewrite Henv; exact Hfree))).
  apply (try_finally_run _ _ _ (log_event (EvLock DocumentLock) w1)); [|reflexivity].
  apply try_catch_ret. cbv zeta. by rewrite Hblank.
Qed.

(** What a returning [deleteShortcut] did, for a key that is not blank. *)
Lemma deleteShortcut_returned (key : string) (w w' : World) (reply : Reply) :
  deleteShortcut key w = (Ret reply, w') ->
  truthy_str (trim key) = true ->
  let k := trim key in
  exists (hdr hdrF : list string) (evs : list Event),
    let before := data_rows w CFG.SHEET_SHORTCUTS in
    let beforeF := data_rows w CFG.SHEET_FAVORITES in
    let found := positions_from (fun r => String.eqb (shortcut_key hdr r) k) 2 before in
    let foundF := positions_from (fun r => String.eqb (favorite_key hdrF r) k) 2 beforeF in
    Forall (fun e => is_row_change e = false) evs
    /\ if length found =? 0
       then reply = failure ("Shortcut not found: " +:+ k)
            /\ sheets w' !! CFG.SHEET_SHORTCUTS = Some (hdr :: before)
            /\ sheets w' !! CFG.SHEET_FAVORITES = Some (hdrF :: beforeF)
            /\ events w' = events w ++ evs ++ [EvLock DocumentLock; EvUnlock DocumentLock]
       else reply = mkReply true None (Some ("Deleted shortcut: " +:+ k))
            /\ sheets w' !! CFG.SHEET_SHORTCUTS
               = Some (hdr :: filter (fun r => String.eqb (shortcut_key hdr r) k = false) before)
            /\ sheets w' !! CFG.SHEET_FAVORITES
               = Some (hdrF :: filter (fun r => String.eqb (favorite_key hdrF r) k = false) beforeF)
            /\ events w'
               = events w ++ evs ++ EvLock DocumentLock
                   :: map (EvDeleteRow CFG.SHEET_SHORTCUTS) (rev found)
                   ++ map (EvDeleteRow CFG.SHEET_FAVORITES) (rev foundF)
                   ++ [EvUnlock DocumentLock].
Proof.
  intros Hrun Hk k.
  destruct (documentLockBusy (env w)) eqn:Hlock.
  { destruct (ensureSheets_run w) as (w1 & Hens & Hready).
    pose proof Hready as (_ & _ & _ & _ & _ & _ & _ & _ & _ & _ & _ & _ & _ & Henv & _).
    rewrite (deleteShortcut_busy key w w1 Hens Henv Hlock) in Hrun. done. }
  destruct (deleteShortcut_run key w Hlock Hk)
    as (w1 & w'' & hdr & hdrF & rows & rowsF & Hens & Hready & HgS & HgF & Hcases).
  destruct (sheets_ready_data_rows w w1 Hready) as [HrowsS HrowsF].
  assert (Hbefore : data_rows w CFG.SHEET_SHORTCUTS = rows).
  { rewrite <- HrowsS. unfold data_rows. by rewrite HgS. }
  assert (HbeforeF : data_rows w CFG.SHEET_FAVORITES = rowsF).
  { rewrite <- HrowsF. unfold data_rows. by rewrite HgF. }
  destruct Hready as (_ & _ & evs & _ & _ & _ & _ & _ & _ & _ & _
                      & _ & _ & _ & Hevents & Hsetup).
  exists hdr, hdrF, evs. cbv zeta in *. rewrite Hbefore, HbeforeF. fold k in Hcases.
  split; [by apply is_setup_not_row_change|].
  destruct (length _ =? 0).
  - rewrite Hrun in Hcases. injection Hcases as -> ->.
    split; [done|]. split; [exact HgS|]. split; [exact HgF|].
    simpl. rewrite Hevents, <- !app_assoc. done.
  - destruct Hcases as (Hrun' & Hsheets & Hev & _).
    rewrite Hrun in Hrun'. injection Hrun' as -> ->.
    split; [done|]. rewrite Hsheets, Hev, Hevents.
    split; [|split].
    + rewrite lookup_insert_ne by done. by rewrite lookup_insert_eq.
    + by rewrite lookup_insert_eq.
    + by rewrite <- !app_assoc.
Qed.

End DeleteTheorems.

Section DeleteClaims.
Context `{Platform}.

Lemma filter_eqb_false (f : list string -> string) (k : string) (rows : Sheet) :
  filter (fun r => String.eqb (f r) k = false) rows = filter (fun r => f r <> k) rows.
Proof. apply list_filter_iff. intros r. apply String.eqb_neq. Qed.

Lemma filter_eqb_true (f : list string -> string) (k : string) (rows : Sheet) :
  filter (fun r => String.eqb (f r) k = true) rows = filter (fun r => f r = k) rows.
Proof. apply list_filter_iff. intros r. apply String.eqb_eq. Qed.

Lemma filter_ne_all (f : list string -> string) (k : string) (rows : Sheet) :
  filter (fun r => f r = k) rows = [] -> filter (fun r => f r <> k) rows = rows.
Proof.
  induction rows as [|r rows IH]; [done|].
  destruct (decide (f r = k)) as [E|Hne].
  - by rewrite filter_cons_True.
  - rewrite (filter_cons_False _ r rows) by done. intros Hnone.
    rewrite filter_cons_True by done. by rewrite IH.
Qed.

(** C7, as the code has it. When [deleteShortcut(key)] returns, for a key
    that is not blank, every row of the Shortcuts sheet whose key column,
    trimmed, is the trimmed key is gone and the other rows are kept in
    their order; the rows were deleted one by one in strictly descending
    row number, one deletion per matching row. The result carries no
    count: it is [{ok: true, message: 'Deleted shortcut: k'}] when some row
    matched, and the failure [{ok: false, message: 'Shortcut not found:
    k'}] when none did. *)
Theorem deleteShortcut_removes_matching (key : string) (w w' : World) (reply : Reply) :
  deleteShortcut key w = (Ret reply, w') ->
  truthy_str (trim key) = true ->
  let k := trim key in
  let hdr := header_row w' CFG.SHEET_SHORTCUTS in
  let before := data_rows w CFG.SHEET_SHORTCUTS in
  let matching := filter (fun r => shortcut_key hdr r = k) before in
  data_rows w' CFG.SHEET_SHORTCUTS = filter (fun r => shortcut_key hdr r <> k) before
  /\ (exists rs : list nat,
        deleted_rows CFG.SHEET_SHORTCUTS (events w')
        = deleted_rows CFG.SHEET_SHORTCUTS (events w) ++ rs
        /\ StronglySorted gt rs
        /\ length rs = length matching)
  /\ (matching = [] -> reply = mkReply false None (Some ("Shortcut not found: " +:+ k)))
  /\ (matching <> [] -> reply = mkReply true None (Some ("Deleted shortcut: " +:+ k))).
Proof.
  intros Hrun Hk k.
  destruct (deleteShortcut_returned key w w' reply Hrun Hk)
    as (hdr & hdrF & evs & Hquiet & Hcases).
  cbv zeta in Hcases. fold k in Hcases.
  set (before := data_rows w CFG.SHEET_SHORTCUTS) in *.
  set (found := positions_from (fun r => String.eqb (shortcut_key hdr r) k) 2 before) in *.
  assert (Hlen : length found = length (filter (fun r => shortcut_key hdr r = k) before)).
  { unfold found. by rewrite positions_from_length, filter_eqb_true. }
  assert (Hdesc : StronglySorted gt (rev found)).
  { apply rev_ascending_descending, positions_from_ascending. }
  assert (Hhdr : forall rows, sheets w' !! CFG.SHEET_SHORTCUTS = Some (hdr :: rows) ->
                   header_row w' CFG.SHEET_SHORTCUTS = hdr
                   /\ data_rows w' CFG.SHEET_SHORTCUTS = rows).
  { intros rows Hg. unfold header_row, data_rows. by rewrite Hg. }
  destruct (Nat.eqb_spec (length found) 0) as [Hnone|Hsome].
  - destruct Hcases as (-> & HgS & _ & Hev).
    destruct (Hhdr _ HgS) as [Hh Hd]. cbv zeta. rewrite Hh, Hd.
    assert (Hempty : filter (fun r => shortcut_key hdr r = k) before = []).
    { apply length_zero_iff_nil. by rewrite <- Hlen. }
    split; [by rewrite filter_ne_all|]. split.
    + exists []. rewrite Hempty, Hev, !deleted_rows_app, app_nil_r.
      rewrite (deleted_rows_none _ evs Hquiet). simpl. rewrite app_nil_r.
      split; [done|]. split; [constructor|done].
    + split; [done|]. intros Hmatch. by rewrite Hempty in Hmatch.
  - destruct Hcases as (-> & HgS & _ & Hev).
    destruct (Hhdr _ HgS) as [Hh Hd]. cbv zeta. rewrite Hh, Hd.
    split; [apply filter_eqb_false|]. split.
    + exists (rev found). rewrite Hev. split; [|split; [done|]].
      * rewrite !deleted_rows_app. rewrite (deleted_rows_none _ evs Hquiet).
        change (EvLock DocumentLock :: ?l) with ([EvLock DocumentLock] ++ l).
        rewrite !deleted_rows_app, deleted_rows_same.
        rewrite deleted_rows_other by done. simpl. by rewrite app_nil_r.
      * by rewrite length_rev.
    + split; [|done]. intros Hempty. rewrite Hempty in Hlen. simpl in Hlen. lia.
Qed.

(** C10. When [deleteShortcut(key)] returns ok, the Favorites sheet is left
    with the rows of the other keys, in their order: no row whose key
    column, trimmed, is the trimmed key remains, whoever its user is. *)
Theorem deleteShortcut_cascades_to_favorites (key : string) (w w' : World) (reply : Reply) :
  deleteShortcut key w = (Ret reply, w') ->
  ok reply = true ->
  let k := trim key in
  let hdrF := header_row w' CFG.SHEET_FAVORITES in
  data_rows w' CFG.SHEET_FAVORITES
  = filter (fun r => favorite_key hdrF r <> k) (data_rows w CFG.SHEET_FAVORITES)
  /\ forall (user : string) (r : list string),
       r ∈ data_rows w' CFG.SHEET_FAVORITES ->
       ~ (favorite_user hdrF r = user /\ favorite_key hdrF r = k).
Proof.
  intros Hrun Hok k.
  destruct (truthy_str (trim key)) eqn:Hk.
  2:{ destruct (ensureSheets_run w) as (w1 & Hens & Hready).
      pose proof Hready as (_ & _ & _ & _ & _ & _ & _ & _ & _ & _ & _ & _ & _ & Henv & _).
      destruct (documentLockBusy (env w)) eqn:Hlock.
      - rewrite (deleteShortcut_busy key w w1 Hens Henv Hlock) in Hrun. done.
      - rewrite (deleteShortcut_blank key w w1 Hens Henv Hlock Hk) in Hrun.
        injection Hrun as <- _. done. }
  destruct (deleteShortcut_returned key w w' reply Hrun Hk)
    as (hdr & hdrF & evs & _ & Hcases).
  cbv zeta in Hcases. fold k in Hcases.
  destruct (length _ =? 0).
  { destruct Hcases as (-> & _). done. }
  destruct Hcases as (_ & _ & HgF & _).
  cbv zeta. unfold header_row, data_rows at 1 3. rewrite HgF. simpl. rewrite drop_0.
  rewrite filter_eqb_false. split; [done|].
  intros user r Hr [_ Hkey]. apply list_elem_of_filter in Hr as [Hne _]. done.
Qed.

End DeleteClaims.

(** The claim as the specification states it fails on the test double:
    with no row for the key the result is the failure [{ok: false}], and
    with three rows for the key the result carries no count. *)
Lemma deleteShortcut_not_found_is_failure :
  (deleteShortcut (H := demo_platform) "nope" demo_world).1
  = Ret (mkReply false None (Some "Shortcut not found: nope"))
  /\ (deleteShortcut (H := demo_platform) "foo" demo_world).1
     = Ret (mkReply true None (Some "Deleted shortcut: foo"))
  /\ length (data_rows demo_world CFG.SHEET_SHORTCUTS)
     - length (data_rows (deleteShortcut (H := demo_platform) "foo" demo_world).2
                         CFG.SHEET_SHORTCUTS) = 3.
Proof. vm_compute. done. Qed.

Lemma deleteShortcut_removes_matching_witness :
  data_rows (deleteShortcut (H := demo_platform) " foo" demo_world).2 CFG.SHEET_SHORTCUTS
  = filter (fun r => shortcut_key HEADERS_SHORTCUTS r <> "foo")
           (data_rows demo_world CFG.SHEET_SHORTCUTS).
Proof.
  destruct (deleteShortcut_removes_matching (H := demo_platform) " foo" demo_world
              (deleteShortcut (H := demo_platform) " foo" demo_world).2
              (mkReply true None (Some "Deleted shortcut: foo")))
    as (Hrows & _).
  - vm_compute. reflexivity.
  - reflexivity.
  - exact Hrows.
Defined.

Lemma deleteShortcut_cascades_to_favorites_witness :
  data_rows (deleteShortcut (H := demo_platform) "foo" demo_world).2 CFG.SHEET_FAVORITES
  = filter (fun r => favorite_key HEADERS_FAVORITES r <> "foo")
           (data_rows demo_world CFG.SHEET_FAVORITES).
Proof.
  destruct (deleteShortcut_cascades_to_favorites (H := demo_platform) "foo" demo_world
              (deleteShortcut (H := demo_platform) "foo" demo_world).2
              (mkReply true None (Some "Deleted shortcut: foo")))
    as (Hrows & _).
  - vm_compute. reflexivity.
  - reflexivity.
  - exact Hrows.
Defined.

Example demo_delete_favorites :
  data_rows (deleteShortcut (H := demo_platform) "foo" demo_world).2 CFG.SHEET_FAVORITES
  = [["ann@example.com"; "bar"; "2025-12-08"]].
Proof. vm_compute. reflexivity. Qed.

(** ** The favorites update *)

Lemma positions_none_filter {A : Type} (p : A -> bool) (base : nat) (l : list A) :
  length (positions_from p base l) = 0 -> filter (fun x => p x = false) l = l.
Proof.
  revert base. induction l as [|x l IH]; intros base; simpl; [done|].
  destruct (p x) eqn:Hx; simpl; [lia|]. intros Hnone.
  rewrite filter_cons_True by done. by rewrite (IH _ Hnone).
Qed.



Lemma filter_pair_bool (hdr : list string) (email key : string) (rows : Sheet) :
  filter (fun r => (String.eqb (favorite_user hdr r) email
                    && String.eqb (favorite_key hdr r) key) = true) rows
  = filter (fun r => favorite_user hdr r = email /\ favorite_key hdr r = key) rows.
Proof.
  apply list_filter_iff. intros r.
  rewrite andb_true_iff, !String.eqb_eq. done.
Qed.





Example demo_force_add_rows :
  data_rows (updateFavoriteStatus_ "foo" "force_add" demo_world).2
            CFG.SHEET_FAVORITES
  = [["bob@example.com"; "foo"; "2025-12-06"];
     ["ann@example.com"; "bar"; "2025-12-08"];
     ["ann@example.com"; "foo"; "2025-12-23T10:00:00.000Z"]].
Proof. vm_compute. reflexivity. Qed.

(** ** Snapshot creation *)

Section SnapshotTheorem.
Context `{Platform}.

(** C5, as the code has it. When [cache.putAll] throws (and stores
    nothing), with the script lock free, the Shortcuts sheet present and the
    compression succeeding, [beginShortcutsSnapshot] does not raise:
    [writeCacheByKey_] catches the error and answers [false], which
    [writeSnapshotCache_] drops, so the metadata [{snapshotToken, total,
    builtAt, pageSize}] is returned although the cache is as before. The
    failure shows at the first read: if the cache holds no meta record
    under the new token, [fetchSnapshotPage_] answers
    [{error: 'SNAPSHOT_EXPIRED'}] for it. *)
Theorem beginShortcutsSnapshot_write_failure (g : Sheet) (w : World) :
  scriptLockBusy (env w) = false ->
  cachePutFails (env w) = true ->
  sheets w !! CFG.SHEET_SHORTCUTS = Some g ->
  (forall s : string, is_Some (gzipBase64 s)) ->
  exists (meta : SnapshotMeta) (w' : World),
    beginShortcutsSnapshot w = (Ret meta, w')
    /\ meta_snapshotToken meta = freshUuid (env w)
    /\ meta_pageSize meta = CFG.INITIAL_PAGE_SIZE
    /\ cache w' = cache w
    /\ sheets w' = sheets w
    /\ (cache w !! meta_key ("SNAP_" +:+ freshUuid (env w)) = None ->
        forall off lim : value,
          fetchSnapshotPage_ (meta_snapshotToken meta) off lim w'
          = (Ret (PageError "SNAPSHOT_EXPIRED"), w')).
Proof.
  intros Hfree Hfails Hg Hgzip.
  set (w2 := log_event (EvLock ScriptLock) w).
  assert (Hg2 : sheets w2 !! CFG.SHEET_SHORTCUTS = Some g) by exact Hg.
  assert (Hrows : exists rows, getShortcutsFromSheet_ w2 = (Ret rows, w2)).
  { unfold getShortcutsFromSheet_.
    rewrite (bind_run _ _ _ _ _ (getSheet_run _ _ _ Hg2)).
    rewrite (bind_run _ _ _ _ _ (getDataRangeValues_run _ _ _ Hg2)).
    destruct g as [|hdr [|r rows]]; eauto. }
  destruct Hrows as [rows Hrows].
  assert (Hwrite : writeSnapshotCache_ (freshUuid (env w)) rows w2 = (Ret tt, w2)).
  { unfold writeSnapshotCache_, writeCacheByKey_, encodeGzB64_.
    destruct (Hgzip (jsonStringify (VArr rows))) as [encoded ->].
    unfold bind, ret, gets, try_catch, cache_putAll. cbn.
    by rewrite Hfails. }
  exists (mkSnapshotMeta (freshUuid (env w)) (length rows) (clockIso (env w))
                         CFG.INITIAL_PAGE_SIZE),
         (log_event (EvUnlock ScriptLock) w2).
  split; [|split; [done|split; [done|split; [done|split; [done|]]]]].
  - unfold beginShortcutsSnapshot.
    rewrite (bind_run _ _ w w2 true) by (unfold tryLock; simpl; by rewrite Hfree).
    apply (try_finally_run _ _ w2 w2); [|reflexivity].
    rewrite (bind_run _ _ _ _ _ Hrows).
    rewrite (bind_run _ _ w2 w2 (freshUuid (env w))) by reflexivity.
    rewrite (bind_run _ _ w2 w2 (clockIso (env w))) by reflexivity.
    cbv zeta. rewrite (bind_run _ _ _ _ _ Hwrite). reflexivity.
  - intros Hnone off lim. by apply fetchSnapshotPage_without_meta.
Qed.

End SnapshotTheorem.

(** The claim as the specification states it fails on the test double:
    with [cache.putAll] throwing, [beginShortcutsSnapshot] returns the
    metadata of a snapshot of four rows and leaves the cache as it was. *)
Lemma beginShortcutsSnapshot_swallows_write_failure :
  (beginShortcutsSnapshot (H := demo_platform) demo_full_cache_world).1
  = Ret (mkSnapshotMeta "uuid-1" 4 "2025-12-23T10:00:00.000Z" 200)
  /\ cache (beginShortcutsSnapshot (H := demo_platform) demo_full_cache_world).2
     = cache demo_full_cache_world.
Proof. vm_compute. done. Qed.

Lemma beginShortcutsSnapshot_write_failure_witness :
  exists (meta : SnapshotMeta) (w' : World),
    beginShortcutsSnapshot (H := demo_platform) demo_full_cache_world = (Ret meta, w')
    /\ fetchSnapshotPage_ (H := demo_platform) (meta_snapshotToken meta)
         (VNum (Num 0)) (VNum (Num 200)) w'
       = (Ret (PageError "SNAPSHOT_EXPIRED"), w').
Proof.
  destruct (beginShortcutsSnapshot_write_failure (H := demo_platform)
              demo_shortcuts demo_full_cache_world)
    as (meta & w' & Hrun & _ & _ & _ & _ & Hexpired).
  - reflexivity.
  - reflexivity.
  - reflexivity.
  - intros s. by exists s.
  - exists meta, w'. split; [exact Hrun|].
    apply Hexpired. vm_compute. reflexivity.
Defined.

(** ** A snapshot that was written can be read *)

Lemma pretty_N_go_not_M (x : N) (s s' : string) :
  s <> String "M" s' -> pretty_N_go x s <> String "M" s'.
Proof.
  revert s. induction (N.lt_wf_0 x) as [x _ IH]; intros s Hs.
  assert (x = 0 \/ 0 < x)%N as [->|Hpos] by lia.
  - by rewrite pretty_N_go_0.
  - rewrite pretty_N_go_step by done. apply IH.
    { by apply N.div_lt. }
    unfold pretty_N_char. by repeat case_match.
Qed.

Lemma pretty_nat_not_META (i : nat) : pretty i <> "META".
Proof.
  unfold pretty, pretty_nat, pretty, pretty_N.
  case_decide; [done|]. by apply pretty_N_go_not_M.
Qed.

Lemma chunk_key_not_meta (prefix : string) (i : nat) :
  meta_key prefix <> chunk_key prefix i.
Proof.
  unfold meta_key, chunk_key. intros E.
  apply (inj (String.append prefix)) in E.
  change "_META" with ("_" +:+ "META") in E.
  apply (inj (String.append "_")) in E.
  symmetry in E. by apply pretty_nat_not_META in E.
Qed.

Section WriteThenRead.
Context `{Platform}.

(** The meta record that [writeCacheByKey_] builds. *)
Lemma written_snapshot_reads (prefix encoded : string) (rows : list value)
    (cs : list string) (now metaJson : string) (w : World) :
  let meta := VObj [("chunkCount", VNum (Num (Z.of_nat (length cs))));
                    ("encoding", VStr "gz-b64"); ("updatedAt", VStr now)] in
  cache w !! meta_key prefix = Some metaJson ->
  (forall k c, cs !! k = Some c ->
     cache w !! chunk_key prefix (S k) = Some c /\ truthy_str c = true) ->
  truthy_str metaJson = true ->
  jsonParse metaJson = Some meta ->
  join_chunks cs = encoded ->
  truthy_str encoded = true ->
  (exists json, ungzipBase64 encoded = Some json /\ jsonParse json = Some (VArr rows)) ->
  readCacheByKey_ prefix w = (Ret (Some rows), w).
Proof.
  intros meta Hmeta Hchunks Htruthy Hparse Hjoin Henc (json & Hunzip & Hjson).
  assert (Hcs : cs <> []).
  { intros ->. subst encoded. done. }
  unfold readCacheByKey_.
  rewrite (bind_run _ _ w w (Some metaJson)) by (unfold cache_get, gets; by rewrite Hmeta).
  assert (Hsafe : safeJsonParse_ metaJson = meta) by (unfold safeJsonParse_; by rewrite Hparse).
  rewrite Htruthy. cbv zeta. rewrite Hsafe.
  assert (truthy meta && truthy (prop meta "chunkCount")
          && is_str (prop meta "encoding") "gz-b64" = true) as ->.
  { unfold meta. cbn. destruct cs; [done|]. done. }
  assert (readChunksByKey_ prefix (prop meta "chunkCount") w = (Ret (Some encoded), w)) as Hread.
  { rewrite readChunksByKey_run. f_equal. f_equal.
    unfold loop_count, meta. cbn [prop assoc String.eqb Ascii.eqb Bool.eqb toNumber].
    rewrite Nat2Z.id. rewrite read_chunks_loop_join; [by f_equal|].
    intros k c Hk. by apply Hchunks. }
  rewrite (bind_run _ _ _ _ _ Hread). rewrite Henc.
  unfold decodeGzB64_. rewrite Hunzip.
  rewrite (bind_run _ _ w w json) by reflexivity.
  unfold safeJsonParse_. by rewrite Hjson.
Qed.

(** With a platform that gives back what is written, and a cache that
    takes the write, [writeCacheByKey_] stores a snapshot that
    [readCacheByKey_] returns as it was. *)
Lemma writeCacheByKey_then_read (prefix : string) (rows : list value) (ttl : Z) (w : World) :
  cachePutFails (env w) = false ->
  written_back rows (clockIso (env w)) ->
  exists w' : World,
    writeCacheByKey_ prefix rows ttl w = (Ret true, w')
    /\ sheets w' = sheets w /\ events w' = events w /\ env w' = env w
    /\ forall w'' : World, cache w'' = cache w' ->
         readCacheByKey_ prefix w'' = (Ret (Some rows), w'').
Proof.
  intros Hput (Hjson & encoded & Henc & Htruthy & Hunzip & Hmeta).
  destruct (chunkString_chunks encoded 90000 ltac:(lia)) as (cs & Hcs & Hjoin & Hwin).
  destruct (Hmeta cs Hcs) as [Hmeta1 Hmeta2].
  set (meta := cache_meta (length cs) (clockIso (env w))) in *.
  set (payload := (meta_key prefix, jsonStringify meta) :: chunk_payload prefix cs).
  exists (set_cache (fun c => list_to_map payload ∪ c) w).
  split; [|split; [done|split; [done|split; [done|]]]].
  - unfold writeCacheByKey_, encodeGzB64_. rewrite Henc.
    rewrite (bind_run _ _ w w encoded) by reflexivity.
    rewrite Hcs. cbn [default]. 
    rewrite (bind_run _ _ w w (clockIso (env w))) by reflexivity.
    apply try_catch_ret. cbv zeta.
    change (VObj [("chunkCount", VNum (Num (Z.of_nat (length cs))));
                  ("encoding", VStr "gz-b64");
                  ("updatedAt", VStr (clockIso (env w)))]) with meta.
    fold payload.
    unfold cache_putAll, bind, ret. by rewrite Hput.
  - intros w'' Hcache.
    apply (written_snapshot_reads prefix encoded rows cs (clockIso (env w))
             (jsonStringify meta) w'').
    + rewrite Hcache. cbn [cache set_cache]. apply lookup_union_Some_l.
      unfold payload. cbn [list_to_map foldr]. apply lookup_insert_eq.
    + intros k c Hk. split.
      * rewrite Hcache. cbn [cache set_cache]. apply lookup_union_Some_l.
        unfold payload. cbn [list_to_map foldr].
        rewrite lookup_insert_ne by apply chunk_key_not_meta.
        by rewrite chunk_payload_lookup.
      * exact (chunkString_chunk_truthy encoded 90000 cs k c ltac:(lia) Hwin Hk).
    + exact Hmeta1.
    + exact Hmeta2.
    + exact Hjoin.
    + exact Htruthy.
    + exists (jsonStringify (VArr rows)). split; [exact Hunzip|exact Hjson].
Qed.

End WriteThenRead.

Section BeginThenWalk.
Context `{Platform}.

(** From creation to the last page: with the script lock free, the sheet
    present, a cache that takes the write and a platform that gives back
    what is written, [beginShortcutsSnapshot] returns the token of a
    snapshot whose walk, with any page size [k >= 1], collects the
    shortcuts that were read from the sheet, [total] of them. *)
Lemma beginShortcutsSnapshot_then_walk (g : Sheet) (w : World) :
  scriptLockBusy (env w) = false ->
  cachePutFails (env w) = false ->
  sheets w !! CFG.SHEET_SHORTCUTS = Some g ->
  (forall rows : list value,
     getShortcutsFromSheet_ w = (Ret rows, w) -> written_back rows (clockIso (env w))) ->
  exists (meta : SnapshotMeta) (w' : World) (rows : list value),
    beginShortcutsSnapshot w = (Ret meta, w')
    /\ (getShortcutsFromSheet_ w).1 = Ret rows
    /\ meta_total meta = length rows
    /\ forall (k : Z) (fuel : nat),
         (1 <= k)%Z ->
         (Z.of_nat (length rows) < Z.of_nat fuel * k)%Z ->
         walkSnapshot fuel (meta_snapshotToken meta) k w' = (Ret (Some rows), w').
Proof.
  intros Hfree Hput Hg Hback.
  set (w2 := log_event (EvLock ScriptLock) w).
  assert (Hg2 : sheets w2 !! CFG.SHEET_SHORTCUTS = Some g) by exact Hg.
  assert (Hrows : exists rows, forall w0, sheets w0 !! CFG.SHEET_SHORTCUTS = Some g ->
                    getShortcutsFromSheet_ w0 = (Ret rows, w0)).
  { exists (match g with
            | header :: ((_ :: _) as rows) => shortcuts_from 1 rows (indexHeader_ header)
            | _ => []
            end).
    intros w0 Hg0. unfold getShortcutsFromSheet_.
    rewrite (bind_run _ _ _ _ _ (getSheet_run _ _ _ Hg0)).
    rewrite (bind_run _ _ _ _ _ (getDataRangeValues_run _ _ _ Hg0)).
    destruct g as [|hdr [|r rows]]; done. }
  destruct Hrows as [rows Hrows].
  destruct (writeCacheByKey_then_read ("SNAP_" +:+ freshUuid (env w)) rows
              CFG.SNAPSHOT_TTL_SECONDS w2 Hput (Hback rows (Hrows w Hg)))
    as (w3 & Hwrite & _ & _ & _ & Hread).
  exists (mkSnapshotMeta (freshUuid (env w)) (length rows) (clockIso (env w))
                         CFG.INITIAL_PAGE_SIZE),
         (log_event (EvUnlock ScriptLock) w3), rows.
  split; [|split; [|split; [done|]]].
  - unfold beginShortcutsSnapshot.
    rewrite (bind_run _ _ w w2 true) by (unfold tryLock; simpl; by rewrite Hfree).
    apply (try_finally_run _ _ w2 w3); [|reflexivity].
    rewrite (bind_run _ _ _ _ _ (Hrows w2 Hg2)).
    rewrite (bind_run _ _ w2 w2 (freshUuid (env w))) by reflexivity.
    rewrite (bind_run _ _ w2 w2 (clockIso (env w))) by reflexivity.
    cbv zeta. unfold writeSnapshotCache_.
    rewrite (bind_run _ _ _ _ _ (bind_run _ _ _ _ _ Hwrite)). reflexivity.
  - by rewrite (Hrows w Hg).
  - intros k fuel Hk Hfuel. cbn [meta_snapshotToken]. unfold walkSnapshot.
    change 0%Z with (Z.of_nat 0).
    rewrite (walk_loop_collects _ rows k); [done| |done|lia|lia].
    unfold readSnapshotCache_. by rewrite Hread.
Qed.

End BeginThenWalk.

(** ** The concrete scenario of the specification on the test double *)

Example demo_first_page :
  fetchSnapshotPage_ (H := demo_platform) "tok" (VNum (Num 0)) (VNum (Num 2)) demo_world
  = (Ret (PageOk (mkPage [VObj [("key", VStr "a")]; VObj [("key", VStr "b")]]
                         2 3 true "tok")), demo_world).
Proof. vm_compute. reflexivity. Qed.

Example demo_second_page :
  fetchSnapshotPage_ (H := demo_platform) "tok" (VNum (Num 2)) (VNum (Num 2)) demo_world
  = (Ret (PageOk (mkPage [VObj [("key", VStr "c")]] 3 3 false "tok")), demo_world).
Proof. vm_compute. reflexivity. Qed.

Example demo_walk :
  walkSnapshot (H := demo_platform) 2 "tok" 2 demo_world = (Ret (Some demo_rows), demo_world).
Proof. vm_compute. reflexivity. Qed.

Example demo_limit_zero :
  (fetchSnapshotPage_ (H := demo_platform) "tok" (VNum (Num 0)) (VNum (Num 0)) demo_world).1
  = Ret (PageOk (mkPage demo_rows 3 3 false "tok")).
Proof. vm_compute. reflexivity. Qed.

Example trim_inner_spaces_kept : trim "  Snippet Name  " = "Snippet Name".
Proof. reflexivity. Qed.

(** ** The key look-ups of Code.gs *)

Lemma find_rows_from_keys (keys : list string) (target : string) (i : nat) :
  find_rows_from i keys target
  = positions_from (fun k => String.eqb (trim k) target) (i + 2) keys.
Proof.
  revert i. induction keys as [|k keys IH]; intros i; simpl; [done|].
  rewrite (IH (S i)). destruct (String.eqb _ _); done.
Qed.

Lemma positions_from_elem {A : Type} (p : A -> bool) (base : nat) (l : list A) (r : nat) :
  r ∈ positions_from p base l
  <-> exists (i : nat) (x : A), r = base + i /\ l !! i = Some x /\ p x = true.
Proof.
  revert base. induction l as [|x l IH]; intros base; simpl.
  - split; [by intros ?%not_elem_of_nil | by intros (i & y & _ & ? & _)].
  - assert (r ∈ positions_from p (S base) l
            <-> exists i y, r = base + S i /\ l !! i = Some y /\ p y = true) as Htail.
    { rewrite IH. split; intros (i & y & -> & ? & ?); exists i, y; (split; [lia|done]). }
    destruct (p x) eqn:Hx.
    + rewrite elem_of_cons, Htail. split.
      * intros [->|(i & y & -> & ? & ?)].
        -- exists 0, x. split; [lia|done].
        -- by exists (S i), y.
      * intros ([|i] & y & -> & Hy & Hp); simpl in Hy.
        -- left. lia.
        -- right. by exists i, y.
    + rewrite Htail. split.
      * intros (i & y & -> & ? & ?). by exists (S i), y.
      * intros ([|i] & y & -> & Hy & Hp); simpl in Hy.
        -- injection Hy as <-. congruence.
        -- by exists i, y.
Qed.

(** X1. [findAllRowsByKey_(keysArray, key)] returns, in strictly ascending
    order, exactly the row numbers [i + 2] of the indices [i] whose entry,
    trimmed, is the trimmed key. *)
Theorem findAllRowsByKey_rows (keysArray : list string) (key : string) :
  StronglySorted lt (findAllRowsByKey_ keysArray key)
  /\ forall r : nat,
       r ∈ findAllRowsByKey_ keysArray key
       <-> exists (i : nat) (k : string),
             r = i + 2 /\ keysArray !! i = Some k /\ trim k = trim key.
Proof.
  unfold findAllRowsByKey_. rewrite find_rows_from_keys. split.
  - apply positions_from_ascending.
  - intros r. rewrite positions_from_elem. split.
    + intros (i & k & -> & Hk & E). exists i, k. split; [lia|]. split; [done|].
      by apply String.eqb_eq.
    + intros (i & k & -> & Hk & E). exists i, k. split; [lia|]. split; [done|].
      by apply String.eqb_eq.
Qed.

Lemma find_row_from_first (keys : list string) (key : string) (i : nat) :
  find_row_from i keys key
  = match find_rows_from i keys key with
    | [] => (-1)%Z
    | r :: _ => Z.of_nat r
    end.
Proof.
  revert i. induction keys as [|k keys IH]; intros i; simpl; [done|].
  destruct (String.eqb (trim k) key); [done|]. apply IH.
Qed.

Lemma find_row_from_untrimmed (keys : list string) (key : string) (i : nat) :
  trim key <> key -> find_row_from i keys key = (-1)%Z.
Proof.
  intros Hkey. revert i. induction keys as [|k keys IH]; intros i; simpl; [done|].
  destruct (String.eqb_spec (trim k) key) as [E|_]; [|apply IH].
  exfalso. apply Hkey. by rewrite <- E, trim_idem.
Qed.

(** X2. [findRowIndexByKey_(keysArray, key)] compares the trimmed entries
    with the key as given: for a key that is its own trim it returns the
    first row number that [findAllRowsByKey_] finds, or -1 when there is
    none; for a key with white space around it, it returns -1 whatever the
    entries are. *)
Theorem findRowIndexByKey_first (keysArray : list string) (key : string) :
  findRowIndexByKey_ keysArray key
  = if String.eqb (trim key) key
    then match findAllRowsByKey_ keysArray key with
         | [] => (-1)%Z
         | r :: _ => Z.of_nat r
         end
    else (-1)%Z.
Proof.
  unfold findRowIndexByKey_, findAllRowsByKey_.
  destruct (String.eqb_spec (trim key) key) as [E|Hne].
  - rewrite E. apply find_row_from_first.
  - by apply find_row_from_untrimmed.
Qed.

Lemma buildKeyToRowIndexMap_snoc (l : list string) (x : string) :
  buildKeyToRowIndexMap_ (l ++ [x])
  = buildKeyToRowIndexMap_step (buildKeyToRowIndexMap_ l) (length l, x).
Proof.
  unfold buildKeyToRowIndexMap_. rewrite imap_app, foldl_app. simpl.
  by rewrite Nat.add_0_r.
Qed.

(** X3. The object that [buildKeyToRowIndexMap_(keysArray)] returns holds,
    of its own, a property for every key that is not empty, is its own
    trim and is not [__proto__], with the last row number that
    [findAllRowsByKey_] finds for it (a later duplicate overrides an
    earlier one), and holds nothing else: blank entries are left out, and
    an entry [__proto__] stores nothing. A read [m[k]] gives that number
    where there is one; elsewhere it gives what [Object.prototype] defines
    under the name, and [undefined] only for a name that it does not
    define. *)
Theorem buildKeyToRowIndexMap_last (keysArray : list string) (k : string) :
  let stored :=
    if truthy_str k && String.eqb (trim k) k && negb (String.eqb k "__proto__")
    then last (findAllRowsByKey_ keysArray k)
    else None in
  buildKeyToRowIndexMap_ keysArray !! k = stored
  /\ object_get (buildKeyToRowIndexMap_ keysArray) k
     = match stored with
       | Some r => ReadNumber r
       | None => if bool_decide (k ∈ object_prototype_names) then ReadInherited
                 else ReadUndefined
       end.
Proof.
  cbv zeta.
  assert (Hown : buildKeyToRowIndexMap_ keysArray !! k
                 = if truthy_str k && String.eqb (trim k) k && negb (String.eqb k "__proto__")
                   then last (findAllRowsByKey_ keysArray k)
                   else None).
  2:{ split; [exact Hown|]. unfold object_get. by rewrite Hown. }
  unfold findAllRowsByKey_. rewrite find_rows_from_keys. change (0 + 2) with 2.
  induction keysArray as [|x l IH] using rev_ind.
  - unfold buildKeyToRowIndexMap_. simpl. rewrite lookup_empty.
    by destruct (_ && _).
  - rewrite buildKeyToRowIndexMap_snoc, positions_from_app.
    unfold buildKeyToRowIndexMap_step, object_set. cbn [fst snd positions_from].
    set (holds := truthy_str k && String.eqb (trim k) k && negb (String.eqb k "__proto__")) in *.
    assert (Hother : trim x <> k ->
              (if holds
               then last (positions_from (fun e => String.eqb (trim e) (trim k)) 2 l
                          ++ (if String.eqb (trim x) (trim k) then [2 + length l] else []))
               else None)
              = (if holds
                 then last (positions_from (fun e => String.eqb (trim e) (trim k)) 2 l)
                 else None)).
    { intros Hne. destruct holds eqn:Hk; [|done].
      apply andb_true_iff in Hk as [[_ Hk%String.eqb_eq]%andb_true_iff _]. rewrite Hk.
      destruct (String.eqb_spec (trim x) k); [done|]. by rewrite app_nil_r. }
    destruct (truthy_str (trim x)) eqn:Hx.
    2:{ rewrite IH. destruct (decide (trim x = k)) as [E|Hne]; [|symmetry; by apply Hother].
        subst holds. by rewrite <- E, Hx. }
    destruct (String.eqb_spec (trim x) "__proto__") as [Hproto|Hproto].
    + destruct (decide (trim x = k)) as [E|Hne]; [|rewrite IH; symmetry; by apply Hother].
      rewrite IH. subst holds. rewrite <- E, Hproto.
      cbn [String.eqb Ascii.eqb Bool.eqb negb andb]. by rewrite !andb_false_r.
    + destruct (decide (trim x = k)) as [E|Hne].
      * rewrite E, lookup_insert_eq. subst holds.
        rewrite <- E, Hx, !trim_idem, String.eqb_refl.
        rewrite (proj2 (String.eqb_neq _ _) Hproto). simpl.
        rewrite last_snoc. f_equal. lia.
      * rewrite lookup_insert_ne, IH by done. symmetry. by apply Hother.
Qed.

(** An entry [__proto__] leaves no property, and a read of it gives the
    prototype; [toString] is read as the inherited function until an entry
    stores a row number under it. *)
Example demo_buildKeyToRowIndexMap :
  let m := buildKeyToRowIndexMap_ ["a"; "__proto__"; " a "; "toString"] in
  m = <["toString" := 5]> (<["a" := 4]> ∅)
  /\ object_get m "__proto__" = ReadInherited
  /\ object_get m "valueOf" = ReadInherited
  /\ object_get m "b" = ReadUndefined
  /\ object_get (buildKeyToRowIndexMap_ ["a"]) "toString" = ReadInherited.
Proof. vm_compute. done. Qed.

(** ** When the chunker ends *)

Lemma chunk_loop_stuck (s : string) (n : Z) (fuel : nat) :
  (n <= 0)%Z -> s <> EmptyString ->
  forall (i : Z) (out : list string), (i <= 0)%Z -> chunk_loop fuel s n i out = None.
Proof.
  intros Hn Hs. assert (0 < strlen s) as Hlen.
  { apply truthy_str_strlen. by destruct s. }
  induction fuel as [|fuel IH]; intros i out Hi; simpl.
  - destruct (Z.ltb_spec i (Z.of_nat (strlen s))); [done|lia].
  - destruct (Z.ltb_spec i (Z.of_nat (strlen s))); [|lia]. apply IH. lia.
Qed.

(** X4. [chunkString_(str, chunkSize)] ends for every chunk size of at
    least 1 and, with no chunk at all, for the empty string; the one case
    in which its loop never ends is a chunk size of 0 or less on a string
    that is not empty. *)
Theorem chunkString_ends (s : string) (chunkSize : Z) :
  (chunkString_ s chunkSize = None <-> (chunkSize <= 0)%Z /\ s <> EmptyString)
  /\ chunkString_ EmptyString chunkSize = Some [].
Proof.
  split; [|done]. split.
  - intros Hnone. split.
    + destruct (Z_le_gt_dec chunkSize 0) as [|Hpos]; [done|].
      destruct (chunkString_chunks s chunkSize ltac:(lia)) as (cs & Hcs & _).
      congruence.
    + intros ->. done.
  - intros [Hn Hs]. unfold chunkString_. by apply chunk_loop_stuck.
Qed.

(** ** What a run leaves as it was *)

Section Frames.
Context (R : relation World) `{!PreOrder R}.

Lemma stays_pure {A : Type} (m : M A) : (forall w, (m w).2 = w) -> stays R m.
Proof using Type*. intros Hm w. by rewrite Hm. Qed.

Lemma stays_ret {A : Type} (a : A) : stays R (ret a).
Proof using Type*. by apply stays_pure. Qed.

Lemma stays_throw {A : Type} (msg : string) : stays R (throw (A := A) msg).
Proof using Type*. by apply stays_pure. Qed.

Lemma stays_gets {A : Type} (f : World -> A) : stays R (gets f).
Proof using Type*. by apply stays_pure. Qed.

Lemma stays_modify (f : World -> World) : (forall w, R w (f w)) -> stays R (modify f).
Proof using Type*. intros Hf w. apply Hf. Qed.

Lemma stays_bind {A B : Type} (m : M A) (k : A -> M B) :
  stays R m -> (forall a, stays R (k a)) -> stays R (bind m k).
Proof using Type*.
  intros Hm Hk w. unfold bind. pose proof (Hm w) as Hw.
  destruct (m w) as [[a|msg] w1]; simpl in *; [|done].
  etrans; [exact Hw|]. apply Hk.
Qed.

Lemma stays_try_catch {A : Type} (body : M A) (handler : string -> M A) :
  stays R body -> (forall err, stays R (handler err)) -> stays R (try_catch body handler).
Proof using Type*.
  intros Hb Hh w. unfold try_catch. pose proof (Hb w) as Hw.
  destruct (body w) as [[a|msg] w1]; simpl in *; [done|].
  etrans; [exact Hw|]. apply Hh.
Qed.

Lemma stays_try_finally {A : Type} (body : M A) (fin : M unit) :
  stays R body -> stays R fin -> stays R (try_finally body fin).
Proof using Type*.
  intros Hb Hf w. unfold try_finally. pose proof (Hb w) as Hw.
  destruct (body w) as [r w1]. simpl in *. pose proof (Hf w1) as Hw1.
  destruct (fin w1) as [[u|msg] w2]; simpl in *; by etrans.
Qed.

Lemma stays_for_each {A : Type} (l : list A) (body : A -> M unit) :
  (forall x, stays R (body x)) -> stays R (for_each l body).
Proof using Type*.
  intros Hbody. induction l as [|x l IH]; simpl.
  - apply stays_ret.
  - apply stays_bind; [apply Hbody | intros _; exact IH].
Qed.

(** [getSheet_] hands back the name it was given. *)
Lemma stays_getSheet {A : Type} (name : string) (k : string -> M A) :
  stays R (k name) -> stays R (bind (getSheet_ name) k).
Proof using Type*.
  intros Hk w. unfold getSheet_, getSheetByName, gets, bind.
  destruct (sheets w !! name); simpl; [apply Hk | reflexivity].
Qed.

End Frames.

(** One step of the walk through a script: the control structure is taken
    apart and [leaf] is tried on what remains. *)
Ltac frame_step leaf :=
  lazymatch goal with
  | |- PreOrder _ => apply _
  | |- forall _, _ => intros ?
  | |- stays _ (ret _) => apply stays_ret
  | |- stays _ (throw _) => apply stays_throw
  | |- stays _ (gets _) => apply stays_gets
  | |- stays _ (bind (getSheet_ _) _) => apply stays_getSheet
  | |- stays _ (bind _ _) => apply stays_bind
  | |- stays _ (try_catch _ _) => apply stays_try_catch
  | |- stays _ (try_finally _ _) => apply stays_try_finally
  | |- stays _ (for_each _ _) => apply stays_for_each
  | |- stays _ (if ?c then _ else _) => destruct c
  | |- stays _ (match ?x with _ => _ end) => destruct x
  | |- _ => first [progress cbv zeta | leaf]
  end.

Ltac frame leaf := repeat (frame_step leaf).

#[local] Instance cache_kept_preorder : PreOrder cache_kept.
Proof.
  split.
  - intros w. by left.
  - intros w1 w2 w3 [H12|H12] [H23|H23]; unfold cache_kept; rewrite H23, H12; auto.
    right. apply delete_delete_eq.
Qed.

#[local] Instance only_sheet_preorder (name : string) : PreOrder (only_sheet name).
Proof.
  split.
  - intros w. done.
  - intros w1 w2 w3 (Hs12 & Hc12 & Hp12 & He12) (Hs23 & Hc23 & Hp23 & He23).
    split; [|split; [|split]]; try congruence.
    intros other Hne. by rewrite Hs23, Hs12.
Qed.

#[local] Instance log_grew_preorder (p : Event -> bool) : PreOrder (log_grew p).
Proof.
  split.
  - intros w. split; [done|]. exists []. by rewrite app_nil_r.
  - intros w1 w2 w3 (He12 & e1 & H12 & Hp1) (He23 & e2 & H23 & Hp2). split; [congruence|].
    exists (e1 ++ e2). split; [by rewrite H23, H12, app_assoc|]. by apply Forall_app.
Qed.

Lemma try_catch_total {A : Type} (body : M A) (handler : string -> M A) (w : World) :
  (forall err w1, exists a w2, handler err w1 = (Ret a, w2)) ->
  exists a w', try_catch body handler w = (Ret a, w').
Proof.
  intros Hh. unfold try_catch. destruct (body w) as [[a|msg] w1]; eauto.
Qed.

Lemma try_finally_release {A : Type} (body : M A) (k : LockKind) (w : World) :
  try_finally body (releaseLock k) w
  = ((body w).1, log_event (EvUnlock k) (body w).2).
Proof. unfold try_finally, releaseLock, modify. by destruct (body w). Qed.

Ltac only_sheet_leaf :=
  intros ?; unfold waitLock, tryLock, sheet_grid, modify, only_sheet; simpl;
  repeat case_match; simpl;
  (split; [intros; by rewrite ?lookup_insert_ne | done]).

Lemma updateFavoriteStatus_only_favorites (snippetName mode : string) :
  stays (only_sheet CFG.SHEET_FAVORITES) (updateFavoriteStatus_ snippetName mode).
Proof.
  unfold updateFavoriteStatus_, getUserEmail_, getSheetByName, getDataRangeValues,
    appendRow, deleteRow, releaseLock.
  frame only_sheet_leaf.
Qed.

Lemma updateFavoriteStatus_returns (snippetName mode : string) (w : World) :
  exists (r : FavResult) (w' : World),
    updateFavoriteStatus_ snippetName mode w = (Ret r, w').
Proof.
  unfold updateFavoriteStatus_, getUserEmail_, getSheetByName.
  unfold bind at 1. unfold gets at 1.
  destruct (negb _); [by eexists _, _|].
  unfold bind at 1. unfold gets at 1.
  destruct (sheets w !! CFG.SHEET_FAVORITES); [|by eexists _, _].
  rewrite try_finally_release.
  match goal with |- context [try_catch ?b ?h w] =>
    destruct (try_catch_total b h w) as (a & w1 & ->) end.
  - intros err w1. by eexists _, _.
  - by eexists _, _.
Qed.

(** X5. [updateFavoriteStatus_] never throws, whatever the snippet name,
    the mode and the state it runs in: every failure, a busy script lock
    included, comes back as a result object. And it touches nothing but the
    Favorites sheet and the log: every other sheet, the cache, the script
    properties and the surroundings are as before. *)
Theorem updateFavoriteStatus_never_throws (snippetName mode : string) (w : World) :
  exists (r : FavResult) (w' : World),
    updateFavoriteStatus_ snippetName mode w = (Ret r, w')
    /\ (forall other : string,
          other <> CFG.SHEET_FAVORITES -> sheets w' !! other = sheets w !! other)
    /\ cache w' = cache w /\ props w' = props w /\ env w' = env w.
Proof.
  pose proof (updateFavoriteStatus_only_favorites snippetName mode w) as Hframe.
  destruct (updateFavoriteStatus_returns snippetName mode w) as (r & w' & Hrun).
  exists r, w'. split; [exact Hrun|]. rewrite Hrun in Hframe. exact Hframe.
Qed.

(** The operations that are written with the primitives. *)
Ltac unfold_sheet_ops :=
  repeat progress unfold ensureSheets_, ensureHeaderRow_, getShortcutsHeaderAndColMap_,
    getColumnValues_, getSheetByName, insertSheet, getDataRangeValues,
    getLastColumn, getRow1, getLastRow, setRow1, deleteRow, appendRow,
    releaseLock, getUserEmail_, cache_get, cache_remove.

Ltac cache_kept_leaf :=
  intros ?; unfold waitLock, tryLock, sheet_grid, modify, cache_kept; simpl;
  repeat case_match; simpl; auto.

Ltac log_grew_leaf :=
  intros ?; unfold waitLock, tryLock, sheet_grid, modify, cache_putAll, log_grew; simpl;
  repeat case_match; simpl;
  (split; [done|]);
  first [ by (exists []; rewrite app_nil_r) | by (eexists [_]; split; [done|repeat constructor]) ].

Section MutationFrames.
Context `{Platform}.

Ltac unfold_cache_ops :=
  repeat progress unfold invalidateShortcutsCache_, bumpCacheVersion_, cache_remove.

Lemma upsertShortcut_cache_kept (payload : option Payload) :
  stays cache_kept (upsertShortcut payload).
Proof.
  unfold upsertShortcut. unfold_sheet_ops. unfold_cache_ops. frame cache_kept_leaf.
Qed.

Lemma deleteShortcut_cache_kept (key : string) :
  stays cache_kept (deleteShortcut key).
Proof.
  unfold deleteShortcut, removeFavoriteForAllUsers_. unfold_sheet_ops. unfold_cache_ops.
  frame cache_kept_leaf.
Qed.

(** What [readCacheByKey_] answers depends on the cache alone, and there
    on the meta record and the numbered chunks of its prefix. *)
Lemma readCacheByKey_ext (prefix : string) (w1 w2 : World) :
  cache w1 !! meta_key prefix = cache w2 !! meta_key prefix ->
  (forall i, cache w1 !! chunk_key prefix i = cache w2 !! chunk_key prefix i) ->
  (readCacheByKey_ prefix w1).1 = (readCacheByKey_ prefix w2).1.
Proof.
  intros Hmeta Hchunks.
  unfold readCacheByKey_, bind, cache_get, gets. rewrite Hmeta.
  destruct (cache w2 !! meta_key prefix) as [raw|]; [|done].
  destruct (truthy_str raw); [|done].
  destruct (_ && _); [|done].
  rewrite !readChunksByKey_run.
  rewrite (read_chunks_loop_ext (cache w1) (cache w2)) by (intros; apply Hchunks).
  destruct (read_chunks_loop _ _ _ _ _) as [b64|]; [|done].
  destruct (truthy_str b64); [|done].
  unfold decodeGzB64_. destruct (ungzipBase64 b64); done.
Qed.

Lemma snapshot_survives (token : string) (off lim : value) (w w' : World) :
  cache_kept w w' ->
  (fetchSnapshotPage_ token off lim w').1 = (fetchSnapshotPage_ token off lim w).1.
Proof.
  intros Hkept.
  assert ((readSnapshotCache_ token w').1 = (readSnapshotCache_ token w).1) as Hread.
  { apply readCacheByKey_ext.
    - destruct Hkept as [->| ->]; [done|]. by rewrite lookup_delete_ne.
    - intros i. destruct Hkept as [->| ->]; [done|]. by rewrite lookup_delete_ne. }
  unfold fetchSnapshotPage_, bind.
  destruct (readSnapshotCache_ token w') as [r1 w1'], (readSnapshotCache_ token w) as [r2 w2'].
  simpl in Hread. subst r2. destruct r1 as [[rows|]|msg]; done.
Qed.

(** X6. A snapshot outlives the mutations: whatever [upsertShortcut] or
    [deleteShortcut] is given and however it ends, every page of every
    snapshot token reads after it as it read before. Of the cache the two
    remove at most the meta record of the global shortcuts cache. *)
Theorem mutations_keep_snapshots (payload : option Payload) (key token : string)
    (off lim : value) (w : World) :
  (fetchSnapshotPage_ token off lim (upsertShortcut payload w).2).1
  = (fetchSnapshotPage_ token off lim w).1
  /\ (fetchSnapshotPage_ token off lim (deleteShortcut key w).2).1
     = (fetchSnapshotPage_ token off lim w).1.
Proof.
  split; apply snapshot_survives.
  - apply upsertShortcut_cache_kept.
  - apply deleteShortcut_cache_kept.
Qed.

End MutationFrames.

(** ** The document lock around the mutations *)

Lemma locked_script_run {A : Type} (body : M A) (handler : string -> M A) (w : World) :
  stays (log_grew is_row_change) body ->
  (forall err, exists a, handler err = ret a) ->
  under_document_lock w
    (bind ensureSheets_ (fun _ =>
       bind (waitLock DocumentLock 30000) (fun _ =>
         try_finally (try_catch body handler) (releaseLock DocumentLock))) w).
Proof.
  intros Hbody Hhandler.
  destruct (ensureSheets_run w) as (w1 & Hens & Hready).
  destruct Hready as (_ & _ & setup & _ & _ & _ & _ & _ & _ & _ & _
                      & _ & _ & Henv & Hevents & Hsetup).
  rewrite (bind_run _ _ _ _ _ Hens). unfold under_document_lock.
  destruct (documentLockBusy (env w)) eqn:Hlock.
  - rewrite (bind_throw _ _ w1 w1 "Lock timeout")
      by (apply waitLock_busy; simpl; by rewrite Henv).
    split; [done|]. by exists setup.
  - rewrite (bind_run _ _ _ _ _ (waitLock_run DocumentLock 30000 w1
               ltac:(simpl; rewrite Henv; exact Hlock))).
    rewrite try_finally_release.
    set (w2 := log_event (EvLock DocumentLock) w1).
    assert (stays (log_grew is_row_change) (try_catch body handler)) as Hstays.
    { apply stays_try_catch; [apply _|exact Hbody|].
      intros err. destruct (Hhandler err) as [a ->]. apply stays_ret. apply _. }
    destruct (try_catch_total body handler w2) as (a & w3 & Hrun).
    { intros err w'. destruct (Hhandler err) as [a ->]. by eexists _, _. }
    pose proof (Hstays w2) as (_ & changes & Hchanges & Hrows).
    rewrite Hrun in *. simpl in Hchanges.
    exists a, setup, changes. split; [done|]. split; [|done].
    simpl. rewrite Hchanges, Hevents, <- !app_assoc. done.
Qed.

Section LockDiscipline.
Context `{Platform}.

Ltac unfold_cache_ops :=
  repeat progress unfold invalidateShortcutsCache_, bumpCacheVersion_, cache_remove.

(** X7. [upsertShortcut] and [deleteShortcut] throw in one case only: the
    document lock is busy, and then nothing but the set-up of
    [ensureSheets_] has happened. With the lock free they always return a
    reply (any other failure is caught and reported in it), every row they
    delete or append is deleted or appended after the lock was taken, and
    the release of the lock is their last step. *)
Theorem mutations_under_document_lock (payload : option Payload) (key : string) (w : World) :
  under_document_lock w (upsertShortcut payload w)
  /\ under_document_lock w (deleteShortcut key w).
Proof.
  split.
  - unfold upsertShortcut. apply locked_script_run.
    + unfold_sheet_ops. unfold_cache_ops. frame log_grew_leaf.
    + intros err. by eexists.
  - unfold deleteShortcut. apply locked_script_run.
    + unfold removeFavoriteForAllUsers_. unfold_sheet_ops. unfold_cache_ops.
      frame log_grew_leaf.
    + intros err. by eexists.
Qed.

End LockDiscipline.

(** ** The second test double gives back what it was given *)

Lemma value_nested_ind (P : value -> Prop) :
  P VUndefined -> P VNull -> (forall b, P (VBool b)) -> (forall n, P (VNum n)) ->
  (forall s, P (VStr s)) ->
  (forall items, Forall P items -> P (VArr items)) ->
  (forall fields, Forall (fun kv => P kv.2) fields -> P (VObj fields)) ->
  forall v, P v.
Proof.
  intros HU HN HB HNum HS HA HO. fix IH 1. intros [| | b | n | s | items | fields].
  - exact HU.
  - exact HN.
  - apply HB.
  - apply HNum.
  - apply HS.
  - apply HA. induction items as [|x items IHitems]; constructor; [apply IH | exact IHitems].
  - apply HO. induction fields as [|[k x] fields IHfields]; constructor;
      [apply IH | exact IHfields].
Qed.

Lemma tree_to_value_to_tree (v : value) : tree_to_value (value_to_tree v) = Some v.
Proof.
  induction v as [| | [|] | [|z] | s | items IH | fields IH] using value_nested_ind;
    try reflexivity.
  - cbn [value_to_tree tree_to_value].
    match goal with |- _ <$> ?go _ = _ =>
      assert (go (map value_to_tree items) = Some items) as ->; [|done] end.
    induction IH as [|x items Hx _ IHitems]; [done|].
    cbn [map]. rewrite Hx. cbn [mbind option_bind]. by rewrite IHitems.
  - cbn [value_to_tree tree_to_value].
    match goal with |- _ <$> ?go ?ts = _ =>
      assert (go ts = Some fields) as ->; [|done] end.
    induction IH as [|[k x] fields Hx _ IHfields]; [done|].
    cbn [map]. cbn [snd] in Hx. rewrite Hx. cbn [mbind option_bind]. by rewrite IHfields.
Qed.

Lemma string_to_pos_to_string (p : positive) : string_to_pos (pos_to_string p) = Some p.
Proof. induction p as [p IH|p IH|]; simpl; [by rewrite IH..|done]. Qed.

Lemma roundtrip_platform_json (v : value) :
  truthy_str (jsonStringify (Platform := roundtrip_platform) v) = true
  /\ jsonParse (Platform := roundtrip_platform) (jsonStringify (Platform := roundtrip_platform) v)
     = Some v.
Proof.
  cbn [jsonStringify jsonParse roundtrip_platform]. split.
  - by destruct (encode (value_to_tree v)).
  - rewrite string_to_pos_to_string. cbn [mbind option_bind].
    rewrite decode_encode. cbn [mbind option_bind]. apply tree_to_value_to_tree.
Qed.

Lemma roundtrip_platform_codec (s : string) :
  exists b64, gzipBase64 (Platform := roundtrip_platform) s = Some b64
              /\ truthy_str b64 = true
              /\ ungzipBase64 (Platform := roundtrip_platform) b64 = Some s.
Proof. exists (String "z" s). done. Qed.

Lemma roundtrip_platform_written_back (items : list value) (now : string) :
  written_back (H := roundtrip_platform) items now.
Proof.
  unfold written_back. cbv zeta. split; [apply roundtrip_platform_json|].
  destruct (roundtrip_platform_codec
              (jsonStringify (Platform := roundtrip_platform) (VArr items)))
    as (encoded & Hzip & Hfull & Hunzip).
  exists encoded. repeat split; try done; apply roundtrip_platform_json.
Qed.

(** ** The global shortcuts cache *)

Section CacheCycle.
Context `{Platform}.

Lemma readCacheByKey_no_meta (prefix : string) (w : World) :
  cache w !! meta_key prefix = None -> readCacheByKey_ prefix w = (Ret None, w).
Proof.
  intros Hnone. unfold readCacheByKey_, bind, cache_get, gets. by rewrite Hnone.
Qed.

Lemma getShortcutsFromSheet_run (g : Sheet) :
  exists rows : list value,
    forall w : World, sheets w !! CFG.SHEET_SHORTCUTS = Some g ->
      getShortcutsFromSheet_ w = (Ret rows, w).
Proof.
  exists (match g with
          | header :: ((_ :: _) as rows) => shortcuts_from 1 rows (indexHeader_ header)
          | _ => []
          end).
  intros w Hg. unfold getShortcutsFromSheet_.
  rewrite (bind_run _ _ _ _ _ (getSheet_run _ _ _ Hg)).
  rewrite (bind_run _ _ _ _ _ (getDataRangeValues_run _ _ _ Hg)).
  destruct g as [|hdr [|r rows]]; done.
Qed.

(** X8. The cycle that [testCacheAndSnapshotIntegrity] runs on the global
    cache. Assumed: the cache takes the write, and this one [list] is
    written back ([written_back]): [JSON.parse] gives the list back from
    its [JSON.stringify] text, the codec gives that text back from its
    gzip and base64 form, which is not empty, and the meta record written
    with the chunks parses back from its text. Then
    [writeShortcutsCache_(list)] answers [true], [readShortcutsCache_()]
    then returns [list], and after [invalidateShortcutsCache_()] it
    returns [null]. Nothing is assumed of any other value. *)
Theorem shortcuts_cache_cycle (list : list value) (w : World) :
  cachePutFails (env w) = false ->
  written_back list (clockIso (env w)) ->
  exists w1 w2 : World,
    writeShortcutsCache_ list w = (Ret true, w1)
    /\ readShortcutsCache_ w1 = (Ret (Some list), w1)
    /\ invalidateShortcutsCache_ w1 = (Ret tt, w2)
    /\ readShortcutsCache_ w2 = (Ret None, w2).
Proof.
  intros Hput Hback.
  destruct (writeCacheByKey_then_read CFG.CACHE_KEY_PREFIX list CFG.CACHE_TTL_SECONDS
              w Hput Hback) as (w1 & Hwrite & _ & _ & _ & Hread).
  eexists w1, _. split; [exact Hwrite|]. split; [by apply Hread|]. split.
  - unfold invalidateShortcutsCache_, cache_remove, bumpCacheVersion_, modify, bind, gets.
    reflexivity.
  - apply readCacheByKey_no_meta. cbn [cache set_props set_cache].
    apply lookup_delete_eq.
Qed.

(** X9. [getShortcutsCached_()] on a miss. Assumed: the global cache
    holds no meta record, the Shortcuts sheet is there, the cache takes the
    write, and the list that [getShortcutsFromSheet_] reads is written
    back ([written_back]: JSON, codec and meta record give back this one
    list; nothing is assumed of other values). Then the call reads the
    shortcuts from the sheet, returns them and stores them. From then on,
    as long as the cache is the same, it returns that list without reading
    the sheet, whatever the sheet holds by then. *)
Theorem getShortcutsCached_fills_cache (g : Sheet) (w : World) :
  cache w !! meta_key CFG.CACHE_KEY_PREFIX = None ->
  cachePutFails (env w) = false ->
  sheets w !! CFG.SHEET_SHORTCUTS = Some g ->
  (forall rows : list value,
     getShortcutsFromSheet_ w = (Ret rows, w) -> written_back rows (clockIso (env w))) ->
  exists (rows : list value) (w1 : World),
    getShortcutsCached_ w = (Ret rows, w1)
    /\ getShortcutsFromSheet_ w = (Ret rows, w)
    /\ sheets w1 = sheets w
    /\ forall w2 : World, cache w2 = cache w1 -> getShortcutsCached_ w2 = (Ret rows, w2).
Proof.
  intros Hmiss Hput Hg Hback.
  destruct (getShortcutsFromSheet_run g) as [rows Hrows].
  destruct (writeCacheByKey_then_read CFG.CACHE_KEY_PREFIX rows CFG.CACHE_TTL_SECONDS
              w Hput (Hback rows (Hrows w Hg))) as (w1 & Hwrite & Hsheets & _ & _ & Hread).
  exists rows, w1. split; [|split; [by apply Hrows|split; [done|]]].
  - unfold getShortcutsCached_.
    rewrite (bind_run _ _ _ _ _ (readCacheByKey_no_meta _ w Hmiss)).
    rewrite (bind_run _ _ _ _ _ (Hrows w Hg)).
    unfold writeShortcutsCache_. cbn [truthy_str CFG.CACHE_KEY_PREFIX].
    by rewrite (bind_run _ _ _ _ _ Hwrite).
  - intros w2 Hcache. unfold getShortcutsCached_.
    by rewrite (bind_run _ _ _ _ _ (Hread w2 Hcache)).
Qed.

(** X10. From creation to the last page. Assumed: the script lock is
    free, the Shortcuts sheet is there, the cache takes the write, and the
    list that [getShortcutsFromSheet_] reads is written back
    ([written_back]: JSON, codec and meta record give back this one list;
    nothing is assumed of other values). Then [beginShortcutsSnapshot()]
    returns the token of a snapshot whose walk page by page, with any page
    size of at least 1, collects exactly the shortcuts that
    [getShortcutsFromSheet_] read, [total] of them, in their order. *)
Theorem snapshot_walk_returns_sheet (g : Sheet) (w : World) :
  scriptLockBusy (env w) = false ->
  cachePutFails (env w) = false ->
  sheets w !! CFG.SHEET_SHORTCUTS = Some g ->
  (forall rows : list value,
     getShortcutsFromSheet_ w = (Ret rows, w) -> written_back rows (clockIso (env w))) ->
  exists (meta : SnapshotMeta) (w' : World) (rows : list value),
    beginShortcutsSnapshot w = (Ret meta, w')
    /\ getShortcutsFromSheet_ w = (Ret rows, w)
    /\ meta_total meta = length rows
    /\ meta_snapshotToken meta = freshUuid (env w)
    /\ forall (pageSize : Z) (fuel : nat),
         (1 <= pageSize)%Z ->
         (Z.of_nat (length rows) < Z.of_nat fuel * pageSize)%Z ->
         walkSnapshot fuel (meta_snapshotToken meta) pageSize w' = (Ret (Some rows), w').
Proof.
  intros Hfree Hput Hg Hback.
  destruct (beginShortcutsSnapshot_then_walk g w Hfree Hput Hg Hback)
    as (meta & w' & rows & Hbegin & Hrows & Htotal & Hwalk).
  destruct (getShortcutsFromSheet_run g) as [rows' Hrows'].
  rewrite (Hrows' w Hg) in Hrows. injection Hrows as ->.
  exists meta, w', rows. split; [done|]. split; [by apply Hrows'|]. split; [done|].
  split; [|exact Hwalk].
  set (w2 := log_event (EvLock ScriptLock) w).
  unfold beginShortcutsSnapshot in Hbegin.
  rewrite (bind_run _ _ w w2 true) in Hbegin by (unfold tryLock; simpl; by rewrite Hfree).
  rewrite try_finally_release in Hbegin.
  rewrite (bind_run _ _ _ _ _ (Hrows' w2 Hg)) in Hbegin.
  rewrite (bind_run _ _ w2 w2 (freshUuid (env w))) in Hbegin by reflexivity.
  rewrite (bind_run _ _ w2 w2 (clockIso (env w))) in Hbegin by reflexivity.
  cbv zeta in Hbegin. unfold bind in Hbegin.
  destruct (writeSnapshotCache_ _ _ w2) as [[[]|msg] w3]; simpl in Hbegin; [|done].
  by injection Hbegin as <- _.
Qed.

End CacheCycle.

Lemma shortcuts_cache_cycle_witness :
  exists w1 w2 : World,
    writeShortcutsCache_ (H := roundtrip_platform) demo_rows demo_world = (Ret true, w1)
    /\ readShortcutsCache_ (H := roundtrip_platform) w1 = (Ret (Some demo_rows), w1)
    /\ invalidateShortcutsCache_ (H := roundtrip_platform) w1 = (Ret tt, w2)
    /\ readShortcutsCache_ (H := roundtrip_platform) w2 = (Ret None, w2).
Proof.
  apply (shortcuts_cache_cycle (H := roundtrip_platform) demo_rows demo_world).
  - reflexivity.
  - apply roundtrip_platform_written_back.
Defined.

Lemma getShortcutsCached_fills_cache_witness :
  exists (rows : list value) (w1 : World),
    getShortcutsCached_ (H := roundtrip_platform) demo_world = (Ret rows, w1)
    /\ getShortcutsFromSheet_ demo_world = (Ret rows, demo_world)
    /\ sheets w1 = sheets demo_world
    /\ forall w2 : World, cache w2 = cache w1 ->
         getShortcutsCached_ (H := roundtrip_platform) w2 = (Ret rows, w2).
Proof.
  apply (getShortcutsCached_fills_cache (H := roundtrip_platform) demo_shortcuts demo_world).
  - reflexivity.
  - reflexivity.
  - reflexivity.
  - intros rows _. apply roundtrip_platform_written_back.
Defined.

Lemma snapshot_walk_returns_sheet_witness :
  exists (meta : SnapshotMeta) (w' : World) (rows : list value),
    beginShortcutsSnapshot (H := roundtrip_platform) demo_world = (Ret meta, w')
    /\ length rows = 4
    /\ walkSnapshot (H := roundtrip_platform) 3 (meta_snapshotToken meta) 2 w'
       = (Ret (Some rows), w').
Proof.
  destruct (snapshot_walk_returns_sheet (H := roundtrip_platform) demo_shortcuts demo_world)
    as (meta & w' & rows & Hbegin & Hrows & Htotal & _ & Hwalk).
  - reflexivity.
  - reflexivity.
  - reflexivity.
  - intros rows _. apply roundtrip_platform_written_back.
  - exists meta, w', rows. split; [exact Hbegin|].
    assert (length rows = 4) as Hlen.
    { vm_compute in Hrows. by injection Hrows as <-. }
    split; [exact Hlen|]. apply Hwalk; lia.
Defined.

(** ** The first row of every key *)

Lemma later_duplicates_bounds {A : Type} (f : A -> option string) (rows : list A) :
  forall (seen : gset string) (base : nat),
    Forall (fun r => base <= r < base + length rows) (later_duplicates f seen base rows).
Proof.
  induction rows as [|x rows IH]; intros seen base; simpl; [constructor|].
  assert (forall s, Forall (fun r => base <= r < base + S (length rows))
                           (later_duplicates f s (S base) rows)) as Htail.
  { intros s. eapply Forall_impl; [apply IH|]. simpl. intros r ?. lia. }
  destruct (f x) as [k|]; [|apply Htail].
  case_bool_decide; [constructor; [lia|apply Htail] | apply Htail].
Qed.

Lemma later_duplicates_ascending {A : Type} (f : A -> option string) (rows : list A) :
  forall (seen : gset string) (base : nat),
    StronglySorted lt (later_duplicates f seen base rows).
Proof.
  induction rows as [|x rows IH]; intros seen base; simpl; [constructor|].
  destruct (f x) as [k|]; [|apply IH].
  case_bool_decide; [|apply IH].
  constructor; [apply IH|].
  eapply Forall_impl; [apply later_duplicates_bounds|]. simpl. intros r ?. lia.
Qed.

Lemma later_duplicates_length {A : Type} (f : A -> option string) (rows : list A) :
  forall (seen : gset string) (base : nat),
    length (keep_first f seen rows) + length (later_duplicates f seen base rows)
    = length rows.
Proof.
  induction rows as [|x rows IH]; intros seen base; simpl; [done|].
  destruct (f x) as [k|]; [case_bool_decide|]; simpl; rewrite ?Nat.add_succ_r, IH; done.
Qed.

(** Deleting the later duplicates from the bottom up leaves the first row
    of every key. *)
Lemma delete_rows_later_duplicates (f : list string -> option string) (rows : Sheet) :
  forall (seen : gset string) (pre : Sheet),
    delete_rows (rev (later_duplicates f seen (length pre + 1) rows)) (pre ++ rows)
    = pre ++ keep_first f seen rows.
Proof.
  induction rows as [|x rows IH]; intros seen pre; simpl; [done|].
  assert (forall s, delete_rows (rev (later_duplicates f s (S (length pre + 1)) rows))
                                (pre ++ x :: rows)
                    = pre ++ x :: keep_first f s rows) as Htail.
  { intros s. pose proof (IH s (pre ++ [x])) as Hs.
    rewrite length_app, <- !app_assoc in Hs. simpl in Hs.
    by replace (length pre + 1 + 1) with (S (length pre + 1)) in Hs by lia. }
  destruct (f x) as [k|]; [|apply Htail].
  case_bool_decide; [|apply Htail].
  simpl. unfold delete_rows in *. rewrite foldl_app. simpl. rewrite Htail.
  replace (length pre + 1 - 1) with (length pre) by lia.
  rewrite delete_take_drop, take_app_length, drop_app_ge by lia.
  by replace (S (length pre) - length pre) with 1 by lia.
Qed.

Lemma keep_first_keys {A : Type} (f : A -> option string) (rows : list A) :
  forall seen : gset string,
    NoDup (omap f (keep_first f seen rows))
    /\ forall k, k ∈ omap f (keep_first f seen rows) -> k ∉ seen.
Proof.
  induction rows as [|x rows IH]; intros seen; simpl.
  - split; [constructor | by intros k ?%not_elem_of_nil].
  - destruct (f x) as [k|] eqn:Hx.
    + case_bool_decide as Hk; [apply IH|].
      simpl. rewrite Hx. destruct (IH ({[k]} ∪ seen)) as [Hnd Hout]. split.
      * constructor; [|done]. intros Hin. apply Hout in Hin.
        apply Hin, elem_of_union_l. by apply elem_of_singleton.
      * intros k' [->|Hin]%elem_of_cons; [done|]. apply Hout in Hin.
        intros Hs. apply Hin. by apply elem_of_union_r.
    + simpl. rewrite Hx. apply IH.
Qed.

Lemma keep_first_sublist {A : Type} (f : A -> option string) (rows : list A) :
  forall seen : gset string, keep_first f seen rows `sublist_of` rows.
Proof.
  induction rows as [|x rows IH]; intros seen; simpl; [done|].
  destruct (f x) as [k|]; [case_bool_decide|].
  - by apply sublist_cons.
  - by apply sublist_skip.
  - by apply sublist_skip.
Qed.

Lemma keep_first_complete {A : Type} (f : A -> option string) (rows : list A) :
  forall (seen : gset string) (r : A) (k : string),
    r ∈ rows -> f r = Some k -> k ∉ seen ->
    exists r', r' ∈ keep_first f seen rows /\ f r' = Some k.
Proof.
  induction rows as [|x rows IH]; intros seen r k Hr Hk Hseen; [by apply not_elem_of_nil in Hr|].
  simpl. apply elem_of_cons in Hr as [->|Hr].
  - rewrite Hk. rewrite bool_decide_eq_false_2 by done. exists x. split; [left|done].
  - destruct (f x) as [kx|] eqn:Hx.
    + case_bool_decide as Hkx; [by apply (IH seen r k)|].
      destruct (decide (k = kx)) as [->|Hne].
      * exists x. split; [left|done].
      * destruct (IH ({[kx]} ∪ seen) r k Hr Hk) as (r' & Hr' & Hk').
        { intros [Hin%elem_of_singleton|Hin]%elem_of_union; done. }
        exists r'. split; [by right|done].
    + destruct (IH seen r k Hr Hk Hseen) as (r' & Hr' & Hk').
      exists r'. split; [by right|done].
Qed.

Lemma keep_first_no_key {A : Type} (f : A -> option string) (rows : list A) :
  forall seen : gset string,
    filter (fun r => f r = None) (keep_first f seen rows) = filter (fun r => f r = None) rows.
Proof.
  induction rows as [|x rows IH]; intros seen; simpl; [done|].
  destruct (f x) as [k|] eqn:Hx.
  - rewrite (filter_cons_False _ x rows) by (by rewrite Hx).
    case_bool_decide; [apply IH|].
    rewrite filter_cons_False by (by rewrite Hx). apply IH.
  - rewrite !filter_cons_True by done. by rewrite IH.
Qed.

Lemma keep_first_again {A : Type} (f : A -> option string) (rows : list A) :
  forall (seen : gset string) (base : nat),
    later_duplicates f seen base (keep_first f seen rows) = []
    /\ keep_first f seen (keep_first f seen rows) = keep_first f seen rows.
Proof.
  induction rows as [|x rows IH]; intros seen base; simpl; [done|].
  destruct (f x) as [k|] eqn:Hx.
  - case_bool_decide as Hk; [apply IH|].
    simpl. rewrite Hx. rewrite bool_decide_eq_false_2 by done.
    destruct (IH ({[k]} ∪ seen) (S base)) as [-> ->]. done.
  - simpl. rewrite Hx. destruct (IH seen (S base)) as [-> ->]. done.
Qed.

(** The loops of favorites.gs in these terms. *)
Lemma duplicate_favorites_from_later (hdr : list string) (rows : Sheet) :
  forall (seen : gset string) (i : nat),
    duplicate_favorites_from i rows (getFavoritesColumnMap_ hdr) seen
    = later_duplicates (favorite_composite hdr) seen (i + 1) rows.
Proof.
  induction rows as [|x rows IH]; intros seen i; [done|].
  cbn [duplicate_favorites_from later_duplicates favorite_composite].
  change (trim (cell x (fav_userEmail (getFavoritesColumnMap_ hdr))))
    with (favorite_user hdr x).
  change (trim (cell x (fav_key (getFavoritesColumnMap_ hdr)))) with (favorite_key hdr x).
  rewrite !(IH _ (S i)). done.
Qed.

Lemma my_favorites_from_later (hdr : list string) (userEmail : string) (rows : Sheet) :
  forall (seen : gset string) (i : nat),
    my_favorites_from i rows (getFavoritesColumnMap_ hdr) userEmail seen
    = (map (favorite_entry hdr)
           (filter (fun r => is_Some (favorite_of hdr userEmail r))
                   (keep_first (favorite_of hdr userEmail) seen rows)),
       later_duplicates (favorite_of hdr userEmail) seen (i + 1) rows).
Proof.
  induction rows as [|x rows IH]; intros seen i; [done|].
  cbn [my_favorites_from keep_first later_duplicates].
  change (trim (cell x (fav_userEmail (getFavoritesColumnMap_ hdr))))
    with (favorite_user hdr x).
  change (trim (cell x (fav_key (getFavoritesColumnMap_ hdr)))) with (favorite_key hdr x).
  rewrite !(IH _ (S i)).
  destruct (String.eqb (favorite_user hdr x) userEmail && truthy_str (favorite_key hdr x))
    eqn:Hmine.
  - assert (favorite_of hdr userEmail x = Some (favorite_key hdr x)) as Hf
      by (unfold favorite_of; by rewrite Hmine).
    rewrite Hf. case_bool_decide; [done|].
    rewrite filter_cons_True by (rewrite Hf; eauto). done.
  - assert (favorite_of hdr userEmail x = None) as Hf
      by (unfold favorite_of; by rewrite Hmine).
    rewrite Hf. rewrite filter_cons_False; [done|]. rewrite Hf. by intros [? ?].
Qed.

(** ** The reader and the clean-up of the Favorites sheet *)

Lemma delete_duplicates_run (name : string) (f : list string -> option string)
    (hdr : list string) (rows : Sheet) (w : World) :
  sheets w !! name = Some (hdr :: rows) ->
  for_each (sort_desc (later_duplicates f ∅ 2 rows)) (deleteRow name) w
  = (Ret tt,
     with_sheet name (hdr :: keep_first f ∅ rows)
       (map (EvDeleteRow name) (rev (later_duplicates f ∅ 2 rows))) w).
Proof.
  intros Hg.
  rewrite sort_desc_ascending by apply later_duplicates_ascending.
  rewrite (for_each_deleteRow_run name _ (hdr :: rows) w Hg).
  - pose proof (delete_rows_later_duplicates f rows ∅ [hdr]) as Hdel.
    simpl in Hdel. by rewrite Hdel.
  - apply Forall_rev.
    eapply Forall_impl; [apply (later_duplicates_bounds f rows ∅ 2)|].
    simpl. intros r ?. lia.
Qed.

Lemma cleanupDuplicateFavorites_run (hdr : list string) (rows : Sheet) (w : World) :
  scriptLockBusy (env w) = false ->
  sheets w !! CFG.SHEET_FAVORITES = Some (hdr :: rows) ->
  let dups := later_duplicates (favorite_composite hdr) ∅ 2 rows in
  exists w' : World,
    cleanupDuplicateFavorites_ w
    = (Ret (mkCleanupReport (Z.of_nat (length rows)) (Z.of_nat (length dups))
                            (Z.of_nat (length rows) - Z.of_nat (length dups))), w')
    /\ sheets w'
       = <[CFG.SHEET_FAVORITES := hdr :: keep_first (favorite_composite hdr) ∅ rows]> (sheets w)
    /\ env w' = env w.
Proof.
  intros Hfree Hg dups.
  set (w2 := log_event (EvLock ScriptLock) w).
  assert (Hg2 : sheets w2 !! CFG.SHEET_FAVORITES = Some (hdr :: rows)) by exact Hg.
  unfold cleanupDuplicateFavorites_.
  rewrite (bind_run _ _ _ _ _ (waitLock_run ScriptLock 30000 w Hfree)). fold w2.
  rewrite try_finally_release.
  rewrite (bind_run _ _ _ _ _ (getSheet_run _ _ _ Hg2)).
  rewrite (bind_run _ _ _ _ _ (getDataRangeValues_run _ _ _ Hg2)).
  destruct rows as [|r rows].
  - eexists. split; [reflexivity|]. split; [|done].
    cbn. by rewrite insert_id.
  - cbv zeta. rewrite (duplicate_favorites_from_later hdr (r :: rows) ∅ 1).
    change (1 + 1) with 2.
    rewrite (bind_run _ _ _ _ _ (delete_duplicates_run _ _ hdr (r :: rows) w2 Hg2)).
    fold dups. eexists. split.
    + cbn [ret fst snd]. f_equal. f_equal. f_equal; cbn [length]; lia.
    + cbn. done.
Qed.

Lemma omap_Some_map {A B : Type} (f : A -> B) (l : list A) :
  omap (fun x => Some (f x)) l = map f l.
Proof. induction l as [|x l IH]; [done|]. simpl. by f_equal. Qed.

(** X11. [cleanupDuplicateFavorites_()], with the script lock free and a
    Favorites sheet that has its header row: of the rows with the same
    composite [email|key] (both trimmed) it keeps the first and deletes the
    others, and leaves the order of the rows that stay. Afterwards no two
    rows have the same composite and every composite that was there still
    is. The report counts the rows below the header before and after, and
    their difference as removed. A second run removes nothing. *)
Theorem cleanupDuplicateFavorites_keeps_first (hdr : list string) (rows : Sheet) (w : World) :
  scriptLockBusy (env w) = false ->
  sheets w !! CFG.SHEET_FAVORITES = Some (hdr :: rows) ->
  let pair := fun r => favorite_user hdr r +:+ "|" +:+ favorite_key hdr r in
  let rows' := keep_first (favorite_composite hdr) ∅ rows in
  exists (report : CleanupReport) (w' : World),
    cleanupDuplicateFavorites_ w = (Ret report, w')
    /\ sheets w' = <[CFG.SHEET_FAVORITES := hdr :: rows']> (sheets w)
    /\ NoDup (map pair rows')
    /\ rows' `sublist_of` rows
    /\ (forall r, r ∈ rows -> exists r', r' ∈ rows' /\ pair r' = pair r)
    /\ initialCount report = Z.of_nat (length rows)
    /\ finalCount report = Z.of_nat (length rows')
    /\ removedCount report = (initialCount report - finalCount report)%Z
    /\ exists w'' : World,
         cleanupDuplicateFavorites_ w'
         = (Ret (mkCleanupReport (finalCount report) 0 (finalCount report)), w'')
         /\ sheets w'' = sheets w'.
Proof.
  intros Hfree Hg pair rows'.
  destruct (cleanupDuplicateFavorites_run hdr rows w Hfree Hg) as (w' & Hrun & Hsheets & Henv).
  cbv zeta in Hrun. fold rows' in Hsheets.
  pose proof (later_duplicates_length (favorite_composite hdr) rows ∅ 2) as Hlen.
  fold rows' in Hlen.
  assert (Hg' : sheets w' !! CFG.SHEET_FAVORITES = Some (hdr :: rows'))
    by (by rewrite Hsheets, lookup_insert_eq).
  destruct (cleanupDuplicateFavorites_run hdr rows' w' ltac:(by rewrite Henv) Hg')
    as (w'' & Hrun' & Hsheets' & _).
  cbv zeta in Hrun'.
  destruct (keep_first_again (favorite_composite hdr) rows ∅ 2) as [Hnone Hsame].
  fold rows' in Hnone, Hsame. rewrite Hnone in Hrun'. rewrite Hsame in Hsheets'.
  eexists _, w'. split; [exact Hrun|]. split; [exact Hsheets|].
  split; [|split; [|split; [|split; [|split; [|split]]]]].
  - destruct (keep_first_keys (favorite_composite hdr) rows ∅) as [Hnd _].
    unfold favorite_composite in Hnd. rewrite omap_Some_map in Hnd. exact Hnd.
  - apply keep_first_sublist.
  - intros r Hr.
    destruct (keep_first_complete (favorite_composite hdr) rows ∅ r (pair r) Hr eq_refl)
      as (r' & Hr' & Hk'); [apply not_elem_of_empty|].
    exists r'. split; [done|]. by injection Hk'.
  - done.
  - cbn [finalCount]. lia.
  - cbn [finalCount initialCount removedCount]. lia.
  - exists w''. split.
    + rewrite Hrun'. cbn [finalCount length]. do 2 f_equal. f_equal; lia.
    + rewrite Hsheets', Hsheets. by rewrite insert_insert_eq.
Qed.

Lemma listMyFavorites_run (hdr : list string) (rows : Sheet) (w : World) :
  truthy_str (sessionEmail (env w)) = true ->
  scriptLockBusy (env w) = false ->
  sheets w !! CFG.SHEET_FAVORITES = Some (hdr :: rows) ->
  let mine := favorite_of hdr (sessionEmail (env w)) in
  exists w' : World,
    listMyFavorites_ w
    = (Ret (map (favorite_entry hdr)
              (filter (fun r => is_Some (mine r)) (keep_first mine ∅ rows))), w')
    /\ sheets w' = <[CFG.SHEET_FAVORITES := hdr :: keep_first mine ∅ rows]> (sheets w)
    /\ env w' = env w.
Proof.
  intros Hemail Hfree Hg mine.
  set (w2 := log_event (EvLock ScriptLock) w).
  assert (Hg2 : sheets w2 !! CFG.SHEET_FAVORITES = Some (hdr :: rows)) by exact Hg.
  unfold listMyFavorites_.
  rewrite (bind_run _ _ w w (sessionEmail (env w))) by reflexivity.
  rewrite Hemail. cbn [negb].
  rewrite (bind_run _ _ _ _ _ (waitLock_run ScriptLock 10000 w Hfree)). fold w2.
  rewrite try_finally_release.
  rewrite (bind_run _ _ _ _ _ (getSheet_run _ _ _ Hg2)).
  rewrite (bind_run _ _ _ _ _ (getDataRangeValues_run _ _ _ Hg2)).
  destruct rows as [|r rows].
  - eexists. split; [reflexivity|]. split; [|done].
    cbn. by rewrite insert_id.
  - cbv zeta. rewrite (my_favorites_from_later hdr _ (r :: rows) ∅ 1).
    change (1 + 1) with 2. cbn [fst snd]. fold mine.
    pose proof (for_each_if_nonempty (later_duplicates mine ∅ 2 (r :: rows))
                  (deleteRow CFG.SHEET_FAVORITES) w2) as Hdel.
    rewrite (delete_duplicates_run _ _ hdr (r :: rows) w2 Hg2) in Hdel.
    rewrite (bind_run _ _ _ _ _ Hdel).
    eexists. split; [reflexivity|]. cbn. done.
Qed.

Lemma favorite_entry_keys (hdr : list string) (userEmail : string) (l : Sheet) :
  map fv_key (map (favorite_entry hdr)
                  (filter (fun r => is_Some (favorite_of hdr userEmail r)) l))
  = omap (favorite_of hdr userEmail) l.
Proof.
  induction l as [|x l IH]; [done|].
  destruct (favorite_of hdr userEmail x) as [k|] eqn:Hx.
  - rewrite filter_cons_True by (rewrite Hx; eauto). simpl. rewrite Hx.
    unfold favorite_of in Hx. destruct (_ && _); [|done].
    injection Hx as <-. by f_equal.
  - rewrite filter_cons_False by (rewrite Hx; by intros [? ?]). simpl. by rewrite Hx.
Qed.

(** X12. [listMyFavorites_()], for a user with an e-mail address, with
    the script lock free and a Favorites sheet that has its header row:
    it returns one entry [{key, createdAt}] for every key of the rows of
    this user (e-mail cell trimmed equal to the session e-mail, key cell
    trimmed not empty), taken from the first such row and in the order of
    the rows, and it deletes the later rows of this user with a key seen
    before. The rows of other users and the rows with a blank key stay as
    they are. A second call returns the same list and deletes nothing. *)
Theorem listMyFavorites_first_per_key (hdr : list string) (rows : Sheet) (w : World) :
  truthy_str (sessionEmail (env w)) = true ->
  scriptLockBusy (env w) = false ->
  sheets w !! CFG.SHEET_FAVORITES = Some (hdr :: rows) ->
  let mine := favorite_of hdr (sessionEmail (env w)) in
  let rows' := keep_first mine ∅ rows in
  exists (favs : list Favorite) (w' : World),
    listMyFavorites_ w = (Ret favs, w')
    /\ favs = map (favorite_entry hdr) (filter (fun r => is_Some (mine r)) rows')
    /\ NoDup (map fv_key favs)
    /\ (forall r k, r ∈ rows -> mine r = Some k -> k ∈ map fv_key favs)
    /\ sheets w' = <[CFG.SHEET_FAVORITES := hdr :: rows']> (sheets w)
    /\ rows' `sublist_of` rows
    /\ filter (fun r => mine r = None) rows' = filter (fun r => mine r = None) rows
    /\ exists w'' : World,
         listMyFavorites_ w' = (Ret favs, w'') /\ sheets w'' = sheets w'.
Proof.
  intros Hemail Hfree Hg mine rows'.
  destruct (listMyFavorites_run hdr rows w Hemail Hfree Hg) as (w' & Hrun & Hsheets & Henv).
  cbv zeta in Hrun, Hsheets. fold mine in Hrun, Hsheets. fold rows' in Hrun, Hsheets.
  assert (Hg' : sheets w' !! CFG.SHEET_FAVORITES = Some (hdr :: rows'))
    by (by rewrite Hsheets, lookup_insert_eq).
  destruct (listMyFavorites_run hdr rows' w' ltac:(by rewrite Henv) ltac:(by rewrite Henv) Hg')
    as (w'' & Hrun' & Hsheets' & _).
  cbv zeta in Hrun', Hsheets'. rewrite Henv in Hrun', Hsheets'.
  fold mine in Hrun', Hsheets'.
  destruct (keep_first_again mine rows ∅ 2) as [_ Hsame].
  fold rows' in Hsame. rewrite Hsame in Hrun', Hsheets'.
  eexists _, w'. split; [exact Hrun|]. split; [done|].
  pose proof (favorite_entry_keys hdr (sessionEmail (env w)) rows') as Hkeys.
  fold mine in Hkeys. rewrite Hkeys.
  split; [|split; [|split; [|split; [|split]]]].
  - apply keep_first_keys.
  - intros r k Hr Hk.
    destruct (keep_first_complete mine rows ∅ r k Hr Hk) as (r' & Hr' & Hk');
      [apply not_elem_of_empty|].
    apply list_elem_of_omap. by exists r'.
  - exact Hsheets.
  - apply keep_first_sublist.
  - apply keep_first_no_key.
  - exists w''. split; [exact Hrun'|].
    rewrite Hsheets', Hsheets. by rewrite insert_insert_eq.
Qed.

Lemma cleanupDuplicateFavorites_keeps_first_witness :
  exists (report : CleanupReport) (w' : World),
    cleanupDuplicateFavorites_ demo_world = (Ret report, w')
    /\ initialCount report = 4%Z.
Proof.
  destruct (cleanupDuplicateFavorites_keeps_first HEADERS_FAVORITES (drop 1 demo_favorites)
              demo_world)
    as (report & w' & Hrun & _ & _ & _ & _ & Hinitial & _).
  - reflexivity.
  - reflexivity.
  - exists report, w'. split; [exact Hrun|exact Hinitial].
Defined.

Lemma listMyFavorites_first_per_key_witness :
  exists (favs : list Favorite) (w' : World),
    listMyFavorites_ demo_world = (Ret favs, w')
    /\ NoDup (map fv_key favs).
Proof.
  destruct (listMyFavorites_first_per_key HEADERS_FAVORITES (drop 1 demo_favorites)
              demo_world)
    as (favs & w' & Hrun & _ & Hnodup & _).
  - reflexivity.
  - reflexivity.
  - reflexivity.
  - exists favs, w'. split; [exact Hrun|exact Hnodup].
Defined.

Example demo_listMyFavorites :
  (listMyFavorites_ demo_world).1
  = Ret [mkFavorite "foo" "2025-12-05"; mkFavorite "bar" "2025-12-08"]
  /\ data_rows (listMyFavorites_ demo_world).2 CFG.SHEET_FAVORITES
     = [["ann@example.com"; "foo"; "2025-12-05"];
        ["bob@example.com"; "foo"; "2025-12-06"];
        ["ann@example.com"; "bar"; "2025-12-08"]].
Proof. vm_compute. done. Qed.

(** ** The three modes of the favorites update *)

Lemma positions_from_ext {A : Type} (p q : A -> bool) (base : nat) (l : list A) :
  (forall x, p x = q x) -> positions_from p base l = positions_from q base l.
Proof.
  intros Hpq. revert base. induction l as [|x l IH]; intros base; simpl; [done|].
  by rewrite Hpq, IH.
Qed.

(** The run of [updateFavoriteStatus_] in any mode, for a user with an
    e-mail address and a key that is not blank, on a Favorites sheet with
    its header row, when the script lock is free; [mine] tells the rows of
    this user and key. *)
Lemma updateFavoriteStatus_run (snippetName mode : string) (hdr : list string) (rows : Sheet)
    (mine : list string -> bool) (w : World) :
  truthy_str (sessionEmail (env w)) = true ->
  truthy_str (trim snippetName) = true ->
  scriptLockBusy (env w) = false ->
  sheets w !! CFG.SHEET_FAVORITES = Some (hdr :: rows) ->
  (forall r, mine r = String.eqb (favorite_user hdr r) (trim (sessionEmail (env w)))
                      && String.eqb (favorite_key hdr r) (trim snippetName)) ->
  let act := favorite_action mode (length (filter (fun r => mine r = true) rows)) in
  let newrow := [sessionEmail (env w); trim snippetName; clockIso (env w)] in
  exists w' : World,
    updateFavoriteStatus_ snippetName mode w
    = (Ret (mkFavResult (resultStatus act) (trim snippetName) None), w')
    /\ sheets w'
       = <[CFG.SHEET_FAVORITES :=
             hdr :: (if shouldDelete act then filter (fun r => mine r = false) rows else rows)
                 ++ (if shouldAdd act then [newrow] else [])]> (sheets w)
    /\ env w' = env w.
Proof.
  intros Hemail Hkey Hfree Hg Hmine act newrow.
  set (found := positions_from mine 2 rows).
  assert (Hact : favorite_action mode (length found) = act).
  { unfold act, found. by rewrite positions_from_length. }
  assert (Hfound : favorite_rows_of_pair 1 rows (getFavoritesColumnMap_ hdr)
                     (trim (sessionEmail (env w))) (trim snippetName) = found).
  { rewrite favorite_rows_of_pair_positions. apply positions_from_ext.
    intros r. by rewrite Hmine. }
  set (w2 := log_event (EvLock ScriptLock) w).
  assert (Hg2 : sheets w2 !! CFG.SHEET_FAVORITES = Some (hdr :: rows)) by exact Hg.
  set (rowsA := if shouldDelete act then filter (fun r => mine r = false) rows else rows).
  assert (exists evs,
            (if shouldDelete act && (0 <? length found)
             then for_each (sort_desc found) (deleteRow CFG.SHEET_FAVORITES)
             else ret tt) w2
            = (Ret tt, with_sheet CFG.SHEET_FAVORITES (hdr :: rowsA) evs w2)) as [evs Hdel].
  { unfold rowsA. destruct (shouldDelete act).
    - destruct (0 <? length found) eqn:Hn; cbn [andb].
      + rewrite (sort_desc_ascending found) by apply positions_from_ascending.
        eexists. apply (delete_matching_run CFG.SHEET_FAVORITES mine hdr rows w2 Hg2).
      + exists []. unfold ret. rewrite (positions_none_filter mine 2 rows).
        * by rewrite with_sheet_same.
        * apply Nat.ltb_ge in Hn. fold found. lia.
    - exists []. cbn [andb]. unfold ret. by rewrite with_sheet_same. }
  set (w3 := with_sheet CFG.SHEET_FAVORITES (hdr :: rowsA) evs w2) in *.
  assert (exists evs',
            (if shouldAdd act
             then bind (gets (fun w => clockIso (env w)))
                    (fun now => appendRow CFG.SHEET_FAVORITES
                                  [sessionEmail (env w); trim snippetName; now])
             else ret tt) w3
            = (Ret tt, with_sheet CFG.SHEET_FAVORITES
                         (hdr :: rowsA ++ (if shouldAdd act then [newrow] else [])) evs' w3))
    as [evs' Hadd].
  { destruct (shouldAdd act).
    - eexists. unfold bind, gets.
      apply (appendRow_run _ (hdr :: rowsA) newrow w3). apply with_sheet_lookup.
    - exists []. unfold ret. rewrite app_nil_r. rewrite with_sheet_same; [done|].
      apply with_sheet_lookup. }
  eexists. split; [|split].
  - unfold updateFavoriteStatus_.
    rewrite (bind_run _ _ w w (sessionEmail (env w))) by reflexivity.
    rewrite Hemail. cbn [negb].
    rewrite (bind_run _ _ w w (Some (hdr :: rows)))
      by (unfold getSheetByName, gets; by rewrite Hg).
    eapply try_finally_run; [|reflexivity].
    apply try_catch_ret.
    rewrite (bind_run _ _ _ _ _ (waitLock_run ScriptLock 10000 w Hfree)). fold w2.
    rewrite (bind_run _ _ _ _ _ (getDataRangeValues_run _ _ _ Hg2)).
    cbn [length Nat.eqb]. rewrite (bind_run _ _ w2 w2 tt) by reflexivity.
    cbv zeta. rewrite Hkey. cbn [negb drop].
    rewrite drop_0, Hfound, Hact.
    rewrite (bind_run _ _ _ _ _ Hdel). rewrite (bind_run _ _ _ _ _ Hadd). reflexivity.
  - cbn. by rewrite !insert_insert_eq.
  - reflexivity.
Qed.

Lemma mine_false_iff (hdr : list string) (email key : string) (r : list string) :
  (String.eqb (favorite_user hdr r) email && String.eqb (favorite_key hdr r) key) = false
  <-> ~ (favorite_user hdr r = email /\ favorite_key hdr r = key).
Proof.
  rewrite <- not_true_iff_false, andb_true_iff, !String.eqb_eq. done.
Qed.

(** X13. [toggleFavorite(key)] called twice, by a user with an e-mail
    address, for a key that is not blank, with the script lock free and the
    Favorites header mapping its three columns in their standard places.
    When no row of this user and key exists, the first call appends one
    ([added]) and the second removes it again ([removed]): the rows are
    back as they were. When such rows exist, however many, the first call
    deletes them all ([removed]) and the second appends exactly one
    ([added]). The rows of other users and keys keep their order. *)
Theorem toggleFavorite_twice (snippetName : string) (hdr : list string) (rows : Sheet)
    (w : World) :
  truthy_str (sessionEmail (env w)) = true ->
  truthy_str (trim snippetName) = true ->
  scriptLockBusy (env w) = false ->
  sheets w !! CFG.SHEET_FAVORITES = Some (hdr :: rows) ->
  getFavoritesColumnMap_ hdr = mkFavoriteCols (Some 0) (Some 1) (Some 2) ->
  let email := trim (sessionEmail (env w)) in
  let key := trim snippetName in
  let of_pair := fun r => favorite_user hdr r = email /\ favorite_key hdr r = key in
  let newrow := [sessionEmail (env w); key; clockIso (env w)] in
  exists (r1 r2 : FavResult) (w1 w2 : World),
    toggleFavorite snippetName w = (Ret r1, w1)
    /\ toggleFavorite snippetName w1 = (Ret r2, w2)
    /\ (Forall (fun r => ~ of_pair r) rows ->
        status r1 = "added"
        /\ data_rows w1 CFG.SHEET_FAVORITES = rows ++ [newrow]
        /\ status r2 = "removed"
        /\ data_rows w2 CFG.SHEET_FAVORITES = rows)
    /\ (Exists of_pair rows ->
        status r1 = "removed"
        /\ data_rows w1 CFG.SHEET_FAVORITES = filter (fun r => ~ of_pair r) rows
        /\ status r2 = "added"
        /\ data_rows w2 CFG.SHEET_FAVORITES
           = filter (fun r => ~ of_pair r) rows ++ [newrow]).
Proof.
  intros Hemail Hkey Hfree Hg Hcols email key of_pair newrow.
  set (mine := fun r => String.eqb (favorite_user hdr r) email
                        && String.eqb (favorite_key hdr r) key).
  assert (Hmine : mine newrow = true).
  { unfold mine, favorite_user, favorite_key.
    injection Hcols as -> -> _. simpl.
    fold email. rewrite String.eqb_refl. simpl.
    unfold key. rewrite trim_idem. apply String.eqb_refl. }
  assert (Hnot : filter (fun r => mine r = false) rows = filter (fun r => ~ of_pair r) rows).
  { apply list_filter_iff. intros r. apply mine_false_iff. }
  assert (Hpair : of_pair newrow).
  { unfold mine in Hmine. by apply andb_true_iff in Hmine as [?%String.eqb_eq ?%String.eqb_eq]. }
  assert (Hyes : forall l : Sheet, filter (fun r => mine r = true) l = filter of_pair l).
  { intros l. apply filter_pair_bool. }
  assert (Hdef : forall r, mine r = String.eqb (favorite_user hdr r) (trim (sessionEmail (env w)))
                                    && String.eqb (favorite_key hdr r) (trim snippetName))
    by done.
  destruct (updateFavoriteStatus_run snippetName "toggle" hdr rows mine w
              Hemail Hkey Hfree Hg Hdef) as (w1 & Hrun1 & Hsheets1 & Henv1).
  cbv zeta in Hrun1, Hsheets1. fold key newrow in Hrun1, Hsheets1.
  rewrite Hyes in Hrun1, Hsheets1.
  assert (Hdef1 : forall r, mine r = String.eqb (favorite_user hdr r)
                                       (trim (sessionEmail (env w1)))
                                     && String.eqb (favorite_key hdr r) (trim snippetName))
    by (by rewrite Henv1).
  destruct (filter of_pair rows) as [|r0 rest] eqn:Hfilter.
  - (* no row of the pair *)
    change (favorite_action "toggle" (length (@nil (list string))))
      with (mkFavAction true false "added") in Hrun1, Hsheets1.
    cbn [shouldDelete shouldAdd resultStatus] in Hrun1, Hsheets1.
    assert (Hall : filter (fun r => mine r = false) rows = rows).
    { apply (positions_none_filter mine 2). by rewrite positions_from_length, Hyes, Hfilter. }
    assert (Hg1 : sheets w1 !! CFG.SHEET_FAVORITES = Some (hdr :: rows ++ [newrow]))
      by (by rewrite Hsheets1, lookup_insert_eq).
    destruct (updateFavoriteStatus_run snippetName "toggle" hdr (rows ++ [newrow]) mine w1
                ltac:(by rewrite Henv1) Hkey ltac:(by rewrite Henv1) Hg1 Hdef1)
      as (w2 & Hrun2 & Hsheets2 & _).
    cbv zeta in Hrun2, Hsheets2. rewrite Henv1 in Hsheets2. fold key newrow in Hrun2, Hsheets2.
    assert (Hone : filter (fun r => mine r = true) (rows ++ [newrow]) = [newrow]).
    { rewrite filter_app, Hyes, Hfilter. by rewrite (filter_cons_True _ newrow []). }
    rewrite Hone in Hrun2, Hsheets2.
    change (favorite_action "toggle" (length [newrow]))
      with (mkFavAction false true "removed") in Hrun2, Hsheets2.
    cbn [shouldDelete shouldAdd resultStatus] in Hrun2, Hsheets2.
    rewrite filter_app, Hall in Hsheets2.
    rewrite (filter_cons_False _ newrow []) in Hsheets2 by (by rewrite Hmine).
    rewrite filter_nil, !app_nil_r in Hsheets2.
    eexists _, _, w1, w2. split; [exact Hrun1|]. split; [exact Hrun2|].
    unfold data_rows. rewrite Hsheets2, Hsheets1, !lookup_insert_eq. cbn [default drop].
    rewrite ?drop_0. split.
    + intros _. done.
    + intros Hex. exfalso. apply Exists_exists in Hex as (r & Hr & Hp).
      assert (r ∈ filter of_pair rows) as Hin by (by apply list_elem_of_filter).
      rewrite Hfilter in Hin. by apply not_elem_of_nil in Hin.
  - (* some rows of the pair *)
    change (favorite_action "toggle" (length (r0 :: rest)))
      with (mkFavAction false true "removed") in Hrun1, Hsheets1.
    cbn [shouldDelete shouldAdd resultStatus] in Hrun1, Hsheets1.
    rewrite app_nil_r, Hnot in Hsheets1.
    set (rows1 := filter (fun r => ~ of_pair r) rows) in *.
    assert (Hg1 : sheets w1 !! CFG.SHEET_FAVORITES = Some (hdr :: rows1))
      by (by rewrite Hsheets1, lookup_insert_eq).
    assert (Hnone : filter of_pair rows1 = []).
    { apply filter_none. apply Forall_forall. intros r Hr.
      by apply list_elem_of_filter in Hr as [? _]. }
    destruct (updateFavoriteStatus_run snippetName "toggle" hdr rows1 mine w1
                ltac:(by rewrite Henv1) Hkey ltac:(by rewrite Henv1) Hg1 Hdef1)
      as (w2 & Hrun2 & Hsheets2 & _).
    cbv zeta in Hrun2, Hsheets2. rewrite Henv1 in Hsheets2. fold key newrow in Hrun2, Hsheets2.
    rewrite Hyes, Hnone in Hrun2, Hsheets2.
    change (favorite_action "toggle" (length (@nil (list string))))
      with (mkFavAction true false "added") in Hrun2, Hsheets2.
    cbn [shouldDelete shouldAdd resultStatus] in Hrun2, Hsheets2.
    eexists _, _, w1, w2. split; [exact Hrun1|]. split; [exact Hrun2|].
    unfold data_rows. rewrite Hsheets2, Hsheets1, !lookup_insert_eq. cbn [default drop].
    rewrite ?drop_0. split.
    + intros Hall. exfalso.
      assert (r0 ∈ filter of_pair rows) as Hin by (rewrite Hfilter; left).
      apply list_elem_of_filter in Hin as [Hp Hin].
      eapply Forall_forall in Hall; [|exact Hin]. done.
    + intros _. done.
Qed.

(** X14. [removeFavorite(key)], by a user with an e-mail address, for a
    key that is not blank, with the script lock free and a Favorites sheet
    that has its header row: every row of this user and key is deleted,
    however many there are, the other rows stay in their order, and the
    status is [removed], also when there was no such row. A second call
    changes no row and reports [removed] again. *)
Theorem removeFavorite_removes_all (snippetName : string) (hdr : list string) (rows : Sheet)
    (w : World) :
  truthy_str (sessionEmail (env w)) = true ->
  truthy_str (trim snippetName) = true ->
  scriptLockBusy (env w) = false ->
  sheets w !! CFG.SHEET_FAVORITES = Some (hdr :: rows) ->
  let email := trim (sessionEmail (env w)) in
  let key := trim snippetName in
  let of_pair := fun r => favorite_user hdr r = email /\ favorite_key hdr r = key in
  exists w1 w2 : World,
    removeFavorite snippetName w = (Ret (mkFavResult "removed" key None), w1)
    /\ header_row w1 CFG.SHEET_FAVORITES = hdr
    /\ data_rows w1 CFG.SHEET_FAVORITES = filter (fun r => ~ of_pair r) rows
    /\ removeFavorite snippetName w1 = (Ret (mkFavResult "removed" key None), w2)
    /\ data_rows w2 CFG.SHEET_FAVORITES = data_rows w1 CFG.SHEET_FAVORITES.
Proof.
  intros Hemail Hkey Hfree Hg email key of_pair.
  set (mine := fun r => String.eqb (favorite_user hdr r) email
                        && String.eqb (favorite_key hdr r) key).
  assert (Hnot : forall l : Sheet,
            filter (fun r => mine r = false) l = filter (fun r => ~ of_pair r) l).
  { intros l. apply list_filter_iff. intros r. apply mine_false_iff. }
  assert (Hdef : forall r, mine r = String.eqb (favorite_user hdr r) (trim (sessionEmail (env w)))
                                    && String.eqb (favorite_key hdr r) (trim snippetName))
    by done.
  assert (Hrows1 : forall l : Sheet,
            (if shouldDelete (favorite_action "force_remove"
                                (length (filter (fun r => mine r = true) l)))
             then filter (fun r => mine r = false) l else l)
            ++ (if shouldAdd (favorite_action "force_remove"
                                (length (filter (fun r => mine r = true) l)))
                then [[sessionEmail (env w); trim snippetName; clockIso (env w)]] else [])
            = filter (fun r => ~ of_pair r) l
            /\ resultStatus (favorite_action "force_remove"
                               (length (filter (fun r => mine r = true) l))) = "removed").
  { intros l. destruct (filter (fun r => mine r = true) l) as [|r0 rest] eqn:Hf.
    - cbn. rewrite app_nil_r. split; [|done]. rewrite <- Hnot.
      symmetry. apply (positions_none_filter mine 2). by rewrite positions_from_length, Hf.
    - cbn. rewrite app_nil_r. by rewrite Hnot. }
  destruct (updateFavoriteStatus_run snippetName "force_remove" hdr rows mine w
              Hemail Hkey Hfree Hg Hdef) as (w1 & Hrun1 & Hsheets1 & Henv1).
  cbv zeta in Hrun1, Hsheets1.
  destruct (Hrows1 rows) as [Hr1 Hs1]. rewrite Hr1 in Hsheets1. rewrite Hs1 in Hrun1.
  set (rows1 := filter (fun r => ~ of_pair r) rows) in *.
  assert (Hg1 : sheets w1 !! CFG.SHEET_FAVORITES = Some (hdr :: rows1))
    by (by rewrite Hsheets1, lookup_insert_eq).
  assert (Hdef1 : forall r, mine r = String.eqb (favorite_user hdr r)
                                       (trim (sessionEmail (env w1)))
                                     && String.eqb (favorite_key hdr r) (trim snippetName))
    by (by rewrite Henv1).
  destruct (updateFavoriteStatus_run snippetName "force_remove" hdr rows1 mine w1
              ltac:(by rewrite Henv1) Hkey ltac:(by rewrite Henv1) Hg1 Hdef1)
    as (w2 & Hrun2 & Hsheets2 & _).
  cbv zeta in Hrun2, Hsheets2. rewrite Henv1 in Hsheets2.
  destruct (Hrows1 rows1) as [Hr2 Hs2]. rewrite Hr2 in Hsheets2. rewrite Hs2 in Hrun2.
  exists w1, w2. split; [exact Hrun1|].
  unfold header_row, data_rows. rewrite Hsheets2, Hsheets1, !lookup_insert_eq.
  cbn [default head drop]. rewrite ?drop_0.
  split; [done|]. split; [done|]. split; [exact Hrun2|].
  unfold rows1. rewrite list_filter_filter. apply list_filter_iff. intros r. tauto.
Qed.

(** X15. What [updateFavoriteStatus_] answers when it refuses, in the
    order of its checks. Without a session e-mail, or without a Favorites
    sheet, it answers an error at once and touches nothing, not even the
    lock. With the script lock busy the time-out is caught and comes back
    as an error, after the [finally] clause has released the lock that was
    never taken. With the lock free and a blank snippet name it answers
    [Invalid snippet name.] with an empty snippet, having taken and
    released the lock. No row changes in any of these cases. *)
Theorem updateFavoriteStatus_refusals (snippetName mode : string) (w : World) :
  let run := updateFavoriteStatus_ snippetName mode w in
  let error := fun (msg snip : string) => Ret (mkFavResult "error" snip (Some msg)) in
  (truthy_str (sessionEmail (env w)) = false ->
   run = (error "User email not available. Please reload the app." snippetName, w))
  /\ (truthy_str (sessionEmail (env w)) = true ->
      sheets w !! CFG.SHEET_FAVORITES = None ->
      run = (error "Favorites sheet not found." snippetName, w))
  /\ (truthy_str (sessionEmail (env w)) = true ->
      is_Some (sheets w !! CFG.SHEET_FAVORITES) ->
      scriptLockBusy (env w) = true ->
      run = (error "Failed to update favorite: Lock timeout" snippetName,
             log_event (EvUnlock ScriptLock) w))
  /\ (truthy_str (sessionEmail (env w)) = true ->
      is_Some (sheets w !! CFG.SHEET_FAVORITES) ->
      scriptLockBusy (env w) = false ->
      truthy_str (trim snippetName) = false ->
      run = (error "Invalid snippet name." EmptyString,
             log_event (EvUnlock ScriptLock) (log_event (EvLock ScriptLock) w))).
Proof.
  cbv zeta. unfold updateFavoriteStatus_.
  rewrite (bind_run _ _ w w (sessionEmail (env w))) by reflexivity.
  split; [|split; [|split]].
  - intros ->. done.
  - intros -> Hnone. cbn [negb].
    rewrite (bind_run _ _ w w None) by (unfold getSheetByName, gets; by rewrite Hnone).
    done.
  - intros -> [g Hg] Hbusy. cbn [negb].
    rewrite (bind_run _ _ w w (Some g)) by (unfold getSheetByName, gets; by rewrite Hg).
    eapply try_finally_run; [|reflexivity].
    unfold try_catch. rewrite (bind_throw _ _ w w "Lock timeout"); [done|].
    by apply waitLock_busy.
  - intros -> [g Hg] Hfree Hblank. cbn [negb].
    rewrite (bind_run _ _ w w (Some g)) by (unfold getSheetByName, gets; by rewrite Hg).
    eapply try_finally_run; [|reflexivity].
    apply try_catch_ret.
    rewrite (bind_run _ _ _ _ _ (waitLock_run ScriptLock 10000 w Hfree)).
    rewrite (bind_run _ _ _ _ _ (getDataRangeValues_run _ g (log_event (EvLock ScriptLock) w) Hg)).
    assert ((length (match g with [] => [[EmptyString]] | _ :: _ => g end) =? 0) = false)
      as -> by (by destruct g).
    rewrite (bind_run _ _ _ _ tt) by reflexivity.
    cbv zeta. by rewrite Hblank.
Qed.

Lemma toggleFavorite_twice_witness :
  exists (r1 r2 : FavResult) (w1 w2 : World),
    toggleFavorite "baz" demo_world = (Ret r1, w1)
    /\ toggleFavorite "baz" w1 = (Ret r2, w2)
    /\ status r1 = "added" /\ status r2 = "removed"
    /\ data_rows w2 CFG.SHEET_FAVORITES = drop 1 demo_favorites.
Proof.
  destruct (toggleFavorite_twice "baz" HEADERS_FAVORITES (drop 1 demo_favorites) demo_world)
    as (r1 & r2 & w1 & w2 & Hrun1 & Hrun2 & Hnone & _).
  - reflexivity.
  - reflexivity.
  - reflexivity.
  - reflexivity.
  - reflexivity.
  - destruct Hnone as (Hs1 & _ & Hs2 & Hrows).
    + repeat constructor; vm_compute; intros [? ?]; discriminate.
    + exists r1, r2, w1, w2. done.
Defined.

Lemma removeFavorite_removes_all_witness :
  exists w1 : World,
    removeFavorite "foo" demo_world = (Ret (mkFavResult "removed" "foo" None), w1)
    /\ data_rows w1 CFG.SHEET_FAVORITES
       = [["bob@example.com"; "foo"; "2025-12-06"]; ["ann@example.com"; "bar"; "2025-12-08"]].
Proof.
  destruct (removeFavorite_removes_all "foo" HEADERS_FAVORITES (drop 1 demo_favorites)
              demo_world) as (w1 & w2 & Hrun1 & _ & Hrows & _).
  - reflexivity.
  - reflexivity.
  - reflexivity.
  - reflexivity.
  - exists w1. split; [exact Hrun1|]. rewrite Hrows. vm_compute. reflexivity.
Defined.

(** ** The paging handlers *)

Lemma map_each_records (favSet : gset string) (l : list value) (w : World) :
  Forall (fun s => is_record s = true) l ->
  map_each (with_favorite favSet) l w = (Ret (map (favorite_view favSet) l), w).
Proof.
  induction 1 as [|s l Hs _ IH]; [done|].
  cbn [map_each map]. unfold bind at 1.
  assert (with_favorite favSet s w = (Ret (favorite_view favSet s), w)) as ->
    by (by destruct s).
  unfold bind at 1. by rewrite IH.
Qed.

Lemma listMyFavorites_only_favorites : stays (only_sheet CFG.SHEET_FAVORITES) listMyFavorites_.
Proof. unfold listMyFavorites_. unfold_sheet_ops. frame only_sheet_leaf. Qed.

Lemma listMyFavorites_busy (w : World) :
  truthy_str (sessionEmail (env w)) = true ->
  scriptLockBusy (env w) = true ->
  listMyFavorites_ w = (Throw "Lock timeout", w).
Proof.
  intros Hemail Hbusy. unfold listMyFavorites_.
  rewrite (bind_run _ _ w w (sessionEmail (env w))) by reflexivity.
  rewrite Hemail. cbn [negb]. apply bind_throw. by apply waitLock_busy.
Qed.

Lemma favorite_keys_of_rows (hdr : list string) (userEmail : string) (rows : Sheet) (k : string) :
  k ∈ omap (favorite_of hdr userEmail) (keep_first (favorite_of hdr userEmail) ∅ rows)
  <-> exists r, r ∈ rows /\ favorite_of hdr userEmail r = Some k.
Proof.
  rewrite list_elem_of_omap. split.
  - intros (r & Hr & Hk). exists r. split; [|done].
    eapply elem_of_sublist; [exact Hr|apply keep_first_sublist].
  - intros (r & Hr & Hk).
    apply (keep_first_complete _ rows ∅ r k Hr Hk). apply not_elem_of_empty.
Qed.

Section HandlerTheorems.
Context `{Platform}.

(** X16. [fetchShortcutsBatch] never throws: whatever it is given and
    whatever happens inside, it returns a reply. Without a token (none, or
    the empty string) the reply is [Missing snapshot token]; for a token
    whose meta record the cache does not hold it is the error
    [SNAPSHOT_EXPIRED] with the message [Snapshot expired. Reloading...];
    in both cases nothing is touched: no lock is taken and the favorites
    are not read. *)
Theorem fetchShortcutsBatch_fails_closed (snapshotToken : option string) (off lim : value)
    (w : World) :
  (exists (reply : BatchReply) (w' : World),
     fetchShortcutsBatch snapshotToken off lim w = (Ret reply, w'))
  /\ (default EmptyString snapshotToken = EmptyString ->
      fetchShortcutsBatch snapshotToken off lim w
      = (Ret (BatchFailed None "Missing snapshot token"), w))
  /\ (forall token : string,
        snapshotToken = Some token -> token <> EmptyString ->
        cache w !! meta_key ("SNAP_" +:+ token) = None ->
        fetchShortcutsBatch snapshotToken off lim w
        = (Ret (BatchFailed (Some "SNAPSHOT_EXPIRED") "Snapshot expired. Reloading..."), w)).
Proof.
  split; [|split].
  - unfold fetchShortcutsBatch. apply try_catch_total.
    intros err w1. by eexists _, _.
  - intros Hnone. unfold fetchShortcutsBatch. apply try_catch_ret.
    destruct snapshotToken as [token|]; [|done].
    simpl in Hnone. by subst token.
  - intros token -> Htoken Hmiss. unfold fetchShortcutsBatch. apply try_catch_ret.
    destruct token; [done|]. cbn [truthy_str negb].
    by rewrite (bind_run _ _ _ _ _ (fetchSnapshotPage_without_meta _ off lim w Hmiss)).
Qed.

(** X17. A page through [fetchShortcutsBatch]: for a token whose snapshot
    the cache holds, an offset [>= 0] and a limit [>= 1], a user with an
    e-mail address, the script lock free and a Favorites sheet with its
    header row, the reply carries the window of the snapshot at the offset,
    each item (none of them [null]) copied field by field with a flag
    [favorite] that is true exactly for the items whose key is the key of a
    row of this user, together with the next offset, [hasMore], the total
    and the token. The read tidies the Favorites sheet as
    [listMyFavorites_] does and leaves the cache alone. *)
Theorem fetchShortcutsBatch_marks_favorites (token : string) (rows : list value)
    (off lim : Z) (hdr : list string) (favRows : Sheet) (w : World) :
  token <> EmptyString ->
  (readSnapshotCache_ token w).1 = Ret (Some rows) ->
  (0 <= off)%Z -> (1 <= lim)%Z ->
  truthy_str (sessionEmail (env w)) = true ->
  scriptLockBusy (env w) = false ->
  sheets w !! CFG.SHEET_FAVORITES = Some (hdr :: favRows) ->
  let window := take (Z.to_nat lim) (drop (Z.to_nat off) rows) in
  Forall (fun s => is_record s = true) window ->
  let mine := favorite_of hdr (sessionEmail (env w)) in
  exists (favSet : gset string) (w' : World),
    fetchShortcutsBatch (Some token) (VNum (Num off)) (VNum (Num lim)) w
    = (Ret (BatchOk (mkBatch (map (favorite_view favSet) window)
                             (off + Z.of_nat (length window))
                             (off + lim <? Z.of_nat (length rows))%Z
                             (Z.of_nat (length rows))
                             token)), w')
    /\ (forall k : string, k ∈ favSet <-> exists r, r ∈ favRows /\ mine r = Some k)
    /\ sheets w' = <[CFG.SHEET_FAVORITES := hdr :: keep_first mine ∅ favRows]> (sheets w)
    /\ cache w' = cache w.
Proof.
  intros Htoken Hread Hoff Hlim Hemail Hfree Hg window Hrecords mine.
  destruct (listMyFavorites_run hdr favRows w Hemail Hfree Hg) as (w' & Hfavs & Hsheets & _).
  cbv zeta in Hfavs, Hsheets. fold mine in Hfavs, Hsheets.
  pose proof (listMyFavorites_only_favorites w) as (_ & Hcache & _).
  rewrite Hfavs in Hcache. cbn [snd] in Hcache.
  eexists _, w'. split; [|split; [|split; [exact Hsheets|exact Hcache]]].
  - unfold fetchShortcutsBatch. apply try_catch_ret.
    destruct token; [done|]. cbn [truthy_str negb].
    rewrite (bind_run _ _ _ _ _ (fetchSnapshotPage_window _ rows off lim w Hread Hoff Hlim)).
    rewrite (bind_run _ _ _ _ _ Hfavs). cbv zeta. cbn [items offset hasMore total].
    fold window.
    rewrite (bind_run _ _ _ _ _ (map_each_records _ window w' Hrecords)).
    reflexivity.
  - intros k. rewrite elem_of_list_to_set.
    pose proof (favorite_entry_keys hdr (sessionEmail (env w)) (keep_first mine ∅ favRows))
      as Hkeys.
    fold mine in Hkeys. rewrite Hkeys. apply favorite_keys_of_rows.
Qed.

End HandlerTheorems.

Lemma shortcuts_from_records (rows : Sheet) (idx : gmap string nat) :
  forall i : nat, Forall (fun s => is_record s = true) (shortcuts_from i rows idx).
Proof.
  induction rows as [|r rows IH]; intros i; simpl; [constructor|].
  destruct (negb _); [apply IH|]. constructor; [done|apply IH].
Qed.

Lemma fetchShortcutsBatch_marks_favorites_witness :
  exists (favSet : gset string) (w' : World),
    fetchShortcutsBatch (H := demo_platform) (Some "tok") (VNum (Num 0)) (VNum (Num 2))
      demo_world
    = (Ret (BatchOk (mkBatch (map (favorite_view favSet) (take 2 demo_rows)) 2 true 3 "tok")),
       w')
    /\ "foo" ∈ favSet.
Proof.
  destruct (fetchShortcutsBatch_marks_favorites (H := demo_platform) "tok" demo_rows 0 2
              HEADERS_FAVORITES (drop 1 demo_favorites) demo_world)
    as (favSet & w' & Hrun & Hset & _).
  - done.
  - vm_compute. reflexivity.
  - lia.
  - lia.
  - reflexivity.
  - reflexivity.
  - reflexivity.
  - repeat constructor.
  - exists favSet, w'. split; [exact Hrun|].
    apply Hset. exists ["ann@example.com"; "foo"; "2025-12-05"]. split; [left|reflexivity].
Defined.

Section BeginHandler.
Context `{Platform}.

(** The run of [beginShortcutsSnapshot] when the cache takes the write. *)
Lemma beginShortcutsSnapshot_run (g : Sheet) (w : World) :
  scriptLockBusy (env w) = false ->
  cachePutFails (env w) = false ->
  sheets w !! CFG.SHEET_SHORTCUTS = Some g ->
  (forall rows : list value,
     getShortcutsFromSheet_ w = (Ret rows, w) -> written_back rows (clockIso (env w))) ->
  exists (rows : list value) (w' : World),
    getShortcutsFromSheet_ w = (Ret rows, w)
    /\ Forall (fun s => is_record s = true) rows
    /\ beginShortcutsSnapshot w
       = (Ret (mkSnapshotMeta (freshUuid (env w)) (length rows) (clockIso (env w))
                              CFG.INITIAL_PAGE_SIZE), w')
    /\ sheets w' = sheets w /\ env w' = env w
    /\ readSnapshotCache_ (freshUuid (env w)) w' = (Ret (Some rows), w').
Proof.
  intros Hfree Hput Hg Hback.
  set (w2 := log_event (EvLock ScriptLock) w).
  assert (Hg2 : sheets w2 !! CFG.SHEET_SHORTCUTS = Some g) by exact Hg.
  set (rows := match g with
               | header :: ((_ :: _) as rows) => shortcuts_from 1 rows (indexHeader_ header)
               | _ => []
               end).
  assert (Hrows : forall w0, sheets w0 !! CFG.SHEET_SHORTCUTS = Some g ->
                    getShortcutsFromSheet_ w0 = (Ret rows, w0)).
  { intros w0 Hg0. unfold getShortcutsFromSheet_.
    rewrite (bind_run _ _ _ _ _ (getSheet_run _ _ _ Hg0)).
    rewrite (bind_run _ _ _ _ _ (getDataRangeValues_run _ _ _ Hg0)).
    unfold rows. destruct g as [|hdr [|r rest]]; done. }
  destruct (writeCacheByKey_then_read ("SNAP_" +:+ freshUuid (env w)) rows
              CFG.SNAPSHOT_TTL_SECONDS w2 Hput (Hback rows (Hrows w Hg)))
    as (w3 & Hwrite & Hsheets3 & _ & Henv3 & Hread).
  exists rows, (log_event (EvUnlock ScriptLock) w3).
  split; [by apply Hrows|]. split.
  { unfold rows. destruct g as [|hdr [|r rest]]; try constructor.
    apply shortcuts_from_records. }
  split; [|split; [done|split; [done|by apply Hread]]].
  unfold beginShortcutsSnapshot.
  rewrite (bind_run _ _ w w2 true) by (unfold tryLock; simpl; by rewrite Hfree).
  apply (try_finally_run _ _ w2 w3); [|reflexivity].
  rewrite (bind_run _ _ _ _ _ (Hrows w2 Hg2)).
  rewrite (bind_run _ _ w2 w2 (freshUuid (env w))) by reflexivity.
  rewrite (bind_run _ _ w2 w2 (clockIso (env w))) by reflexivity.
  cbv zeta. unfold writeSnapshotCache_.
  rewrite (bind_run _ _ _ _ _ (bind_run _ _ _ _ _ Hwrite)). reflexivity.
Qed.

(** The run of [beginShortcutsSnapshot] when the cache refuses the write. *)
Lemma beginShortcutsSnapshot_put_fails (g : Sheet) (w : World) :
  scriptLockBusy (env w) = false ->
  cachePutFails (env w) = true ->
  sheets w !! CFG.SHEET_SHORTCUTS = Some g ->
  (forall s : string, is_Some (gzipBase64 s)) ->
  exists (n : nat) (w' : World),
    beginShortcutsSnapshot w
    = (Ret (mkSnapshotMeta (freshUuid (env w)) n (clockIso (env w)) CFG.INITIAL_PAGE_SIZE), w')
    /\ cache w' = cache w /\ sheets w' = sheets w.
Proof.
  intros Hfree Hfails Hg Hgzip.
  set (w2 := log_event (EvLock ScriptLock) w).
  assert (Hg2 : sheets w2 !! CFG.SHEET_SHORTCUTS = Some g) by exact Hg.
  destruct (getShortcutsFromSheet_run g) as [rows Hrows].
  assert (Hwrite : writeSnapshotCache_ (freshUuid (env w)) rows w2 = (Ret tt, w2)).
  { unfold writeSnapshotCache_, writeCacheByKey_, encodeGzB64_.
    destruct (Hgzip (jsonStringify (VArr rows))) as [encoded ->].
    unfold bind, ret, gets, try_catch, cache_putAll. cbn.
    by rewrite Hfails. }
  exists (length rows), (log_event (EvUnlock ScriptLock) w2).
  split; [|done].
  unfold beginShortcutsSnapshot.
  rewrite (bind_run _ _ w w2 true) by (unfold tryLock; simpl; by rewrite Hfree).
  apply (try_finally_run _ _ w2 w2); [|reflexivity].
  rewrite (bind_run _ _ _ _ _ (Hrows w2 Hg2)).
  rewrite (bind_run _ _ w2 w2 (freshUuid (env w))) by reflexivity.
  rewrite (bind_run _ _ w2 w2 (clockIso (env w))) by reflexivity.
  cbv zeta. by rewrite (bind_run _ _ _ _ _ Hwrite).
Qed.

(** X18. [beginShortcutsSnapshotHandler] never throws. When the script
    lock is busy it answers [ok: false] with the text of [Server busy.
    Please try again.] and nothing has changed. When [cache.putAll] throws,
    the snapshot that [beginShortcutsSnapshot] announced cannot be read:
    the first page comes back [SNAPSHOT_EXPIRED], the handler turns that
    into an error and answers [ok: false] with its text; the cache and the
    sheets are as before. *)
Theorem beginShortcutsSnapshotHandler_fails_closed (w : World) :
  (exists (reply : BeginReply) (w' : World),
     beginShortcutsSnapshotHandler w = (Ret reply, w'))
  /\ (scriptLockBusy (env w) = true ->
      beginShortcutsSnapshotHandler w
      = (Ret (BeginFailed (stringifyError_ "Server busy. Please try again.")), w))
  /\ (scriptLockBusy (env w) = false ->
      cachePutFails (env w) = true ->
      is_Some (sheets w !! CFG.SHEET_SHORTCUTS) ->
      (forall s : string, is_Some (gzipBase64 s)) ->
      cache w !! meta_key ("SNAP_" +:+ freshUuid (env w)) = None ->
      exists w' : World,
        beginShortcutsSnapshotHandler w
        = (Ret (BeginFailed (stringifyError_ "SNAPSHOT_EXPIRED")), w')
        /\ cache w' = cache w /\ sheets w' = sheets w).
Proof.
  split; [|split].
  - unfold beginShortcutsSnapshotHandler. apply try_catch_total.
    intros err w1. by eexists _, _.
  - intros Hbusy. unfold beginShortcutsSnapshotHandler, try_catch.
    rewrite (bind_throw _ _ w w "Server busy. Please try again."); [done|].
    unfold beginShortcutsSnapshot.
    rewrite (bind_run _ _ w w false) by (unfold tryLock; simpl; by rewrite Hbusy).
    done.
  - intros Hfree Hfails [g Hg] Hgzip Hmiss.
    destruct (beginShortcutsSnapshot_put_fails g w Hfree Hfails Hg Hgzip)
      as (n & w' & Hbegin & Hcache & Hsheets).
    exists w'. split; [|done].
    unfold beginShortcutsSnapshotHandler, try_catch.
    rewrite (bind_run _ _ _ _ _ Hbegin). cbn [meta_snapshotToken].
    rewrite (bind_run _ _ _ _ _ (fetchSnapshotPage_without_meta _ _ _ w'
               ltac:(by rewrite Hcache))).
    done.
Qed.

(** X19. The first page through [beginShortcutsSnapshotHandler].
    Assumed: the script lock is free, both sheets are there, the
    Favorites sheet with a header row, the user has an e-mail address, the
    cache takes the write, and the list that [getShortcutsFromSheet_]
    reads is written back ([written_back]: JSON, codec and meta record
    give back this one list; nothing is assumed of other values). Then the
    reply is [ok] with the fresh token, [total] the number of shortcuts
    read from the sheet, [builtAt] the time of the call, the first
    [INITIAL_PAGE_SIZE] (200) of those shortcuts, each with its [favorite]
    flag, the number of shortcuts sent as the next offset, and [hasMore]
    exactly when there are more than 200. *)
Theorem beginShortcutsSnapshotHandler_first_page (g : Sheet) (hdr : list string)
    (favRows : Sheet) (w : World) :
  scriptLockBusy (env w) = false ->
  cachePutFails (env w) = false ->
  sheets w !! CFG.SHEET_SHORTCUTS = Some g ->
  truthy_str (sessionEmail (env w)) = true ->
  sheets w !! CFG.SHEET_FAVORITES = Some (hdr :: favRows) ->
  (forall rows : list value,
     getShortcutsFromSheet_ w = (Ret rows, w) -> written_back rows (clockIso (env w))) ->
  let mine := favorite_of hdr (sessionEmail (env w)) in
  exists (rows : list value) (favSet : gset string) (w' : World),
    getShortcutsFromSheet_ w = (Ret rows, w)
    /\ beginShortcutsSnapshotHandler w
       = (Ret (BeginOk (freshUuid (env w)) (length rows) (clockIso (env w))
                       (map (favorite_view favSet) (take 200 rows))
                       (Z.of_nat (length (take 200 rows)))
                       (200 <? Z.of_nat (length rows))%Z), w')
    /\ (forall k : string, k ∈ favSet <-> exists r, r ∈ favRows /\ mine r = Some k).
Proof.
  intros Hfree Hput Hg Hemail HgF Hback mine.
  destruct (beginShortcutsSnapshot_run g w Hfree Hput Hg Hback)
    as (rows & w1 & Hrows & Hrecords & Hbegin & Hsheets1 & Henv1 & Hread).
  destruct (listMyFavorites_run hdr favRows w1 ltac:(by rewrite Henv1)
              ltac:(by rewrite Henv1) ltac:(by rewrite Hsheets1))
    as (w' & Hfavs & _ & _).
  cbv zeta in Hfavs. rewrite Henv1 in Hfavs. fold mine in Hfavs.
  assert (Hpage := fetchSnapshotPage_window (freshUuid (env w)) rows 0 CFG.INITIAL_PAGE_SIZE w1
                     ltac:(by rewrite Hread) ltac:(lia) ltac:(unfold CFG.INITIAL_PAGE_SIZE; lia)).
  change (Z.to_nat CFG.INITIAL_PAGE_SIZE) with 200 in Hpage.
  change (Z.to_nat 0) with 0 in Hpage. rewrite drop_0 in Hpage.
  eexists rows, _, w'. split; [exact Hrows|]. split.
  - unfold beginShortcutsSnapshotHandler. apply try_catch_ret.
    rewrite (bind_run _ _ _ _ _ Hbegin). cbn [meta_snapshotToken meta_total meta_builtAt].
    rewrite (bind_run _ _ _ _ _ Hpage).
    rewrite (bind_run _ _ _ _ _ Hfavs). cbv zeta. cbn [items offset hasMore].
    rewrite (bind_run _ _ _ _ _ (map_each_records _ (take 200 rows) w'
               ltac:(by apply Forall_take))).
    reflexivity.
  - intros k. rewrite elem_of_list_to_set.
    pose proof (favorite_entry_keys hdr (sessionEmail (env w)) (keep_first mine ∅ favRows))
      as Hkeys.
    fold mine in Hkeys. rewrite Hkeys. apply favorite_keys_of_rows.
Qed.

End BeginHandler.

Lemma beginShortcutsSnapshotHandler_first_page_witness :
  exists (rows : list value) (favSet : gset string) (w' : World),
    getShortcutsFromSheet_ demo_world = (Ret rows, demo_world)
    /\ beginShortcutsSnapshotHandler (H := roundtrip_platform) demo_world
       = (Ret (BeginOk "uuid-1" (length rows) "2025-12-23T10:00:00.000Z"
                       (map (favorite_view favSet) (take 200 rows))
                       (Z.of_nat (length (take 200 rows)))
                       (200 <? Z.of_nat (length rows))%Z), w')
    /\ "bar" ∈ favSet.
Proof.
  destruct (beginShortcutsSnapshotHandler_first_page (H := roundtrip_platform) demo_shortcuts
              HEADERS_FAVORITES (drop 1 demo_favorites) demo_world)
    as (rows & favSet & w' & Hrows & Hrun & Hset).
  - reflexivity.
  - reflexivity.
  - reflexivity.
  - reflexivity.
  - reflexivity.
  - intros rows _. apply roundtrip_platform_written_back.
  - exists rows, favSet, w'. split; [exact Hrows|]. split; [exact Hrun|].
    apply Hset. exists ["ann@example.com"; "bar"; "2025-12-08"].
    split; [|reflexivity]. do 3 right. left.
Defined.

(** ** What an upsert stores *)

Lemma cell_array_set (i j : nat) (v : string) (row : list string) :
  cell (array_set (Some j) v row) (Some i)
  = if decide (i = j) then v else cell row (Some i).
Proof.
  case_decide as Hij.
  - subst. apply cell_array_set_eq.
  - by apply cell_array_set_ne.
Qed.

Lemma cell_replicate (n : nat) (c : option nat) :
  cell (replicate n EmptyString) c = EmptyString.
Proof.
  destruct c as [i|]; [|done]. unfold cell.
  destruct (replicate n EmptyString !! i) as [x|] eqn:Hx; [|done].
  by apply lookup_replicate in Hx as [-> _].
Qed.

Lemma str_slice_prefix (s : string) (n : Z) :
  (0 <= n)%Z -> str_slice s 0 n = str (take (Z.to_nat n) (chars s)).
Proof.
  intros Hn. unfold str_slice. f_equal.
  pose proof (slice_window (chars s) 0 n ltac:(lia) Hn) as Hw.
  simpl in Hw. by rewrite drop_0 in Hw.
Qed.

Section UpsertRow.
Context `{Platform}.

Lemma bump_and_invalidate_cache {A : Type} (k : M A) (w : World) :
  exists w' : World,
    bind bumpCacheVersion_ (fun _ => bind invalidateShortcutsCache_ (fun _ => k)) w = k w'
    /\ sheets w' = sheets w /\ events w' = events w /\ env w' = env w
    /\ cache w' = delete (meta_key CFG.CACHE_KEY_PREFIX) (cache w).
Proof.
  eexists. split.
  - unfold bumpCacheVersion_, invalidateShortcutsCache_, bumpCacheVersion_, cache_remove,
      modify, gets, bind. reflexivity.
  - done.
Qed.

(** The run of [upsertShortcut] on a validated payload when the document
    lock is free, with the row it appends spelled out. *)
Lemma upsertShortcut_run_row (p : Payload) (w : World) :
  documentLockBusy (env w) = false ->
  ok (validateShortcutPayload_ (Some p)) = true ->
  let key := trim (str_or_empty (p_key p)) in
  exists (w1 w' : World) (hdr : list string) (rows : Sheet)
         (ji jk je ja jd jl jt ju width : nat) (reply : Reply),
    sheets_ready w w1
    /\ sheets w1 !! CFG.SHEET_SHORTCUTS = Some (hdr :: rows)
    /\ column_of hdr "ID" ji /\ column_of hdr "Snippet Name" jk
    /\ column_of hdr "Content" je /\ column_of hdr "Application" ja
    /\ column_of hdr "Description" jd /\ column_of hdr "Language" jl
    /\ column_of hdr "Tags" jt /\ column_of hdr "UpdatedAt" ju
    /\ let newrow :=
         array_set (Some ju) (clockIso (env w))
           (array_set (Some jt) (str_slice (str_or_empty (p_tags p)) 0 CFG.MAX_TAGS_LEN)
           (array_set (Some jl) (str_slice (str_or_empty (p_language p)) 0 CFG.MAX_LANGUAGE_LEN)
           (array_set (Some jd) (str_slice (str_or_empty (p_description p)) 0 CFG.MAX_DESC_LEN)
           (array_set (Some ja) (str_slice (str_or_empty (p_application p)) 0 CFG.MAX_APP_LEN)
           (array_set (Some je) (str_slice (str_or_empty (p_expansion p)) 0 CFG.MAX_FIELD_LEN)
           (array_set (Some jk) key (replicate width EmptyString))))))) in
       upsertShortcut (Some p) w = (Ret reply, w')
       /\ ok reply = true
       /\ sheets w'
          = <[CFG.SHEET_SHORTCUTS :=
                hdr :: filter (fun r => String.eqb (shortcut_key hdr r) key = false) rows
                    ++ [newrow]]> (sheets w1)
       /\ cache w' = delete (meta_key CFG.CACHE_KEY_PREFIX) (cache w).
Proof.
  intros Hfree Hvalid key.
  destruct (validated_key p Hvalid) as [HtoS Hkey].
  destruct (ensureSheets_run w) as (w1 & Hens & Hready).
  pose proof Hready as (gS & gF & evs & HgS & HgF & HneS & _ & HdS & _ & HhS & _
                        & Hcache1 & _ & Henv & _ & _).
  destruct gS as [|hdr rows]; [done|]. cbn [head default] in HhS.
  destruct (shortcut_columns hdr HhS)
    as (ji & jk & je & ja & jd & jl & jt & ju & Hi & Hk & He & Ha & Hd & Hl & Ht & Hu).
  set (w2 := log_event (EvLock DocumentLock) w1).
  assert (Hg2 : sheets w2 !! CFG.SHEET_SHORTCUTS = Some (hdr :: rows)) by exact HgS.
  set (found := positions_from (fun r => String.eqb (shortcut_key hdr r) key) 2 rows).
  set (header := pad_row (last_column (hdr :: rows)) hdr).
  set (newrow :=
         array_set (Some ju) (clockIso (env w2))
           (array_set (Some jt) (str_slice (str_or_empty (p_tags p)) 0 CFG.MAX_TAGS_LEN)
           (array_set (Some jl) (str_slice (str_or_empty (p_language p)) 0 CFG.MAX_LANGUAGE_LEN)
           (array_set (Some jd) (str_slice (str_or_empty (p_description p)) 0 CFG.MAX_DESC_LEN)
           (array_set (Some ja) (str_slice (str_or_empty (p_application p)) 0 CFG.MAX_APP_LEN)
           (array_set (Some je) (str_slice (str_or_empty (p_expansion p)) 0 CFG.MAX_FIELD_LEN)
           (array_set (Some jk) key (replicate (length header) EmptyString)))))))).
  assert (Hfound : findAllRowsByKey_
                     (map (fun r => trim (cell r (indexHeader_ hdr !! "Snippet Name"))) rows) key
                   = found).
  { unfold findAllRowsByKey_. rewrite find_rows_from_positions.
    unfold key at 1. rewrite trim_idem. done. }
  assert (Hsorted : sort_desc found = rev found).
  { apply sort_desc_ascending, positions_from_ascending. }
  set (w3 := with_sheet CFG.SHEET_SHORTCUTS
               (hdr :: filter (fun r => String.eqb (shortcut_key hdr r) key = false) rows)
               (map (EvDeleteRow CFG.SHEET_SHORTCUTS) (rev found)) w2).
  set (w4 := with_sheet CFG.SHEET_SHORTCUTS
               (hdr :: filter (fun r => String.eqb (shortcut_key hdr r) key = false) rows
                    ++ [newrow])
               [EvAppendRow CFG.SHEET_SHORTCUTS newrow] w3).
  set (reply := mkReply true
                  (Some (if 0 <? length found then "updated" else "created"))
                  (Some (if 0 <? length found then "Updated shortcut: " +:+ key
                         else "Created shortcut: " +:+ key))).
  destruct (bump_and_invalidate_cache (ret reply) w4)
    as (w5 & Hbump & Hs5 & He5 & Henv5 & Hcache5).
  exists w1, (log_event (EvUnlock DocumentLock) w5), hdr, rows,
         ji, jk, je, ja, jd, jl, jt, ju, (length header), reply.
  split; [exact Hready|]. split; [exact HgS|].
  do 8 (split; [done|]).
  cbv zeta. replace (clockIso (env w)) with (clockIso (env w2))
    by (unfold w2; simpl; by rewrite Henv).
  fold newrow. split; [|split; [done|split]].
  - unfold upsertShortcut.
    rewrite (bind_run _ _ _ _ _ Hens).
    rewrite (bind_run _ _ _ _ _ (waitLock_run DocumentLock 30000 w1
               ltac:(simpl; rewrite Henv; exact Hfree))).
    fold w2.
    apply (try_finally_run _ _ w2 w5); [|reflexivity].
    apply try_catch_ret.
    cbv zeta. rewrite Hvalid. cbn [negb].
    rewrite (bind_run _ _ _ _ _ (getSheet_run _ _ _ Hg2)).
    rewrite (bind_run _ _ _ _ _ (getShortcutsHeaderAndColMap_run hdr rows w2 Hg2 HhS)).
    cbn [fst snd]. fold header.
    rewrite (bind_run _ _ w2 w2 (clockIso (env w2))) by reflexivity.
    unfold shortcut_cols. cbn [col_key col_expansion col_application col_description
                               col_language col_tags col_updatedAt].
    rewrite (bind_run _ _ _ _ _ (getColumnValues_run _ hdr rows _ w2 Hg2)).
    rewrite HtoS. fold key. rewrite Hfound.
    rewrite (proj1 Hk), (proj1 He), (proj1 Ha), (proj1 Hd), (proj1 Hl), (proj1 Ht),
            (proj1 Hu).
    fold newrow.
    unfold bind at 1. rewrite for_each_if_nonempty, Hsorted.
    pose proof (delete_matching_run _ (fun r => String.eqb (shortcut_key hdr r) key)
                  hdr rows w2 Hg2) as Hdel.
    fold found in Hdel. rewrite Hdel. fold w3.
    rewrite (bind_run _ _ _ _ _ (appendRow_run _ _ newrow w3
               ltac:(apply with_sheet_lookup))).
    fold w4. fold reply. exact Hbump.
  - cbn [sheets log_event]. rewrite Hs5. unfold w4, w3, w2. simpl.
    by rewrite insert_insert_eq.
  - cbn [cache log_event]. rewrite Hcache5. unfold w4, w3, w2. simpl. by rewrite Hcache1.
Qed.

End UpsertRow.

Section UpsertStores.
Context `{Platform}.

(** X20. What a successful [upsertShortcut(payload)] leaves in the sheet:
    the last row of the Shortcuts sheet is the new one; its key cell is the
    trimmed key; its Content, Application, Description, Language and Tags
    cells are the payload's fields cut to their first [MAX_FIELD_LEN],
    [MAX_APP_LEN], [MAX_DESC_LEN], [MAX_LANGUAGE_LEN] and [MAX_TAGS_LEN]
    characters (and not trimmed); its UpdatedAt cell is the time of
    the call; and its ID cell is empty, so an update drops the ID the
    shortcut had. The meta record of the global shortcuts cache is gone. *)
Theorem upsertShortcut_stores_payload (p : Payload) (w w' : World) (reply : Reply) :
  upsertShortcut (Some p) w = (Ret reply, w') ->
  ok reply = true ->
  exists hdr newrow : list string,
    header_row w' CFG.SHEET_SHORTCUTS = hdr
    /\ last (data_rows w' CFG.SHEET_SHORTCUTS) = Some newrow
    /\ (let field := fun name => cell newrow (indexHeader_ hdr !! name) in
        let first := fun (n : Z) (s : option string) =>
                       str (take (Z.to_nat n) (chars (str_or_empty s))) in
        field "Snippet Name" = trim (str_or_empty (p_key p))
        /\ field "Content" = first CFG.MAX_FIELD_LEN (p_expansion p)
        /\ field "Application" = first CFG.MAX_APP_LEN (p_application p)
        /\ field "Description" = first CFG.MAX_DESC_LEN (p_description p)
        /\ field "Language" = first CFG.MAX_LANGUAGE_LEN (p_language p)
        /\ field "Tags" = first CFG.MAX_TAGS_LEN (p_tags p)
        /\ field "UpdatedAt" = clockIso (env w)
        /\ field "ID" = EmptyString)
    /\ cache w' !! meta_key CFG.CACHE_KEY_PREFIX = None.
Proof.
  intros Hrun Hok.
  destruct (ensureSheets_run w) as (w1 & Hens & Hready).
  pose proof Hready as (_ & _ & _ & _ & _ & _ & _ & _ & _ & _ & _ & _ & _ & Henv & _).
  destruct (documentLockBusy (env w)) eqn:Hlock.
  { rewrite (upsertShortcut_busy (Some p) w w1 Hens Henv Hlock) in Hrun. done. }
  destruct (ok (validateShortcutPayload_ (Some p))) eqn:Hvalid.
  2:{ rewrite (upsertShortcut_invalid (Some p) w w1 Hens Henv Hlock Hvalid) in Hrun.
      congruence. }
  destruct (upsertShortcut_run_row p w Hlock Hvalid)
    as (w1' & w'' & hdr & rows & ji & jk & je & ja & jd & jl & jt & ju & width & reply'
        & _ & _ & Hi & Hk & He & Ha & Hd & Hl & Ht & Hu & Hrun' & _ & Hsheets & Hcache).
  cbv zeta in Hrun', Hsheets. rewrite Hrun in Hrun'. injection Hrun' as -> <-.
  pose proof (column_of_distinct hdr _ _ _ _ Hi Hk ltac:(done)).
  pose proof (column_of_distinct hdr _ _ _ _ Hi He ltac:(done)).
  pose proof (column_of_distinct hdr _ _ _ _ Hi Ha ltac:(done)).
  pose proof (column_of_distinct hdr _ _ _ _ Hi Hd ltac:(done)).
  pose proof (column_of_distinct hdr _ _ _ _ Hi Hl ltac:(done)).
  pose proof (column_of_distinct hdr _ _ _ _ Hi Ht ltac:(done)).
  pose proof (column_of_distinct hdr _ _ _ _ Hi Hu ltac:(done)).
  pose proof (column_of_distinct hdr _ _ _ _ Hk He ltac:(done)).
  pose proof (column_of_distinct hdr _ _ _ _ Hk Ha ltac:(done)).
  pose proof (column_of_distinct hdr _ _ _ _ Hk Hd ltac:(done)).
  pose proof (column_of_distinct hdr _ _ _ _ Hk Hl ltac:(done)).
  pose proof (column_of_distinct hdr _ _ _ _ Hk Ht ltac:(done)).
  pose proof (column_of_distinct hdr _ _ _ _ Hk Hu ltac:(done)).
  pose proof (column_of_distinct hdr _ _ _ _ He Ha ltac:(done)).
  pose proof (column_of_distinct hdr _ _ _ _ He Hd ltac:(done)).
  pose proof (column_of_distinct hdr _ _ _ _ He Hl ltac:(done)).
  pose proof (column_of_distinct hdr _ _ _ _ He Ht ltac:(done)).
  pose proof (column_of_distinct hdr _ _ _ _ He Hu ltac:(done)).
  pose proof (column_of_distinct hdr _ _ _ _ Ha Hd ltac:(done)).
  pose proof (column_of_distinct hdr _ _ _ _ Ha Hl ltac:(done)).
  pose proof (column_of_distinct hdr _ _ _ _ Ha Ht ltac:(done)).
  pose proof (column_of_distinct hdr _ _ _ _ Ha Hu ltac:(done)).
  pose proof (column_of_distinct hdr _ _ _ _ Hd Hl ltac:(done)).
  pose proof (column_of_distinct hdr _ _ _ _ Hd Ht ltac:(done)).
  pose proof (column_of_distinct hdr _ _ _ _ Hd Hu ltac:(done)).
  pose proof (column_of_distinct hdr _ _ _ _ Hl Ht ltac:(done)).
  pose proof (column_of_distinct hdr _ _ _ _ Hl Hu ltac:(done)).
  pose proof (column_of_distinct hdr _ _ _ _ Ht Hu ltac:(done)).
  eexists hdr, _. split; [|split; [|split]].
  - unfold header_row. by rewrite Hsheets, lookup_insert_eq.
  - unfold data_rows. rewrite Hsheets, lookup_insert_eq. cbn [default drop].
    rewrite ?drop_0. apply last_snoc.
  - cbv beta zeta.
    rewrite (proj1 Hi), (proj1 Hk), (proj1 He), (proj1 Ha), (proj1 Hd), (proj1 Hl),
            (proj1 Ht), (proj1 Hu).
    rewrite <- !str_slice_prefix by done.
    repeat split;
      repeat (rewrite cell_array_set; case_decide; [first [done | exfalso; congruence]|]);
      first [apply cell_replicate | exfalso; congruence].
  - rewrite Hcache. apply lookup_delete_eq.
Qed.

End UpsertStores.

Lemma upsertShortcut_stores_payload_witness :
  exists hdr newrow : list string,
    last (data_rows (upsertShortcut (H := demo_platform) (Some demo_payload) demo_world).2
                    CFG.SHEET_SHORTCUTS) = Some newrow
    /\ cell newrow (indexHeader_ hdr !! "Content") = "fourth"
    /\ cell newrow (indexHeader_ hdr !! "ID") = EmptyString.
Proof.
  destruct (upsertShortcut_stores_payload (H := demo_platform) demo_payload demo_world
              (upsertShortcut (H := demo_platform) (Some demo_payload) demo_world).2
              (mkReply true (Some "updated") (Some "Updated shortcut: foo")))
    as (hdr & newrow & _ & Hlast & Hfields & _).
  - vm_compute. reflexivity.
  - reflexivity.
  - exists hdr, newrow. split; [exact Hlast|].
    destruct Hfields as (_ & Hcontent & _ & _ & _ & _ & _ & Hid).
    split; [exact Hcontent|exact Hid].
Defined.

(** ** Setting up the sheets twice *)

Lemma ensureHeaderRow_settled (name : string) (headers : list string) (g : Sheet) (w : World) :
  sheets w !! name = Some g ->
  g <> [] ->
  0 < length headers ->
  header_has (default [] (head g)) headers ->
  ensureHeaderRow_ name headers w = (Ret tt, w).
Proof.
  intros Hg Hne Hlen Hhas.
  unfold ensureHeaderRow_, getLastColumn, getRow1, getLastRow, bind, ret.
  rewrite (sheet_grid_run _ _ _ Hg). cbv beta iota zeta.
  rewrite (sheet_grid_run _ _ _ Hg). cbv beta iota zeta.
  destruct (Nat.eqb_spec (Nat.max (last_column g) (length headers)) 0) as [E|_]; [lia|].
  rewrite (sheet_grid_run _ _ _ Hg). cbv beta iota zeta.
  set (row1 := pad_row (Nat.max (last_column g) (length headers)) (default [] (head g))).
  assert ((length g =? 0) = false) as -> by (by destruct g).
  assert (existsb (fun ih => bool_decide (map trim row1 !! ih.1 ≠ Some ih.2))
                  (imap pair headers) = false) as ->; [|done].
  apply not_true_iff_false. intros Hex.
  apply existsb_exists in Hex as ([i h] & Hin & Hbad).
  apply list_elem_of_In, list_elem_of_lookup in Hin as [j Hj].
  rewrite list_lookup_imap in Hj.
  destruct (headers !! j) as [h'|] eqn:Hh; [|done]. simpl in Hj. injection Hj as <- <-.
  apply bool_decide_eq_true in Hbad. apply Hbad. simpl.
  change (map trim row1) with (trim <$> row1). rewrite list_lookup_fmap.
  pose proof (Hhas j h' Hh) as Hcell. unfold cell in Hcell.
  assert (row1 !! j = Some (default EmptyString (default [] (head g) !! j))) as ->.
  { unfold row1. apply lookup_lt_Some in Hh.
    rewrite pad_row_ge by (pose proof (last_column_head g); lia).
    destruct (default [] (head g) !! j) as [c|] eqn:Hc; simpl.
    - by apply lookup_app_l_Some.
    - apply lookup_ge_None in Hc. rewrite lookup_app_r by done.
      apply lookup_replicate_2. lia. }
  simpl. by rewrite Hcell.
Qed.

(** X21. [ensureSheets_()] never throws. After it both sheets exist with
    their headers in place (cell [i] of row 1, trimmed, is header [i]), the
    rows below the header are the ones that were there, and the cache, the
    properties and the surroundings are untouched. A second run right after
    changes nothing at all, the log included. *)
Theorem ensureSheets_settles (w : World) :
  exists w1 : World,
    ensureSheets_ w = (Ret tt, w1)
    /\ sheets_ready w w1
    /\ ensureSheets_ w1 = (Ret tt, w1).
Proof.
  destruct (ensureSheets_run w) as (w1 & Hens & Hready).
  exists w1. split; [exact Hens|]. split; [exact Hready|].
  destruct Hready as (gS & gF & evs & HgS & HgF & HneS & HneF & _ & _ & HhS & HhF & _).
  unfold ensureSheets_.
  rewrite (bind_run _ _ w1 w1 (Some gS)) by (unfold getSheetByName, gets; by rewrite HgS).
  rewrite (bind_run _ _ w1 w1 tt) by reflexivity.
  rewrite (bind_run _ _ w1 w1 (Some gF)) by (unfold getSheetByName, gets; by rewrite HgF).
  rewrite (bind_run _ _ w1 w1 tt) by reflexivity.
  rewrite (bind_run _ _ _ _ _ (ensureHeaderRow_settled CFG.SHEET_SHORTCUTS HEADERS_SHORTCUTS
             gS w1 HgS HneS ltac:(simpl; lia) HhS)).
  apply (ensureHeaderRow_settled _ _ gF w1 HgF HneF); [simpl; lia|exact HhF].
Qed.

(** ** Code.gs: reading CSV *)

Lemma chars_join_with_cons (sep x y : string) (l : list string) :
  chars (join_with sep (x :: y :: l))
  = chars x ++ chars sep ++ chars (join_with sep (y :: l)).
Proof.
  unfold join_with. cbn [String.concat].
  change (chars (x +:+ sep +:+ String.concat sep (y :: l))
          = chars x ++ chars sep ++ chars (String.concat sep (y :: l))).
  by rewrite !chars_app.
Qed.

Lemma parse_csv_open_quote (rest cur : list ascii) (out : list string) :
  parse_csv_loop (dquote :: rest) cur false out = parse_csv_loop rest cur true out.
Proof. cbn. by destruct rest. Qed.

Lemma parse_csv_quoted_body (body tail cur : list ascii) (out : list string) :
  tail = [] \/ (exists t, tail = comma :: t) ->
  parse_csv_loop (double_quotes body ++ dquote :: tail) cur true out
  = parse_csv_loop tail (cur ++ body) false out.
Proof.
  intros Htail. revert cur. induction body as [|c body IH]; intros cur.
  - rewrite app_nil_r. cbn.
    destruct Htail as [->|[t ->]]; done.
  - cbn [double_quotes flat_map]. fold (double_quotes body).
    destruct (Ascii.eqb c dquote) eqn:Hc.
    + apply Ascii.eqb_eq in Hc as ->. cbn.
      change (parse_csv_loop (double_quotes body ++ dquote :: tail) (cur ++ [dquote]) true out
              = parse_csv_loop tail (cur ++ dquote :: body) false out).
      rewrite IH. by rewrite <- app_assoc.
    + cbn [app parse_csv_loop]. rewrite Hc. rewrite andb_false_r.
      rewrite IH. by rewrite <- app_assoc.
Qed.

Lemma parse_csv_quoted_fields (f : string) (fs : list string) (out : list string) :
  parse_csv_loop (chars (join_with "," (map csv_quoted (f :: fs)))) [] false out
  = out ++ f :: fs.
Proof.
  revert f out. induction fs as [|g fs IH]; intros f out.
  - cbn [map join_with String.concat]. unfold csv_quoted. rewrite chars_str.
    rewrite parse_csv_open_quote.
    rewrite parse_csv_quoted_body by (by left).
    cbn. by rewrite str_chars.
  - cbn [map]. rewrite chars_join_with_cons.
    unfold csv_quoted at 1. rewrite chars_str.
    cbn [app]. rewrite parse_csv_open_quote.
    rewrite <- app_assoc. cbn [app].
    change (chars ",") with [comma]. cbn [app].
    rewrite parse_csv_quoted_body by (right; by eexists).
    cbn [parse_csv_loop]. change (Ascii.eqb comma dquote) with false.
    change (Ascii.eqb comma comma) with true. cbn [andb negb app].
    change (csv_quoted g :: map csv_quoted fs) with (map csv_quoted (g :: fs)).
    rewrite IH. rewrite str_chars. by rewrite <- app_assoc.
Qed.

(** X22. [parseCsvLine_] undoes CSV quoting: a line made of one or more
    fields, each written in double quotes with the double quotes inside it
    doubled, and joined by commas, is read back as exactly these fields,
    whatever code units they hold (commas, quotes and line breaks
    included). *)
Theorem parseCsvLine_quoted (f : string) (fs : list string) :
  parseCsvLine_ (join_with "," (map csv_quoted (f :: fs))) = f :: fs.
Proof. unfold parseCsvLine_. by rewrite parse_csv_quoted_fields. Qed.

Lemma pieces_nonempty (sep : ascii -> bool) (s cur : list ascii) :
  exists p ps, pieces sep s cur = p :: ps.
Proof.
  revert cur. induction s as [|ch s IH]; intros cur; cbn; [by eexists _, _|].
  destruct (sep ch); [by eexists _, _|apply IH].
Qed.

Lemma chars_join_pieces (sep : ascii -> bool) (c : ascii) (s cur : list ascii) :
  (forall x, sep x = true -> x = c) ->
  chars (join_with (str [c]) (map str (pieces sep s cur))) = cur ++ s.
Proof.
  intros Hsep. revert cur. induction s as [|ch s IH]; intros cur.
  - cbn. by rewrite chars_str, app_nil_r.
  - cbn [pieces]. destruct (sep ch) eqn:Hch.
    + apply Hsep in Hch as ->.
      specialize (IH []). destruct (pieces_nonempty sep s []) as (p & ps & Hp).
      rewrite Hp in IH |- *. cbn [map]. rewrite chars_join_with_cons.
      cbn [map] in IH. rewrite IH. by rewrite !chars_str.
    + rewrite IH. by rewrite <- app_assoc.
Qed.

Lemma pieces_free (sep : ascii -> bool) (s cur : list ascii) :
  Forall (fun x => sep x = false) cur ->
  Forall (Forall (fun x => sep x = false)) (pieces sep s cur).
Proof.
  revert cur. induction s as [|ch s IH]; intros cur Hcur; cbn.
  - by constructor.
  - destruct (sep ch) eqn:Hch.
    + constructor; [done|]. by apply IH.
    + apply IH. apply Forall_app. split; [done|]. by constructor.
Qed.

Lemma parse_csv_plain (s cur : list ascii) (out : list string) :
  dquote ∉ s ->
  parse_csv_loop s cur false out = out ++ map str (pieces is_comma s cur).
Proof.
  revert cur out. induction s as [|ch s IH]; intros cur out Hs; [done|].
  apply not_elem_of_cons in Hs as [Hch Hs].
  cbn [parse_csv_loop pieces]. unfold is_comma at 1.
  destruct (Ascii.eqb ch dquote) eqn:Hq; [by apply Ascii.eqb_eq in Hq|].
  destruct (Ascii.eqb ch comma); cbn [andb negb].
  - rewrite IH by done. cbn [map]. by rewrite <- app_assoc.
  - by rewrite IH.
Qed.

Lemma parseCsvLine_pieces (line : string) :
  dquote ∉ chars line ->
  parseCsvLine_ line = map str (pieces is_comma (chars line) []).
Proof. intros Hq. unfold parseCsvLine_. by rewrite parse_csv_plain. Qed.

Lemma parseCsvLine_join (line : string) :
  dquote ∉ chars line -> join_with "," (parseCsvLine_ line) = line.
Proof.
  intros Hq. rewrite parseCsvLine_pieces by done. apply chars_inj.
  change "," with (str [comma]). rewrite chars_join_pieces; [done|].
  intros x Hx. by apply Ascii.eqb_eq in Hx.
Qed.

(** X23. On a line without a double quote [parseCsvLine_] splits at every
    comma and nowhere else: no field holds a comma, and the fields joined
    by commas are the line. *)
Theorem parseCsvLine_plain (line : string) :
  dquote ∉ chars line ->
  join_with "," (parseCsvLine_ line) = line
  /\ Forall (fun f => comma ∉ chars f) (parseCsvLine_ line).
Proof.
  intros Hq. split; [by apply parseCsvLine_join|].
  rewrite parseCsvLine_pieces by done.
  apply Forall_fmap. eapply Forall_impl; [apply (pieces_free is_comma); by constructor|].
  intros p Hp. cbn. rewrite chars_str. intros Hin.
  rewrite Forall_forall in Hp. specialize (Hp _ Hin). done.
Qed.

Lemma parseCsvLine_plain_witness :
  (dquote ∉ chars "ab,c,,d")
  /\ join_with "," (parseCsvLine_ "ab,c,,d") = "ab,c,,d"
  /\ Forall (fun f => comma ∉ chars f) (parseCsvLine_ "ab,c,,d").
Proof.
  assert (Hq : dquote ∉ chars "ab,c,,d").
  { cbn. rewrite !not_elem_of_cons. repeat split; try done. apply not_elem_of_nil. }
  split; [exact Hq|]. apply (parseCsvLine_plain "ab,c,,d" Hq).
Defined.

Lemma no_doubled_quote_tail (ch : ascii) (s : list ascii) :
  no_doubled_quote (ch :: s) = true -> no_doubled_quote s = true.
Proof. destruct s as [|next s]; [done|]. cbn [no_doubled_quote]. by intros [_ ?]%andb_true_iff. Qed.

Lemma split_csv_loop_lines (s cur : list ascii) (inQuotes : bool) (out : list string) :
  no_doubled_quote s = true ->
  dquote ∉ cur ->
  Forall (fun l => l <> EmptyString /\ dquote ∉ chars l) out ->
  Forall (fun l => l <> EmptyString /\ dquote ∉ chars l) (split_csv_loop s cur inQuotes out).
Proof.
  set (P := fun l : string => l <> EmptyString /\ dquote ∉ chars l).
  assert (Hpush : forall cur out, dquote ∉ cur -> Forall P out ->
                    Forall P (if 0 <? length cur then out ++ [str cur] else out)).
  { intros cur' out' Hcur Hout. destruct cur' as [|c cur']; [done|].
    cbn [length Nat.ltb Nat.leb]. apply Forall_app. split; [done|].
    constructor; [|done]. split; [done|]. by rewrite chars_str. }
  enough (Hn : forall n s cur inQuotes out, length s <= n ->
            no_doubled_quote s = true -> dquote ∉ cur -> Forall P out ->
            Forall P (split_csv_loop s cur inQuotes out)) by (by apply (Hn (length s))).
  clear s cur inQuotes out.
  induction n as [|n IH]; intros s cur inQuotes out Hlen Hs Hcur Hout.
  { destruct s; [|cbn in Hlen; lia]. cbn [split_csv_loop]. by apply Hpush. }
  destruct s as [|ch rest]; [cbn [split_csv_loop]; by apply Hpush|].
  pose proof (no_doubled_quote_tail _ _ Hs) as Hrest.
  cbn [length] in Hlen. cbn [split_csv_loop].
  destruct (Ascii.eqb ch dquote) eqn:Hq.
  - destruct rest as [|next rest']; [apply IH; [cbn; lia|done..]|].
    destruct (inQuotes && Ascii.eqb next dquote) eqn:Hd.
    + apply andb_true_iff in Hd as [_ Hd].
      cbn [no_doubled_quote] in Hs. rewrite Hq, Hd in Hs. done.
    + apply IH; [cbn in *; lia|done..].
  - assert (Hch : dquote ∉ cur ++ [ch]).
    { rewrite not_elem_of_app, not_elem_of_cons. split; [done|]. split; [|apply not_elem_of_nil].
      intros <-. by rewrite Ascii.eqb_refl in Hq. }
    destruct ((Ascii.eqb ch line_feed || Ascii.eqb ch carriage_return) && negb inQuotes).
    + destruct rest as [|next rest'].
      * apply IH; [cbn; lia|done|apply not_elem_of_nil|by apply Hpush].
      * destruct (Ascii.eqb ch carriage_return && Ascii.eqb next line_feed).
        -- apply IH; [cbn in *; lia|by eapply no_doubled_quote_tail|apply not_elem_of_nil
                     |by apply Hpush].
        -- apply IH; [cbn in *; lia|done|apply not_elem_of_nil|by apply Hpush].
    + apply IH; [lia|done..].
Qed.

Lemma split_csv_loop_nonempty (s cur : list ascii) (inQuotes : bool) (out : list string) :
  Forall (fun l => l <> EmptyString) out ->
  Forall (fun l => l <> EmptyString) (split_csv_loop s cur inQuotes out).
Proof.
  set (P := fun l : string => l <> EmptyString).
  assert (Hpush : forall cur out, Forall P out ->
                    Forall P (if 0 <? length cur then out ++ [str cur] else out)).
  { intros cur' out' Hout. destruct cur' as [|c cur']; [done|].
    cbn [length Nat.ltb Nat.leb]. apply Forall_app. split; [done|].
    constructor; [|done]. done. }
  enough (Hn : forall n s cur inQuotes out, length s <= n -> Forall P out ->
            Forall P (split_csv_loop s cur inQuotes out)) by (by apply (Hn (length s))).
  clear s cur inQuotes out.
  induction n as [|n IH]; intros s cur inQuotes out Hlen Hout.
  { destruct s; [|cbn in Hlen; lia]. cbn [split_csv_loop]. by apply Hpush. }
  destruct s as [|ch rest]; [cbn [split_csv_loop]; by apply Hpush|].
  cbn [length] in Hlen. cbn [split_csv_loop].
  destruct (Ascii.eqb ch dquote).
  - destruct rest as [|next rest']; [apply IH; [cbn; lia|done]|].
    destruct (inQuotes && Ascii.eqb next dquote); apply IH; (cbn in *; lia) || done.
  - destruct ((Ascii.eqb ch line_feed || Ascii.eqb ch carriage_return) && negb inQuotes).
    + destruct rest as [|next rest']; [apply IH; [cbn; lia|by apply Hpush]|].
      destruct (Ascii.eqb ch carriage_return && Ascii.eqb next line_feed);
        (apply IH; [cbn in *; lia|by apply Hpush]).
    + apply IH; [lia|done].
Qed.

Lemma splitCsvLines_no_quotes (text : string) :
  no_doubled_quote (chars text) = true ->
  Forall (fun l => (dquote ∉ chars l) /\ join_with "," (parseCsvLine_ l) = l)
         (splitCsvLines_ text).
Proof.
  intros Htext. unfold splitCsvLines_.
  eapply Forall_impl;
    [apply (split_csv_loop_lines _ [] false [] Htext); [apply not_elem_of_nil|constructor]|].
  intros l [Hne Hq]. cbn beta. split; [done|]. by apply parseCsvLine_join.
Qed.

(** A quoted comma splits the field in the table of [parseImportCsv_]. *)
Example demo_csv_quoted_comma :
  map parseCsvLine_ (splitCsvLines_ (str [dquote; "a"; ","; "b"; dquote; ","; "c"]%char))
  = [["a"; "b"; "c"]].
Proof. reflexivity. Qed.

Lemma split_csv_plain (s cur : list ascii) (out : list string) :
  dquote ∉ s ->
  split_csv_loop s cur false out
  = out ++ map str (filter (fun p => 0 < length p) (pieces is_line_break s cur)).
Proof.
  assert (Hpush : forall (cur : list ascii) (out : list string) (ps : list (list ascii)),
            (if 0 <? length cur then out ++ [str cur] else out)
            ++ map str (filter (fun p => 0 < length p) ps)
            = out ++ map str (filter (fun p => 0 < length p) (cur :: ps))).
  { intros cur' out' ps. rewrite filter_cons. destruct cur' as [|c cur'].
    - cbn [length Nat.ltb Nat.leb]. by rewrite decide_False by (cbn; lia).
    - cbn [length Nat.ltb Nat.leb]. rewrite decide_True by (cbn; lia).
      cbn [map]. by rewrite <- app_assoc. }
  enough (Hn : forall n s cur out, length s <= n -> dquote ∉ s ->
            split_csv_loop s cur false out
            = out ++ map str (filter (fun p => 0 < length p) (pieces is_line_break s cur)))
    by (by apply (Hn (length s))).
  clear s cur out.
  induction n as [|n IH]; intros s cur out Hlen Hs.
  { destruct s; [|cbn in Hlen; lia]. cbn [split_csv_loop pieces].
    rewrite <- (Hpush cur out []). cbn. by rewrite app_nil_r. }
  destruct s as [|ch rest].
  { cbn [split_csv_loop pieces]. rewrite <- (Hpush cur out []). cbn. by rewrite app_nil_r. }
  apply not_elem_of_cons in Hs as [Hch Hrest].
  cbn [length] in Hlen. cbn [split_csv_loop pieces]. unfold is_line_break at 1.
  destruct (Ascii.eqb ch dquote) eqn:Hq; [by apply Ascii.eqb_eq in Hq|].
  destruct (Ascii.eqb ch line_feed || Ascii.eqb ch carriage_return) eqn:Hbreak;
    cbn [andb negb]; [|apply IH; [lia|done]].
  rewrite <- Hpush.
  destruct rest as [|next rest']; [apply IH; [cbn; lia|done]|].
  destruct (Ascii.eqb ch carriage_return && Ascii.eqb next line_feed) eqn:Hcrlf;
    [|apply IH; [cbn in *; lia|done]].
  apply andb_true_iff in Hcrlf as [_ Hlf].
  apply not_elem_of_cons in Hrest as [_ Hrest'].
  rewrite IH by (cbn in *; (lia || done)).
  cbn [pieces]. unfold is_line_break at 2. rewrite Hlf. cbn [orb].
  rewrite filter_cons. by rewrite decide_False by (cbn; lia).
Qed.

Lemma splitCsvLines_pieces (text : string) :
  dquote ∉ chars text ->
  splitCsvLines_ text
  = map str (filter (fun p => 0 < length p) (pieces is_line_break (chars text) [])).
Proof. intros Hq. unfold splitCsvLines_. by rewrite split_csv_plain. Qed.

(** X24. The lines of [splitCsvLines_]. None of them is empty. When no two
    double quotes stand next to each other in the text, the lines hold no
    double quote at all: the quotes are dropped here, before
    [parseCsvLine_] sees the line, so that in the table [parseImportCsv_]
    builds every line is split at each of its commas, those that stood
    between quotes included. On a text without any double quote the lines
    are the pieces between line breaks (a line feed or a carriage return,
    each on its own) that are not empty, in order; treating a carriage
    return and line feed pair as one break makes no difference, since the
    empty piece between the two would be dropped anyway. *)
Theorem splitCsvLines_lines (text : string) :
  Forall (fun l => l <> EmptyString) (splitCsvLines_ text)
  /\ (no_doubled_quote (chars text) = true ->
      Forall (fun l => (dquote ∉ chars l) /\ join_with "," (parseCsvLine_ l) = l)
             (splitCsvLines_ text))
  /\ (dquote ∉ chars text ->
      splitCsvLines_ text
      = map str (filter (fun p => 0 < length p) (pieces is_line_break (chars text) []))).
Proof.
  split; [|split].
  - unfold splitCsvLines_. apply split_csv_loop_nonempty. constructor.
  - apply splitCsvLines_no_quotes.
  - apply splitCsvLines_pieces.
Qed.

(** A carriage return and line feed pair, and an empty line. *)
Example demo_csv_lines :
  splitCsvLines_
    (str ["a"; carriage_return; line_feed; line_feed; "b"; ","; "c"; line_feed]%char)
  = ["a"; "b,c"].
Proof. reflexivity. Qed.

Lemma chars_join_flat (c : ascii) (l : string) (ls : list string) :
  chars (join_with (str [c]) (l :: ls))
  = chars l ++ flat_map (fun p => c :: p) (map chars ls).
Proof.
  revert l. induction ls as [|l' ls IH]; intros l.
  - cbn. by rewrite app_nil_r.
  - rewrite chars_join_with_cons, IH, chars_str. cbn. done.
Qed.

Lemma pieces_flat (sep : ascii -> bool) (c : ascii) (l : list ascii)
    (ls : list (list ascii)) (cur : list ascii) :
  sep c = true ->
  Forall (fun x => sep x = false) l ->
  Forall (Forall (fun x => sep x = false)) ls ->
  pieces sep (l ++ flat_map (fun p => c :: p) ls) cur = (cur ++ l) :: ls.
Proof.
  intros Hc. revert l cur. induction ls as [|l' ls IH]; intros l cur Hl Hls.
  - cbn [flat_map]. rewrite app_nil_r. revert cur.
    induction Hl as [|x l Hx Hl IHl]; intros cur; cbn [pieces].
    + by rewrite app_nil_r.
    + rewrite Hx, IHl. by rewrite <- app_assoc.
  - apply Forall_cons in Hls as [Hl' Hls]. revert cur.
    induction Hl as [|x l Hx Hl IHl]; intros cur.
    + cbn [flat_map app pieces]. rewrite Hc. rewrite app_nil_r.
      f_equal. by rewrite IH.
    + cbn [app pieces]. rewrite Hx, IHl. by rewrite <- app_assoc.
Qed.

Lemma plain_cell_chars (c : string) (x : ascii) :
  plain_cell c = true -> x ∈ chars c ->
  x <> dquote /\ is_comma x = false /\ is_line_break x = false.
Proof.
  unfold plain_cell. rewrite forallb_forall. intros Hc Hx%list_elem_of_In.
  specialize (Hc _ Hx). apply negb_true_iff in Hc.
  apply orb_false_iff in Hc as [[Hq Hcomma]%orb_false_iff Hbreak].
  split; [|done]. intros ->. by rewrite Ascii.eqb_refl in Hq.
Qed.

Lemma plain_row_line (row : list string) (x : ascii) :
  Forall (fun c => plain_cell c = true) row ->
  x ∈ chars (join_with "," row) ->
  x <> dquote /\ is_line_break x = false.
Proof.
  intros Hrow. destruct row as [|c row]; [by intros ?%elem_of_nil|].
  change "," with (str [comma]). rewrite chars_join_flat.
  apply Forall_cons in Hrow as [Hc Hrow].
  rewrite elem_of_app. intros [Hx|Hx].
  { by destruct (plain_cell_chars c x Hc Hx) as (? & _ & ?). }
  apply list_elem_of_In, in_flat_map in Hx as (p & Hp & Hx).
  apply list_elem_of_In, list_elem_of_fmap in Hp as (c' & -> & Hc').
  rewrite Forall_forall in Hrow. specialize (Hrow _ Hc').
  apply list_elem_of_In, elem_of_cons in Hx as [->|Hx]; [done|].
  by destruct (plain_cell_chars c' x Hrow Hx) as (? & _ & ?).
Qed.

Lemma parseCsvLine_plain_row (c : string) (row : list string) :
  Forall (fun c => plain_cell c = true) (c :: row) ->
  parseCsvLine_ (join_with "," (c :: row)) = c :: row.
Proof.
  intros Hrow. rewrite parseCsvLine_pieces.
  2:{ intros Hq. by destruct (plain_row_line _ _ Hrow Hq). }
  change "," with (str [comma]). rewrite chars_join_flat.
  rewrite (pieces_flat is_comma comma); [| done | |].
  - cbn [app map]. rewrite str_chars. f_equal.
    rewrite <- list_fmap_compose. rewrite <- (list_fmap_id row) at 2.
    apply list_fmap_ext. intros i x _. cbn. apply str_chars.
  - apply Forall_cons in Hrow as [Hc _]. apply Forall_forall. intros x Hx.
    by destruct (plain_cell_chars c x Hc Hx) as (_ & ? & _).
  - apply Forall_cons in Hrow as [_ Hrow]. apply Forall_fmap.
    eapply Forall_impl; [exact Hrow|]. intros c' Hc'. cbn. apply Forall_forall.
    intros x Hx. by destruct (plain_cell_chars c' x Hc' Hx) as (_ & ? & _).
Qed.

Lemma splitCsvLines_csv_text (row : list string) (rows : list (list string)) :
  Forall (Forall (fun c => plain_cell c = true)) (row :: rows) ->
  splitCsvLines_ (csv_text (row :: rows))
  = filter (fun l => l <> EmptyString) (map (join_with ",") (row :: rows)).
Proof.
  intros Htable.
  assert (Hlines : Forall (fun l => Forall (fun x => is_line_break x = false) (chars l)
                                    /\ dquote ∉ chars l)
                          (map (join_with ",") (row :: rows))).
  { apply Forall_fmap. eapply Forall_impl; [exact Htable|]. intros r Hr. cbn. split.
    - apply Forall_forall. intros x Hx. by destruct (plain_row_line r x Hr Hx).
    - intros Hq. by destruct (plain_row_line r _ Hr Hq). }
  unfold csv_text. cbn [map] in Hlines |- *.
  apply Forall_cons in Hlines as [[Hbreak Hquote] Hlines].
  rewrite splitCsvLines_pieces.
  2:{ rewrite chars_join_flat. rewrite not_elem_of_app. split; [done|].
      intros Hx. apply list_elem_of_In, in_flat_map in Hx as (p & Hp & Hx).
      apply list_elem_of_In, list_elem_of_fmap in Hp as (l & -> & Hl).
      rewrite Forall_forall in Hlines. destruct (Hlines _ Hl) as [_ Hq].
      by apply list_elem_of_In, elem_of_cons in Hx as [?|?]. }
  rewrite chars_join_flat.
  rewrite (pieces_flat is_line_break line_feed); [|done|done|].
  2:{ apply Forall_fmap. eapply Forall_impl; [exact Hlines|]. by intros l [? _]. }
  cbn [app].
  change (chars (join_with "," row) :: map chars (map (join_with ",") rows))
    with (map chars (join_with "," row :: map (join_with ",") rows)).
  generalize (join_with "," row :: map (join_with ",") rows). intros ls.
  induction ls as [|l ls IH]; [done|].
  cbn [map]. rewrite !filter_cons. destruct l as [|a l].
  - cbn [chars list_ascii_of_string length]. rewrite decide_False by lia.
    rewrite decide_False by (by intros ?). exact IH.
  - rewrite decide_True by (cbn; lia). rewrite decide_True by done.
    cbn [map]. rewrite str_chars. by f_equal.
Qed.

Lemma join_with_empty (row : list string) :
  join_with "," row = EmptyString -> row = [] \/ row = [EmptyString].
Proof.
  destruct row as [|c [|c' row]]; [by left| |].
  - cbn. intros ->. by right.
  - intros Hjoin. apply (f_equal chars) in Hjoin.
    rewrite chars_join_with_cons in Hjoin. by destruct (chars c).
Qed.

Lemma csv_import_row_blank (idx : gmap string nat) (keyCol contentCol : option nat)
    (dA dL : string) (row : list string) :
  row = [] \/ row = [EmptyString] ->
  csv_import_row idx keyCol contentCol dA dL row = None.
Proof.
  intros Hrow. unfold csv_import_row.
  assert (cell row keyCol = EmptyString) as ->; [|done].
  destruct Hrow as [->| ->]; destruct keyCol as [[|i]|]; done.
Qed.

Lemma omap_cons {A B : Type} (f : A -> option B) (x : A) (l : list A) :
  omap f (x :: l) = match f x with Some y => y :: omap f l | None => omap f l end.
Proof. done. Qed.

(** X25. [parseImportCsv_] reads back a table written as plain CSV. For a
    header row and data rows whose cells hold no double quote, comma or
    line break, written with commas between the cells and line feeds
    between the rows, and a header that names the key column
    ([Snippet Name], else [key]) and the content column ([Content], else
    [expansion]), the result is [ok] with one entry for every data row
    whose key cell is not blank, in order, built from the cells of that
    row: an empty line gives no entry, as a row with a blank key gives
    none. *)
Theorem parseImportCsv_reads_table (header : list string) (rows : list (list string))
    (defaultApplication defaultLanguage : string) :
  Forall (Forall (fun c => plain_cell c = true)) (header :: rows) ->
  let idx := indexHeader_ (map trim header) in
  let keyCol := if idx !! "Snippet Name" is Some c then Some c else idx !! "key" in
  let contentCol := if idx !! "Content" is Some c then Some c else idx !! "expansion" in
  is_Some keyCol -> is_Some contentCol ->
  parseImportCsv_ (csv_text (header :: rows)) defaultApplication defaultLanguage
  = ParsedRows (omap (csv_import_row idx keyCol contentCol defaultApplication defaultLanguage)
                     rows).
Proof.
  intros Htable idx keyCol contentCol [kc Hkey] [cc Hcontent].
  assert (Hheader : join_with "," header <> EmptyString).
  { intros Hjoin. apply join_with_empty in Hjoin.
    assert (idx = ∅) as Hidx by (subst idx; by destruct Hjoin as [->| ->]).
    subst keyCol. rewrite Hidx in Hkey. by rewrite !lookup_empty in Hkey. }
  unfold parseImportCsv_. rewrite splitCsvLines_csv_text by done.
  cbn [map]. rewrite filter_cons. rewrite decide_True by exact Hheader.
  cbn [length Nat.eqb map head default drop].
  destruct header as [|h header]; [done|].
  apply Forall_cons in Htable as [Hh Hrows].
  rewrite parseCsvLine_plain_row by done.
  change (id (h :: header)) with (h :: header).
  fold idx. fold keyCol. fold contentCol. rewrite Hkey, Hcontent.
  rewrite drop_0. f_equal. induction Hrows as [|r rows Hr Hrows IH]; [done|].
  cbn [map]. rewrite filter_cons, omap_cons.
  destruct (decide (join_with "," r <> EmptyString)) as [Hne|Heq].
  - cbn [map]. rewrite omap_cons. destruct r as [|c r]; [done|].
    rewrite parseCsvLine_plain_row by done. by rewrite IH.
  - apply dec_stable in Heq. apply join_with_empty in Heq.
    rewrite csv_import_row_blank by done. exact IH.
Qed.

Lemma parseImportCsv_reads_table_witness :
  let header := ["Snippet Name"; "Content"; "Tags"] in
  let rows := [["brb"; "be right back"; "chat"]; []; [" "; "lost"]; ["omw"; "on my way"]] in
  Forall (Forall (fun c => plain_cell c = true)) (header :: rows)
  /\ parseImportCsv_ (csv_text (header :: rows)) "Any" "en"
     = ParsedRows [mkImportRow "brb" "be right back" "Any" EmptyString "en" "chat";
                   mkImportRow "omw" "on my way" "Any" EmptyString "en" EmptyString].
Proof.
  intros header rows.
  assert (Htable : Forall (Forall (fun c => plain_cell c = true)) (header :: rows))
    by (repeat constructor).
  split; [exact Htable|].
  rewrite (parseImportCsv_reads_table header rows "Any" "en" Htable);
    [reflexivity|by eexists|by eexists].
Defined.

(** ** Code.gs: reading JSON *)

Lemma text_record_prop (o : value) (name : string) :
  text_record o = true ->
  prop o name = VUndefined \/ exists s, prop o name = VStr s.
Proof.
  destruct o as [| | | | | |fields]; try done. cbn [text_record prop].
  induction fields as [|[k v] fields IH]; [by left|].
  cbn [forallb assoc fst snd]. intros [Hv Hfields]%andb_true_iff.
  destruct (String.eqb k name); [|by apply IH].
  destruct v; try done. right. by eexists.
Qed.

Lemma value_or_chain (o : value) (names : list string) (last : value) (dflt : string)
    (w : World) :
  text_record o = true ->
  js_String last = Some dflt ->
  to_string (foldr (fun name rest => value_or (prop o name) rest) last names) w
  = (Ret (first_text o names dflt), w).
Proof.
  intros Ho Hlast. unfold to_string.
  assert (js_String (foldr (fun name rest => value_or (prop o name) rest) last names)
          = Some (first_text o names dflt)) as ->; [|done].
  induction names as [|name names IH]; [done|].
  cbn [foldr first_text]. unfold value_or at 1.
  destruct (text_record_prop o name Ho) as [-> | [s ->]]; [done|].
  cbn [truthy]. by destruct (truthy_str s).
Qed.

Lemma json_import_row_text (defaultApplication defaultLanguage : string) (o : value)
    (w : World) :
  text_record o = true ->
  json_import_row defaultApplication defaultLanguage o w
  = (Ret (text_import_row defaultApplication defaultLanguage o), w).
Proof.
  intros Ho. unfold json_import_row.
  assert (truthy o = true) as -> by (by destruct o).
  assert (Hdefault : forall d : string,
            js_String (value_or (VStr d) (VStr EmptyString)) = Some d).
  { intros d. unfold value_or. cbn [truthy]. by destruct d. }
  cbv zeta.
  rewrite (bind_run _ _ _ _ _
             (value_or_chain o ["key"; "Snippet Name"; "name"] (VStr EmptyString) EmptyString
                w Ho eq_refl)).
  rewrite (bind_run _ _ _ _ _ (value_or_chain o ["expansion"; "Content"] (VStr EmptyString) EmptyString
                w Ho eq_refl)).
  rewrite (bind_run _ _ _ _ _
             (value_or_chain o ["application"; "Application"] _ _ w Ho
                (Hdefault defaultApplication))).
  rewrite (bind_run _ _ _ _ _
             (value_or_chain o ["description"; "Description"] (VStr EmptyString) EmptyString
                w Ho eq_refl)).
  rewrite (bind_run _ _ _ _ _
             (value_or_chain o ["language"; "Language"] _ _ w Ho (Hdefault defaultLanguage))).
  rewrite (bind_run _ _ _ _ _ (value_or_chain o ["tags"; "Tags"] (VStr EmptyString) EmptyString
                w Ho eq_refl)).
  done.
Qed.

Lemma map_each_run {A B : Type} (f : A -> M B) (g : A -> B) (l : list A) (w : World) :
  Forall (fun x => f x w = (Ret (g x), w)) l ->
  map_each f l w = (Ret (map g l), w).
Proof.
  induction 1 as [|x l Hx _ IH]; [done|].
  cbn [map_each map]. rewrite (bind_run _ _ _ _ _ Hx). by rewrite (bind_run _ _ _ _ _ IH).
Qed.

Section ImportJsonTheorem.
Context `{Platform}.

(** X26. [parseImportJson_] on records of texts. When the text parses to
    an array, or to an object whose [items] is an array, and every element
    is an object whose properties all hold strings, the result is [ok] with
    one row for every element, in order and none left out (a blank key
    stays, unlike in [parseImportCsv_]): the key is the first of [key],
    [Snippet Name] and [name] that is not empty, the content the first of
    [expansion] and [Content], and so on with the default application and
    language where neither name gives a text, each trimmed. The state is
    not touched. *)
Theorem parseImportJson_reads_records (text defaultApplication defaultLanguage : string)
    (items : list value) (w : World) :
  jsonParse text = Some (VArr items)
  \/ (exists fields, jsonParse text = Some (VObj fields)
                     /\ assoc "items" fields = VArr items) ->
  Forall (fun o => text_record o = true) items ->
  parseImportJson_ text defaultApplication defaultLanguage w
  = (Ret (ParsedRows (map (text_import_row defaultApplication defaultLanguage) items)), w).
Proof.
  intros Hparse Hitems. unfold parseImportJson_.
  assert (Hrows : map_each (json_import_row defaultApplication defaultLanguage) items w
                  = (Ret (map (text_import_row defaultApplication defaultLanguage) items), w)).
  { apply map_each_run. eapply Forall_impl; [exact Hitems|].
    intros o Ho. by apply json_import_row_text. }
  destruct Hparse as [-> | (fields & -> & Hfields)].
  - cbn [as_array]. by rewrite (bind_run _ _ _ _ _ Hrows).
  - cbn [as_array truthy prop]. rewrite Hfields. cbn [as_array].
    by rewrite (bind_run _ _ _ _ _ Hrows).
Qed.

End ImportJsonTheorem.

Lemma parseImportJson_reads_records_witness :
  parseImportJson_ (H := demo_platform) "ROWS" "app" "en" demo_world
  = (Ret (ParsedRows [mkImportRow "a" EmptyString "app" EmptyString "en" EmptyString;
                      mkImportRow "b" EmptyString "app" EmptyString "en" EmptyString;
                      mkImportRow "c" EmptyString "app" EmptyString "en" EmptyString]), demo_world).
Proof.
  rewrite (parseImportJson_reads_records (H := demo_platform) "ROWS" "app" "en" demo_rows
             demo_world); [reflexivity|by left|by repeat constructor].
Defined.

(** ** uiHandlers.gs: favorites from the clipboard *)

Section ClipboardTheorem.
Context `{Platform}.

(** X27. [handleClipboardFavorite] answers [ok: true] with
    [Added to favorites.] and [favorite: true] in every state and for every
    key: [addToFavorites] never throws, so the [catch] clause is never
    entered, and its result is not looked at. In particular the answer is
    the same when [addToFavorites] answered an error and added nothing, as
    it does, leaving the state as it was, for a user without an e-mail
    address. *)
Theorem handleClipboardFavorite_always_ok (key : string) (w : World) :
  exists (res : FavResult) (w' : World),
    addToFavorites key w = (Ret res, w')
    /\ handleClipboardFavorite key w = (Ret (ClipboardOk "Added to favorites." true), w')
    /\ (truthy_str (sessionEmail (env w)) = false -> status res = "error" /\ w' = w).
Proof.
  destruct (updateFavoriteStatus_returns key "force_add" w) as (res & w' & Hrun).
  exists res, w'. split; [exact Hrun|]. split.
  - unfold handleClipboardFavorite. apply try_catch_ret.
    unfold addToFavorites. by rewrite (bind_run _ _ _ _ _ Hrun).
  - intros Hemail. unfold addToFavorites, updateFavoriteStatus_ in Hrun.
    rewrite (bind_run _ _ w w (sessionEmail (env w))) in Hrun by reflexivity.
    rewrite Hemail in Hrun. cbn [negb] in Hrun. unfold ret in Hrun.
    by injection Hrun as <- <-.
Qed.

End ClipboardTheorem.

(** ** cleanup.gs: duplicates in the Shortcuts sheet *)

Lemma duplicate_shortcuts_from_later (hdr : list string) (rows : Sheet) :
  forall (seen : gset string) (dks : list string) (i : nat),
    (duplicate_shortcuts_from i rows (indexHeader_ hdr !! "Snippet Name") seen dks).1
    = later_duplicates (shortcut_of hdr) seen (i + 1) rows.
Proof.
  induction rows as [|x rows IH]; intros seen dks i; [done|].
  cbn [duplicate_shortcuts_from later_duplicates]. unfold shortcut_of at 1.
  change (trim (cell x (indexHeader_ hdr !! "Snippet Name"))) with (shortcut_key hdr x).
  destruct (truthy_str (shortcut_key hdr x)); cbn [negb].
  - case_bool_decide; cbn [fst]; by rewrite (IH _ _ (S i)).
  - by rewrite (IH _ _ (S i)).
Qed.

Lemma duplicate_shortcuts_from_keys (hdr : list string) (rows : Sheet) :
  forall (seen : gset string) (dks : list string) (i : nat),
    let found := (duplicate_shortcuts_from i rows (indexHeader_ hdr !! "Snippet Name")
                    seen dks).2 in
    (NoDup dks -> NoDup found)
    /\ forall k : string,
         k ∈ found
         <-> k ∈ dks
             \/ (if decide (k ∈ seen) then 1 else 2)
                <= length (filter (fun r => shortcut_of hdr r = Some k) rows).
Proof.
  induction rows as [|x rows IH]; intros seen dks i.
  { cbn. split; [done|]. intros k. split; [by left|]. intros [?|Hlen]; [done|].
    destruct (decide (k ∈ seen)); lia. }
  cbn [duplicate_shortcuts_from]. cbv zeta.
  change (trim (cell x (indexHeader_ hdr !! "Snippet Name"))) with (shortcut_key hdr x).
  destruct (truthy_str (shortcut_key hdr x)) eqn:Hkey; cbn [negb].
  2:{ assert (Hx : shortcut_of hdr x = None) by (unfold shortcut_of; by rewrite Hkey).
      destruct (IH seen dks (S i)) as [Hnd Hin]. split; [exact Hnd|].
      intros k. rewrite (Hin k). by rewrite filter_cons_False by (by rewrite Hx). }
  assert (Hx : shortcut_of hdr x = Some (shortcut_key hdr x))
    by (unfold shortcut_of; by rewrite Hkey).
  set (kx := shortcut_key hdr x) in *.
  assert (Hcount : forall k,
            length (filter (fun r => shortcut_of hdr r = Some k) (x :: rows))
            = (if decide (k = kx) then 1 else 0)
              + length (filter (fun r => shortcut_of hdr r = Some k) rows)).
  { intros k. destruct (decide (k = kx)) as [->|Hne].
    - by rewrite filter_cons_True by done.
    - rewrite filter_cons_False; [done|]. rewrite Hx. congruence. }
  case_bool_decide as Hseen; cbn [snd].
  - set (dks' := if bool_decide (kx ∈ dks) then dks else dks ++ [kx]).
    destruct (IH seen dks' (S i)) as [Hnd Hin]. split.
    + intros Hdks. apply Hnd. subst dks'. case_bool_decide as Hk; [done|].
      apply NoDup_app. split; [done|]. split; [|apply NoDup_singleton].
      intros k Hk' ->%list_elem_of_singleton. done.
    + intros k. rewrite (Hin k), (Hcount k).
      assert (Hdks' : k ∈ dks' <-> k ∈ dks \/ k = kx).
      { subst dks'. case_bool_decide as Hk.
        - split; [by left|]. by intros [?| ->].
        - rewrite elem_of_app, list_elem_of_singleton. done. }
      rewrite Hdks'. destruct (decide (k = kx)) as [->|Hne].
      * rewrite decide_True by done. split; [intros _; right; lia|]. intros _. left. by right.
      * split; [intros [[?|?]|?]|intros [?|?]]; (done || (by left; left) || (by left) || by right).
  - destruct (IH ({[kx]} ∪ seen) dks (S i)) as [Hnd Hin]. split; [exact Hnd|].
    intros k. rewrite (Hin k), (Hcount k).
    destruct (decide (k = kx)) as [->|Hne].
    + rewrite decide_True by (apply elem_of_union_l; by apply elem_of_singleton).
      rewrite decide_False by done.
      split; (intros [?|?]; [by left|right; lia]).
    + destruct (decide (k ∈ seen)) as [Hk|Hk].
      * rewrite decide_True by (by apply elem_of_union_r). done.
      * rewrite decide_False; [done|].
        intros [Hin'%elem_of_singleton|Hin']%elem_of_union; done.
Qed.

Section ShortcutsCleanupTheorem.
Context `{Platform}.

Lemma bump_then_invalidate_run (w : World) :
  exists w' : World,
    (bumpCacheVersion_ ;;; invalidateShortcutsCache_) w = (Ret tt, w')
    /\ sheets w' = sheets w /\ events w' = events w /\ env w' = env w
    /\ cache w' = delete (meta_key CFG.CACHE_KEY_PREFIX) (cache w).
Proof.
  eexists. split.
  - unfold bumpCacheVersion_, invalidateShortcutsCache_, bumpCacheVersion_, cache_remove,
      modify, gets, bind. reflexivity.
  - done.
Qed.

Lemma cleanupDuplicateShortcuts_run (hdr : list string) (rows : Sheet) (w : World) :
  scriptLockBusy (env w) = false ->
  sheets w !! CFG.SHEET_SHORTCUTS = Some (hdr :: rows) ->
  header_has hdr HEADERS_SHORTCUTS ->
  let dups := later_duplicates (shortcut_of hdr) ∅ 2 rows in
  let dks := (duplicate_shortcuts_from 1 rows (indexHeader_ hdr !! "Snippet Name") ∅ []).2 in
  exists w' : World,
    cleanupDuplicateShortcuts w
    = (Ret (mkShortcutsReport (Z.of_nat (length rows)) (Z.of_nat (length dups))
                              (Z.of_nat (length rows) - Z.of_nat (length dups)) dks), w')
    /\ sheets w'
       = <[CFG.SHEET_SHORTCUTS := hdr :: keep_first (shortcut_of hdr) ∅ rows]> (sheets w)
    /\ env w' = env w
    /\ (if length dups =? 0 then cache w' = cache w /\ props w' = props w
        else cache w' = delete (meta_key CFG.CACHE_KEY_PREFIX) (cache w)).
Proof.
  intros Hfree Hg Hhas dups dks.
  set (w2 := log_event (EvLock ScriptLock) w).
  assert (Hg2 : sheets w2 !! CFG.SHEET_SHORTCUTS = Some (hdr :: rows)) by exact Hg.
  unfold cleanupDuplicateShortcuts.
  destruct rows as [|r rows].
  { eexists. split; [|split; [|split]].
    - eapply try_finally_run; [|reflexivity]. apply try_catch_ret.
      rewrite (bind_run _ _ _ _ _ (waitLock_run ScriptLock 30000 w Hfree)). fold w2.
      rewrite (bind_run _ _ _ _ _ (getSheet_run _ _ _ Hg2)).
      rewrite (bind_run _ _ _ _ _ (getDataRangeValues_run _ _ _ Hg2)).
      reflexivity.
    - cbn. by rewrite insert_id.
    - done.
    - done. }
  pose proof (delete_duplicates_run CFG.SHEET_SHORTCUTS (shortcut_of hdr) hdr (r :: rows) w2 Hg2)
    as Hdel. fold dups in Hdel.
  set (w3 := with_sheet CFG.SHEET_SHORTCUTS (hdr :: keep_first (shortcut_of hdr) ∅ (r :: rows))
               (map (EvDeleteRow CFG.SHEET_SHORTCUTS) (rev dups)) w2) in *.
  assert (Hbody : exists w4 : World,
            (if 0 <? length dups then bumpCacheVersion_ ;;; invalidateShortcutsCache_
             else ret tt) w3 = (Ret tt, w4)
            /\ sheets w4 = sheets w3 /\ env w4 = env w3
            /\ (if length dups =? 0 then cache w4 = cache w /\ props w4 = props w
                else cache w4 = delete (meta_key CFG.CACHE_KEY_PREFIX) (cache w))).
  { destruct dups as [|d dups'].
    - exists w3. done.
    - destruct (bump_then_invalidate_run w3) as (w4 & Hrun & Hs & _ & He & Hc).
      exists w4. done. }
  destruct Hbody as (w4 & Hrun4 & Hs4 & He4 & Hc4).
  eexists. split; [|split; [|split]].
  - eapply try_finally_run; [|reflexivity]. apply try_catch_ret.
    rewrite (bind_run _ _ _ _ _ (waitLock_run ScriptLock 30000 w Hfree)). fold w2.
    rewrite (bind_run _ _ _ _ _ (getSheet_run _ _ _ Hg2)).
    rewrite (bind_run _ _ _ _ _ (getDataRangeValues_run _ _ _ Hg2)).
    cbn [length Nat.leb].
    rewrite (bind_run _ _ _ _ _ (getShortcutsHeaderAndColMap_run hdr (r :: rows) w2 Hg2 Hhas)).
    cbv zeta. cbn [snd shortcut_cols col_key drop].
    rewrite (duplicate_shortcuts_from_later hdr (r :: rows) ∅ [] 1).
    change (1 + 1) with 2. fold dups.
    rewrite (bind_run _ _ _ _ _ Hdel).
    rewrite (bind_run _ _ _ _ _ Hrun4).
    unfold ret. do 2 f_equal. fold dks. f_equal; cbn [length]; lia.
  - cbn [sheets log_event]. rewrite Hs4. done.
  - cbn [env log_event]. rewrite He4. done.
  - cbn [cache props log_event]. exact Hc4.
Qed.

(** X28. [cleanupDuplicateShortcuts()], with the script lock free and a
    Shortcuts sheet that carries its headers: of the rows with the same
    key (trimmed, not blank) it keeps the first and deletes the others; the
    rows with a blank key all stay, and so does the order. Afterwards no
    key occurs twice and every key that was there still is. The report
    counts the rows below the header before and after and their difference
    as removed, and lists each key that occurred more than once, once. The
    cache is left alone when nothing was removed; otherwise the meta record
    of the global shortcuts cache is dropped. *)
Theorem cleanupDuplicateShortcuts_keeps_first (hdr : list string) (rows : Sheet) (w : World) :
  scriptLockBusy (env w) = false ->
  sheets w !! CFG.SHEET_SHORTCUTS = Some (hdr :: rows) ->
  header_has hdr HEADERS_SHORTCUTS ->
  let key := shortcut_of hdr in
  let rows' := keep_first key ∅ rows in
  exists (report : ShortcutsReport) (w' : World),
    cleanupDuplicateShortcuts w = (Ret report, w')
    /\ sheets w' = <[CFG.SHEET_SHORTCUTS := hdr :: rows']> (sheets w)
    /\ NoDup (omap key rows')
    /\ rows' `sublist_of` rows
    /\ filter (fun r => key r = None) rows' = filter (fun r => key r = None) rows
    /\ (forall r k, r ∈ rows -> key r = Some k -> exists r', r' ∈ rows' /\ key r' = Some k)
    /\ sr_initialCount report = Z.of_nat (length rows)
    /\ sr_finalCount report = Z.of_nat (length rows')
    /\ sr_removedCount report = (sr_initialCount report - sr_finalCount report)%Z
    /\ NoDup (sr_duplicateKeys report)
    /\ (forall k, k ∈ sr_duplicateKeys report
                  <-> 2 <= length (filter (fun r => key r = Some k) rows))
    /\ (if (sr_removedCount report =? 0)%Z
        then cache w' = cache w /\ props w' = props w
        else cache w' = delete (meta_key CFG.CACHE_KEY_PREFIX) (cache w)).
Proof.
  intros Hfree Hg Hhas key rows'.
  destruct (cleanupDuplicateShortcuts_run hdr rows w Hfree Hg Hhas)
    as (w' & Hrun & Hsheets & _ & Hcache).
  cbv zeta in Hrun. fold key rows' in Hsheets.
  pose proof (later_duplicates_length key rows ∅ 2) as Hlen. fold rows' in Hlen.
  destruct (duplicate_shortcuts_from_keys hdr rows ∅ [] 1) as [Hnd Hkeys].
  eexists _, w'. split; [exact Hrun|]. split; [exact Hsheets|].
  cbn [sr_initialCount sr_finalCount sr_removedCount sr_duplicateKeys].
  split; [|split; [|split; [|split; [|split; [|split; [|split; [|split; [|split]]]]]]]].
  - apply keep_first_keys.
  - apply keep_first_sublist.
  - apply keep_first_no_key.
  - intros r k Hr Hk.
    apply (keep_first_complete key rows ∅ r k Hr Hk). apply not_elem_of_empty.
  - done.
  - fold key. lia.
  - lia.
  - apply Hnd. constructor.
  - intros k. rewrite (Hkeys k). rewrite decide_False by apply not_elem_of_empty.
    split; [intros [?%not_elem_of_nil|?]; done|by right].
  - fold key in Hcache |- *.
    destruct (length (later_duplicates key ∅ 2 rows)) as [|n] eqn:Hdups.
    + exact Hcache.
    + rewrite (proj2 (Z.eqb_neq _ _)) by lia. exact Hcache.
Qed.

End ShortcutsCleanupTheorem.

Lemma cleanupDuplicateShortcuts_keeps_first_witness :
  exists (report : ShortcutsReport) (w' : World),
    cleanupDuplicateShortcuts (H := demo_platform) demo_world = (Ret report, w')
    /\ data_rows w' CFG.SHEET_SHORTCUTS
       = [["1"; "foo"; "first"; "app"; "d"; "en"; "t"; "2025-12-01"];
          ["2"; "bar"; "other"; "app"; "d"; "en"; "t"; "2025-12-02"]]
    /\ sr_removedCount report = 2%Z
    /\ sr_duplicateKeys report = ["foo"].
Proof.
  destruct (cleanupDuplicateShortcuts_keeps_first (H := demo_platform)
              HEADERS_SHORTCUTS (drop 1 demo_shortcuts) demo_world)
    as (report & w' & Hrun & Hsheets & _).
  - reflexivity.
  - reflexivity.
  - rewrite <- (app_nil_r HEADERS_SHORTCUTS) at 1.
    apply header_has_written, trimmed_shortcut_headers.
  - exists report, w'. split; [exact Hrun|].
    assert (Hreport : report
                      = (mkShortcutsReport 4 2 2 ["foo"])).
    { assert (Hdemo : (cleanupDuplicateShortcuts (H := demo_platform) demo_world).1
                      = Ret (mkShortcutsReport 4 2 2 ["foo"])) by (vm_compute; reflexivity).
      rewrite Hrun in Hdemo. cbn [fst] in Hdemo. by injection Hdemo. }
    split; [|by rewrite Hreport].
    unfold data_rows. rewrite Hsheets, lookup_insert_eq. vm_compute. reflexivity.
Defined.

(** ** uiHandlers.gs: bulk import *)

Lemma import_scan_spec (rows : list ImportRow) :
  forall (i : nat) (seen : gset string),
    import_scan i rows seen
    = (filter (fun r => is_Some (import_key r)) (keep_first import_key seen rows),
       omap import_error (zip (seq i (length rows)) rows),
       seen ∪ list_to_set (omap import_key rows)).
Proof.
  induction rows as [|r rows IH]; intros i seen.
  { cbn. by rewrite union_empty_r_L. }
  cbn [import_scan keep_first length seq zip zip_with]. rewrite !omap_cons.
  destruct (ok (validateShortcutPayload_ (Some (row_payload r)))) eqn:Hv; cbn [negb].
  - assert (Hr : import_key r = Some (trim (r_key r))) by (unfold import_key; by rewrite Hv).
    assert (He : import_error (i, r) = None) by (unfold import_error; cbv zeta; cbn [fst snd]; by rewrite Hv).
    rewrite Hr, He. cbn [list_to_set].
    case_bool_decide as Hseen.
    + rewrite IH. f_equal. apply set_eq. intros k.
      rewrite !elem_of_union, elem_of_singleton. split; [tauto|].
      intros [?|[->|?]]; tauto.
    + rewrite IH. cbn [fst snd]. rewrite filter_cons_True by (rewrite Hr; eauto).
      f_equal. apply set_eq. intros k.
      rewrite !elem_of_union, elem_of_singleton. tauto.
  - assert (Hr : import_key r = None) by (unfold import_key; by rewrite Hv).
    assert (He : import_error (i, r)
                 = Some (mkImportError (i + 1) (r_key r)
                           (message (validateShortcutPayload_ (Some (row_payload r))))))
      by (unfold import_error; cbv zeta; cbn [fst snd]; by rewrite Hv).
    rewrite Hr, He. rewrite IH. cbn [fst snd].
    rewrite filter_cons_False by (rewrite Hr; by intros [? ?]).
    done.
Qed.

Lemma import_rows_to_delete_positions (c : option nat) (keys : gset string) (rows : Sheet) :
  forall i : nat,
    import_rows_to_delete i (map (fun r => trim (cell r c)) rows) keys
    = positions_from (fun r => bool_decide (trim (cell r c) ∈ keys)) (i + 2) rows.
Proof.
  induction rows as [|r rows IH]; intros i; [done|].
  cbn [map import_rows_to_delete positions_from]. rewrite trim_idem, (IH (S i)).
  by case_bool_decide.
Qed.

Lemma setValuesBelow_run (name : string) (width : nat) (values g : Sheet) (w : World) :
  sheets w !! name = Some g ->
  values <> [] -> 0 < width ->
  Forall (fun row => length row = width) values ->
  setValuesBelow name width values w
  = (Ret tt, with_sheet name (g ++ values) (map (EvAppendRow name) values) w).
Proof.
  intros Hg Hne Hwidth Hrows. unfold setValuesBelow.
  rewrite (bind_run _ _ _ _ _ (sheet_grid_run _ _ _ Hg)).
  destruct values as [|v values]; [done|]. cbn [length Nat.eqb orb].
  destruct (Nat.eqb_spec width 0) as [?|_]; [lia|].
  assert (forallb (fun row => length row =? width) (v :: values) = true) as ->.
  { apply forallb_forall. intros row Hrow%list_elem_of_In.
    rewrite Forall_forall in Hrows. apply Nat.eqb_eq. by apply Hrows. }
  done.
Qed.

Lemma import_batches_run (name : string) (width : nat) (inserts : Sheet) :
  0 < width ->
  Forall (fun row => length row = width) inserts ->
  forall (fuel start : nat) (g : Sheet) (w : World),
    sheets w !! name = Some g ->
    length inserts <= fuel + start ->
    import_batches fuel name width inserts start w
    = (Ret tt, with_sheet name (g ++ drop start inserts)
                 (map (EvAppendRow name) (drop start inserts)) w).
Proof.
  intros Hwidth Hrows. induction fuel as [|fuel IH]; intros start g w Hg Hfuel.
  { cbn [import_batches]. rewrite drop_ge by lia. cbn [map]. rewrite app_nil_r.
    by rewrite with_sheet_same. }
  cbn [import_batches]. destruct (Nat.ltb_spec start (length inserts)) as [Hlt|Hge].
  2:{ rewrite drop_ge by lia. cbn [map]. rewrite app_nil_r. by rewrite with_sheet_same. }
  pose proof (slice_window inserts (Z.of_nat start) 500 ltac:(lia) ltac:(lia)) as Hslice.
  rewrite Nat2Z.id in Hslice. cbv zeta. rewrite Hslice.
  set (chunk := take (Z.to_nat 500) (drop start inserts)).
  assert (Hchunk : chunk <> []).
  { subst chunk. destruct (drop start inserts) eqn:Hdrop; [|done].
    apply (f_equal length) in Hdrop. rewrite length_drop in Hdrop. cbn in Hdrop. lia. }
  assert ((0 <? length chunk) = true) as -> by (destruct chunk; [done|reflexivity]).
  rewrite (bind_run _ _ _ _ _ (setValuesBelow_run name width chunk g w Hg Hchunk Hwidth
             ltac:(subst chunk; by apply Forall_take, Forall_drop))).
  rewrite (IH (start + 500) (g ++ chunk)); [|apply with_sheet_lookup|lia].
  rewrite with_sheet_twice. rewrite <- app_assoc, <- map_app.
  assert (chunk ++ drop (start + 500) inserts = drop start inserts) as ->; [|done].
  subst chunk. rewrite <- (take_drop (Z.to_nat 500) (drop start inserts)) at 2.
  f_equal. by rewrite drop_drop.
Qed.

Lemma array_set_length (j : nat) (v : string) (row : list string) :
  j < length row -> length (array_set (Some j) v row) = length row.
Proof.
  intros Hj. unfold array_set. apply Nat.ltb_lt in Hj as ->. apply length_insert.
Qed.

Lemma pad_row_length (n : nat) (row : list string) : length (pad_row n row) = n.
Proof. unfold pad_row. rewrite length_take, length_app, length_replicate. lia. Qed.

Lemma import_insert_length (hdr : list string) (width : nat) (nowIso : string) (r : ImportRow) :
  header_has hdr HEADERS_SHORTCUTS ->
  length hdr <= width ->
  length (import_insert (shortcut_cols (indexHeader_ hdr)) width nowIso r) = width.
Proof.
  intros Hhas Hwidth.
  destruct (shortcut_columns hdr Hhas)
    as (ji & jk & je & ja & jd & jl & jt & ju
        & _ & [Hk (? & Hk' & _)] & [He (? & He' & _)] & [Ha (? & Ha' & _)]
        & [Hd (? & Hd' & _)] & [Hl (? & Hl' & _)] & [Ht (? & Ht' & _)] & [Hu (? & Hu' & _)]).
  apply lookup_lt_Some in Hk', He', Ha', Hd', Hl', Ht', Hu'.
  unfold import_insert, shortcut_cols.
  cbn [col_key col_expansion col_application col_description col_language col_tags
       col_updatedAt].
  rewrite Hk, He, Ha, Hd, Hl, Ht, Hu.
  assert (Hset : forall j v row, j < width -> length row = width ->
                   length (array_set (Some j) v row) = width)
    by (intros j v row Hj Hrow; rewrite array_set_length; lia).
  repeat (apply Hset; [lia|]). apply length_replicate.
Qed.

Lemma import_insert_key (hdr : list string) (width : nat) (nowIso : string) (r : ImportRow) :
  header_has hdr HEADERS_SHORTCUTS ->
  shortcut_key hdr (import_insert (shortcut_cols (indexHeader_ hdr)) width nowIso r)
  = trim (r_key r).
Proof.
  intros Hhas.
  destruct (shortcut_columns hdr Hhas)
    as (ji & jk & je & ja & jd & jl & jt & ju & _ & Hk & He & Ha & Hd & Hl & Ht & Hu).
  pose proof (column_of_distinct hdr _ _ _ _ Hk He ltac:(done)).
  pose proof (column_of_distinct hdr _ _ _ _ Hk Ha ltac:(done)).
  pose proof (column_of_distinct hdr _ _ _ _ Hk Hd ltac:(done)).
  pose proof (column_of_distinct hdr _ _ _ _ Hk Hl ltac:(done)).
  pose proof (column_of_distinct hdr _ _ _ _ Hk Ht ltac:(done)).
  pose proof (column_of_distinct hdr _ _ _ _ Hk Hu ltac:(done)).
  unfold shortcut_key, import_insert, shortcut_cols.
  cbn [col_key col_expansion col_application col_description col_language col_tags
       col_updatedAt].
  rewrite (proj1 Hk), (proj1 He), (proj1 Ha), (proj1 Hd), (proj1 Hl), (proj1 Ht), (proj1 Hu).
  repeat (rewrite cell_array_set; case_decide; [exfalso; congruence|]).
  rewrite cell_array_set, decide_True by done. apply trim_idem.
Qed.

Section BulkImportRun.
Context `{Platform}.

(** The run of [bulkImport] on an input that parses to rows, with the
    document lock free. *)
Lemma bulkImport_run (payload : option ImportPayload) (rows : list ImportRow) (w : World) :
  let mode := trim (toLowerCase (str_or_empty (payload ≫= ip_mode))) in
  let text := str_or_empty (payload ≫= ip_text) in
  let defaultApplication := trim (str_or_empty (payload ≫= ip_defaultApplication)) in
  let defaultLanguage := trim (str_or_empty (payload ≫= ip_defaultLanguage)) in
  documentLockBusy (env w) = false ->
  mode = "csv" \/ mode = "json" ->
  truthy_str (trim text) = true ->
  (forall w0 : World,
     (if String.eqb mode "json"
      then parseImportJson_ text defaultApplication defaultLanguage
      else ret (parseImportCsv_ text defaultApplication defaultLanguage)) w0
     = (Ret (ParsedRows rows), w0)) ->
  rows <> [] ->
  exists (w1 w' : World) (hdr : list string) (old : Sheet) (width : nat),
    sheets_ready w w1
    /\ sheets w1 !! CFG.SHEET_SHORTCUTS = Some (hdr :: old)
    /\ header_has hdr HEADERS_SHORTCUTS
    /\ length hdr <= width
    /\ let keys : gset string := list_to_set (omap import_key rows) in
       let valid := filter (fun r => is_Some (import_key r)) (keep_first import_key ∅ rows) in
       let errors := omap import_error (zip (seq 0 (length rows)) rows) in
       let inserts := map (import_insert (shortcut_cols (indexHeader_ hdr)) width
                             (clockIso (env w))) valid in
       let kept := filter (fun r => bool_decide (shortcut_key hdr r ∈ keys) = false) old in
       let deleted := length (filter (fun r => bool_decide (shortcut_key hdr r ∈ keys) = true)
                                     old) in
       let updated := Nat.min deleted (length inserts) in
       let inserted := length inserts - deleted in
       bulkImport payload w
       = (Ret (ImportDone ("Import complete. Updated: " +:+ pretty updated
                           +:+ ". Inserted: " +:+ pretty inserted
                           +:+ ". Errors: " +:+ pretty (length errors) +:+ ".")
                          updated inserted errors), w')
       /\ sheets w' = <[CFG.SHEET_SHORTCUTS := hdr :: kept ++ inserts]> (sheets w1)
       /\ cache w' = delete (meta_key CFG.CACHE_KEY_PREFIX) (cache w).
Proof.
  intros mode text defaultApplication defaultLanguage Hfree Hmode Htext Hparse Hrows.
  destruct (ensureSheets_run w) as (w1 & Hens & Hready).
  pose proof Hready as (gS & gF & evs & HgS & HgF & HneS & _ & HdS & _ & HhS & _
                        & Hcache1 & _ & Henv & _ & _).
  destruct gS as [|hdr old]; [done|]. cbn [head default] in HhS.
  set (w2 := log_event (EvLock DocumentLock) w1).
  assert (Hg2 : sheets w2 !! CFG.SHEET_SHORTCUTS = Some (hdr :: old)) by exact HgS.
  set (header := pad_row (last_column (hdr :: old)) hdr).
  set (width := length header).
  assert (Hwidth : length hdr <= width).
  { subst width header. rewrite pad_row_length. apply (last_column_head (hdr :: old)). }
  assert (Hpos : 0 < width).
  { destruct (shortcut_columns hdr HhS) as (ji & _ & _ & _ & _ & _ & _ & _ & [_ (c & Hc & _)] & _).
    apply lookup_lt_Some in Hc. lia. }
  set (keys := list_to_set (omap import_key rows) : gset string).
  set (valid := filter (fun r => is_Some (import_key r)) (keep_first import_key ∅ rows)).
  set (errors := omap import_error (zip (seq 0 (length rows)) rows)).
  set (col := shortcut_cols (indexHeader_ hdr)).
  set (inserts := map (import_insert col width (clockIso (env w))) valid).
  set (p := fun r : list string => bool_decide (shortcut_key hdr r ∈ keys)).
  set (found := positions_from p 2 old).
  set (kept := filter (fun r => bool_decide (shortcut_key hdr r ∈ keys) = false) old).
  assert (Hscan : import_scan 0 rows ∅ = (valid, errors, keys)).
  { rewrite import_scan_spec. subst keys. by rewrite union_empty_l_L. }
  set (w3 := with_sheet CFG.SHEET_SHORTCUTS (hdr :: kept)
               (map (EvDeleteRow CFG.SHEET_SHORTCUTS) (rev found)) w2).
  set (w4 := with_sheet CFG.SHEET_SHORTCUTS ((hdr :: kept) ++ drop 0 inserts)
               (map (EvAppendRow CFG.SHEET_SHORTCUTS) (drop 0 inserts)) w3).
  set (updated := Nat.min (length found) (length inserts)).
  set (inserted := length inserts - length found).
  set (reply := ImportDone ("Import complete. Updated: " +:+ pretty updated
                            +:+ ". Inserted: " +:+ pretty inserted
                            +:+ ". Errors: " +:+ pretty (length errors) +:+ ".")
                           updated inserted errors).
  destruct (bump_and_invalidate_cache (ret reply) w4)
    as (w5 & Hbump & Hs5 & He5 & Henv5 & Hcache5).
  assert (Hdel : for_each (rev found) (deleteRow CFG.SHEET_SHORTCUTS) w2 = (Ret tt, w3))
    by exact (delete_matching_run CFG.SHEET_SHORTCUTS p hdr old w2 Hg2).
  assert (Hfound : length (filter (fun r => bool_decide (shortcut_key hdr r ∈ keys) = true) old)
                   = length found)
    by (subst found; symmetry; exact (positions_from_length p 2 old)).
  exists w1, (log_event (EvUnlock DocumentLock) w5), hdr, old, width.
  split; [exact Hready|]. split; [exact HgS|]. split; [exact HhS|]. split; [exact Hwidth|].
  cbv zeta. rewrite Hfound.
  split; [|split].
  - unfold bulkImport.
    rewrite (bind_run _ _ _ _ _ Hens).
    rewrite (bind_run _ _ _ _ _ (waitLock_run DocumentLock 30000 w1
               ltac:(simpl; rewrite Henv; exact Hfree))).
    fold w2.
    apply (try_finally_run _ _ w2 w5); [|reflexivity].
    apply try_catch_ret.
    cbv zeta. fold mode text defaultApplication defaultLanguage.
    assert ((negb (truthy_str mode)
             || (negb (String.eqb mode "csv") && negb (String.eqb mode "json"))) = false) as ->
      by (destruct Hmode as [-> | ->]; reflexivity).
    rewrite Htext. cbn [negb].
    rewrite (bind_run _ _ _ _ _ (Hparse w2)).
    assert ((length rows =? 0) = false) as -> by (by destruct rows).
    rewrite (bind_run _ _ _ _ _ (getSheet_run _ _ _ Hg2)).
    rewrite (bind_run _ _ _ _ _ (getShortcutsHeaderAndColMap_run hdr old w2 Hg2 HhS)).
    cbn [fst snd]. fold header width col.
    rewrite (bind_run _ _ w2 w2 (clockIso (env w2))) by reflexivity.
    rewrite Hscan. cbn [fst snd].
    rewrite (bind_run _ _ _ _ _ (getColumnValues_run _ hdr old _ w2 Hg2)).
    assert (Hrtd : import_rows_to_delete 0
                     (map (fun r => trim (cell r (col_key col))) old) keys = found)
      by exact (import_rows_to_delete_positions _ keys old 0).
    rewrite !Hrtd.
    rewrite (sort_desc_ascending found) by apply positions_from_ascending.
    rewrite (bind_run _ _ _ _ _ Hdel).
    replace (clockIso (env w2)) with (clockIso (env w))
      by (unfold w2; simpl; by rewrite Henv).
    fold inserts.
    rewrite (bind_run _ _ _ _ _
               (import_batches_run CFG.SHEET_SHORTCUTS width inserts Hpos
                  ltac:(subst inserts; apply Forall_fmap, Forall_forall; intros r _;
                        by apply import_insert_length)
                  (length inserts) 0 (hdr :: kept) w3
                  ltac:(apply with_sheet_lookup) ltac:(lia))).
    fold w4. exact Hbump.
  - cbn [sheets log_event]. rewrite Hs5. unfold w4, w3, w2. simpl.
    by rewrite !insert_insert_eq.
  - cbn [cache log_event]. rewrite Hcache5. unfold w4, w3, w2. simpl. by rewrite Hcache1.
Qed.

End BulkImportRun.

Lemma filter_key_none {A : Type} (key : A -> string) (k : string) (l : list A) :
  k ∉ map key l -> filter (fun x => key x = k) l = [].
Proof.
  induction l as [|x l IH]; [done|]. cbn [map].
  intros [Hx Hl]%not_elem_of_cons. rewrite filter_cons_False by done. by apply IH.
Qed.

Lemma filter_key_once {A : Type} (key : A -> string) (k : string) (l : list A) :
  NoDup (map key l) -> k ∈ map key l ->
  length (filter (fun x => key x = k) l) = 1.
Proof.
  induction l as [|x l IH]; [by intros _ ?%elem_of_nil|].
  cbn [map]. intros [Hx Hl]%NoDup_cons Hk.
  destruct (decide (key x = k)) as [Heq|Hne].
  - rewrite filter_cons_True by done. cbn [length]. f_equal.
    rewrite filter_key_none; [done|]. by rewrite <- Heq.
  - rewrite filter_cons_False by done. apply IH; [done|].
    by apply elem_of_cons in Hk as [?|?].
Qed.

Lemma import_key_firsts (l : list ImportRow) :
  map (fun r => trim (r_key r)) (filter (fun r => is_Some (import_key r)) l)
  = omap import_key l.
Proof.
  induction l as [|r l IH]; [done|]. rewrite omap_cons.
  destruct (import_key r) as [k|] eqn:Hr.
  - rewrite filter_cons_True by (rewrite Hr; eauto). cbn [map]. rewrite IH. f_equal.
    unfold import_key in Hr.
    destruct (ok (validateShortcutPayload_ (Some (row_payload r)))); congruence.
  - rewrite filter_cons_False by (rewrite Hr; by intros [? ?]). exact IH.
Qed.

Lemma length_filter_true {A : Type} (p : A -> bool) (l : list A) :
  length (filter (fun x => p x = true) l)
  = length l - length (filter (fun x => p x = false) l).
Proof.
  induction l as [|x l IH]; [done|]. rewrite !filter_cons. destruct (p x).
  - rewrite decide_True by done. rewrite decide_False by done. cbn [length]. rewrite IH.
    pose proof (length_filter (fun x => p x = false) l). lia.
  - rewrite decide_False by done. rewrite decide_True by done. cbn [length]. exact IH.
Qed.

Section BulkImportTheorems.
Context `{Platform}.

(** X29. What [bulkImport] answers when it does not import. While the
    document lock is busy it throws the time-out error, after the set-up of
    the sheets. With the lock free it never throws, and it answers
    [ok: false] with, in the order of its checks: the message about the
    mode, for a mode that is neither [csv] nor [json] once lowered and
    trimmed; [Paste CSV or JSON content first.] for a blank text; the
    message of the parser, when the parser fails; [No rows parsed from
    input.] when the parser returns no row. In each of these cases
    nothing has changed but the log: the lock was taken and released. *)
Theorem bulkImport_refusals (payload : option ImportPayload) (w : World) :
  let mode := trim (toLowerCase (str_or_empty (payload ≫= ip_mode))) in
  let text := str_or_empty (payload ≫= ip_text) in
  let defaultApplication := trim (str_or_empty (payload ≫= ip_defaultApplication)) in
  let defaultLanguage := trim (str_or_empty (payload ≫= ip_defaultLanguage)) in
  let parse := if String.eqb mode "json"
               then parseImportJson_ text defaultApplication defaultLanguage
               else ret (parseImportCsv_ text defaultApplication defaultLanguage) in
  exists w1 : World,
    ensureSheets_ w = (Ret tt, w1)
    /\ let locked := log_event (EvLock DocumentLock) w1 in
       let released := log_event (EvUnlock DocumentLock) locked in
       (documentLockBusy (env w) = true ->
        bulkImport payload w = (Throw "Lock timeout", w1))
       /\ (documentLockBusy (env w) = false ->
           (exists (reply : ImportReply) (w' : World), bulkImport payload w = (Ret reply, w'))
           /\ (mode <> "csv" -> mode <> "json" ->
               bulkImport payload w = (Ret (ImportFailed import_mode_message), released))
           /\ (mode = "csv" \/ mode = "json" ->
               (truthy_str (trim text) = false ->
                bulkImport payload w
                = (Ret (ImportFailed "Paste CSV or JSON content first."), released))
               /\ (truthy_str (trim text) = true ->
                   (forall msg : string,
                      parse locked = (Ret (ParseFailed msg), locked) ->
                      bulkImport payload w = (Ret (ImportFailed msg), released))
                   /\ (parse locked = (Ret (ParsedRows []), locked) ->
                       bulkImport payload w
                       = (Ret (ImportFailed "No rows parsed from input."), released))))).
Proof.
  intros mode text defaultApplication defaultLanguage parse.
  destruct (ensureSheets_run w) as (w1 & Hens & Hready).
  pose proof Hready as (_ & _ & _ & _ & _ & _ & _ & _ & _ & _ & _ & _ & _ & Henv & _).
  exists w1. split; [exact Hens|]. cbv zeta. split.
  { intros Hbusy. unfold bulkImport. rewrite (bind_run _ _ _ _ _ Hens).
    apply bind_throw, waitLock_busy. simpl. by rewrite Henv. }
  intros Hfree.
  assert (Hlock : waitLock DocumentLock 30000 w1 = (Ret tt, log_event (EvLock DocumentLock) w1))
    by (apply waitLock_run; simpl; by rewrite Henv).
  set (locked := log_event (EvLock DocumentLock) w1) in *.
  assert (Hstart : forall body,
            bulkImport payload w
            = try_finally (try_catch body
                             (fun err => ret (ImportFailed ("Import failed: "
                                                            +:+ stringifyError_ err))))
                          (releaseLock DocumentLock) locked ->
            forall reply, body locked = (Ret reply, locked) ->
            bulkImport payload w = (Ret reply, log_event (EvUnlock DocumentLock) locked)).
  { intros body -> reply Hbody.
    apply (try_finally_run _ _ locked locked); [|reflexivity]. by apply try_catch_ret. }
  assert (Hunfold : bulkImport payload w
                    = (fun m => m locked) ltac:(
                        let t := eval unfold bulkImport in (bulkImport payload) in
                        lazymatch t with
                        | bind _ (fun _ => bind _ (fun _ => ?m)) => exact m
                        end)).
  { unfold bulkImport. rewrite (bind_run _ _ _ _ _ Hens).
    by rewrite (bind_run _ _ _ _ _ Hlock). }
  cbv beta in Hunfold.
  split; [|split; [|intros Hmode; split; [|intros Htext; split]]].
  - rewrite Hunfold, try_finally_release.
    match goal with |- context [try_catch ?b ?h locked] =>
      destruct (try_catch_total b h locked) as (a & w' & ->) end.
    + intros err w'. by eexists _, _.
    + by eexists _, _.
  - intros Hcsv Hjson. apply (Hstart _ Hunfold).
    cbv zeta. fold mode.
    destruct (truthy_str mode); cbn [negb orb]; [|done].
    rewrite (proj2 (String.eqb_neq _ _) Hcsv), (proj2 (String.eqb_neq _ _) Hjson). done.
  - intros Htext. apply (Hstart _ Hunfold).
    cbv zeta. fold mode text.
    assert ((negb (truthy_str mode)
             || (negb (String.eqb mode "csv") && negb (String.eqb mode "json"))) = false) as ->
      by (destruct Hmode as [-> | ->]; reflexivity).
    by rewrite Htext.
  - intros msg Hparse. apply (Hstart _ Hunfold).
    cbv zeta. fold mode text defaultApplication defaultLanguage.
    assert ((negb (truthy_str mode)
             || (negb (String.eqb mode "csv") && negb (String.eqb mode "json"))) = false) as ->
      by (destruct Hmode as [-> | ->]; reflexivity).
    rewrite Htext. cbn [negb]. fold parse.
    by rewrite (bind_run _ _ _ _ _ Hparse).
  - intros Hparse. apply (Hstart _ Hunfold).
    cbv zeta. fold mode text defaultApplication defaultLanguage.
    assert ((negb (truthy_str mode)
             || (negb (String.eqb mode "csv") && negb (String.eqb mode "json"))) = false) as ->
      by (destruct Hmode as [-> | ->]; reflexivity).
    rewrite Htext. cbn [negb]. fold parse.
    by rewrite (bind_run _ _ _ _ _ Hparse).
Qed.

(** X30. What a [bulkImport] that imports leaves in the Shortcuts sheet.
    With the document lock free, a mode that is [csv] or [json] once
    lowered and trimmed, a text that is not blank and a parser that returns
    at least one row: the rows of the sheet whose key (trimmed) is the key
    of an accepted row are deleted, all of them; the other rows stay, in
    order; below them one row is written for every key, built from the
    first accepted row with that key, in the order of the input. So
    afterwards every imported key stands in exactly one row. [updated] is
    the smaller of the number of deleted rows and the number of written
    rows, [inserted] the number of written rows beyond the deleted ones,
    and [errors] has one entry for every rejected row, with its index
    counted from 1. The meta record of the global shortcuts cache is
    dropped. *)
Theorem bulkImport_replaces_rows (payload : option ImportPayload) (rows : list ImportRow)
    (w : World) :
  let mode := trim (toLowerCase (str_or_empty (payload ≫= ip_mode))) in
  let text := str_or_empty (payload ≫= ip_text) in
  let defaultApplication := trim (str_or_empty (payload ≫= ip_defaultApplication)) in
  let defaultLanguage := trim (str_or_empty (payload ≫= ip_defaultLanguage)) in
  documentLockBusy (env w) = false ->
  mode = "csv" \/ mode = "json" ->
  truthy_str (trim text) = true ->
  (forall w0 : World,
     (if String.eqb mode "json"
      then parseImportJson_ text defaultApplication defaultLanguage
      else ret (parseImportCsv_ text defaultApplication defaultLanguage)) w0
     = (Ret (ParsedRows rows), w0)) ->
  rows <> [] ->
  let keys : gset string := list_to_set (omap import_key rows) in
  let firsts := filter (fun r => is_Some (import_key r)) (keep_first import_key ∅ rows) in
  let old := data_rows w CFG.SHEET_SHORTCUTS in
  exists (hdr : list string) (width : nat) (msg : string) (updated inserted : nat)
         (errors : list ImportError) (w' : World),
    bulkImport payload w = (Ret (ImportDone msg updated inserted errors), w')
    /\ header_row w' CFG.SHEET_SHORTCUTS = hdr
    /\ (let kept := filter (fun r => shortcut_key hdr r ∉ keys) old in
        let written := map (import_insert (shortcut_cols (indexHeader_ hdr)) width
                              (clockIso (env w))) firsts in
        data_rows w' CFG.SHEET_SHORTCUTS = kept ++ written
        /\ map (shortcut_key hdr) written = map (fun r => trim (r_key r)) firsts
        /\ updated = Nat.min (length old - length kept) (length written)
        /\ inserted = length written - (length old - length kept))
    /\ NoDup (map (fun r => trim (r_key r)) firsts)
    /\ (forall k : string,
          k ∈ keys ->
          length (filter (fun r => shortcut_key hdr r = k) (data_rows w' CFG.SHEET_SHORTCUTS))
          = 1)
    /\ errors = omap import_error (zip (seq 0 (length rows)) rows)
    /\ cache w' !! meta_key CFG.CACHE_KEY_PREFIX = None.
Proof.
  intros mode text defaultApplication defaultLanguage Hfree Hmode Htext Hparse Hrows
         keys firsts old.
  destruct (bulkImport_run payload rows w Hfree Hmode Htext Hparse Hrows)
    as (w1 & w' & hdr & old' & width & Hready & Hg1 & Hhas & Hwidth & Hrun & Hsheets & Hcache).
  cbv zeta in Hrun, Hsheets. fold keys firsts in Hrun, Hsheets.
  assert (Hold : old' = old).
  { destruct Hready as (gS & _ & _ & HgS & _ & _ & _ & HdS & _).
    rewrite Hg1 in HgS. injection HgS as <-. exact HdS. }
  subst old'.
  set (written := map (import_insert (shortcut_cols (indexHeader_ hdr)) width
                         (clockIso (env w))) firsts) in *.
  assert (Hkept : filter (fun r => bool_decide (shortcut_key hdr r ∈ keys) = false) old
                  = filter (fun r => shortcut_key hdr r ∉ keys) old).
  { apply list_filter_iff. intros r. by rewrite bool_decide_eq_false. }
  assert (Hdeleted : length (filter (fun r => bool_decide (shortcut_key hdr r ∈ keys) = true) old)
                     = length old - length (filter (fun r => shortcut_key hdr r ∉ keys) old)).
  { rewrite <- Hkept.
    exact (length_filter_true (fun r => bool_decide (shortcut_key hdr r ∈ keys)) old). }
  rewrite Hkept in Hsheets. rewrite Hdeleted in Hrun.
  set (kept := filter (fun r => shortcut_key hdr r ∉ keys) old) in *.
  assert (Hdata : data_rows w' CFG.SHEET_SHORTCUTS = kept ++ written).
  { unfold data_rows. by rewrite Hsheets, lookup_insert_eq. }
  assert (Hwritten : map (shortcut_key hdr) written = map (fun r => trim (r_key r)) firsts).
  { subst written. rewrite <- list_fmap_compose. apply list_fmap_ext.
    intros i r _. cbn. by apply import_insert_key. }
  assert (Hfirsts : map (fun r => trim (r_key r)) firsts
                    = omap import_key (keep_first import_key ∅ rows))
    by apply import_key_firsts.
  eexists hdr, width, _, _, _, _, w'. split; [exact Hrun|].
  split; [unfold header_row; by rewrite Hsheets, lookup_insert_eq|].
  split; [cbv zeta; fold written kept; done|].
  split; [rewrite Hfirsts; apply keep_first_keys|].
  split; [|split; [done|rewrite Hcache; apply lookup_delete_eq]].
  intros k Hk. rewrite Hdata, filter_app, length_app.
  rewrite (filter_key_none (shortcut_key hdr) k kept).
  2:{ intros (r & -> & Hr)%list_elem_of_fmap. subst kept.
      by apply list_elem_of_filter in Hr as [Hr _]. }
  cbn [length]. apply (filter_key_once (shortcut_key hdr) k written).
  - rewrite Hwritten, Hfirsts. apply keep_first_keys.
  - rewrite Hwritten, Hfirsts.
    subst keys. apply elem_of_list_to_set, list_elem_of_omap in Hk as (r & Hr & Hrk).
    destruct (keep_first_complete import_key rows ∅ r k Hr Hrk) as (r' & Hr' & Hk');
      [apply not_elem_of_empty|].
    apply list_elem_of_omap. by exists r'.
Qed.

End BulkImportTheorems.

Lemma bulkImport_replaces_rows_witness :
  exists (hdr : list string) (w' : World),
    bulkImport (H := demo_platform) (Some demo_import) demo_world
    = (Ret (ImportDone "Import complete. Updated: 2. Inserted: 0. Errors: 1." 2 0
              [mkImportError 4 "nil" (Some "Content is required.")]), w')
    /\ map (shortcut_key hdr) (data_rows w' CFG.SHEET_SHORTCUTS) = ["bar"; "foo"; "zed"]
    /\ length (filter (fun r => shortcut_key hdr r = "zed") (data_rows w' CFG.SHEET_SHORTCUTS))
       = 1.
Proof.
  destruct (bulkImport_replaces_rows (H := demo_platform) (Some demo_import) demo_import_rows
              demo_world)
    as (hdr & width & msg & updated & inserted & errors & w' & Hrun & Hhdr & _ & _ & Honce & _).
  - reflexivity.
  - left. vm_compute. reflexivity.
  - vm_compute. reflexivity.
  - intros w0. vm_compute. reflexivity.
  - done.
  - assert (Hreply : (bulkImport (H := demo_platform) (Some demo_import) demo_world).1
                     = Ret (ImportDone "Import complete. Updated: 2. Inserted: 0. Errors: 1."
                              2 0 [mkImportError 4 "nil" (Some "Content is required.")]))
      by (vm_compute; reflexivity).
    assert (Hkeys : let w2 := (bulkImport (H := demo_platform) (Some demo_import)
                                 demo_world).2 in
                    map (shortcut_key (header_row w2 CFG.SHEET_SHORTCUTS))
                        (data_rows w2 CFG.SHEET_SHORTCUTS) = ["bar"; "foo"; "zed"])
      by (vm_compute; reflexivity).
    rewrite Hrun in Hreply, Hkeys. cbn [fst snd] in Hreply, Hkeys. cbv zeta in Hkeys.
    rewrite Hhdr in Hkeys.
    exists hdr, w'. split; [rewrite Hrun; by injection Hreply as -> -> -> ->|].
    split; [exact Hkeys|].
    apply Honce. apply elem_of_list_to_set.
    assert (omap import_key demo_import_rows = ["foo"; "zed"; "foo"]) as ->
      by (vm_compute; reflexivity).
    apply elem_of_cons. right. apply elem_of_cons. by left.
Defined.
